(** * X12 EDI viewer core: tokenizers, format detection, structural
      validation, business extraction and reconstruction

    A shallow embedding of [src/utils/ediParser.ts] (the legacy parser),
    [src/utils/universalEDIParser.ts], [src/utils/ediValidator.ts] and the
    tables of [src/utils/x12Formats.ts] that they read.

    JavaScript strings are sequences of UTF-16 code units; a code unit is a
    number [N].  An array is a [list]; reading an index that is out of range
    gives [undefined], modelled by [None].  None of the functions embedded
    from these four files contains a [throw], a call of a possibly-undefined
    function or a property read on a possibly-undefined value that is not
    guarded, so each of them is a total function here as it is in the
    source.

    Their callers follow: the function [process-edi] that stores an uploaded
    file, [src/utils/lifecycleTracker.ts], and the computations of the
    components [EDIViewer.tsx] and [ComparisonView.tsx].  These do throw, and
    a call of theirs gives back a value or the exception. *)

From Stdlib Require Import List NArith ZArith Bool Lia String Ascii PeanoNat.
Import ListNotations.

Set Implicit Arguments.

(* ================================================================== *)
(** ** JavaScript strings and the library calls the source makes        *)
(* ================================================================== *)

Module JS.

Definition char := N.
Definition jsstring := list char.

(** A string literal of the source (all of them are ASCII). *)
Definition str (s : string) : jsstring :=
  map N_of_ascii (list_ascii_of_string s).

(** [a === b] on strings. *)
Fixpoint eqb (a b : jsstring) : bool :=
  match a, b with
  | [], [] => true
  | x :: a', y :: b' => N.eqb x y && eqb a' b'
  | _, _ => false
  end.

(** [a === b] where either side may be [undefined]. *)
Definition opt_eqb (a b : option jsstring) : bool :=
  match a, b with
  | None, None => true
  | Some x, Some y => eqb x y
  | _, _ => false
  end.

(** Truthiness of a string: the empty string is the only falsy one. *)
Definition truthy (s : jsstring) : bool :=
  match s with [] => false | _ :: _ => true end.

(** Truthiness of [string | undefined]. *)
Definition opt_truthy (o : option jsstring) : bool :=
  match o with Some s => truthy s | None => false end.

(** [x || d] for [x : string | undefined] and a string [d]. *)
Definition or_default (o : option jsstring) (d : jsstring) : jsstring :=
  match o with
  | Some s => if truthy s then s else d
  | None => d
  end.

(** [arr.includes(x)] on an array of strings. *)
Definition array_includes (arr : list jsstring) (x : jsstring) : bool :=
  existsb (eqb x) arr.

Definition LF : char := 10%N.
Definition CR : char := 13%N.

(** [s.split(/\r?\n/)]: the regular expression is tried at every position
    from left to right; at a carriage return directly followed by a line
    feed it consumes both, at a line feed it consumes one code unit, and
    nowhere else does it match.  The empty string splits into [[""]]. *)
Fixpoint split_lines (s : jsstring) : list jsstring :=
  match s with
  | [] => [[]]
  | c :: rest =>
      if N.eqb c LF then [] :: split_lines rest
      else
        let keep :=
          match split_lines rest with
          | l :: ls => (c :: l) :: ls
          | [] => [[c]]
          end in
        if N.eqb c CR then
          match rest with
          | c' :: rest' =>
              if N.eqb c' LF then [] :: split_lines rest' else keep
          | [] => keep
          end
        else keep
  end.

(** [s.split(/[...]/)] for a character class [d]: every code unit of the
    class separates two tokens, empty tokens are kept. *)
Fixpoint split_class (d : char -> bool) (s : jsstring) : list jsstring :=
  match s with
  | [] => [[]]
  | c :: rest =>
      if d c then [] :: split_class d rest
      else
        match split_class d rest with
        | l :: ls => (c :: l) :: ls
        | [] => [[c]]
        end
  end.

(** The code units [String.prototype.trim] strips: WhiteSpace (TAB, VT, FF,
    ZWNBSP and the space separators) and LineTerminator (LF, CR, LS, PS). *)
Definition isWhiteSpace (c : char) : bool :=
  (N.leb 9 c && N.leb c 13)
  || N.eqb c 32 || N.eqb c 160 || N.eqb c 5760
  || (N.leb 8192 c && N.leb c 8202)
  || N.eqb c 8232 || N.eqb c 8233 || N.eqb c 8239 || N.eqb c 8287
  || N.eqb c 12288 || N.eqb c 65279.

Fixpoint trimStart (s : jsstring) : jsstring :=
  match s with
  | [] => []
  | c :: rest => if isWhiteSpace c then trimStart rest else s
  end.

Definition trimEnd (s : jsstring) : jsstring := rev (trimStart (rev s)).

Definition trim (s : jsstring) : jsstring := trimEnd (trimStart s).

(** [s.startsWith(p)] (used to write [includes] and the regular
    expressions below). *)
Fixpoint startsWith (p s : jsstring) : bool :=
  match p, s with
  | [], _ => true
  | x :: p', y :: s' => N.eqb x y && startsWith p' s'
  | _ :: _, [] => false
  end.

(** [s.includes(p)]. *)
Fixpoint includes (s p : jsstring) : bool :=
  startsWith p s ||
  match s with
  | [] => false
  | _ :: rest => includes rest p
  end.

(** [\d] of a regular expression without the unicode flag: [0-9]. *)
Definition isDigit (c : char) : bool := N.leb 48 c && N.leb c 57.

(** [s.padEnd(n)]: spaces are appended up to length [n]. *)
Definition padEnd (s : jsstring) (n : nat) : jsstring :=
  s ++ repeat 32%N (n - List.length s).

(** [arr.join(sep)]. *)
Fixpoint join (sep : jsstring) (arr : list jsstring) : jsstring :=
  match arr with
  | [] => []
  | [x] => x
  | x :: rest => x ++ sep ++ join sep rest
  end.

(** Decimal digits of an array length or index, as [String(n)] prints a
    non-negative integer. *)
Fixpoint digits_fuel (fuel n : nat) (acc : jsstring) : jsstring :=
  match fuel with
  | O => acc
  | S fuel' =>
      let acc' := (48 + N.of_nat (n mod 10))%N :: acc in
      if Nat.ltb n 10 then acc' else digits_fuel fuel' (n / 10) acc'
  end.

Definition nat_to_string (n : nat) : jsstring := digits_fuel (S n) n [].

(** [s.toLowerCase()], exact on the code units whose image contains an
    ASCII letter: [A-Z], the Kelvin sign (to [k]) and the dotted capital I
    (to [i] followed by a combining dot).  The image of any other code unit
    consists of code units outside ASCII; it is rendered by the code unit
    itself, which no ASCII pattern tells apart from its real image. *)
Definition lower_char (c : char) : jsstring :=
  if N.leb 65 c && N.leb c 90 then [(c + 32)%N]
  else if N.eqb c 8490 then [107%N]
  else if N.eqb c 304 then [105%N; 775%N]
  else [c].

Definition toLowerCase (s : jsstring) : jsstring := flat_map lower_char s.

End JS.

Import JS.

(* ================================================================== *)
(** ** x12Formats.ts: the static tables                                 *)
(* ================================================================== *)

Module X12Formats.

(** The keys of [X12_FORMATS]. *)
Inductive X12FormatType :=
| F834 | F820 | F837 | F835 | F270 | F271 | F278 | F999
| F850 | F855 | F856 | F810.

Definition format_code (f : X12FormatType) : jsstring :=
  match f with
  | F834 => str "834" | F820 => str "820" | F837 => str "837"
  | F835 => str "835" | F270 => str "270" | F271 => str "271"
  | F278 => str "278" | F999 => str "999" | F850 => str "850"
  | F855 => str "855" | F856 => str "856" | F810 => str "810"
  end.

Definition all_formats : list X12FormatType :=
  [F834; F820; F837; F835; F270; F271; F278; F999; F850; F855; F856; F810].

(** [code in X12_FORMATS], giving the key.  The codes tested by the source
    are three digits, so no inherited property name can be one. *)
Definition format_of_code (code : jsstring) : option X12FormatType :=
  find (fun f => eqb code (format_code f)) all_formats.

(** [X12_FORMATS[f].businessContext]. *)
Definition businessContext (f : X12FormatType) : jsstring :=
  match f with
  | F834 => str "enrollment"
  | F820 | F835 => str "payment"
  | F837 => str "claims"
  | F270 | F271 => str "eligibility"
  | F278 => str "authorization"
  | F999 => str "acknowledgment"
  | F850 | F855 => str "procurement"
  | F856 => str "shipping"
  | F810 => str "billing"
  end.

(** The own properties of [SEGMENT_DEFINITIONS]. *)
Definition SEGMENT_DEFINITIONS : list (jsstring * jsstring) :=
  [ (str "ISA", str "Interchange Control Header");
    (str "IEA", str "Interchange Control Trailer");
    (str "GS", str "Functional Group Header");
    (str "GE", str "Functional Group Trailer");
    (str "ST", str "Transaction Set Header");
    (str "SE", str "Transaction Set Trailer");
    (str "BGN", str "Beginning Segment");
    (str "BHT", str "Beginning of Hierarchical Transaction");
    (str "INS", str "Member Level Detail");
    (str "NM1", str "Individual Name");
    (str "N1", str "Entity Name");
    (str "N3", str "Address Information");
    (str "N4", str "Geographic Location");
    (str "DMG", str "Demographic Information");
    (str "HD", str "Health Coverage");
    (str "DTP", str "Date/Time Period");
    (str "REF", str "Reference Information");
    (str "PER", str "Administrative Communications Contact");
    (str "EB", str "Eligibility or Benefit Information");
    (str "CLP", str "Claim Level Data");
    (str "BPR", str "Financial Information");
    (str "TRN", str "Trace");
    (str "QTY", str "Quantity");
    (str "AMT", str "Monetary Amount");
    (str "HL", str "Hierarchical Level");
    (str "AK1", str "Functional Group Response Header");
    (str "AK9", str "Functional Group Response Trailer");
    (str "TA1", str "Interchange Acknowledgment");
    (str "BEG", str "Beginning Segment for Purchase Order");
    (str "BAK", str "Beginning Segment for Purchase Order Acknowledgment");
    (str "BSN", str "Beginning Segment for Ship Notice");
    (str "BIG", str "Beginning Segment for Invoice");
    (str "PO1", str "Baseline Item Data");
    (str "ACK", str "Line Item Acknowledgment");
    (str "IT1", str "Baseline Item Data (Invoice)");
    (str "TD1", str "Carrier Details (Quantity and Weight)");
    (str "RMR", str "Remittance Advice");
    (str "DTM", str "Date/Time Reference");
    (str "ENT", str "Entity") ].

(** The property names every object literal inherits. *)
Definition object_prototype_names : list jsstring :=
  [ str "constructor"; str "hasOwnProperty"; str "isPrototypeOf";
    str "propertyIsEnumerable"; str "toLocaleString"; str "toString";
    str "valueOf"; str "__proto__"; str "__defineGetter__";
    str "__defineSetter__"; str "__lookupGetter__"; str "__lookupSetter__" ].

(** What [SEGMENT_DEFINITIONS[tag]] evaluates to when it is not
    [undefined]: the label of an own property, or a member inherited from
    the object prototype (a truthy value that is not a string). *)
Inductive definition_value :=
| Label (text : jsstring)
| Inherited (name : jsstring).

Definition lookup_definition (tag : jsstring) : option definition_value :=
  match find (fun kv => eqb tag (fst kv)) SEGMENT_DEFINITIONS with
  | Some kv => Some (Label (snd kv))
  | None =>
      if array_includes object_prototype_names tag
      then Some (Inherited tag) else None
  end.

End X12Formats.

Import X12Formats.

(* ================================================================== *)
(** ** The data model shared by both parsers                            *)
(* ================================================================== *)

(** [EDISegment].  The legacy type has the first four fields; the universal
    one adds three optional fields, which the legacy parser leaves absent.
    [elements] is the whole split of the line, the tag included. *)
Record EDISegment := mkSegment {
  tag : jsstring;
  elements : list jsstring;
  raw : jsstring;
  lineNumber : nat;
  definition : option definition_value;
  isValid : option bool;
  errors : option (list jsstring)
}.

(** [transaction.type]: a format code or ['unknown']. *)
Inductive TransactionType :=
| Known (f : X12FormatType)
| Unknown.

Definition type_string (t : TransactionType) : jsstring :=
  match t with
  | Known f => format_code f
  | Unknown => str "unknown"
  end.

(** [metadata]; the legacy parser fills the first four fields only. *)
Record Metadata := mkMetadata {
  sender : jsstring;
  receiver : jsstring;
  date : jsstring;
  controlNumber : jsstring;
  version : jsstring;
  testIndicator : jsstring
}.

Definition empty_metadata : Metadata :=
  mkMetadata [] [] [] [] [] [].

(** [statistics] without [processingTime], a difference of two clock
    readings and the one field that is not a function of the input. *)
Record Statistics := mkStatistics {
  totalSegments : nat;
  errorCount : nat;
  warningCount : nat
}.

(** [EDITransaction].  [statistics] and [businessContext] are absent from a
    transaction of the legacy parser.  The [payer] attached by
    [identifyPayer] is not modelled: it is computed from the finished
    segment list by reads that are all optional-chained and is read by none
    of the functions below. *)
Record EDITransaction := mkTransaction {
  type : TransactionType;
  segments : list EDISegment;
  metadata : Metadata;
  statistics : option Statistics;
  businessContext : option jsstring
}.

(** [arr[i]]. *)
Definition at_index {A} (arr : list A) (i : nat) : option A := nth_error arr i.

(** [segment.elements[i]]. *)
Definition element (s : EDISegment) (i : nat) : option jsstring :=
  at_index (elements s) i.

(** [arr.forEach((x, index) => ...)] threading the variables the callback
    assigns. *)
Fixpoint forEach_from {A St} (f : St -> A -> nat -> St) (arr : list A)
    (index : nat) (st : St) : St :=
  match arr with
  | [] => st
  | x :: rest => forEach_from f rest (S index) (f st x index)
  end.

Definition forEach {A St} (f : St -> A -> nat -> St) (arr : list A)
    (st : St) : St :=
  forEach_from f arr 0 st.

(** [content.split(/\r?\n/).filter(line => line.trim())]. *)
Definition retained_lines (content : jsstring) : list jsstring :=
  filter (fun line => truthy (trim line)) (split_lines content).

(* ================================================================== *)
(** ** ediParser.ts: the legacy parser                                  *)
(* ================================================================== *)

Module EdiParser.

(** [detectEDIType]: the first line holding [ST*834] or [ST*820] decides,
    834 being tested first within a line. *)
Fixpoint detect_lines (lines : list jsstring) : TransactionType :=
  match lines with
  | [] => Unknown
  | line :: rest =>
      if includes line (str "ST*834") || includes line (str "ST*834*")
      then Known F834
      else if includes line (str "ST*820") || includes line (str "ST*820*")
      then Known F820
      else detect_lines rest
  end.

Definition detectEDIType (content : jsstring) : TransactionType :=
  detect_lines (split_lines content).

(** The class [/[\*~]/]. *)
Definition delimiter (c : char) : bool := N.eqb c 42 || N.eqb c 126.

(** The variables the [forEach] callback of [parseEDIContent] updates. *)
Record state := mkState {
  st_segments : list EDISegment;
  st_metadata : Metadata
}.

Definition parse_line (st : state) (line : jsstring) (index : nat) : state :=
  let trimmedLine := trim line in
  if negb (truthy trimmedLine) then st
  else
    let elements := split_class delimiter trimmedLine in
    let tag := or_default (at_index elements 0) [] in
    let metadata :=
      if eqb tag (str "ISA") && Nat.leb 13 (List.length elements) then
        mkMetadata (or_default (at_index elements 6) [])
                   (or_default (at_index elements 8) [])
                   (or_default (at_index elements 9) [])
                   (or_default (at_index elements 13) [])
                   (version (st_metadata st))
                   (testIndicator (st_metadata st))
      else st_metadata st in
    mkState
      (st_segments st ++
         [mkSegment tag elements trimmedLine (index + 1) None None None])
      metadata.

Definition parseEDIContent (content : jsstring) : EDITransaction :=
  let lines := retained_lines content in
  let type := detectEDIType content in
  let st := forEach parse_line lines (mkState [] empty_metadata) in
  mkTransaction type (st_segments st) (st_metadata st) None None.

End EdiParser.

(* ================================================================== *)
(** ** Numbers read by [parseFloat]                                     *)
(* ================================================================== *)

Module Num.

(** The result of [parseFloat]: [NaN], an infinity, or the Number nearest
    to the decimal [(-1)^negative * mantissa * 10^exponent] that the
    scanned literal denotes.  The literal is kept exact; the rounding to a
    double is not needed below. *)
Inductive jsnum :=
| NaN
| Infinity (negative : bool)
| Decimal (negative : bool) (mantissa : N) (exponent : Z).

(** The Number [0], the value of the literal ["0"]. *)
Definition zero : jsnum := Decimal false 0 0.

(** The longest run of decimal digits at the head of [s], and the rest. *)
Fixpoint span_digits (s : jsstring) : jsstring * jsstring :=
  match s with
  | c :: rest =>
      if isDigit c then
        let (ds, tl) := span_digits rest in (c :: ds, tl)
      else ([], s)
  | [] => ([], [])
  end.

(** The value of a run of decimal digits. *)
Definition digits_value (ds : jsstring) : N :=
  fold_left (fun acc c => (10 * acc + (c - 48))%N) ds 0%N.

(** An optional [+] or [-] at the head of [s]. *)
Definition read_sign (s : jsstring) : bool * jsstring :=
  match s with
  | c :: rest =>
      if N.eqb c 45 then (true, rest)
      else if N.eqb c 43 then (false, rest)
      else (false, s)
  | [] => (false, s)
  end.

(** An ExponentPart at the head of [s]: [e] or [E], an optional sign and at
    least one digit; [0] when there is none. *)
Definition read_exponent (s : jsstring) : Z :=
  match s with
  | c :: rest =>
      if N.eqb c 101 || N.eqb c 69 then
        let (neg, rest') := read_sign rest in
        match fst (span_digits rest') with
        | [] => 0%Z
        | ds =>
            let v := Z.of_N (digits_value ds) in
            if neg then (- v)%Z else v
        end
      else 0%Z
  | [] => 0%Z
  end.

(** [parseFloat(s)]: leading white space is skipped and the longest prefix
    that is a StrDecimalLiteral is evaluated; without such a prefix the
    result is [NaN]. *)
Definition parseFloat (s : jsstring) : jsnum :=
  let (neg, body) := read_sign (trimStart s) in
  if startsWith (str "Infinity") body then Infinity neg
  else
    let (ip, after_int) := span_digits body in
    match after_int with
    | c :: after_dot =>
        if N.eqb c 46 then
          let (fp, after_frac) := span_digits after_dot in
          match ip ++ fp with
          | [] => NaN
          | ds =>
              Decimal neg (digits_value ds)
                (read_exponent after_frac - Z.of_nat (List.length fp))
          end
        else
          match ip with
          | [] => NaN
          | _ => Decimal neg (digits_value ip) (read_exponent after_int)
          end
    | [] =>
        match ip with
        | [] => NaN
        | _ => Decimal neg (digits_value ip) 0
        end
    end.

(** Whether the Number nearest to [mantissa * 10^exponent] is a zero: the
    decimal is [0] or at most half the least subnormal, [2^-1075]. *)
Definition rounds_to_zero (mantissa : N) (exponent : Z) : bool :=
  N.eqb mantissa 0
  || (Z.ltb exponent 0
      && Z.leb (Z.of_N mantissa * 2 ^ 1075) (10 ^ (- exponent))).

(** Truthiness of a Number: [NaN] and the zeros are falsy. *)
Definition number_truthy (x : jsnum) : bool :=
  match x with
  | NaN => false
  | Infinity _ => true
  | Decimal _ m e => negb (rounds_to_zero m e)
  end.

End Num.

Import Num.

(* ================================================================== *)
(** ** universalEDIParser.ts                                            *)
(* ================================================================== *)

Module Universal.

(** [line.match(/ST\*(\d{3})/)]: the capture group of the leftmost
    match. *)
Fixpoint match_ST (line : jsstring) : option jsstring :=
  match line with
  | [] => None
  | _ :: rest =>
      if startsWith (str "ST*") line then
        match skipn 3 line with
        | a :: b :: c :: _ =>
            if isDigit a && isDigit b && isDigit c then Some [a; b; c]
            else match_ST rest
        | _ => match_ST rest
        end
      else match_ST rest
  end.

(** The loop over the lines in [detectEDIFormat]. *)
Fixpoint detect_header (lines : list jsstring) : option X12FormatType :=
  match lines with
  | [] => None
  | line :: rest =>
      match match_ST line with
      | Some formatCode =>
          match format_of_code formatCode with
          | Some f => Some f
          | None => detect_header rest
          end
      | None => detect_header rest
      end
  end.

(** The fallback of [detectEDIFormat], on the lower-cased content. *)
Definition detect_patterns (contentStr : jsstring) : TransactionType :=
  let both a b := includes contentStr a && includes contentStr b in
  if both (str "bgn*") (str "ins*") then Known F834
  else if both (str "bpr*") (str "rmr*") then Known F820
  else if both (str "bht*") (str "clm*") then Known F837
  else if both (str "bpr*") (str "clp*") then Known F835
  else if both (str "bht*") (str "eb*") then Known F271
  else if both (str "beg*") (str "po1*") then Known F850
  else if both (str "bak*") (str "ack*") then Known F855
  else if both (str "bsn*") (str "td1*") then Known F856
  else if both (str "big*") (str "it1*") then Known F810
  else Unknown.

Definition detectEDIFormat (content : jsstring) : TransactionType :=
  match detect_header (split_lines content) with
  | Some f => Known f
  | None => detect_patterns (toLowerCase content)
  end.

(** The class [/[\*~\^]/]. *)
Definition delimiter (c : char) : bool :=
  N.eqb c 42 || N.eqb c 126 || N.eqb c 94.

(** The variables the [forEach] callback of [parseEDIContent] updates
    ([warningCount] is never assigned). *)
Record state := mkState {
  st_segments : list EDISegment;
  st_metadata : Metadata;
  st_errorCount : nat
}.

Definition parse_line (st : state) (line : jsstring) (index : nat) : state :=
  let trimmedLine := trim line in
  if negb (truthy trimmedLine) then st
  else
    let elements := split_class delimiter trimmedLine in
    let tag := or_default (at_index elements 0) [] in
    let definition := lookup_definition tag in
    let unknown :=
      match definition with
      | None => negb (array_includes [str "UNA"; str "UNB"; str "UNH"] tag)
      | Some _ => false
      end in
    let errors :=
      if unknown then [str "Unknown segment type: " ++ tag] else [] in
    let errorCount :=
      if unknown then S (st_errorCount st) else st_errorCount st in
    let metadata :=
      if eqb tag (str "ISA") && Nat.leb 16 (List.length elements) then
        mkMetadata (or_default (at_index elements 6) [])
                   (or_default (at_index elements 8) [])
                   (or_default (at_index elements 9) [])
                   (or_default (at_index elements 13) [])
                   (or_default (at_index elements 12) [])
                   (or_default (at_index elements 15) [])
      else st_metadata st in
    mkState
      (st_segments st ++
         [mkSegment tag elements trimmedLine (index + 1) definition
            (Some (Nat.eqb (List.length errors) 0))
            (if Nat.ltb 0 (List.length errors) then Some errors else None)])
      metadata errorCount.

Definition parseEDIContent (content : jsstring) : EDITransaction :=
  let lines := retained_lines content in
  let type := detectEDIFormat content in
  let st := forEach parse_line lines (mkState [] empty_metadata 0) in
  mkTransaction type (st_segments st) (st_metadata st)
    (Some (mkStatistics (List.length (st_segments st)) (st_errorCount st) 0))
    (match type with
     | Known f => Some (X12Formats.businessContext f)
     | Unknown => None
     end).

End Universal.

(* ================================================================== *)
(** ** ediValidator.ts                                                  *)
(* ================================================================== *)

Module EdiValidator.

Inductive Severity := critical | warning | info.

Definition severity_eqb (a b : Severity) : bool :=
  match a, b with
  | critical, critical | warning, warning | info, info => true
  | _, _ => false
  end.

(** [EDIError]; [error_segment] is [undefined] when it is read from the
    head of an empty segment list. *)
Record EDIError := mkError {
  error_id : jsstring;
  error_type : Severity;
  error_segment : option EDISegment;
  message : jsstring;
  description : jsstring;
  suggestion : option jsstring
}.

Record ValidationResult := mkResult {
  result_isValid : bool;
  result_errors : list EDIError;
  result_warnings : list EDIError;
  totalIssues : nat
}.

Definition REQUIRED_834_SEGMENTS : list jsstring :=
  [str "ISA"; str "GS"; str "ST"; str "BGN"; str "N1"; str "INS";
   str "NM1"; str "SE"; str "GE"; str "IEA"].

Definition REQUIRED_820_SEGMENTS : list jsstring :=
  [str "ISA"; str "GS"; str "ST"; str "BPR"; str "N1"; str "SE";
   str "GE"; str "IEA"].

(** A template literal prints [undefined] by its name. *)
Definition show (o : option jsstring) : jsstring :=
  match o with Some s => s | None => str "undefined" end.

(** [transaction.type === '834']. *)
Definition is_834 (t : TransactionType) : bool :=
  match t with Known F834 => true | _ => false end.

Definition is_820 (t : TransactionType) : bool :=
  match t with Known F820 => true | _ => false end.

(** The list chosen on the first line of [validateRequiredSegments]. *)
Definition requiredSegments (t : TransactionType) : list jsstring :=
  if is_834 t then REQUIRED_834_SEGMENTS else REQUIRED_820_SEGMENTS.

Definition missing_error (transaction : EDITransaction)
    (required : jsstring) : EDIError :=
  mkError (str "missing-" ++ required) critical
    (at_index (segments transaction) 0)
    (str "Missing required segment: " ++ required)
    (str "EDI " ++ type_string (type transaction) ++
     str " transactions must include a " ++ required ++ str " segment")
    (Some (str "Add the " ++ required ++
           str " segment in the correct position")).

Definition validateRequiredSegments (transaction : EDITransaction)
    (errors : list EDIError) : list EDIError :=
  let presentSegments := map tag (segments transaction) in
  fold_left
    (fun errs required =>
       if negb (array_includes presentSegments required)
       then errs ++ [missing_error transaction required]
       else errs)
    (requiredSegments (type transaction)) errors.

Definition validateSegmentSequence (transaction : EDITransaction)
    (errors : list EDIError) : list EDIError :=
  let segs := segments transaction in
  let errors1 :=
    match at_index segs 0 with
    | Some first =>
        if negb (eqb (tag first) (str "ISA")) then
          errors ++
            [mkError (str "isa-not-first") critical (Some first)
               (str "ISA segment must be first")
               (str "The Interchange Control Header (ISA) must be the first segment")
               (Some (str "Move the ISA segment to the beginning of the file"))]
        else errors
    | None => errors
    end in
  match at_index segs (List.length segs - 1) with
  | Some last =>
      if Nat.ltb 0 (List.length segs) && negb (eqb (tag last) (str "IEA")) then
        errors1 ++
          [mkError (str "iea-not-last") critical (Some last)
             (str "IEA segment must be last")
             (str "The Interchange Control Trailer (IEA) must be the last segment")
             (Some (str "Move the IEA segment to the end of the file"))]
      else errors1
  | None => errors1
  end.

(** [transaction.segments.find(s => s.tag === t)]. *)
Definition find_tag (t : jsstring) (segs : list EDISegment) : option EDISegment :=
  find (fun s => eqb (tag s) t) segs.

Definition validateControlNumbers (transaction : EDITransaction)
    (errors : list EDIError) : list EDIError :=
  match find_tag (str "ISA") (segments transaction),
        find_tag (str "IEA") (segments transaction) with
  | Some isaSegment, Some ieaSegment =>
      let isaControlNumber := element isaSegment 13 in
      let ieaControlNumber := element ieaSegment 2 in
      if negb (opt_eqb isaControlNumber ieaControlNumber) then
        errors ++
          [mkError (str "control-number-mismatch") critical (Some ieaSegment)
             (str "Control number mismatch")
             (str "ISA control number (" ++ show isaControlNumber ++
              str ") doesn't match IEA control number (" ++
              show ieaControlNumber ++ str ")")
             (Some (str "Ensure both ISA and IEA segments have the same control number"))]
      else errors
  | _, _ => errors
  end.

(** [/^\d{n}$/.test(s)]. *)
Definition all_digits (n : nat) (s : jsstring) : bool :=
  Nat.eqb (List.length s) n && forallb isDigit s.

(** [/^\d+(\.\d{2})?$/.test(s)]. *)
Definition amount_pattern (s : jsstring) : bool :=
  let (ip, rest) := span_digits s in
  truthy ip &&
  match rest with
  | [] => true
  | [dot; a; b] => N.eqb dot 46 && isDigit a && isDigit b
  | _ => false
  end.

Definition validateISAFormat (segment : EDISegment)
    (errors : list EDIError) : list EDIError :=
  let line := nat_to_string (lineNumber segment) in
  let errors1 :=
    if Nat.ltb (List.length (elements segment)) 16 then
      errors ++
        [mkError (str "isa-insufficient-elements-" ++ line) critical
           (Some segment)
           (str "ISA segment has insufficient elements")
           (str "ISA segment must have at least 16 elements")
           (Some (str "Check the ISA segment format and ensure all required elements are present"))]
    else errors in
  let date := element segment 9 in
  if opt_truthy date && negb (all_digits 6 (show date)) then
    errors1 ++
      [mkError (str "isa-invalid-date-" ++ line) warning (Some segment)
         (str "Invalid date format in ISA segment")
         (str "Date " ++ [34%N] ++ show date ++ [34%N] ++
          str " should be in YYMMDD format")
         (Some (str "Use YYMMDD format for the interchange date"))]
  else errors1.

Definition validateDTPFormat (segment : EDISegment)
    (errors : list EDIError) : list EDIError :=
  let line := nat_to_string (lineNumber segment) in
  if Nat.ltb (List.length (elements segment)) 4 then
    errors ++
      [mkError (str "dtp-insufficient-elements-" ++ line) warning
         (Some segment)
         (str "DTP segment has insufficient elements")
         (str "DTP segment should have at least 3 elements")
         (Some (str "Ensure qualifier, format, and date are provided"))]
  else
    let format := element segment 2 in
    let date := element segment 3 in
    if opt_eqb format (Some (str "D8")) && opt_truthy date
       && negb (all_digits 8 (show date)) then
      errors ++
        [mkError (str "dtp-invalid-date-" ++ line) warning (Some segment)
           (str "Invalid date format in DTP segment")
           (str "Date " ++ [34%N] ++ show date ++ [34%N] ++
            str " should be in CCYYMMDD format when format is D8")
           (Some (str "Use CCYYMMDD format for D8 date qualifier"))]
    else errors.

Definition validateDMGFormat (segment : EDISegment)
    (errors : list EDIError) : list EDIError :=
  let line := nat_to_string (lineNumber segment) in
  if Nat.ltb (List.length (elements segment)) 4 then errors
  else
    let birthDate := element segment 2 in
    let gender := element segment 3 in
    let errors1 :=
      if opt_truthy birthDate && negb (all_digits 8 (show birthDate)) then
        errors ++
          [mkError (str "dmg-invalid-birthdate-" ++ line) warning
             (Some segment)
             (str "Invalid birth date format")
             (str "Birth date " ++ [34%N] ++ show birthDate ++ [34%N] ++
              str " should be in CCYYMMDD format")
             (Some (str "Use CCYYMMDD format for birth dates"))]
      else errors in
    if opt_truthy gender
       && negb (array_includes [str "M"; str "F"; str "U"] (show gender)) then
      errors1 ++
        [mkError (str "dmg-invalid-gender-" ++ line) warning (Some segment)
           (str "Invalid gender code")
           (str "Gender code " ++ [34%N] ++ show gender ++ [34%N] ++
            str " should be M, F, or U")
           (Some (str "Use M (Male), F (Female), or U (Unknown) for gender codes"))]
    else errors1.

Definition validateDataFormats (transaction : EDITransaction)
    (errors : list EDIError) : list EDIError :=
  fold_left
    (fun errs segment =>
       if eqb (tag segment) (str "ISA") then validateISAFormat segment errs
       else if eqb (tag segment) (str "DTP") then validateDTPFormat segment errs
       else if eqb (tag segment) (str "DMG") then validateDMGFormat segment errs
       else errs)
    (segments transaction) errors.

(** The callback of [validate834BusinessRules]; [lastINS] is [None] for
    the initial [-1]. *)
Definition orphan_step (st : option nat * list EDIError)
    (segment : EDISegment) (index : nat) : option nat * list EDIError :=
  let (lastINS, errs) := st in
  if eqb (tag segment) (str "INS") then (Some index, errs)
  else if eqb (tag segment) (str "NM1")
          && opt_eqb (element segment 1) (Some (str "IL")) then
    let orphaned :=
      match lastINS with
      | None => true
      | Some i => Nat.ltb 10 (index - i)
      end in
    if orphaned then
      (lastINS,
       errs ++
         [mkError
            (str "orphaned-nm1-" ++ nat_to_string (lineNumber segment))
            warning (Some segment)
            (str "NM1 segment may be orphaned")
            (str "Individual NM1 segments should closely follow their corresponding INS segment")
            (Some (str "Ensure NM1*IL segments are properly associated with INS segments"))])
    else st
  else st.

Definition validate834BusinessRules (transaction : EDITransaction)
    (errors : list EDIError) : list EDIError :=
  snd (forEach orphan_step (segments transaction) (None, errors)).

Definition validate820BusinessRules (transaction : EDITransaction)
    (errors : list EDIError) : list EDIError :=
  let bprSegments :=
    filter (fun s => eqb (tag s) (str "BPR")) (segments transaction) in
  let errors1 :=
    if Nat.eqb (List.length bprSegments) 0 then
      errors ++
        [mkError (str "missing-bpr") critical
           (at_index (segments transaction) 0)
           (str "Missing BPR segment")
           (str "EDI 820 transactions must include at least one BPR (Financial Information) segment")
           (Some (str "Add a BPR segment with payment details"))]
    else errors in
  fold_left
    (fun errs segment =>
       let amount := element segment 2 in
       if opt_truthy amount && negb (amount_pattern (show amount)) then
         errs ++
           [mkError
              (str "bpr-invalid-amount-" ++ nat_to_string (lineNumber segment))
              warning (Some segment)
              (str "Invalid payment amount format")
              (str "Amount " ++ [34%N] ++ show amount ++ [34%N] ++
               str " should be in decimal format with up to 2 decimal places")
              (Some (str "Use decimal format like 1234.56 for payment amounts"))]
       else errs)
    bprSegments errors1.

(** The passes of [validateEDITransaction], in the order they run. *)
Definition all_issues (transaction : EDITransaction) : list EDIError :=
  let errors := validateRequiredSegments transaction [] in
  let errors := validateSegmentSequence transaction errors in
  let errors := validateControlNumbers transaction errors in
  let errors := validateDataFormats transaction errors in
  if is_834 (type transaction) then validate834BusinessRules transaction errors
  else if is_820 (type transaction) then validate820BusinessRules transaction errors
  else errors.

Definition validateEDITransaction (transaction : EDITransaction)
    : ValidationResult :=
  let errors := all_issues transaction in
  let warnings := filter (fun e => severity_eqb (error_type e) warning) errors in
  let criticalErrors :=
    filter (fun e => severity_eqb (error_type e) critical) errors in
  mkResult (Nat.eqb (List.length criticalErrors) 0) criticalErrors warnings
    (List.length errors).

End EdiValidator.

(* ================================================================== *)
(** ** universalEDIParser.ts: the structured result                     *)
(* ================================================================== *)

(** The objects built by [convertEDIToJSON].  A property holding [undefined]
    and a property that is absent read alike, so an object literal [{}] is
    the record whose fields are all [None]. *)

Module Name.
Record t := mk {
  qualifier : option jsstring;
  lastName : option jsstring;
  firstName : option jsstring;
  middleName : option jsstring;
  suffix : option jsstring;
  idQualifier : option jsstring;
  id : option jsstring
}.
End Name.

Module Demographics.
Record t := mk {
  dateQualifier : option jsstring;
  birthDate : option jsstring;
  genderCode : option jsstring;
  maritalStatus : option jsstring;
  raceEthnicity : option jsstring
}.
Definition empty : t := mk None None None None None.
End Demographics.

Module Coverage.
Record t := mk {
  maintenanceTypeCode : option jsstring;
  maintenanceReasonCode : option jsstring;
  insuranceLineCode : option jsstring;
  planCoverageDescription : option jsstring;
  coverageLevelCode : option jsstring
}.
End Coverage.

Module Member.
(** [dates] is created empty and never written; [name] is absent until an
    [NM1*IL] segment is seen. *)
Record t := mk {
  memberLevelCode : option jsstring;
  relationshipCode : option jsstring;
  maintenanceTypeCode : option jsstring;
  maintenanceReasonCode : option jsstring;
  benefitStatusCode : option jsstring;
  name : option Name.t;
  demographics : option Demographics.t;
  healthCoverage : option (list Coverage.t)
}.
End Member.

Module Remittance.
Record t := mk {
  referenceQualifier : option jsstring;
  memberGroupNumber : option jsstring;
  remittanceAmount : jsnum;
  adjustmentAmount : jsnum
}.
End Remittance.

Module Payment.
Record t := mk {
  transactionHandlingCode : option jsstring;
  monetaryAmount : jsnum;
  creditDebitFlag : option jsstring;
  paymentMethodCode : option jsstring;
  paymentFormatCode : option jsstring;
  originatingCompanyId : option jsstring;
  originatingCompanySupplementalCode : option jsstring;
  receivingCompanyId : option jsstring;
  receivingCompanySupplementalCode : option jsstring;
  effectiveEntryDate : option jsstring;
  remittanceDetails : option (list Remittance.t)
}.
End Payment.

Module Entity.
(** [address] is always [null] and [contacts] always empty. *)
Record t := mk {
  entityQualifier : option jsstring;
  entityName : option jsstring;
  idQualifier : option jsstring;
  id : option jsstring
}.
End Entity.

Module Isa.
Record t := mk {
  authorizationQualifier : option jsstring;
  authorizationInformation : option jsstring;
  securityQualifier : option jsstring;
  securityInformation : option jsstring;
  senderQualifier : option jsstring;
  senderId : option jsstring;
  receiverQualifier : option jsstring;
  receiverId : option jsstring;
  interchangeDate : option jsstring;
  interchangeTime : option jsstring;
  controlStandards : option jsstring;
  controlVersion : option jsstring;
  controlNumber : option jsstring;
  acknowledgmentRequested : option jsstring;
  testIndicator : option jsstring
}.
Definition empty : t :=
  mk None None None None None None None None None None None None None None
     None.
End Isa.

Module Gs.
Record t := mk {
  functionalCode : option jsstring;
  applicationSender : option jsstring;
  applicationReceiver : option jsstring;
  date : option jsstring;
  time : option jsstring;
  groupControlNumber : option jsstring;
  responsibleAgency : option jsstring;
  version : option jsstring
}.
Definition empty : t := mk None None None None None None None None.
End Gs.

Module St.
Record t := mk {
  transactionSetIdentifier : option jsstring;
  transactionSetControlNumber : option jsstring
}.
Definition empty : t := mk None None.
End St.

(** [JSONConversionResult].  The three header objects, [members] and
    [payments] may be falsy for a caller of [convertJSONToEDI], which guards
    each read; [convertEDIToJSON] always provides them.  [claims] is never
    filled (both claim extractors return an empty array), and
    [conversionTimestamp] is a clock reading. *)
Record JSONConversionResult := mkJSON {
  interchangeControl : option Isa.t;
  functionalGroup : option Gs.t;
  transactionSet : option St.t;
  entities : list Entity.t;
  members : option (list Member.t);
  payments : option (list Payment.t);
  claims : list unit;
  originalFormat : TransactionType;
  json_statistics : option Statistics
}.

Module Extract.

Import EdiValidator.

(** The two variables of the loop in [extract834Members]. *)
Definition member_state : Type := (list Member.t * option Member.t)%type.

(** [if (currentMember) members.push(currentMember)]. *)
Definition push_current {A} (done : list A) (current : option A) : list A :=
  match current with
  | Some c => done ++ [c]
  | None => done
  end.

Definition member_step (st : member_state) (segment : EDISegment)
    : member_state :=
  let (members, currentMember) := st in
  let el := element segment in
  if eqb (tag segment) (str "INS") then
    (push_current members currentMember,
     Some (Member.mk (el 1) (el 2) (el 3) (el 4) (el 5) None
             (Some Demographics.empty) (Some [])))
  else if eqb (tag segment) (str "NM1") then
    match currentMember with
    | Some m =>
        if opt_eqb (el 1) (Some (str "IL")) then
          (members,
           Some (Member.mk (Member.memberLevelCode m)
                   (Member.relationshipCode m)
                   (Member.maintenanceTypeCode m)
                   (Member.maintenanceReasonCode m)
                   (Member.benefitStatusCode m)
                   (Some (Name.mk (el 1) (el 3) (el 4) (el 5) (el 7) (el 8)
                            (el 9)))
                   (Member.demographics m) (Member.healthCoverage m)))
        else st
    | None => st
    end
  else if eqb (tag segment) (str "DMG") then
    match currentMember with
    | Some m =>
        (members,
         Some (Member.mk (Member.memberLevelCode m)
                 (Member.relationshipCode m)
                 (Member.maintenanceTypeCode m)
                 (Member.maintenanceReasonCode m)
                 (Member.benefitStatusCode m)
                 (Member.name m)
                 (Some (Demographics.mk (el 1) (el 2) (el 3) (el 4) (el 5)))
                 (Member.healthCoverage m)))
    | None => st
    end
  else if eqb (tag segment) (str "HD") then
    match currentMember with
    | Some m =>
        (members,
         Some (Member.mk (Member.memberLevelCode m)
                 (Member.relationshipCode m)
                 (Member.maintenanceTypeCode m)
                 (Member.maintenanceReasonCode m)
                 (Member.benefitStatusCode m)
                 (Member.name m) (Member.demographics m)
                 (Some (match Member.healthCoverage m with
                        | Some hc => hc
                        | None => []
                        end ++
                        [Coverage.mk (el 1) (el 2) (el 3) (el 4) (el 5)]))))
    | None => st
    end
  else st.

Definition extract834Members (segments : list EDISegment) : list Member.t :=
  let (members, currentMember) := fold_left member_step segments ([], None) in
  push_current members currentMember.

(** [parseFloat(segment.elements[i] || '0')]. *)
Definition amount (segment : EDISegment) (i : nat) : jsnum :=
  parseFloat (or_default (element segment i) (str "0")).

Definition payment_state : Type := (list Payment.t * option Payment.t)%type.

Definition payment_step (st : payment_state) (segment : EDISegment)
    : payment_state :=
  let (payments, currentPayment) := st in
  let el := element segment in
  if eqb (tag segment) (str "BPR") then
    (push_current payments currentPayment,
     Some (Payment.mk (el 1) (amount segment 2) (el 3) (el 4) (el 5) (el 7)
             (el 8) (el 10) (el 11) (el 16) (Some [])))
  else if eqb (tag segment) (str "RMR") then
    match currentPayment with
    | Some p =>
        (payments,
         Some (Payment.mk (Payment.transactionHandlingCode p)
                 (Payment.monetaryAmount p) (Payment.creditDebitFlag p)
                 (Payment.paymentMethodCode p) (Payment.paymentFormatCode p)
                 (Payment.originatingCompanyId p)
                 (Payment.originatingCompanySupplementalCode p)
                 (Payment.receivingCompanyId p)
                 (Payment.receivingCompanySupplementalCode p)
                 (Payment.effectiveEntryDate p)
                 (Some (match Payment.remittanceDetails p with
                        | Some rd => rd
                        | None => []
                        end ++
                        [Remittance.mk (el 1) (el 2) (amount segment 3)
                           (amount segment 4)]))))
    | None => st
    end
  else st.

Definition extract820Payments (segments : list EDISegment) : list Payment.t :=
  let (payments, currentPayment) :=
    fold_left payment_step segments ([], None) in
  push_current payments currentPayment.

Definition extract837Claims (segments : list EDISegment) : list unit := [].

Definition extract835Payments (segments : list EDISegment) : list Payment.t := [].

Definition extractEntities (segments : list EDISegment) : list Entity.t :=
  flat_map
    (fun segment =>
       if eqb (tag segment) (str "N1") then
         [Entity.mk (element segment 1) (element segment 2)
            (element segment 3) (element segment 4)]
       else [])
    segments.

Definition header_isa (segs : list EDISegment) : Isa.t :=
  match find_tag (str "ISA") segs with
  | Some s =>
      let el := element s in
      Isa.mk (el 1) (el 2) (el 3) (el 4) (el 5) (el 6) (el 7) (el 8) (el 9)
        (el 10) (el 11) (el 12) (el 13) (el 14) (el 15)
  | None => Isa.empty
  end.

Definition header_gs (segs : list EDISegment) : Gs.t :=
  match find_tag (str "GS") segs with
  | Some s =>
      let el := element s in
      Gs.mk (el 1) (el 2) (el 3) (el 4) (el 5) (el 6) (el 7) (el 8)
  | None => Gs.empty
  end.

Definition header_st (segs : list EDISegment) : St.t :=
  match find_tag (str "ST") segs with
  | Some s => St.mk (element s 1) (element s 2)
  | None => St.empty
  end.

(** [convertEDIToJSON]: the [switch] on [transaction.type] calls the
    extractor of that format; for every other type [members], [payments]
    and [claims] keep their initial empty arrays. *)
Definition convertEDIToJSON (transaction : EDITransaction)
    : JSONConversionResult :=
  let segs := segments transaction in
  let members :=
    match type transaction with
    | Known F834 => extract834Members segs
    | _ => []
    end in
  let payments :=
    match type transaction with
    | Known F820 => extract820Payments segs
    | Known F835 => extract835Payments segs
    | _ => []
    end in
  let claims :=
    match type transaction with
    | Known F837 => extract837Claims segs
    | _ => []
    end in
  mkJSON (Some (header_isa segs)) (Some (header_gs segs))
    (Some (header_st segs)) (extractEntities segs) (Some members)
    (Some payments) claims (type transaction) (statistics transaction).

End Extract.

(* ================================================================== *)
(** ** universalEDIParser.ts: reconstruction of segment text            *)
(* ================================================================== *)

Module Rebuild.

(** [obj.field || d] where [obj] itself may be absent ([obj?.field]). *)
Definition field {A} (o : option A) (get : A -> option jsstring)
    (d : jsstring) : jsstring :=
  or_default (match o with Some x => get x | None => None end) d.

(** A template literal whose holes are separated by [*]. *)
Definition star (parts : list jsstring) : jsstring := join (str "*") parts.

Definition tilde : jsstring := str "~".

Definition reconstruct_member (member : Member.t) : list jsstring :=
  let f get d := or_default (get member) d in
  [star [str "INS"; f Member.memberLevelCode (str "Y");
         f Member.relationshipCode (str "18");
         f Member.maintenanceTypeCode (str "030");
         f Member.maintenanceReasonCode (str "AI");
         f Member.benefitStatusCode (str "A"); []; []; str "AC"] ++ tilde]
  ++ match Member.name member with
     | Some n =>
         [star [str "NM1"; str "IL"; str "1";
                or_default (Name.lastName n) [];
                or_default (Name.firstName n) [];
                or_default (Name.middleName n) [];
                []; str "34"; or_default (Name.id n) []] ++ tilde]
     | None => []
     end
  ++ match Member.demographics member with
     | Some d =>
         [star [str "DMG"; str "D8";
                or_default (Demographics.birthDate d) [];
                or_default (Demographics.genderCode d) []] ++ tilde]
     | None => []
     end
  ++ map (fun coverage =>
            star [str "HD";
                  or_default (Coverage.maintenanceTypeCode coverage) (str "030");
                  [];
                  or_default (Coverage.insuranceLineCode coverage) (str "HLT");
                  or_default (Coverage.planCoverageDescription coverage) [];
                  or_default (Coverage.coverageLevelCode coverage) (str "EMP")]
            ++ tilde)
       (match Member.healthCoverage member with
        | Some hc => hc
        | None => []
        end).

Definition reconstruct834Segments (members : list Member.t) : list jsstring :=
  str "BGN*00*ABC123*20241208*1200*ET*Original~"
  :: flat_map reconstruct_member members.

Section Numbers.

(** [String(x)] for a Number [x], the conversion a template literal
    applies: the language's, not this repository's. *)
Variable numberToString : jsnum -> jsstring.

(** [x || '0'] inside a template literal, for a Number [x]. *)
Definition number_or_zero (x : jsnum) : jsstring :=
  if number_truthy x then numberToString x else str "0".

Definition reconstruct_payment (payment : Payment.t) : list jsstring :=
  let f get d := or_default (get payment) d in
  [star [str "BPR"; f Payment.transactionHandlingCode (str "I");
         number_or_zero (Payment.monetaryAmount payment);
         f Payment.creditDebitFlag (str "C");
         f Payment.paymentMethodCode (str "ACH");
         f Payment.paymentFormatCode (str "CCP"); [];
         f Payment.originatingCompanyId [];
         f Payment.originatingCompanySupplementalCode []; [];
         f Payment.receivingCompanyId [];
         f Payment.receivingCompanySupplementalCode [];
         []; []; []; [];
         f Payment.effectiveEntryDate []] ++ tilde]
  ++ map (fun remittance =>
            star [str "RMR";
                  or_default (Remittance.referenceQualifier remittance) (str "PO");
                  or_default (Remittance.memberGroupNumber remittance) [];
                  number_or_zero (Remittance.remittanceAmount remittance);
                  number_or_zero (Remittance.adjustmentAmount remittance)]
            ++ tilde)
       (match Payment.remittanceDetails payment with
        | Some rd => rd
        | None => []
        end).

Definition reconstruct820Segments (payments : list Payment.t)
    : list jsstring :=
  flat_map reconstruct_payment payments.

Definition isa_line (isa : Isa.t) : jsstring :=
  let f get d := or_default (get isa) d in
  star [str "ISA"; f Isa.authorizationQualifier (str "00");
        f Isa.authorizationInformation (str "          ");
        f Isa.securityQualifier (str "00");
        f Isa.securityInformation (str "          ");
        f Isa.senderQualifier (str "ZZ");
        padEnd (f Isa.senderId []) 15;
        f Isa.receiverQualifier (str "ZZ");
        padEnd (f Isa.receiverId []) 15;
        f Isa.interchangeDate []; f Isa.interchangeTime []; str "U";
        f Isa.controlVersion (str "00501");
        f Isa.controlNumber (str "000000001");
        f Isa.acknowledgmentRequested (str "0");
        f Isa.testIndicator (str "P"); str ">"].

Definition gs_line (gs : Gs.t) : jsstring :=
  let f get d := or_default (get gs) d in
  star [str "GS"; f Gs.functionalCode (str "BE");
        f Gs.applicationSender []; f Gs.applicationReceiver [];
        f Gs.date []; f Gs.time []; f Gs.groupControlNumber (str "1");
        f Gs.responsibleAgency (str "X");
        f Gs.version (str "005010X220A1")] ++ tilde.

Definition st_line (st : St.t) : jsstring :=
  star [str "ST";
        or_default (St.transactionSetIdentifier st) (str "834");
        or_default (St.transactionSetControlNumber st) (str "0001")]
  ++ tilde.

(** The lines pushed by [convertJSONToEDI] before the trailers. *)
Definition body_lines (jsonData : JSONConversionResult) : list jsstring :=
  match interchangeControl jsonData with
  | Some isa => [isa_line isa] | None => [] end
  ++ match functionalGroup jsonData with
     | Some gs => [gs_line gs] | None => [] end
  ++ match transactionSet jsonData with
     | Some st => [st_line st] | None => [] end
  ++ match originalFormat jsonData with
     | Known F834 =>
         reconstruct834Segments
           (match members jsonData with Some m => m | None => [] end)
     | Known F820 =>
         reconstruct820Segments
           (match payments jsonData with Some p => p | None => [] end)
     | _ => []
     end.

Definition convertJSONToEDI (jsonData : JSONConversionResult) : jsstring :=
  let lines := body_lines jsonData in
  let se :=
    star [str "SE"; nat_to_string (List.length lines + 1);
          field (transactionSet jsonData) St.transactionSetControlNumber
            (str "0001")] ++ tilde in
  let ge :=
    star [str "GE"; str "1";
          field (functionalGroup jsonData) Gs.groupControlNumber (str "1")]
    ++ tilde in
  let iea :=
    star [str "IEA"; str "1";
          field (interchangeControl jsonData) Isa.controlNumber
            (str "000000001")] ++ tilde in
  join [LF] (lines ++ [se; ge; iea]).

(** Extraction, reconstruction, and extraction again from the
    reconstructed text. *)
Definition roundtrip (content : jsstring) : JSONConversionResult :=
  Extract.convertEDIToJSON
    (Universal.parseEDIContent
       (convertJSONToEDI
          (Extract.convertEDIToJSON (Universal.parseEDIContent content)))).

End Numbers.

End Rebuild.

(* ================================================================== *)
(** ** Vocabulary of the statements                                     *)
(* ================================================================== *)

(** The number of lines of [content] that are not blank once trimmed. *)
Definition nonblank_count (content : jsstring) : nat :=
  List.length
    (filter (fun line => negb (eqb (trim line) [])) (split_lines content)).

(** The object literal pushed by the legacy parser for the line at [index]
    of the array it iterates. *)
Definition legacy_segment (index : nat) (line : jsstring) : EDISegment :=
  let elements := split_class EdiParser.delimiter (trim line) in
  mkSegment (or_default (at_index elements 0) []) elements (trim line)
    (index + 1) None None None.

(** The segments pushed for an array of lines read from [index] on, blank
    lines being skipped by the guard of the callback. *)
Fixpoint pushed (mk : nat -> jsstring -> EDISegment) (lines : list jsstring)
    (index : nat) : list EDISegment :=
  match lines with
  | [] => []
  | line :: rest =>
      (if truthy (trim line) then [mk index line] else [])
      ++ pushed mk rest (S index)
  end.

(** A line holds no code unit of the delimiter class [d]. *)
Definition delimiter_free (d : char -> bool) (s : jsstring) : bool :=
  forallb (fun c => negb (d c)) s.

(** The split invariant the tokenizers establish for a segment: [elements]
    is the whole split of the raw line and [tag] is its first token. *)
Definition tag_inclusive (d : char -> bool) (seg : EDISegment) : Prop :=
  elements seg = split_class d (raw seg)
  /\ elements seg = tag seg :: tl (elements seg).

(** The line number of a segment read as a 1-based index into the
    unfiltered list of lines. *)
Definition at_unfiltered_index (content : jsstring) (seg : EDISegment) : Prop :=
  exists line,
    nth_error (split_lines content) (lineNumber seg - 1) = Some line
    /\ trim line = raw seg.

(** What a call does: it hands back a value or it throws. *)
Inductive outcome (A : Type) :=
| Returned (value : A)
| Raised (error : jsstring).

Arguments Returned {A} value.
Arguments Raised {A} error.

Definition is_tag (t : string) (seg : EDISegment) : bool :=
  eqb (tag seg) (str t).

(** The fields a member takes from its [INS] segment, and the elements they
    are read from. *)
Definition ins_fields (m : Member.t) :=
  (Member.memberLevelCode m, Member.relationshipCode m,
   Member.maintenanceTypeCode m, Member.maintenanceReasonCode m,
   Member.benefitStatusCode m).

Definition ins_elements (seg : EDISegment) :=
  (element seg 1, element seg 2, element seg 3, element seg 4, element seg 5).

(** The payment an isolated [BPR] segment starts. *)
Definition payment_of (seg : EDISegment) (details : list Remittance.t)
    : Payment.t :=
  Payment.mk (element seg 1) (Extract.amount seg 2) (element seg 3)
    (element seg 4) (element seg 5) (element seg 7) (element seg 8)
    (element seg 10) (element seg 11) (element seg 16) (Some details).

Definition remittance_of (seg : EDISegment) : Remittance.t :=
  Remittance.mk (element seg 1) (element seg 2) (Extract.amount seg 3)
    (Extract.amount seg 4).

(** A payment with its remittance details set aside: what it takes from
    its [BPR] segment. *)
Definition without_details (p : Payment.t) : Payment.t :=
  Payment.mk (Payment.transactionHandlingCode p) (Payment.monetaryAmount p)
    (Payment.creditDebitFlag p) (Payment.paymentMethodCode p)
    (Payment.paymentFormatCode p) (Payment.originatingCompanyId p)
    (Payment.originatingCompanySupplementalCode p)
    (Payment.receivingCompanyId p)
    (Payment.receivingCompanySupplementalCode p)
    (Payment.effectiveEntryDate p) (Some []).

(** A field of the name of every member of a structured result. *)
Definition member_name_field (get : Name.t -> option jsstring)
    (json : JSONConversionResult) : list (option jsstring) :=
  map (fun m => match Member.name m with Some n => get n | None => None end)
    (match members json with Some ms => ms | None => [] end).

(** The number of payments of a structured result. *)
Definition payment_count (json : JSONConversionResult) : nat :=
  List.length (match payments json with Some ps => ps | None => [] end).

(** The code units a StrDecimalLiteral can begin with, after the white
    space [parseFloat] skips. *)
Definition numeric_start (c : char) : bool :=
  isWhiteSpace c || isDigit c || N.eqb c 43 || N.eqb c 45 || N.eqb c 46
  || N.eqb c 73.

(** Inputs used below. *)
Definition newline : jsstring := [LF].

Definition sample_isa : jsstring :=
  str "ISA*00*          *00*          *ZZ*SENDER*ZZ*RECEIVER*250930*1200*^*00501*000000001*0*P*:".

Definition sample_iea : jsstring := str "IEA*1*000000001".

Definition sample_envelope : jsstring := join newline [sample_isa; sample_iea].

Definition sample_834 : jsstring :=
  join newline
    [str "ST*834*0001*005010X220A1~";
     str "INS*Y*18*025*28*A***FT~";
     str "NM1*IL*1*SMITH*JOHN*A***34*987654321~"].

Definition sample_820 : jsstring :=
  join newline [str "ST*820*0002~"; str "BPR*C*125000.00*C*ACH"].

Definition sample_820_no_header : jsstring :=
  join newline [str "BPR*C*125000.00*C*ACH"; str "RMR*IV*INV123456**125000.00"].

(** The object literal pushed by the universal parser. *)
Definition universal_segment (index : nat) (line : jsstring) : EDISegment :=
  let elements := split_class Universal.delimiter (trim line) in
  let tag := or_default (at_index elements 0) [] in
  let unknown :=
    match lookup_definition tag with
    | None => negb (array_includes [str "UNA"; str "UNB"; str "UNH"] tag)
    | Some _ => false
    end in
  let errors := if unknown then [str "Unknown segment type: " ++ tag] else [] in
  mkSegment tag elements (trim line) (index + 1) (lookup_definition tag)
    (Some (Nat.eqb (List.length errors) 0))
    (if Nat.ltb 0 (List.length errors) then Some errors else None).

(** The two tokenizers and the delimiter class of each. *)
Inductive tokenizer := LegacyParser | UniversalParser.

Definition tokenize (k : tokenizer) (content : jsstring) : list EDISegment :=
  match k with
  | LegacyParser => segments (EdiParser.parseEDIContent content)
  | UniversalParser => segments (Universal.parseEDIContent content)
  end.

Definition delimiter_of (k : tokenizer) : char -> bool :=
  match k with
  | LegacyParser => EdiParser.delimiter
  | UniversalParser => Universal.delimiter
  end.

(** A blank first line followed by one segment. *)
Definition blank_then_isa : jsstring := join newline [[]; str "ISA*00"].

(** A segment with the given tag and element array; the functions read
    after tokenization look at nothing else of a segment, its line number
    aside. *)
Definition segment_with (t : string) (es : list jsstring) : EDISegment :=
  mkSegment (str t) es (join (str "*") es) 1 None None None.

(** A string has no white space at either end: a fixed point of [trim]. *)
Definition is_trimmed (s : jsstring) : bool :=
  match s with [] => true | c :: _ => negb (isWhiteSpace c) end
  && match rev s with [] => true | c :: _ => negb (isWhiteSpace c) end.

(** The tokens of a split put back around the separators that stood
    between them. *)
Fixpoint weave (tokens : list jsstring) (seps : list char) : jsstring :=
  match tokens with
  | [] => []
  | t :: rest =>
      t ++ match seps with
           | c :: seps' => c :: weave rest seps'
           | [] => []
           end
  end.

(** A line whose delimiters are all the asterisk. *)
Definition only_star (d : char -> bool) (s : jsstring) : bool :=
  forallb (fun c => negb (d c) || N.eqb c 42) s.

(** No carriage return stands directly before a line feed. *)
Fixpoint no_crlf (s : jsstring) : bool :=
  match s with
  | [] => true
  | c :: rest =>
      negb (N.eqb c CR && match rest with c' :: _ => N.eqb c' LF | [] => false end)
      && no_crlf rest
  end.

(** An [ISA] segment with at least [n] elements. *)
Definition isa_with (n : nat) (seg : EDISegment) : bool :=
  eqb (tag seg) (str "ISA") && Nat.leb n (List.length (elements seg)).

(** The last segment of a list that passes a test. *)
Definition last_such (f : EDISegment -> bool) (segs : list EDISegment)
    : option EDISegment :=
  find f (rev segs).

(** The metadata each parser reads off an [ISA] segment. *)
Definition universal_metadata_of (seg : EDISegment) : Metadata :=
  mkMetadata (or_default (element seg 6) []) (or_default (element seg 8) [])
    (or_default (element seg 9) []) (or_default (element seg 13) [])
    (or_default (element seg 12) []) (or_default (element seg 15) []).

Definition legacy_metadata_of (seg : EDISegment) : Metadata :=
  mkMetadata (or_default (element seg 6) []) (or_default (element seg 8) [])
    (or_default (element seg 9) []) (or_default (element seg 13) []) [] [].

(** A tag the universal parser accepts: it has a definition or is one of
    the three EDIFACT service tags. *)
Definition known_tag (t : jsstring) : bool :=
  match lookup_definition t with
  | Some _ => true
  | None => array_includes [str "UNA"; str "UNB"; str "UNH"] t
  end.

(** A segment the universal parser marked invalid. *)
Definition flagged (seg : EDISegment) : bool :=
  match isValid seg with
  | Some false => true
  | _ => false
  end.

(** The metadata of a segment list: that of its last qualifying [ISA]
    segment, or the initial empty strings. *)
Definition universal_metadata_spec (segs : list EDISegment) : Metadata :=
  match last_such (isa_with 16) segs with
  | Some seg => universal_metadata_of seg
  | None => empty_metadata
  end.

Definition legacy_metadata_spec (segs : list EDISegment) : Metadata :=
  match last_such (isa_with 13) segs with
  | Some seg => legacy_metadata_of seg
  | None => empty_metadata
  end.

(** No issue of a list is critical. *)
Definition no_critical (issues : list EdiValidator.EDIError) : bool :=
  forallb
    (fun e =>
       negb (EdiValidator.severity_eqb (EdiValidator.error_type e)
               EdiValidator.critical))
    issues.

(** The conditions under which a transaction is valid: every required tag
    of its format list occurs, its first segment is [ISA] and its last one
    [IEA], the control numbers of the first [ISA] and the first [IEA]
    agree, and every [ISA] segment has at least 16 elements. *)
Definition structurally_sound (t : EDITransaction) : bool :=
  let segs := segments t in
  forallb (fun required => array_includes (map tag segs) required)
    (EdiValidator.requiredSegments (type t))
  && match segs with
     | first :: _ => eqb (tag first) (str "ISA")
     | [] => true
     end
  && match rev segs with
     | last :: _ => eqb (tag last) (str "IEA")
     | [] => true
     end
  && match EdiValidator.find_tag (str "ISA") segs,
           EdiValidator.find_tag (str "IEA") segs with
     | Some isa, Some iea => opt_eqb (element isa 13) (element iea 2)
     | _, _ => true
     end
  && forallb
       (fun seg =>
          negb (eqb (tag seg) (str "ISA"))
          || Nat.leb 16 (List.length (elements seg)))
       segs.

(** An [NM1] segment of an insured individual. *)
Definition is_insured_name (seg : EDISegment) : bool :=
  eqb (tag seg) (str "NM1") && opt_eqb (element seg 1) (Some (str "IL")).

(** The [NM1*IL] segments of [segs] none of whose ten predecessors is an
    [INS]; [before] holds the segments that precede [segs], the nearest
    first. *)
Fixpoint orphan_flags (before segs : list EDISegment) : list EDISegment :=
  match segs with
  | [] => []
  | seg :: rest =>
      (if is_insured_name seg
          && negb (existsb (is_tag "INS") (firstn 10 before))
       then [seg] else [])
      ++ orphan_flags (seg :: before) rest
  end.

(** The issue the callback of [validate834BusinessRules] adds for an
    [NM1*IL] segment met before any [INS]. *)
Definition orphan_issue (seg : EDISegment) : list EdiValidator.EDIError :=
  snd (EdiValidator.orphan_step (None, []) seg 0).

(** The issues [validateDataFormats] adds for one segment. *)
Definition format_issues (seg : EDISegment) : list EdiValidator.EDIError :=
  if eqb (tag seg) (str "ISA") then EdiValidator.validateISAFormat seg []
  else if eqb (tag seg) (str "DTP") then EdiValidator.validateDTPFormat seg []
  else if eqb (tag seg) (str "DMG") then EdiValidator.validateDMGFormat seg []
  else [].

(** No issue of a list is of the informational kind. *)
Definition no_info (issues : list EdiValidator.EDIError) : bool :=
  forallb
    (fun e =>
       negb (EdiValidator.severity_eqb (EdiValidator.error_type e)
               EdiValidator.info))
    issues.

(** The objects [extract834Members] builds from an [NM1], a [DMG] and an
    [HD] segment. *)
Definition name_of (seg : EDISegment) : Name.t :=
  Name.mk (element seg 1) (element seg 3) (element seg 4) (element seg 5)
    (element seg 7) (element seg 8) (element seg 9).

Definition demographics_of (seg : EDISegment) : Demographics.t :=
  Demographics.mk (element seg 1) (element seg 2) (element seg 3)
    (element seg 4) (element seg 5).

Definition coverage_of (seg : EDISegment) : Coverage.t :=
  Coverage.mk (element seg 1) (element seg 2) (element seg 3)
    (element seg 4) (element seg 5).

(** A member started by the segment [ins], with a name, demographics and
    coverages. *)
Definition member_build (ins : EDISegment) (name : option Name.t)
    (demographics : Demographics.t) (coverages : list Coverage.t) : Member.t :=
  Member.mk (element ins 1) (element ins 2) (element ins 3) (element ins 4)
    (element ins 5) name (Some demographics) (Some coverages).

(** The member an [INS] segment starts, given the segments that follow it
    up to the next [INS]: its name is that of the last [NM1*IL] among
    them, its demographics those of the last [DMG], its coverages all the
    [HD] segments in order. *)
Definition member_of (ins : EDISegment) (run : list EDISegment) : Member.t :=
  member_build ins
    (option_map name_of (last_such is_insured_name run))
    (match last_such (is_tag "DMG") run with
     | Some seg => demographics_of seg
     | None => Demographics.empty
     end)
    (map coverage_of (filter (is_tag "HD") run)).

(** A code unit that can stand inside a field of a reconstructed line
    without breaking it: neither a delimiter of the universal parser nor a
    line feed. *)
Definition field_char (c : char) : bool :=
  negb (Universal.delimiter c) && negb (N.eqb c LF).

Definition field_ok (s : jsstring) : bool := forallb field_char s.

Definition opt_ok (o : option jsstring) : bool :=
  match o with Some s => field_ok s | None => true end.

(** The fields of a member that [reconstruct834Segments] writes are all
    free of delimiters and line feeds. *)
Definition coverage_ok (c : Coverage.t) : bool :=
  opt_ok (Coverage.maintenanceTypeCode c)
  && opt_ok (Coverage.insuranceLineCode c)
  && opt_ok (Coverage.planCoverageDescription c)
  && opt_ok (Coverage.coverageLevelCode c).

Definition member_ok (m : Member.t) : bool :=
  opt_ok (Member.memberLevelCode m) && opt_ok (Member.relationshipCode m)
  && opt_ok (Member.maintenanceTypeCode m)
  && opt_ok (Member.maintenanceReasonCode m)
  && opt_ok (Member.benefitStatusCode m)
  && match Member.name m with
     | Some n =>
         opt_ok (Name.lastName n) && opt_ok (Name.firstName n)
         && opt_ok (Name.middleName n) && opt_ok (Name.id n)
     | None => true
     end
  && match Member.demographics m with
     | Some d =>
         opt_ok (Demographics.birthDate d) && opt_ok (Demographics.genderCode d)
     | None => true
     end
  && forallb coverage_ok
       (match Member.healthCoverage m with Some hc => hc | None => [] end).

(** The lines [reconstruct834Segments] writes for a member. *)
Definition ins_line (m : Member.t) : jsstring :=
  Rebuild.star
    [str "INS"; or_default (Member.memberLevelCode m) (str "Y");
     or_default (Member.relationshipCode m) (str "18");
     or_default (Member.maintenanceTypeCode m) (str "030");
     or_default (Member.maintenanceReasonCode m) (str "AI");
     or_default (Member.benefitStatusCode m) (str "A"); []; []; str "AC"]
  ++ Rebuild.tilde.

Definition name_line (n : Name.t) : jsstring :=
  Rebuild.star
    [str "NM1"; str "IL"; str "1"; or_default (Name.lastName n) [];
     or_default (Name.firstName n) []; or_default (Name.middleName n) [];
     []; str "34"; or_default (Name.id n) []]
  ++ Rebuild.tilde.

Definition dmg_line (d : Demographics.t) : jsstring :=
  Rebuild.star
    [str "DMG"; str "D8"; or_default (Demographics.birthDate d) [];
     or_default (Demographics.genderCode d) []]
  ++ Rebuild.tilde.

Definition hd_line (c : Coverage.t) : jsstring :=
  Rebuild.star
    [str "HD"; or_default (Coverage.maintenanceTypeCode c) (str "030"); [];
     or_default (Coverage.insuranceLineCode c) (str "HLT");
     or_default (Coverage.planCoverageDescription c) [];
     or_default (Coverage.coverageLevelCode c) (str "EMP")]
  ++ Rebuild.tilde.

(** What a member has become once its lines are written by
    [reconstruct834Segments] and read again by the universal parser and
    [extract834Members]: absent or empty codes are replaced by the
    defaults of the templates; the name keeps its last, first and middle
    part, its suffix becomes [34], its id qualifier the former id and its
    id the empty string; the demographics keep birth date and gender under
    the qualifier [D8]; a coverage loses its maintenance reason code. *)
Definition rebuilt_coverage (c : Coverage.t) : Coverage.t :=
  Coverage.mk (Some (or_default (Coverage.maintenanceTypeCode c) (str "030")))
    (Some [])
    (Some (or_default (Coverage.insuranceLineCode c) (str "HLT")))
    (Some (or_default (Coverage.planCoverageDescription c) []))
    (Some (or_default (Coverage.coverageLevelCode c) (str "EMP"))).

Definition rebuilt_name (n : Name.t) : Name.t :=
  Name.mk (Some (str "IL")) (Some (or_default (Name.lastName n) []))
    (Some (or_default (Name.firstName n) []))
    (Some (or_default (Name.middleName n) [])) (Some (str "34"))
    (Some (or_default (Name.id n) [])) (Some []).

Definition rebuilt_demographics (d : Demographics.t) : Demographics.t :=
  Demographics.mk (Some (str "D8"))
    (Some (or_default (Demographics.birthDate d) []))
    (Some (or_default (Demographics.genderCode d) [])) (Some []) None.

Definition rebuilt_member (m : Member.t) : Member.t :=
  Member.mk (Some (or_default (Member.memberLevelCode m) (str "Y")))
    (Some (or_default (Member.relationshipCode m) (str "18")))
    (Some (or_default (Member.maintenanceTypeCode m) (str "030")))
    (Some (or_default (Member.maintenanceReasonCode m) (str "AI")))
    (Some (or_default (Member.benefitStatusCode m) (str "A")))
    (option_map rebuilt_name (Member.name m))
    (Some (match Member.demographics m with
           | Some d => rebuilt_demographics d
           | None => Demographics.empty
           end))
    (Some (map rebuilt_coverage
             (match Member.healthCoverage m with Some hc => hc | None => [] end))).

(** A line of a reconstructed file: it begins with a code unit that is not
    white space, ends with the tilde and holds no line feed. *)
Definition line_ok (line : jsstring) : bool :=
  match line with
  | c :: _ => negb (isWhiteSpace c)
  | [] => false
  end
  && match rev line with
     | c :: _ => N.eqb c 126
     | [] => false
     end
  && forallb (fun c => negb (N.eqb c LF)) line.

(** The list is empty or begins with an [INS] segment. *)
Definition starts_with_ins (segs : list EDISegment) : bool :=
  match segs with
  | [] => true
  | seg :: _ => is_tag "INS" seg
  end.

(** Every element of the segment is free of delimiters and line feeds. *)
Definition elements_ok (seg : EDISegment) : bool :=
  forallb field_ok (elements seg).

(** The members of an extraction state, finished or under construction,
    are all writable. *)
Definition member_state_ok (st : Extract.member_state) : bool :=
  forallb member_ok (fst st)
  && match snd st with Some m => member_ok m | None => true end.

(* ================================================================== *)
(** ** process-edi: the function that stores an uploaded file           *)
(* ================================================================== *)

Module EdgeFunction.

(** [Segment]: the tag and the elements that follow it. *)
Record Segment := mkSegment {
  type : jsstring;
  elements : list jsstring
}.

(** The separators of [split('~')] and of [split('*')]. *)
Definition is_tilde (c : char) : bool := N.eqb c 126.
Definition is_star (c : char) : bool := N.eqb c 42.

(** [content.split('~').map(s => s.trim()).filter(Boolean)]. *)
Definition pieces (content : jsstring) : list jsstring :=
  filter truthy (map trim (split_class is_tilde content)).

(** The body of the loop of [parseEDI]. *)
Definition parse_line (line : jsstring) : list Segment :=
  match split_class is_star line with
  | first :: rest => [mkSegment first rest]
  | [] => []
  end.

Definition parseEDI (content : jsstring) : list Segment :=
  flat_map parse_line (pieces content).

(** [segments.find(s => s.type === t)]. *)
Definition find_type (t : jsstring) (segments : list Segment)
    : option Segment :=
  find (fun s => eqb (type s) t) segments.

(** [seg.type === t]. *)
Definition tagged (t : string) (seg : Segment) : bool :=
  eqb (type seg) (str t).

(** [seg.elements[i]]. *)
Definition el (seg : Segment) (i : nat) : option jsstring :=
  at_index (elements seg) i.

(** The result of [extractControlInfo] without [transactionDate], a
    [Date]. *)
Record ControlInfo := mkControlInfo {
  transactionType : jsstring;
  controlNumber : jsstring;
  senderId : jsstring;
  receiverId : jsstring
}.

(** [seg?.elements[i] || ''] and [seg?.elements[i]?.trim() || '']. *)
Definition read (seg : option Segment) (i : nat) : jsstring :=
  match seg with
  | Some s => or_default (el s i) []
  | None => []
  end.

Definition read_trimmed (seg : option Segment) (i : nat) : jsstring :=
  match seg with
  | Some s => or_default (option_map trim (el s i)) []
  | None => []
  end.

Definition extractControlInfo (segments : list Segment) : ControlInfo :=
  let st := find_type (str "ST") segments in
  let isa := find_type (str "ISA") segments in
  mkControlInfo (read st 0) (read st 1) (read_trimmed isa 5)
    (read_trimmed isa 7).

(** [s.substring(a, b)] for [a <= b]. *)
Definition substring (s : jsstring) (a b : nat) : jsstring :=
  firstn (b - a) (skipn a s).

(** [x] is not [null]. *)
Definition present {A} (x : option A) : bool :=
  match x with Some _ => true | None => false end.

(** A call either completes or throws the [TypeError] of a property read
    on [undefined]. *)
Inductive completion (A : Type) :=
| Normal (value : A)
| TypeError.

Arguments Normal {A} value.
Arguments TypeError {A}.

(** The template [`${d.substring(0, 4)}-${d.substring(4, 6)}-${d.substring(6, 8)}`];
    reading [substring] of [undefined] throws. *)
Definition dashed (d : option jsstring) : completion jsstring :=
  match d with
  | Some s =>
      Normal (substring s 0 4 ++ str "-" ++ substring s 4 6 ++ str "-"
              ++ substring s 6 8)
  | None => TypeError
  end.

(** A row of [edi_members].  A property that was never assigned and one
    that was assigned [undefined] are both [None]: the row is sent as
    JSON, which drops either. *)
Record MemberRow := mkMember {
  transaction_id : jsstring;
  status : jsstring;
  relationship : jsstring;
  member_id : option jsstring;
  plan_code : option jsstring;
  last_name : option jsstring;
  first_name : option jsstring;
  ssn : option jsstring;
  address_line1 : option jsstring;
  address_line2 : option jsstring;
  city : option jsstring;
  state : option jsstring;
  zip_code : option jsstring;
  date_of_birth : option jsstring;
  gender : option jsstring;
  coverage_level : option jsstring;
  effective_date : option jsstring
}.

(** The variables of the loop of [process834]. *)
Definition member_state : Type := (list MemberRow * option MemberRow)%type.

Definition new_member (transactionId : jsstring) (seg : Segment) : MemberRow :=
  let subscriber := opt_eqb (el seg 1) (Some (str "Y")) in
  mkMember transactionId
    (if subscriber then str "active" else str "terminated")
    (if subscriber then str "subscriber" else str "dependent")
    None None None None None None None None None None None None None None.

(** The assignments of each branch. *)
Definition set_ref (m : MemberRow) (seg : Segment) : MemberRow :=
  if opt_eqb (el seg 0) (Some (str "0F")) then
    mkMember (transaction_id m) (status m) (relationship m) (el seg 1)
      (plan_code m) (last_name m) (first_name m) (ssn m) (address_line1 m)
      (address_line2 m) (city m) (state m) (zip_code m) (date_of_birth m)
      (gender m) (coverage_level m) (effective_date m)
  else if opt_eqb (el seg 0) (Some (str "1L")) then
    mkMember (transaction_id m) (status m) (relationship m) (member_id m)
      (el seg 1) (last_name m) (first_name m) (ssn m) (address_line1 m)
      (address_line2 m) (city m) (state m) (zip_code m) (date_of_birth m)
      (gender m) (coverage_level m) (effective_date m)
  else m.

Definition set_name (m : MemberRow) (seg : Segment) : MemberRow :=
  mkMember (transaction_id m) (status m) (relationship m) (member_id m)
    (plan_code m) (el seg 2) (el seg 3)
    (if opt_eqb (el seg 7) (Some (str "34")) then el seg 8 else ssn m)
    (address_line1 m) (address_line2 m) (city m) (state m) (zip_code m)
    (date_of_birth m) (gender m) (coverage_level m) (effective_date m).

Definition set_street (m : MemberRow) (seg : Segment) : MemberRow :=
  mkMember (transaction_id m) (status m) (relationship m) (member_id m)
    (plan_code m) (last_name m) (first_name m) (ssn m) (el seg 0)
    (if opt_truthy (el seg 1) then el seg 1 else address_line2 m)
    (city m) (state m) (zip_code m) (date_of_birth m) (gender m)
    (coverage_level m) (effective_date m).

Definition set_city (m : MemberRow) (seg : Segment) : MemberRow :=
  mkMember (transaction_id m) (status m) (relationship m) (member_id m)
    (plan_code m) (last_name m) (first_name m) (ssn m) (address_line1 m)
    (address_line2 m) (el seg 0) (el seg 1) (el seg 2) (date_of_birth m)
    (gender m) (coverage_level m) (effective_date m).

Definition set_demographics (m : MemberRow) (seg : Segment)
    : completion MemberRow :=
  let finish birth :=
    mkMember (transaction_id m) (status m) (relationship m) (member_id m)
      (plan_code m) (last_name m) (first_name m) (ssn m) (address_line1 m)
      (address_line2 m) (city m) (state m) (zip_code m) birth (el seg 2)
      (coverage_level m) (effective_date m) in
  if opt_eqb (el seg 0) (Some (str "D8")) then
    match dashed (el seg 1) with
    | Normal text => Normal (finish (Some text))
    | TypeError => TypeError
    end
  else Normal (finish (date_of_birth m)).

Definition set_coverage (m : MemberRow) (seg : Segment) : MemberRow :=
  mkMember (transaction_id m) (status m) (relationship m) (member_id m)
    (plan_code m) (last_name m) (first_name m) (ssn m) (address_line1 m)
    (address_line2 m) (city m) (state m) (zip_code m) (date_of_birth m)
    (gender m) (el seg 2) (effective_date m).

Definition set_effective (m : MemberRow) (seg : Segment)
    : completion MemberRow :=
  match dashed (el seg 2) with
  | Normal text =>
      Normal
        (mkMember (transaction_id m) (status m) (relationship m)
           (member_id m) (plan_code m) (last_name m) (first_name m) (ssn m)
           (address_line1 m) (address_line2 m) (city m) (state m)
           (zip_code m) (date_of_birth m) (gender m) (coverage_level m)
           (Some text))
  | TypeError => TypeError
  end.

(** One turn of the loop of [process834]: the chain of [else if]. *)
Definition member_step (transactionId : jsstring) (st : member_state)
    (seg : Segment) : completion member_state :=
  let (members, currentMember) := st in
  let update (f : MemberRow -> MemberRow) :=
    Normal (members, option_map f currentMember) in
  let attempt (f : MemberRow -> completion MemberRow) :=
    match currentMember with
    | Some m =>
        match f m with
        | Normal m' => Normal (members, Some m')
        | TypeError => TypeError
        end
    | None => Normal st
    end in
  if tagged "INS" seg then
    Normal (match currentMember with
            | Some m => members ++ [m]
            | None => members
            end,
            Some (new_member transactionId seg))
  else if tagged "REF" seg && present currentMember then
    update (fun m => set_ref m seg)
  else if tagged "NM1" seg && opt_eqb (el seg 0) (Some (str "IL"))
          && present currentMember then
    update (fun m => set_name m seg)
  else if tagged "N3" seg && present currentMember then
    update (fun m => set_street m seg)
  else if tagged "N4" seg && present currentMember then
    update (fun m => set_city m seg)
  else if tagged "DMG" seg && present currentMember then
    attempt (fun m => set_demographics m seg)
  else if tagged "HD" seg && present currentMember then
    update (fun m => set_coverage m seg)
  else if tagged "DTP" seg && opt_eqb (el seg 0) (Some (str "348"))
          && present currentMember then
    attempt (fun m => set_effective m seg)
  else Normal st.

Fixpoint member_loop (transactionId : jsstring) (segments : list Segment)
    (st : member_state) : completion member_state :=
  match segments with
  | [] => Normal st
  | seg :: rest =>
      match member_step transactionId st seg with
      | Normal st' => member_loop transactionId rest st'
      | TypeError => TypeError
      end
  end.

(** The array [members] that [process834] hands to the database; the
    insertion itself is outside the model. *)
Definition process834 (segments : list Segment) (transactionId : jsstring)
    : completion (list MemberRow) :=
  match member_loop transactionId segments ([], None) with
  | Normal (members, Some m) => Normal (members ++ [m])
  | Normal (members, None) => Normal members
  | TypeError => TypeError
  end.

(** A row of [edi_payments] without [payment_date], which is a [Date]
    (the clock reading when the segment gives none). *)
Record PaymentRow := mkPayment {
  payment_transaction_id : jsstring;
  payment_amount : jsnum;
  payment_method : option jsstring;
  payment_status : jsstring;
  reference_number : option jsstring;
  payer_name : option jsstring;
  payee_name : option jsstring;
  invoice_number : option jsstring
}.

(** [x === 0] on a Number. *)
Definition is_zero (x : jsnum) : bool :=
  match x with
  | Decimal _ m e => rounds_to_zero m e
  | _ => false
  end.

(** One turn of the loop of [process820]; the only variable is
    [currentPayment]. *)
Definition payment_step (transactionId : jsstring)
    (currentPayment : option PaymentRow) (seg : Segment)
    : option PaymentRow :=
  if tagged "BPR" seg then
    Some (mkPayment transactionId
            (parseFloat (or_default (el seg 1) (str "0"))) (el seg 3)
            (str "posted") None None None None)
  else if tagged "TRN" seg && present currentPayment then
    option_map
      (fun p =>
         mkPayment (payment_transaction_id p) (payment_amount p)
           (payment_method p) (payment_status p) (el seg 1) (payer_name p)
           (payee_name p) (invoice_number p))
      currentPayment
  else if tagged "N1" seg && present currentPayment then
    option_map
      (fun p =>
         if opt_eqb (el seg 0) (Some (str "PR")) then
           mkPayment (payment_transaction_id p) (payment_amount p)
             (payment_method p) (payment_status p) (reference_number p)
             (el seg 1) (payee_name p) (invoice_number p)
         else if opt_eqb (el seg 0) (Some (str "PE")) then
           mkPayment (payment_transaction_id p) (payment_amount p)
             (payment_method p) (payment_status p) (reference_number p)
             (payer_name p) (el seg 1) (invoice_number p)
         else p)
      currentPayment
  else if tagged "RMR" seg && present currentPayment then
    option_map
      (fun p =>
         mkPayment (payment_transaction_id p)
           (if is_zero (payment_amount p) && opt_truthy (el seg 3)
            then parseFloat (or_default (el seg 3) [])
            else payment_amount p)
           (payment_method p) (payment_status p) (reference_number p)
           (payer_name p) (payee_name p) (el seg 1))
      currentPayment
  else currentPayment.

(** The array [payments] that [process820] hands to the database. *)
Definition process820 (segments : list Segment) (transactionId : jsstring)
    : list PaymentRow :=
  match fold_left (payment_step transactionId) segments None with
  | Some p => [p]
  | None => []
  end.

End EdgeFunction.

(** The text of one segment as a file with one closed segment per line
    writes it: not empty, no white space at its ends, no line feed and no
    tilde. *)
Definition line_text (l : jsstring) : bool :=
  truthy l && is_trimmed l
  && forallb (fun c => negb (N.eqb c LF) && negb (N.eqb c 126)) l.

(** The file that writes each segment on a line of its own, closed by a
    tilde. *)
Definition closed_lines (ls : list jsstring) : jsstring :=
  join newline (map (fun l => l ++ str "~") ls).

(** The tag and the elements of a segment of the edge function, as one
    array. *)
Definition edge_tokens (s : EdgeFunction.Segment) : list jsstring :=
  EdgeFunction.type s :: EdgeFunction.elements s.

(** A segment whose date the edge function reads without a guard and
    that has none: [DMG*D8] without a second element, [DTP*348] without a
    third. *)
Definition undated (seg : EdgeFunction.Segment) : bool :=
  (EdgeFunction.tagged "DMG" seg
   && opt_eqb (EdgeFunction.el seg 0) (Some (str "D8"))
   && negb (EdgeFunction.present (EdgeFunction.el seg 1)))
  || (EdgeFunction.tagged "DTP" seg
      && opt_eqb (EdgeFunction.el seg 0) (Some (str "348"))
      && negb (EdgeFunction.present (EdgeFunction.el seg 2))).

(** The segments from the first one that passes [f] on. *)
Fixpoint from_first {A} (f : A -> bool) (l : list A) : list A :=
  match l with
  | [] => []
  | x :: rest => if f x then l else from_first f rest
  end.

(** What a row of [edi_members] takes from the [INS] segment that starts
    it. *)
Definition row_key (r : EdgeFunction.MemberRow) :=
  (EdgeFunction.transaction_id r, EdgeFunction.status r,
   EdgeFunction.relationship r).

(** The tokens of a segment of the edge function as the tokenizer [k] of
    the viewer reads them on a closed line: each token is split again at
    the delimiters of [k] it holds (an asterisk never, a caret with the
    universal parser), and one empty string stands for the closing tilde. *)
Definition viewer_tokens (k : tokenizer) (s : EdgeFunction.Segment)
    : list jsstring :=
  flat_map (split_class (delimiter_of k)) (edge_tokens s) ++ [[]].

(** None of the first [n] pieces of a line between asterisks holds a
    delimiter of the tokenizer [k]. *)
Definition plain_head (k : tokenizer) (n : nat) (l : jsstring) : bool :=
  forallb (delimiter_free (delimiter_of k))
    (firstn n (split_class EdgeFunction.is_star l)).

(** A segment of the viewer and a segment of the edge function that agree
    on the tag and on what is read of the first eight elements after it,
    an absent element being read as the empty string. *)
Definition same_reads (v : EDISegment) (e : EdgeFunction.Segment) : Prop :=
  tag v = EdgeFunction.type e
  /\ forall n, n < 8 ->
       or_default (element v (S n)) [] = or_default (EdgeFunction.el e n) []
       /\ or_default (option_map trim (element v (S n))) []
          = or_default (option_map trim (EdgeFunction.el e n)) [].

(** A raw line that ends with the segment terminator. *)
Definition closed (raw : jsstring) : bool :=
  match rev raw with
  | c :: _ => N.eqb c 126
  | [] => false
  end.

(** The raw line without the tilde that closes it, if it has one. *)
Definition without_terminator (raw : jsstring) : jsstring :=
  match rev raw with
  | c :: rest => if N.eqb c 126 then rev rest else raw
  | [] => raw
  end.

(** The X12 fields of a segment: the pieces of its text between asterisks,
    the tag being field 0. *)
Definition x12_fields (raw : jsstring) : list jsstring :=
  split_class EdgeFunction.is_star (without_terminator raw).

(** The first line of the sample 834 file of the repository, without the
    tilde that closes it. *)
Definition repository_isa_text : jsstring :=
  str "ISA*00*          *00*          *ZZ*SENDER         *ZZ*RECEIVER       *250930*1200*^*00501*000000001*0*P*:".

(* ================================================================== *)
(** ** lifecycleTracker.ts                                              *)
(* ================================================================== *)

Module LifecycleTracker.

(** [LifecycleEvent['eventType']] and [MemberStatus]. *)
Inductive EventType :=
| enrollment | change | termination | reinstatement | cobra_election
| address_change | dependent_add | dependent_remove.

Inductive MemberStatus := active | terminated | cobra | pending | suspended.

Definition determineEventType (maintenanceType maintenanceReason : jsstring)
    : EventType :=
  if eqb maintenanceType (str "021") then enrollment
  else if eqb maintenanceType (str "001") then change
  else if eqb maintenanceType (str "024") then termination
  else if eqb maintenanceType (str "025") then reinstatement
  else if eqb maintenanceType (str "030") then
    if eqb maintenanceReason (str "AI") then enrollment
    else if eqb maintenanceReason (str "XN") then termination
    else if eqb maintenanceReason (str "EC") then cobra_election
    else change
  else change.

Definition determineStatus (eventType : EventType) : MemberStatus :=
  match eventType with
  | enrollment => active
  | termination => terminated
  | cobra_election => cobra
  | reinstatement => active
  | _ => active
  end.

(** [formatDate]: eight code units are cut into year, month and day. *)
Definition formatDate (dateStr : jsstring) : jsstring :=
  if Nat.eqb (List.length dateStr) 8 then
    firstn 4 dateStr ++ str "-" ++ firstn 2 (skipn 4 dateStr) ++ str "-"
    ++ firstn 2 (skipn 6 dateStr)
  else dateStr.

(** A JavaScript array as [levenshteinDistance] uses it: written by index,
    with a hole wherever nothing was written.  A hole reads as
    [undefined]. *)
Definition sparse (A : Type) : Type := list (option A).

Definition get {A} (a : sparse A) (i : nat) : option A :=
  match nth_error a i with
  | Some x => x
  | None => None
  end.

(** [a[i] = v]: an index at or beyond the length extends the array. *)
Fixpoint set {A} (a : sparse A) (i : nat) (v : option A) : sparse A :=
  match i, a with
  | O, [] => [v]
  | O, _ :: rest => v :: rest
  | S i', [] => None :: set [] i' v
  | S i', x :: rest => x :: set rest i' v
  end.

(** A cell of the matrix: a number, or [None] for [undefined] and for the
    [NaN] that arithmetic on [undefined] gives. *)
Definition number := option nat.

Definition matrix := sparse (sparse nat).

(** [matrix[i][j]]; reading a row that does not exist throws, which is the
    outer [None]. *)
Definition read (m : matrix) (i j : nat) : option number :=
  match get m i with
  | Some row => Some (get row j)
  | None => None
  end.

(** [matrix[i][j] = v], throwing likewise. *)
Definition assign (m : matrix) (i j : nat) (v : number) : option matrix :=
  match get m i with
  | Some row => Some (set m i (Some (set row j v)))
  | None => None
  end.

(** [x + 1] and [Math.min(x, y, z)] on cells. *)
Definition succ (x : number) : number := option_map S x.

Definition min3 (x y z : number) : number :=
  match x, y, z with
  | Some a, Some b, Some c => Some (Nat.min a (Nat.min b c))
  | _, _, _ => None
  end.

(** [s.charAt(i)]: the empty string out of range. *)
Definition charAt (s : jsstring) (i : nat) : jsstring :=
  match nth_error s i with
  | Some c => [c]
  | None => []
  end.

(** A [for] loop over consecutive indices whose body may throw. *)
Fixpoint for_each {St} (indices : list nat) (body : St -> nat -> option St)
    (st : St) : option St :=
  match indices with
  | [] => Some st
  | i :: rest =>
      match body st i with
      | Some st' => for_each rest body st'
      | None => None
      end
  end.

(** The body of the inner loop. *)
Definition fill (str1 str2 : jsstring) (i : nat) (m : matrix) (j : nat)
    : option matrix :=
  if eqb (charAt str2 (i - 1)) (charAt str1 (j - 1)) then
    match read m (i - 1) (j - 1) with
    | Some v => assign m i j v
    | None => None
    end
  else
    match read m (i - 1) (j - 1), read m i (j - 1), read m (i - 1) j with
    | Some d, Some l, Some u => assign m i j (min3 (succ d) (succ l) (succ u))
    | _, _, _ => None
    end.

Definition levenshteinDistance (str1 str2 : jsstring) : option number :=
  let len1 := List.length str1 in
  let len2 := List.length str2 in
  match for_each (seq 0 (S len2))
          (fun m i => Some (set m i (Some [Some i]))) [] with
  | None => None
  | Some m1 =>
      match for_each (seq 0 (S len1)) (fun m j => assign m 0 j (Some j)) m1 with
      | None => None
      | Some m2 =>
          match for_each (seq 1 len2)
                  (fun m i => for_each (seq 1 len1) (fill str1 str2 i) m)
                  m2 with
          | None => None
          | Some m3 => read m3 len2 len1
          end
      end
  end.

(** [CoverageRecord] without [id], a random string, and [effectiveDate],
    a clock reading; [status] and [beneficiaryCount] are the constants
    ['active'] and [1]. *)
Record CoverageRecord := mkCoverage {
  insuranceLineCode : jsstring;
  planCode : jsstring;
  coverageLevel : jsstring
}.

(** The [Partial<MemberRecord>] that [process834Transaction] fills; its
    [lifecycle] and [alerts] stay the empty arrays they start as. *)
Record MemberData := mkData {
  memberId : option jsstring;
  firstName : option jsstring;
  lastName : option jsstring;
  ssn : option jsstring;
  dateOfBirth : option jsstring;
  gender : option jsstring;
  healthCoverage : list CoverageRecord
}.

Definition empty_data : MemberData := mkData None None None None None None [].

(** An entry of [ProcessingResult.alerts]. *)
Record Alert := mkAlert {
  alert_type : jsstring;
  severity : jsstring;
  alert_message : jsstring;
  alert_memberId : jsstring
}.

Record ProcessingResult := mkResult {
  processed : nat;
  errors : nat;
  warnings : nat;
  alerts : list Alert;
  affectedMembers : list jsstring
}.

Definition empty_result : ProcessingResult := mkResult 0 0 0 [] [].

(** The event type and the status [processMemberRecord] derives from the
    [INS] segment it is given; both of its branches store this status. *)
Definition event_of (insSegment : EDISegment) : EventType :=
  determineEventType (or_default (element insSegment 3) [])
    (or_default (element insSegment 4) []).

Definition status_of (insSegment : EDISegment) : MemberStatus :=
  determineStatus (event_of insSegment).

Section Tracker.

(** The members the tracker holds, with the clock and the source of
    random identifiers. *)
Variable Store : Type.

(** [processMemberRecord]: it updates the store and the result, and it
    returns or throws. *)
Variable processMemberRecord :
  MemberData -> EDISegment -> EDITransaction -> Store * ProcessingResult ->
  (Store * ProcessingResult) * outcome unit.

(** The variables of the loop of [process834Transaction]. *)
Record loop_state := mkLoop {
  world : Store * ProcessingResult;
  currentMember : option MemberData;
  insSegment : option EDISegment
}.

(** The [catch] block. *)
Definition caught (segment : EDISegment) (st : loop_state) : loop_state :=
  let (store, result) := world st in
  mkLoop
    (store,
     mkResult (processed result) (S (errors result)) (warnings result)
       (alerts result
        ++ [mkAlert (str "processing_error") (str "high")
              (str "Error processing segment " ++ tag segment
               ++ str " at line " ++ nat_to_string (lineNumber segment))
              (or_default
                 (match currentMember st with
                  | Some m => memberId m
                  | None => None
                  end)
                 (str "unknown"))])
       (affectedMembers result))
    (currentMember st) (insSegment st).

(** One turn of the loop: the [switch] inside [try]. *)
Definition step (transaction : EDITransaction) (st : loop_state)
    (segment : EDISegment) : loop_state :=
  let el := element segment in
  let update (f : MemberData -> MemberData) :=
    mkLoop (world st) (option_map f (currentMember st)) (insSegment st) in
  if eqb (tag segment) (str "INS") then
    let start w := mkLoop w (Some empty_data) (Some segment) in
    match currentMember st, insSegment st with
    | Some m, Some ins =>
        match processMemberRecord m ins transaction (world st) with
        | (w, Returned _) => start w
        | (w, Raised _) =>
            caught segment (mkLoop w (currentMember st) (insSegment st))
        end
    | _, _ => start (world st)
    end
  else if eqb (tag segment) (str "NM1") then
    if opt_eqb (el 1) (Some (str "IL")) then
      update (fun m =>
                mkData (Some (or_default (el 9) []))
                  (Some (or_default (el 4) []))
                  (Some (or_default (el 3) [])) (ssn m) (dateOfBirth m)
                  (gender m) (healthCoverage m))
    else st
  else if eqb (tag segment) (str "DMG") then
    update (fun m =>
              mkData (memberId m) (firstName m) (lastName m) (ssn m)
                (Some (formatDate (or_default (el 2) [])))
                (Some (or_default (el 3) [])) (healthCoverage m))
  else if eqb (tag segment) (str "HD") then
    update (fun m =>
              mkData (memberId m) (firstName m) (lastName m) (ssn m)
                (dateOfBirth m) (gender m)
                (healthCoverage m
                 ++ [mkCoverage (or_default (el 3) []) (or_default (el 4) [])
                       (or_default (el 5) [])]))
  else if eqb (tag segment) (str "REF") then
    if opt_eqb (el 1) (Some (str "0F")) then
      update (fun m =>
                mkData (memberId m) (firstName m) (lastName m) (el 2)
                  (dateOfBirth m) (gender m) (healthCoverage m))
    else st
  else st.

(** [process834Transaction]: the store it leaves, and the result it
    returns or the error it throws. *)
Definition process834Transaction (transaction : EDITransaction)
    (store : Store) : Store * outcome ProcessingResult :=
  if negb (EdiValidator.is_834 (type transaction)) then
    (store, Raised (str "Invalid transaction type. Expected 834."))
  else
    let st :=
      fold_left (step transaction) (segments transaction)
        (mkLoop (store, empty_result) None None) in
    match currentMember st, insSegment st with
    | Some m, Some ins =>
        match processMemberRecord m ins transaction (world st) with
        | ((store', result), Returned _) => (store', Returned result)
        | ((store', _), Raised e) => (store', Raised e)
        end
    | _, _ => (fst (world st), Returned (snd (world st)))
    end.

End Tracker.

(** The callee that only notes what it is called with. *)
Definition note_call (memberData : MemberData) (insSegment : EDISegment)
    (transaction : EDITransaction)
    (w : list (MemberData * EDISegment) * ProcessingResult)
    : (list (MemberData * EDISegment) * ProcessingResult) * outcome unit :=
  ((fst w ++ [(memberData, insSegment)], snd w), Returned tt).

(** The calls of [processMemberRecord] that [process834Transaction] makes
    when each of them returns: the member data and the [INS] segment
    passed, in order. *)
Definition member_calls (transaction : EDITransaction)
    : list (MemberData * EDISegment) :=
  fst (process834Transaction note_call transaction []).

End LifecycleTracker.

(** The edit distance between the first [j] code units of [s1] and the
    first [i] of [s2], by the recurrence of Wagner and Fischer. *)
Fixpoint prefix_distance (s1 s2 : jsstring) (i j : nat) {struct i} : nat :=
  match i with
  | O => j
  | S i' =>
      (fix along (j : nat) : nat :=
         match j with
         | O => S i'
         | S j' =>
             if eqb (LifecycleTracker.charAt s2 i') (LifecycleTracker.charAt s1 j')
             then prefix_distance s1 s2 i' j'
             else
               Nat.min (S (prefix_distance s1 s2 i' j'))
                 (Nat.min (S (along j')) (S (prefix_distance s1 s2 i' (S j'))))
         end) j
  end.

(** The cell [(i, j)] of the matrix holds the distance of the prefixes. *)
Definition cell_holds (s1 s2 : jsstring) (m : LifecycleTracker.matrix)
    (i j : nat) : Prop :=
  LifecycleTracker.read m i j = Some (Some (prefix_distance s1 s2 i j)).

(** The rows [0 .. n] of the matrix exist. *)
Definition rows_exist (n : nat) (m : LifecycleTracker.matrix) : Prop :=
  forall i, i <= n -> LifecycleTracker.get m i <> None.

(** What the tracker reads of a call of [processMemberRecord]: the name
    and the id, the birth date and the gender, the coverages, and the
    maintenance type and reason of the [INS] segment, an absent value being
    the empty string. *)
Definition call_view (c : LifecycleTracker.MemberData * EDISegment) :=
  let (d, ins) := c in
  ((or_default (LifecycleTracker.firstName d) [],
    or_default (LifecycleTracker.lastName d) [],
    or_default (LifecycleTracker.memberId d) []),
   (or_default (LifecycleTracker.dateOfBirth d) [],
    or_default (LifecycleTracker.gender d) []),
   map (fun h =>
          (LifecycleTracker.insuranceLineCode h, LifecycleTracker.planCode h,
           LifecycleTracker.coverageLevel h))
     (LifecycleTracker.healthCoverage d),
   (or_default (element ins 3) [], or_default (element ins 4) [])).

(** The same reading of a member extracted by [extract834Members]. *)
Definition member_view (m : Member.t) :=
  let name get :=
    or_default (match Member.name m with Some n => get n | None => None end)
      [] in
  let birth get :=
    or_default
      (match Member.demographics m with Some d => get d | None => None end)
      [] in
  ((name Name.firstName, name Name.lastName, name Name.id),
   (LifecycleTracker.formatDate (birth Demographics.birthDate),
    birth Demographics.genderCode),
   map (fun h =>
          (or_default (Coverage.insuranceLineCode h) [],
           or_default (Coverage.planCoverageDescription h) [],
           or_default (Coverage.coverageLevelCode h) []))
     (match Member.healthCoverage m with Some hc => hc | None => [] end),
   (or_default (Member.maintenanceTypeCode m) [],
    or_default (Member.maintenanceReasonCode m) [])).

(** The state of the tracker's loop and the state of the extractor's loop
    describe the same members. *)
Definition same_members
    (st : LifecycleTracker.loop_state
            (list (LifecycleTracker.MemberData * EDISegment)))
    (ex : Extract.member_state) : Prop :=
  map call_view (fst (LifecycleTracker.world st)) = map member_view (fst ex)
  /\ match LifecycleTracker.currentMember st, LifecycleTracker.insSegment st,
           snd ex with
     | Some d, Some ins, Some m => call_view (d, ins) = member_view m
     | None, None, None => True
     | _, _, _ => False
     end.

(** Running an arbitrary [processMemberRecord] over a list of calls. *)
Definition run_calls {Store : Type}
    (callee : LifecycleTracker.MemberData -> EDISegment -> EDITransaction ->
              Store * LifecycleTracker.ProcessingResult ->
              (Store * LifecycleTracker.ProcessingResult) * outcome unit)
    (t : EDITransaction)
    (calls : list (LifecycleTracker.MemberData * EDISegment))
    (w : Store * LifecycleTracker.ProcessingResult)
    : Store * LifecycleTracker.ProcessingResult :=
  fold_left (fun w c => fst (callee (fst c) (snd c) t w)) calls w.

(** A [processMemberRecord] that counts its calls in the store and in the
    result. *)
Definition counting_callee (d : LifecycleTracker.MemberData)
    (ins : EDISegment) (t : EDITransaction)
    (w : nat * LifecycleTracker.ProcessingResult)
    : (nat * LifecycleTracker.ProcessingResult) * outcome unit :=
  ((S (fst w),
    LifecycleTracker.mkResult (S (LifecycleTracker.processed (snd w)))
      (LifecycleTracker.errors (snd w)) (LifecycleTracker.warnings (snd w))
      (LifecycleTracker.alerts (snd w))
      (LifecycleTracker.affectedMembers (snd w))),
   Returned tt).

(** A line of a rebuilt file as the tokens its template separates by
    asterisks, and the line that closes them with a tilde. *)
Definition close (row : list jsstring) : jsstring :=
  Rebuild.star row ++ Rebuild.tilde.

(** A row whose tag begins with a code unit that is not white space and
    whose tokens hold no delimiter and no line feed. *)
Definition row_ok (row : list jsstring) : bool :=
  match row with
  | (c :: _) :: _ => negb (isWhiteSpace c) && forallb field_ok row
  | _ => false
  end.

(** What the functions that read a segment look at: tag and elements. *)
Definition row_tokens (seg : EDISegment) : jsstring * list jsstring :=
  (tag seg, elements seg).

(** What the universal parser reads of the closed line of a row. *)
Definition row_read (row : list jsstring) : jsstring * list jsstring :=
  (hd [] row, row ++ [[]]).

(** The rows of the templates of [convertJSONToEDI]. *)
Definition isa_row (isa : Isa.t) : list jsstring :=
  let f get d := or_default (get isa) d in
  [str "ISA"; f Isa.authorizationQualifier (str "00");
   f Isa.authorizationInformation (str "          ");
   f Isa.securityQualifier (str "00");
   f Isa.securityInformation (str "          ");
   f Isa.senderQualifier (str "ZZ");
   padEnd (f Isa.senderId []) 15;
   f Isa.receiverQualifier (str "ZZ");
   padEnd (f Isa.receiverId []) 15;
   f Isa.interchangeDate []; f Isa.interchangeTime []; str "U";
   f Isa.controlVersion (str "00501");
   f Isa.controlNumber (str "000000001");
   f Isa.acknowledgmentRequested (str "0");
   f Isa.testIndicator (str "P"); str ">"].

Definition gs_row (gs : Gs.t) : list jsstring :=
  let f get d := or_default (get gs) d in
  [str "GS"; f Gs.functionalCode (str "BE");
   f Gs.applicationSender []; f Gs.applicationReceiver [];
   f Gs.date []; f Gs.time []; f Gs.groupControlNumber (str "1");
   f Gs.responsibleAgency (str "X");
   f Gs.version (str "005010X220A1")].

Definition st_row (st : St.t) : list jsstring :=
  [str "ST"; or_default (St.transactionSetIdentifier st) (str "834");
   or_default (St.transactionSetControlNumber st) (str "0001")].

Definition bgn_row : list jsstring :=
  [str "BGN"; str "00"; str "ABC123"; str "20241208"; str "1200"; str "ET";
   str "Original"].

Definition ins_row (m : Member.t) : list jsstring :=
  [str "INS"; or_default (Member.memberLevelCode m) (str "Y");
   or_default (Member.relationshipCode m) (str "18");
   or_default (Member.maintenanceTypeCode m) (str "030");
   or_default (Member.maintenanceReasonCode m) (str "AI");
   or_default (Member.benefitStatusCode m) (str "A"); []; []; str "AC"].

Definition name_row (n : Name.t) : list jsstring :=
  [str "NM1"; str "IL"; str "1"; or_default (Name.lastName n) [];
   or_default (Name.firstName n) []; or_default (Name.middleName n) [];
   []; str "34"; or_default (Name.id n) []].

Definition dmg_row (d : Demographics.t) : list jsstring :=
  [str "DMG"; str "D8"; or_default (Demographics.birthDate d) [];
   or_default (Demographics.genderCode d) []].

Definition hd_row (c : Coverage.t) : list jsstring :=
  [str "HD"; or_default (Coverage.maintenanceTypeCode c) (str "030"); [];
   or_default (Coverage.insuranceLineCode c) (str "HLT");
   or_default (Coverage.planCoverageDescription c) [];
   or_default (Coverage.coverageLevelCode c) (str "EMP")].

Definition member_rows (m : Member.t) : list (list jsstring) :=
  [ins_row m]
  ++ match Member.name m with Some n => [name_row n] | None => [] end
  ++ match Member.demographics m with Some d => [dmg_row d] | None => [] end
  ++ map hd_row
       (match Member.healthCoverage m with Some hc => hc | None => [] end).

Definition bpr_row (numberToString : jsnum -> jsstring) (p : Payment.t)
    : list jsstring :=
  let f get d := or_default (get p) d in
  [str "BPR"; f Payment.transactionHandlingCode (str "I");
   Rebuild.number_or_zero numberToString (Payment.monetaryAmount p);
   f Payment.creditDebitFlag (str "C");
   f Payment.paymentMethodCode (str "ACH");
   f Payment.paymentFormatCode (str "CCP"); [];
   f Payment.originatingCompanyId [];
   f Payment.originatingCompanySupplementalCode []; [];
   f Payment.receivingCompanyId [];
   f Payment.receivingCompanySupplementalCode [];
   []; []; []; [];
   f Payment.effectiveEntryDate []].

Definition rmr_row (numberToString : jsnum -> jsstring) (r : Remittance.t)
    : list jsstring :=
  [str "RMR"; or_default (Remittance.referenceQualifier r) (str "PO");
   or_default (Remittance.memberGroupNumber r) [];
   Rebuild.number_or_zero numberToString (Remittance.remittanceAmount r);
   Rebuild.number_or_zero numberToString (Remittance.adjustmentAmount r)].

Definition payment_rows (numberToString : jsnum -> jsstring) (p : Payment.t)
    : list (list jsstring) :=
  bpr_row numberToString p
  :: map (rmr_row numberToString)
       (match Payment.remittanceDetails p with Some rd => rd | None => [] end).

(** The rows between the header and the trailers. *)
Definition format_rows (numberToString : jsnum -> jsstring)
    (json : JSONConversionResult) : list (list jsstring) :=
  match originalFormat json with
  | Known F834 =>
      bgn_row
      :: flat_map member_rows
           (match members json with Some ms => ms | None => [] end)
  | Known F820 =>
      flat_map (payment_rows numberToString)
        (match payments json with Some ps => ps | None => [] end)
  | _ => []
  end.

(** The three trailers; [count] is the number of lines written before
    them. *)
Definition trailer_rows (count : nat) (json : JSONConversionResult)
    : list (list jsstring) :=
  [[str "SE"; nat_to_string (count + 1);
    Rebuild.field (transactionSet json) St.transactionSetControlNumber
      (str "0001")];
   [str "GE"; str "1";
    Rebuild.field (functionalGroup json) Gs.groupControlNumber (str "1")];
   [str "IEA"; str "1";
    Rebuild.field (interchangeControl json) Isa.controlNumber
      (str "000000001")]].

(** Every row written after the [ISA] line for a result that has its three
    header objects. *)
Definition rebuilt_rows (numberToString : jsnum -> jsstring)
    (json : JSONConversionResult) : list (list jsstring) :=
  match functionalGroup json with Some gs => [gs_row gs] | None => [] end
  ++ match transactionSet json with Some st => [st_row st] | None => [] end
  ++ format_rows numberToString json
  ++ trailer_rows (List.length (Rebuild.body_lines numberToString json)) json.

(** The tags the templates write. *)
Definition template_tags : list jsstring :=
  [str "ISA"; str "GS"; str "ST"; str "BGN"; str "INS"; str "NM1";
   str "DMG"; str "HD"; str "BPR"; str "RMR"; str "SE"; str "GE";
   str "IEA"].

(** The written fields of the header objects, of a remittance and of a
    payment are free of delimiters and line feeds. *)
Definition isa_ok (isa : Isa.t) : bool :=
  opt_ok (Isa.authorizationQualifier isa)
  && opt_ok (Isa.authorizationInformation isa)
  && opt_ok (Isa.securityQualifier isa)
  && opt_ok (Isa.securityInformation isa)
  && opt_ok (Isa.senderQualifier isa) && opt_ok (Isa.senderId isa)
  && opt_ok (Isa.receiverQualifier isa) && opt_ok (Isa.receiverId isa)
  && opt_ok (Isa.interchangeDate isa) && opt_ok (Isa.interchangeTime isa)
  && opt_ok (Isa.controlVersion isa) && opt_ok (Isa.controlNumber isa)
  && opt_ok (Isa.acknowledgmentRequested isa)
  && opt_ok (Isa.testIndicator isa).

Definition gs_ok (gs : Gs.t) : bool :=
  opt_ok (Gs.functionalCode gs) && opt_ok (Gs.applicationSender gs)
  && opt_ok (Gs.applicationReceiver gs) && opt_ok (Gs.date gs)
  && opt_ok (Gs.time gs) && opt_ok (Gs.groupControlNumber gs)
  && opt_ok (Gs.responsibleAgency gs) && opt_ok (Gs.version gs).

Definition st_ok (st : St.t) : bool :=
  opt_ok (St.transactionSetIdentifier st)
  && opt_ok (St.transactionSetControlNumber st).

Definition remittance_ok (r : Remittance.t) : bool :=
  opt_ok (Remittance.referenceQualifier r)
  && opt_ok (Remittance.memberGroupNumber r).

Definition payment_ok (p : Payment.t) : bool :=
  opt_ok (Payment.transactionHandlingCode p)
  && opt_ok (Payment.creditDebitFlag p)
  && opt_ok (Payment.paymentMethodCode p)
  && opt_ok (Payment.paymentFormatCode p)
  && opt_ok (Payment.originatingCompanyId p)
  && opt_ok (Payment.originatingCompanySupplementalCode p)
  && opt_ok (Payment.receivingCompanyId p)
  && opt_ok (Payment.receivingCompanySupplementalCode p)
  && opt_ok (Payment.effectiveEntryDate p)
  && forallb remittance_ok
       (match Payment.remittanceDetails p with Some rd => rd | None => [] end).

(** A structured result that has its three header objects and whose
    written fields are all free of delimiters and line feeds. *)
Definition json_ok (json : JSONConversionResult) : bool :=
  match interchangeControl json, functionalGroup json, transactionSet json with
  | Some isa, Some gs, Some st => isa_ok isa && gs_ok gs && st_ok st
  | _, _, _ => false
  end
  && forallb member_ok
       (match members json with Some ms => ms | None => [] end)
  && forallb payment_ok
       (match payments json with Some ps => ps | None => [] end).

(** What a payment has become once its lines are written by
    [reconstruct820Segments] and read again: absent or empty codes are
    replaced by the defaults of the template, and each amount is the
    number its written form is read as, [0] for an amount that was [NaN]
    or zero. *)
Definition rebuilt_amount (numberToString : jsnum -> jsstring) (x : jsnum)
    : jsnum :=
  parseFloat
    (or_default (Some (Rebuild.number_or_zero numberToString x)) (str "0")).

Definition rebuilt_remittance (numberToString : jsnum -> jsstring)
    (r : Remittance.t) : Remittance.t :=
  Remittance.mk
    (Some (or_default (Remittance.referenceQualifier r) (str "PO")))
    (Some (or_default (Remittance.memberGroupNumber r) []))
    (rebuilt_amount numberToString (Remittance.remittanceAmount r))
    (rebuilt_amount numberToString (Remittance.adjustmentAmount r)).

Definition rebuilt_payment (numberToString : jsnum -> jsstring)
    (p : Payment.t) : Payment.t :=
  Payment.mk
    (Some (or_default (Payment.transactionHandlingCode p) (str "I")))
    (rebuilt_amount numberToString (Payment.monetaryAmount p))
    (Some (or_default (Payment.creditDebitFlag p) (str "C")))
    (Some (or_default (Payment.paymentMethodCode p) (str "ACH")))
    (Some (or_default (Payment.paymentFormatCode p) (str "CCP")))
    (Some (or_default (Payment.originatingCompanyId p) []))
    (Some (or_default (Payment.originatingCompanySupplementalCode p) []))
    (Some (or_default (Payment.receivingCompanyId p) []))
    (Some (or_default (Payment.receivingCompanySupplementalCode p) []))
    (Some (or_default (Payment.effectiveEntryDate p) []))
    (Some
       (map (rebuilt_remittance numberToString)
          (match Payment.remittanceDetails p with
           | Some rd => rd
           | None => []
           end))).

(** A segment that holds the tokens the universal parser reads from the
    closed line of a row. *)
Definition row_segment (row : list jsstring) : EDISegment :=
  mkSegment (hd [] row) (row ++ [[]]) (close row) 1 None None None.

(* ================================================================== *)
(** ** EDIViewer.tsx: what the viewer shows of a file                   *)
(* ================================================================== *)

Module EDIViewer.

Import EdiValidator.

(** [Map<number, EDIError[]>]: the entries in insertion order, one for each
    key. *)
Definition LineMap := list (nat * list EDIError).

(** [errorsByLine.get(key)]; [None] is [undefined]. *)
Fixpoint map_get (m : LineMap) (key : nat) : option (list EDIError) :=
  match m with
  | [] => None
  | (k, v) :: rest => if Nat.eqb k key then Some v else map_get rest key
  end.

(** [errorsByLine.has(key)]. *)
Definition map_has (m : LineMap) (key : nat) : bool :=
  match map_get m key with Some _ => true | None => false end.

(** [errorsByLine.set(key, value)]: the value of a key that is there is
    replaced where it stands, a new key goes to the end. *)
Fixpoint map_set (m : LineMap) (key : nat) (value : list EDIError)
    : LineMap :=
  match m with
  | [] => [(key, value)]
  | (k, v) :: rest =>
      if Nat.eqb k key then (k, value) :: rest
      else (k, v) :: map_set rest key value
  end.

(** The callback of the [forEach] that fills [errorsByLine].  Reading
    [lineNumber] of a segment that is [undefined] throws, and so does
    [push] on a missing entry; [push] changes the array the map holds. *)
Definition group_step (m : LineMap) (error : EDIError)
    : EdgeFunction.completion LineMap :=
  match error_segment error with
  | None => EdgeFunction.TypeError
  | Some segment =>
      let lineNumber := lineNumber segment in
      let m1 :=
        if negb (map_has m lineNumber) then map_set m lineNumber [] else m in
      match map_get m1 lineNumber with
      | Some arr => EdgeFunction.Normal (map_set m1 lineNumber (arr ++ [error]))
      | None => EdgeFunction.TypeError
      end
  end.

Fixpoint group (errors : list EDIError) (m : LineMap)
    : EdgeFunction.completion LineMap :=
  match errors with
  | [] => EdgeFunction.Normal m
  | error :: rest =>
      match group_step m error with
      | EdgeFunction.Normal m1 => group rest m1
      | EdgeFunction.TypeError => EdgeFunction.TypeError
      end
  end.

(** The first statements of the component, up to the map of line numbers
    to issues. *)
Definition errorsByLine (content : jsstring)
    : EdgeFunction.completion LineMap :=
  let ediData := EdiParser.parseEDIContent content in
  let validationResult := validateEDITransaction ediData in
  group (result_errors validationResult ++ result_warnings validationResult)
    [].

(** [/^\d+(\.\d+)?$/.test(s)]. *)
Definition decimal_pattern (s : jsstring) : bool :=
  let (ip, rest) := span_digits s in
  truthy ip &&
  match rest with
  | [] => true
  | dot :: fraction =>
      N.eqb dot 46 && truthy fraction && forallb isDigit fraction
  end.

(** [/^[A-Z0-9]+$/.test(s)]. *)
Definition code_pattern (s : jsstring) : bool :=
  truthy s
  && forallb (fun c => (N.leb 65 c && N.leb c 90) || isDigit c) s.

Definition getElementClass (element : jsstring) : jsstring :=
  if all_digits 8 element || all_digits 6 element then str "edi-date"
  else if decimal_pattern element then str "edi-number"
  else if Nat.leb (List.length element) 3 && code_pattern element
  then str "edi-qualifier"
  else str "edi-element".

(** The template [<span class="cls">text</span>]. *)
Definition span (cls text : jsstring) : jsstring :=
  str "<span class=" ++ [34%N] ++ cls ++ [34%N] ++ str ">" ++ text
  ++ str "</span>".

(** The callback of the [map] of [highlightSegmentHTML]. *)
Definition highlight_element (element : jsstring) (index : nat) : jsstring :=
  if Nat.eqb index 0 then span (str "edi-segment") element
  else span (str "edi-separator") (str "*")
       ++ span (getElementClass element) element.

(** [arr.map((x, index) => ...)] from [index] on. *)
Fixpoint map_from {A B} (f : A -> nat -> B) (arr : list A) (index : nat)
    : list B :=
  match arr with
  | [] => []
  | x :: rest => f x index :: map_from f rest (S index)
  end.

(** [highlightSegmentHTML], the string handed to [dangerouslySetInnerHTML];
    [highlightEDISegment] of the legacy parser builds the same string. *)
Definition highlightSegmentHTML (segment : EDISegment) : jsstring :=
  let elements := split_class EdiParser.delimiter (raw segment) in
  join [] (map_from highlight_element elements 0).

End EDIViewer.

(** The issues the viewer has to show on line [ln]: those of the validation
    result, errors before warnings, whose segment carries that number. *)
Definition issues_at (v : EdiValidator.ValidationResult) (ln : nat)
    : list EdiValidator.EDIError :=
  filter
    (fun e =>
       match EdiValidator.error_segment e with
       | Some seg => Nat.eqb (lineNumber seg) ln
       | None => false
       end)
    (EdiValidator.result_errors v ++ EdiValidator.result_warnings v).

(** Every issue of a list refers to a segment. *)
Definition located (issues : list EdiValidator.EDIError) : bool :=
  forallb (fun e => EdgeFunction.present (EdiValidator.error_segment e))
    issues.

(* ================================================================== *)
(** ** ComparisonView.tsx: the segment differences of two files         *)
(* ================================================================== *)

Module ComparisonView.

(** [new Map()] keyed by strings: the entries in insertion order, one for
    each key. *)
Definition SegmentMap := list (jsstring * EDISegment).

Fixpoint map_get (m : SegmentMap) (key : jsstring) : option EDISegment :=
  match m with
  | [] => None
  | (k, v) :: rest => if eqb k key then Some v else map_get rest key
  end.

Fixpoint map_set (m : SegmentMap) (key : jsstring) (value : EDISegment)
    : SegmentMap :=
  match m with
  | [] => [(key, value)]
  | (k, v) :: rest =>
      if eqb k key then (k, value) :: rest
      else (k, v) :: map_set rest key value
  end.

(** [m.keys()]. *)
Definition keys (m : SegmentMap) : list jsstring := map fst m.

(** The template [`${seg.tag}_${seg.lineNumber}`]. *)
Definition segment_key (seg : EDISegment) : jsstring :=
  tag seg ++ str "_" ++ nat_to_string (lineNumber seg).

(** The loop [parsed.segments.forEach(seg => segments.set(key, seg))]. *)
Definition index_segments (segs : list EDISegment) : SegmentMap :=
  fold_left (fun m seg => map_set m (segment_key seg) seg) segs [].

(** [new Set(arr)]: the values in the order they are first met. *)
Definition set_of (arr : list jsstring) : list jsstring :=
  fold_left (fun s x => if array_includes s x then s else s ++ [x]) arr [].

Inductive DiffType := added | removed | modified.

Record SegmentDiff := mkDiff {
  segment : jsstring;
  file1Value : jsstring;
  file2Value : jsstring;
  diff_type : DiffType
}.

(** [seg.elements.join('*')]. *)
Definition values (seg : EDISegment) : jsstring :=
  join (str "*") (elements seg).

(** The callback of [allKeys.forEach]; reading [elements] of a segment that
    neither map holds throws. *)
Definition diff_step (segments1 segments2 : SegmentMap)
    (segmentDiffs : list SegmentDiff) (key : jsstring)
    : EdgeFunction.completion (list SegmentDiff) :=
  match map_get segments1 key, map_get segments2 key with
  | None, Some seg2 =>
      EdgeFunction.Normal
        (segmentDiffs ++ [mkDiff key [] (values seg2) added])
  | None, None => EdgeFunction.TypeError
  | Some seg1, None =>
      EdgeFunction.Normal
        (segmentDiffs ++ [mkDiff key (values seg1) [] removed])
  | Some seg1, Some seg2 =>
      if negb (eqb (values seg1) (values seg2)) then
        EdgeFunction.Normal
          (segmentDiffs ++ [mkDiff key (values seg1) (values seg2) modified])
      else EdgeFunction.Normal segmentDiffs
  end.

Fixpoint diff_keys (segments1 segments2 : SegmentMap)
    (allKeys : list jsstring) (segmentDiffs : list SegmentDiff)
    : EdgeFunction.completion (list SegmentDiff) :=
  match allKeys with
  | [] => EdgeFunction.Normal segmentDiffs
  | key :: rest =>
      match diff_step segments1 segments2 segmentDiffs key with
      | EdgeFunction.Normal diffs => diff_keys segments1 segments2 rest diffs
      | EdgeFunction.TypeError => EdgeFunction.TypeError
      end
  end.

(** The array [segmentDiffs] that [compareFiles] builds from the two
    parsed files, before it is cut to its first hundred entries. *)
Definition segmentDiffs (parsed1 parsed2 : EDITransaction)
    : EdgeFunction.completion (list SegmentDiff) :=
  let segments1 := index_segments (segments parsed1) in
  let segments2 := index_segments (segments parsed2) in
  let allKeys := set_of (keys segments1 ++ keys segments2) in
  diff_keys segments1 segments2 allKeys [].

End ComparisonView.

(** The segments of a list carry their 1-based position as line number. *)
Definition numbered (segs : list EDISegment) : Prop :=
  forall i seg, nth_error segs i = Some seg -> lineNumber seg = i + 1.

(** The value of a run of decimal digits. *)
Definition digits_number (ds : jsstring) : nat :=
  fold_left (fun acc c => 10 * acc + (N.to_nat c - 48)) ds 0.

(* ================================================================== *)
(** ** Strings and splitting                                            *)
(* ================================================================== *)

Lemma eqb_eq : forall a b, eqb a b = true <-> a = b.
Proof.
  induction a as [|x a IH]; destruct b as [|y b]; simpl; split;
    try discriminate; try reflexivity.
  - intros H. apply andb_true_iff in H. destruct H as [Hx Hab].
    apply N.eqb_eq in Hx. apply IH in Hab. congruence.
  - intros H. injection H as -> ->. rewrite N.eqb_refl. simpl.
    apply IH. reflexivity.
Qed.

Lemma eqb_refl : forall a, eqb a a = true.
Proof. intros a. apply eqb_eq. reflexivity. Qed.

Lemma truthy_not_empty : forall s, truthy s = negb (eqb s []).
Proof. destruct s; reflexivity. Qed.

Lemma filter_twice : forall (A : Type) (f : A -> bool) (l : list A),
  filter f (filter f l) = filter f l.
Proof.
  intros A f l. induction l as [|x l IH]; simpl; [reflexivity|].
  destruct (f x) eqn:E; simpl; rewrite ?E, IH; reflexivity.
Qed.

Lemma split_class_cons : forall d s,
  exists t ts, split_class d s = t :: ts.
Proof.
  intros d s. destruct s as [|c s]; simpl.
  - eauto.
  - destruct (d c); [eauto|].
    destruct (split_class d s); eauto.
Qed.

Lemma split_class_delimiter_free : forall d s,
  delimiter_free d s = true -> split_class d s = [s].
Proof.
  intros d s. induction s as [|c s IH]; simpl; intros H; [reflexivity|].
  apply andb_true_iff in H. destruct H as [Hc Hs].
  apply negb_true_iff in Hc. rewrite Hc, (IH Hs). reflexivity.
Qed.

(** The tag read by [elements[0] || ''] is the first token, whatever it
    is: an empty first token is replaced by the empty string. *)
Lemma first_token_or_default : forall (t : jsstring) ts,
  or_default (at_index (t :: ts) 0) [] = t.
Proof. intros [|c t] ts; reflexivity. Qed.

Lemma tag_inclusive_split : forall d s index def v e,
  tag_inclusive d
    (mkSegment (or_default (at_index (split_class d s) 0) [])
       (split_class d s) s index def v e).
Proof.
  intros d s index def v e. unfold tag_inclusive.
  cbn [elements tag raw].
  destruct (split_class_cons d s) as (t & ts & E). rewrite E.
  rewrite first_token_or_default. split; reflexivity.
Qed.

(* ================================================================== *)
(** ** The loop of the tokenizers                                       *)
(* ================================================================== *)

Section Loop.

Variable St : Type.
Variable segs_of : St -> list EDISegment.
Variable step : St -> jsstring -> nat -> St.
Variable mk : nat -> jsstring -> EDISegment.

Hypothesis step_pushes : forall st line index,
  segs_of (step st line index)
  = segs_of st ++ (if truthy (trim line) then [mk index line] else []).

Lemma forEach_from_pushed : forall lines index st,
  segs_of (forEach_from step lines index st)
  = segs_of st ++ pushed mk lines index.
Proof.
  induction lines as [|line lines IH]; intros index st; simpl.
  - rewrite app_nil_r. reflexivity.
  - rewrite IH, step_pushes, <- app_assoc. reflexivity.
Qed.

End Loop.

Lemma pushed_length : forall mk lines index,
  List.length (pushed mk lines index)
  = List.length (filter (fun line => truthy (trim line)) lines).
Proof.
  intros mk lines. induction lines as [|line lines IH]; intros index; simpl.
  - reflexivity.
  - destruct (truthy (trim line)); simpl; rewrite IH; reflexivity.
Qed.

(** On an array that holds no blank line the guard never fires: the
    segments are the lines in order, numbered by their position. *)
Lemma pushed_retained : forall mk lines index,
  forallb (fun line => truthy (trim line)) lines = true ->
  pushed mk lines index
  = map (fun p => mk (fst p) (snd p))
      (combine (seq index (List.length lines)) lines).
Proof.
  intros mk lines. induction lines as [|line lines IH]; intros index H; simpl.
  - reflexivity.
  - simpl in H. apply andb_true_iff in H. destruct H as [Hl Hr].
    rewrite Hl. simpl. rewrite (IH (S index) Hr). reflexivity.
Qed.

Lemma retained_lines_nonblank : forall content,
  forallb (fun line => truthy (trim line)) (retained_lines content) = true.
Proof.
  intros content. unfold retained_lines. apply forallb_forall.
  intros line H. apply filter_In in H. tauto.
Qed.

Lemma legacy_step : forall st line index,
  EdiParser.st_segments (EdiParser.parse_line st line index)
  = EdiParser.st_segments st
    ++ (if truthy (trim line) then [legacy_segment index line] else []).
Proof.
  intros st line index. unfold EdiParser.parse_line.
  destruct (truthy (trim line)); simpl.
  - reflexivity.
  - rewrite app_nil_r. reflexivity.
Qed.

Lemma universal_step : forall st line index,
  Universal.st_segments (Universal.parse_line st line index)
  = Universal.st_segments st
    ++ (if truthy (trim line) then [universal_segment index line] else []).
Proof.
  intros st line index. unfold Universal.parse_line.
  destruct (truthy (trim line)); simpl.
  - reflexivity.
  - rewrite app_nil_r. reflexivity.
Qed.

Lemma legacy_segments : forall content,
  segments (EdiParser.parseEDIContent content)
  = pushed legacy_segment (retained_lines content) 0.
Proof.
  intros content. unfold EdiParser.parseEDIContent, forEach. simpl.
  rewrite (forEach_from_pushed EdiParser.st_segments EdiParser.parse_line
             legacy_segment legacy_step).
  reflexivity.
Qed.

Lemma universal_segments : forall content,
  segments (Universal.parseEDIContent content)
  = pushed universal_segment (retained_lines content) 0.
Proof.
  intros content. unfold Universal.parseEDIContent, forEach. simpl.
  rewrite (forEach_from_pushed Universal.st_segments Universal.parse_line
             universal_segment universal_step).
  reflexivity.
Qed.

Lemma tokenize_pushed : forall k content,
  exists mk,
    tokenize k content = pushed mk (retained_lines content) 0
    /\ forall index line,
         raw (mk index line) = trim line
         /\ lineNumber (mk index line) = index + 1
         /\ tag_inclusive (delimiter_of k) (mk index line).
Proof.
  intros [|] content.
  - exists legacy_segment. split; [apply legacy_segments|].
    intros index line. repeat split; try reflexivity;
      apply (tag_inclusive_split EdiParser.delimiter (trim line)).
  - exists universal_segment. split; [apply universal_segments|].
    intros index line. repeat split; try reflexivity;
      apply (tag_inclusive_split Universal.delimiter (trim line)).
Qed.

Lemma pushed_In : forall mk lines index seg,
  In seg (pushed mk lines index) ->
  exists i line, seg = mk i line /\ truthy (trim line) = true.
Proof.
  intros mk lines. induction lines as [|line lines IH]; intros index seg H;
    simpl in H.
  - contradiction.
  - apply in_app_or in H. destruct H as [H|H].
    + destruct (truthy (trim line)) eqn:E; simpl in H; [|contradiction].
      destruct H as [<-|[]]. eauto.
    + eapply IH. eassumption.
Qed.

Lemma tokenize_tag_inclusive : forall k content seg,
  In seg (tokenize k content) -> tag_inclusive (delimiter_of k) seg.
Proof.
  intros k content seg H.
  destruct (tokenize_pushed k content) as (mk & E & Hmk).
  rewrite E in H. apply pushed_In in H. destruct H as (i & line & -> & _).
  apply Hmk.
Qed.

Lemma map_fst_combine_seq : forall (A : Type) (l : list A) index,
  map fst (combine (seq index (List.length l)) l) = seq index (List.length l).
Proof.
  intros A l. induction l as [|x l IH]; intros index; simpl.
  - reflexivity.
  - rewrite IH. reflexivity.
Qed.

Lemma map_snd_combine_seq : forall (A : Type) (l : list A) index,
  map snd (combine (seq index (List.length l)) l) = l.
Proof.
  intros A l. induction l as [|x l IH]; intros index; simpl.
  - reflexivity.
  - rewrite IH. reflexivity.
Qed.

(* ================================================================== *)
(** ** Tokenization                                                     *)
(* ================================================================== *)

(** C7.  Tokenization is a total function of the input string, and the
    number of segments it produces is the number of lines of the input that
    are not blank after trimming; this holds for both parsers. *)
Theorem tokenization_total_length : forall k content,
  List.length (tokenize k content) = nonblank_count content.
Proof.
  intros k content.
  destruct (tokenize_pushed k content) as (mk & E & _). rewrite E.
  rewrite pushed_length. unfold retained_lines, nonblank_count.
  rewrite filter_twice. f_equal. apply filter_ext.
  intros line. apply truthy_not_empty.
Qed.

(** The empty string, a string of white space only and an unterminated last
    line are covered: no segment, no segment, one segment. *)
Example tokenization_edge_inputs :
  tokenize UniversalParser [] = []
  /\ tokenize UniversalParser (str "  " ++ newline ++ [9%N; 13%N; 10%N] ++ str " ") = []
  /\ map raw (tokenize UniversalParser (str "ST*834" ++ newline ++ str "SE*1")) 
     = [str "ST*834"; str "SE*1"]
  /\ tokenize LegacyParser [] = [].
Proof. repeat split; reflexivity. Qed.

(** C9, as stated, fails: after a blank first line the segment [ISA*00]
    stands on line 2 of the input and is numbered 1. *)
Lemma lineNumber_not_unfiltered_index :
  exists seg,
    tokenize UniversalParser blank_then_isa = [seg]
    /\ split_lines blank_then_isa = [[]; raw seg]
    /\ lineNumber seg = 1
    /\ ~ at_unfiltered_index blank_then_isa seg.
Proof.
  eexists. split; [reflexivity|]. split; [reflexivity|].
  split; [reflexivity|].
  intros (line & Hnth & Htrim). vm_compute in Hnth.
  injection Hnth as <-. vm_compute in Htrim. discriminate.
Qed.

(** C9, amended.  The array the loop iterates is the filtered one, so the
    line number of a segment is its 1-based position among the retained
    (non-blank) lines, and its raw text is that line trimmed. *)
Theorem lineNumber_is_retained_position : forall k content,
  map lineNumber (tokenize k content)
  = seq 1 (List.length (retained_lines content))
  /\ map raw (tokenize k content) = map trim (retained_lines content).
Proof.
  intros k content.
  destruct (tokenize_pushed k content) as (mk & E & Hmk). rewrite E.
  rewrite (pushed_retained mk _ 0 (retained_lines_nonblank content)).
  rewrite !map_map. split.
  - rewrite (map_ext _ (fun p => S (fst p))).
    + rewrite <- (map_map fst S), map_fst_combine_seq, seq_shift.
      reflexivity.
    + intros [i line]. simpl. destruct (Hmk i line) as (_ & -> & _). lia.
  - rewrite (map_ext _ (fun p => trim (snd p))).
    + rewrite <- (map_map snd trim), map_snd_combine_seq. reflexivity.
    + intros [i line]. simpl. destruct (Hmk i line) as (-> & _). reflexivity.
Qed.

(** C1, as stated, fails: for the line [ISA], a tag without a delimiter,
    [elements] is not empty but holds the tag, and the tag followed by
    [elements] repeats the first token of the split. *)
Lemma elements_do_not_exclude_tag :
  exists seg,
    tokenize UniversalParser (str "ISA") = [seg]
    /\ delimiter_free Universal.delimiter (raw seg) = true
    /\ elements seg = [str "ISA"]
    /\ elements seg <> []
    /\ tag seg :: elements seg <> split_class Universal.delimiter (raw seg).
Proof.
  eexists. split; [reflexivity|]. repeat split; try reflexivity;
    vm_compute; discriminate.
Qed.

(** C1, amended.  For every segment either tokenizer produces, [elements]
    is the whole split of the raw line by the delimiter class, in order and
    with empty tokens kept; the tag is its first token, so the tokens that
    follow the tag are the tail of [elements]; a line holding only a tag
    yields [elements] holding only that tag. *)
Theorem elements_are_the_whole_split : forall k content seg,
  In seg (tokenize k content) ->
  elements seg = split_class (delimiter_of k) (raw seg)
  /\ tag seg :: tl (elements seg) = split_class (delimiter_of k) (raw seg)
  /\ (delimiter_free (delimiter_of k) (raw seg) = true ->
      tag seg = raw seg /\ elements seg = [tag seg]).
Proof.
  intros k content seg H.
  destruct (tokenize_tag_inclusive k content seg H) as [Hsplit Hhead].
  split; [exact Hsplit|]. split; [congruence|].
  intros Hfree. rewrite (split_class_delimiter_free _ _ Hfree) in Hsplit.
  rewrite Hsplit in Hhead. injection Hhead as Htag.
  rewrite Hsplit, <- Htag. split; reflexivity.
Qed.

Lemma elements_are_the_whole_split_witness :
  let seg := universal_segment 0 (str "ISA") in
  In seg (tokenize UniversalParser (str "ISA"))
  /\ elements seg = split_class Universal.delimiter (raw seg)
  /\ tag seg :: tl (elements seg) = split_class Universal.delimiter (raw seg)
  /\ tag seg = raw seg
  /\ elements seg = [tag seg].
Proof.
  intros seg.
  assert (Hin : In seg (tokenize UniversalParser (str "ISA"))).
  { left. reflexivity. }
  destruct (elements_are_the_whole_split UniversalParser (str "ISA") seg Hin)
    as (H1 & H2 & H3).
  split; [exact Hin|]. split; [exact H1|]. split; [exact H2|].
  apply H3. reflexivity.
Defined.

Lemma Forall_of_In : forall (A : Type) (P : A -> Prop) (l : list A),
  (forall x, In x l -> P x) -> Forall P l.
Proof. intros A P l H. apply Forall_forall. exact H. Qed.

(* ================================================================== *)
(** ** Extraction                                                       *)
(* ================================================================== *)

Lemma push_current_app : forall (A : Type) (pre done : list A) current,
  Extract.push_current (pre ++ done) current
  = pre ++ Extract.push_current done current.
Proof.
  intros A pre done [c|]; simpl; [rewrite app_assoc|]; reflexivity.
Qed.

(** A step that rewrites the current entity in place leaves the fields
    taken from the start segment as they were. *)
Ltac current_updated :=
  cbn [fst snd Extract.push_current]; rewrite ?map_app; reflexivity.

Lemma member_step_fields : forall st seg,
  map ins_fields
    (Extract.push_current (fst (Extract.member_step st seg))
       (snd (Extract.member_step st seg)))
  = map ins_fields (Extract.push_current (fst st) (snd st))
    ++ (if is_tag "INS" seg then [ins_elements seg] else []).
Proof.
  intros [done cur] seg. unfold Extract.member_step, is_tag.
  destruct (eqb (tag seg) (str "INS")); [current_updated|].
  rewrite app_nil_r.
  destruct (eqb (tag seg) (str "NM1")).
  { destruct cur as [m|]; [|reflexivity].
    destruct (opt_eqb (element seg 1) (Some (str "IL")));
      [current_updated|reflexivity]. }
  destruct (eqb (tag seg) (str "DMG")).
  { destruct cur as [m|]; [current_updated|reflexivity]. }
  destruct (eqb (tag seg) (str "HD")).
  { destruct cur as [m|]; [current_updated|reflexivity]. }
  reflexivity.
Qed.

Lemma member_fold_fields : forall segs st,
  let st' := fold_left Extract.member_step segs st in
  map ins_fields (Extract.push_current (fst st') (snd st'))
  = map ins_fields (Extract.push_current (fst st) (snd st))
    ++ map ins_elements (filter (is_tag "INS") segs).
Proof.
  induction segs as [|seg segs IH]; intros st; simpl.
  - rewrite app_nil_r. reflexivity.
  - rewrite IH, member_step_fields, <- app_assoc. f_equal.
    destruct (is_tag "INS" seg); reflexivity.
Qed.

Lemma extract834Members_unfold : forall segs,
  Extract.extract834Members segs
  = Extract.push_current
      (fst (fold_left Extract.member_step segs ([], None)))
      (snd (fold_left Extract.member_step segs ([], None))).
Proof.
  intros segs. unfold Extract.extract834Members.
  destruct (fold_left Extract.member_step segs ([], None)). reflexivity.
Qed.

Lemma payment_step_fields : forall st seg,
  map without_details
    (Extract.push_current (fst (Extract.payment_step st seg))
       (snd (Extract.payment_step st seg)))
  = map without_details (Extract.push_current (fst st) (snd st))
    ++ (if is_tag "BPR" seg then [payment_of seg []] else []).
Proof.
  intros [done cur] seg. unfold Extract.payment_step, is_tag.
  destruct (eqb (tag seg) (str "BPR")); [current_updated|].
  rewrite app_nil_r.
  destruct (eqb (tag seg) (str "RMR")); [|reflexivity].
  destruct cur as [p|]; [current_updated|reflexivity].
Qed.

Lemma payment_fold_fields : forall segs st,
  let st' := fold_left Extract.payment_step segs st in
  map without_details (Extract.push_current (fst st') (snd st'))
  = map without_details (Extract.push_current (fst st) (snd st))
    ++ map (fun seg => payment_of seg []) (filter (is_tag "BPR") segs).
Proof.
  induction segs as [|seg segs IH]; intros st; simpl.
  - rewrite app_nil_r. reflexivity.
  - rewrite IH, payment_step_fields, <- app_assoc. f_equal.
    destruct (is_tag "BPR" seg); reflexivity.
Qed.

Lemma extract820Payments_unfold : forall segs,
  Extract.extract820Payments segs
  = Extract.push_current
      (fst (fold_left Extract.payment_step segs ([], None)))
      (snd (fold_left Extract.payment_step segs ([], None))).
Proof.
  intros segs. unfold Extract.extract820Payments.
  destruct (fold_left Extract.payment_step segs ([], None)). reflexivity.
Qed.

(** C8.  Member extraction yields one member per [INS] segment, in the
    order of the segments and each exactly once: the fields the members
    hold from their start segment are those of the [INS] segments of the
    stream, so there are as many members as [INS] segments (three for
    three, none for none).  Payment extraction does the same with [BPR]. *)
Theorem one_entity_per_start_segment : forall segs,
  map ins_fields (Extract.extract834Members segs)
  = map ins_elements (filter (is_tag "INS") segs)
  /\ List.length (Extract.extract834Members segs)
     = List.length (filter (is_tag "INS") segs)
  /\ map without_details (Extract.extract820Payments segs)
     = map (fun seg => payment_of seg []) (filter (is_tag "BPR") segs)
  /\ List.length (Extract.extract820Payments segs)
     = List.length (filter (is_tag "BPR") segs).
Proof.
  intros segs.
  assert (Hm : map ins_fields (Extract.extract834Members segs)
               = map ins_elements (filter (is_tag "INS") segs)).
  { rewrite extract834Members_unfold.
    apply (member_fold_fields segs ([], None)). }
  assert (Hp : map without_details (Extract.extract820Payments segs)
               = map (fun seg => payment_of seg [])
                   (filter (is_tag "BPR") segs)).
  { rewrite extract820Payments_unfold.
    apply (payment_fold_fields segs ([], None)). }
  split; [exact Hm|]. split.
  - rewrite <- (length_map ins_fields), Hm, length_map. reflexivity.
  - split; [exact Hp|].
    rewrite <- (length_map without_details), Hp, length_map. reflexivity.
Qed.

(** Three [INS] segments among others give three members, and a stream
    without [INS] gives none. *)
Example three_members :
  List.length
    (Extract.extract834Members
       (tokenize UniversalParser
          (join newline
             [str "ST*834*0001"; str "INS*Y*18"; str "NM1*IL*1*SMITH*JOHN";
              str "INS*N*01"; str "DMG*D8*19880420*F"; str "INS*N*19";
              str "SE*7*0001"]))) = 3
  /\ Extract.extract834Members
       (tokenize UniversalParser (join newline [str "ST*834*0001"; str "SE*2*0001"]))
     = [].
Proof. split; reflexivity. Qed.

Lemma payment_step_prefix : forall pre done cur seg,
  Extract.payment_step (pre ++ done, cur) seg
  = (pre ++ fst (Extract.payment_step (done, cur) seg),
     snd (Extract.payment_step (done, cur) seg)).
Proof.
  intros pre done cur seg. unfold Extract.payment_step.
  destruct (eqb (tag seg) (str "BPR")).
  - cbn [fst snd]. rewrite push_current_app. reflexivity.
  - destruct (eqb (tag seg) (str "RMR")); [|reflexivity].
    destruct cur; reflexivity.
Qed.

Lemma payment_fold_prefix : forall segs pre done cur,
  fold_left Extract.payment_step segs (pre ++ done, cur)
  = (pre ++ fst (fold_left Extract.payment_step segs (done, cur)),
     snd (fold_left Extract.payment_step segs (done, cur))).
Proof.
  induction segs as [|seg segs IH]; intros pre done cur; cbn [fold_left].
  - reflexivity.
  - rewrite payment_step_prefix.
    destruct (Extract.payment_step (done, cur) seg) as [done1 cur1].
    cbn [fst snd]. apply IH.
Qed.

Lemma payment_step_start : forall done cur seg,
  is_tag "BPR" seg = true ->
  Extract.payment_step (done, cur) seg
  = (Extract.push_current done cur, Some (payment_of seg [])).
Proof.
  intros done cur seg H. unfold Extract.payment_step.
  unfold is_tag in H. rewrite H. reflexivity.
Qed.

(** A [BPR] segment closes whatever precedes it: the payments of a stream
    are those of the part before the segment followed by those of the part
    that starts with it. *)
Lemma extract820Payments_app : forall pre b post,
  is_tag "BPR" b = true ->
  Extract.extract820Payments (pre ++ b :: post)
  = Extract.extract820Payments pre ++ Extract.extract820Payments (b :: post).
Proof.
  intros pre b post Hb. rewrite !extract820Payments_unfold.
  rewrite fold_left_app. cbn [fold_left].
  destruct (fold_left Extract.payment_step pre ([], None)) as [done cur].
  rewrite !(payment_step_start _ _ _ Hb). cbn [fst snd Extract.push_current].
  rewrite <- (app_nil_r (Extract.push_current done cur)) at 1 2.
  rewrite payment_fold_prefix. cbn [fst snd].
  rewrite push_current_app. reflexivity.
Qed.

Lemma payment_fold_details : forall run b ds,
  existsb (is_tag "BPR") run = false ->
  fold_left Extract.payment_step run ([], Some (payment_of b ds))
  = ([], Some (payment_of b
                 (ds ++ map remittance_of (filter (is_tag "RMR") run)))).
Proof.
  induction run as [|seg run IH]; intros b ds H; cbn [fold_left filter].
  - simpl. rewrite app_nil_r. reflexivity.
  - simpl in H. apply orb_false_iff in H. destruct H as [Hseg Hrun].
    unfold Extract.payment_step at 2. unfold is_tag in Hseg. rewrite Hseg.
    unfold is_tag at 1.
    destruct (eqb (tag seg) (str "RMR")).
    + change (Some (Payment.mk _ _ _ _ _ _ _ _ _ _ _))
        with (Some (payment_of b (ds ++ [remittance_of seg]))).
      rewrite (IH b _ Hrun). cbn [map]. rewrite <- app_assoc. reflexivity.
    + apply (IH b ds Hrun).
Qed.

(** A [BPR] segment followed by no other one starts a single payment whose
    details are the [RMR] segments after it. *)
Lemma extract820Payments_single : forall b run,
  is_tag "BPR" b = true ->
  existsb (is_tag "BPR") run = false ->
  Extract.extract820Payments (b :: run)
  = [payment_of b (map remittance_of (filter (is_tag "RMR") run))].
Proof.
  intros b run Hb Hrun. rewrite extract820Payments_unfold. cbn [fold_left].
  rewrite (payment_step_start _ _ _ Hb). cbn [Extract.push_current].
  rewrite (payment_fold_details run b [] Hrun). reflexivity.
Qed.

Lemma amount_missing : forall seg i,
  opt_truthy (element seg i) = false -> Extract.amount seg i = Num.zero.
Proof.
  intros seg i H. unfold Extract.amount.
  destruct (element seg i) as [[|c s]|]; try reflexivity.
  discriminate.
Qed.

Lemma parseFloat_not_numeric : forall c rest,
  numeric_start c = false -> parseFloat (c :: rest) = NaN.
Proof.
  intros c rest H. unfold numeric_start in H.
  apply orb_false_iff in H. destruct H as [H HI].
  apply orb_false_iff in H. destruct H as [H Hdot].
  apply orb_false_iff in H. destruct H as [H Hminus].
  apply orb_false_iff in H. destruct H as [H Hplus].
  apply orb_false_iff in H. destruct H as [Hws Hdigit].
  unfold parseFloat. cbn [trimStart]. rewrite Hws.
  unfold read_sign. rewrite Hminus, Hplus.
  assert (Hinf : startsWith (str "Infinity") (c :: rest) = false).
  { change (str "Infinity") with (73%N :: str "nfinity").
    cbn [startsWith]. rewrite N.eqb_sym, HI. reflexivity. }
  rewrite Hinf. cbn [span_digits]. rewrite Hdigit, Hdot. reflexivity.
Qed.

(** C6, as stated, fails on a non-numeric amount: the payment extracted
    from an 820 file whose [BPR] line is [BPR*C*abc*C*ACH] has the amount
    [NaN], and so have the two amounts of a remittance line whose fields
    are not numbers. *)
Lemma non_numeric_amount_is_NaN :
  let json :=
    Extract.convertEDIToJSON
      (Universal.parseEDIContent
         (join newline
            [str "ST*820*0002~"; str "BPR*C*abc*C*ACH";
             str "RMR*IV*INV1*n/a*none"])) in
  originalFormat json = Known F820
  /\ option_map (map Payment.monetaryAmount) (payments json) = Some [NaN]
  /\ option_map (map Payment.remittanceDetails) (payments json)
     = Some
         [Some [Remittance.mk (Some (str "IV")) (Some (str "INV1")) NaN NaN]]
  /\ NaN <> Num.zero.
Proof.
  split; [reflexivity|]. split; [reflexivity|]. split; [reflexivity|].
  discriminate.
Qed.

(** C6, amended.  An amount element that is missing or empty extracts as
    [0]; an element that does not begin like a number extracts as [NaN];
    in no case is an error raised, and the entities of the rest of the
    stream are extracted as they would be without what precedes them: a
    [BPR] segment starts a payment of its own, whose details are the [RMR]
    segments up to the next [BPR]. *)
Theorem amounts_and_later_entities :
  (forall seg i,
     opt_truthy (element seg i) = false -> Extract.amount seg i = Num.zero)
  /\ (forall seg i c rest,
        element seg i = Some (c :: rest) -> numeric_start c = false ->
        Extract.amount seg i = NaN)
  /\ (forall pre b post,
        is_tag "BPR" b = true ->
        Extract.extract820Payments (pre ++ b :: post)
        = Extract.extract820Payments pre
          ++ Extract.extract820Payments (b :: post))
  /\ (forall b run,
        is_tag "BPR" b = true ->
        existsb (is_tag "BPR") run = false ->
        Extract.extract820Payments (b :: run)
        = [payment_of b (map remittance_of (filter (is_tag "RMR") run))]).
Proof.
  split; [exact amount_missing|]. split.
  - intros seg i c rest E H. unfold Extract.amount. rewrite E.
    cbn [or_default truthy]. apply parseFloat_not_numeric. exact H.
  - split; [exact extract820Payments_app|exact extract820Payments_single].
Qed.

Lemma amounts_and_later_entities_witness :
  let missing := segment_with "BPR" [str "BPR"; str "C"] in
  let empty := segment_with "BPR" [str "BPR"; str "C"; []; str "C"] in
  let bad := segment_with "BPR" [str "BPR"; str "C"; str "abc"] in
  let good := segment_with "BPR" [str "BPR"; str "C"; str "125000.00"] in
  let rmr := segment_with "RMR" [str "RMR"; str "IV"; str "INV1"; []; str "7"] in
  Extract.amount missing 2 = Num.zero
  /\ Extract.amount empty 2 = Num.zero
  /\ Extract.amount bad 2 = NaN
  /\ Extract.extract820Payments ([bad; rmr] ++ good :: [rmr])
     = Extract.extract820Payments [bad; rmr]
       ++ Extract.extract820Payments (good :: [rmr])
  /\ Extract.extract820Payments (good :: [rmr])
     = [payment_of good (map remittance_of (filter (is_tag "RMR") [rmr]))].
Proof.
  intros missing empty bad good rmr.
  destruct amounts_and_later_entities as (H1 & H2 & H3 & H4).
  split; [apply H1; reflexivity|].
  split; [apply H1; reflexivity|].
  split; [apply (H2 bad 2 97%N (str "bc")); reflexivity|].
  split; [apply H3; reflexivity|].
  apply H4; reflexivity.
Defined.

(* ================================================================== *)
(** ** Validation                                                       *)
(* ================================================================== *)

Lemma fold_left_push : forall (A B : Type) (test : A -> bool) (f : A -> B)
    (l : list A) (acc : list B),
  fold_left (fun errs x => if test x then errs ++ [f x] else errs) l acc
  = acc ++ map f (filter test l).
Proof.
  intros A B test f l. induction l as [|x l IH]; intros acc; simpl.
  - rewrite app_nil_r. reflexivity.
  - rewrite IH. destruct (test x); simpl; [rewrite <- app_assoc|];
      reflexivity.
Qed.

(** C2: what the code does on the sample.  Read by the legacy parser, the
    parser whose transactions the validator receives, the two lines are of
    unknown type, the envelope check and the control-number check add no
    issue, but the required-segment pass reports six segments of the 820
    list as missing and the result is not valid.  Read by the universal
    parser, whose delimiter class contains the circumflex of the ISA
    segment, element 13 of [ISA] is the version [00501] and the
    control-number check reports a mismatch as well. *)
Theorem sample_envelope_validation :
  let t := EdiParser.parseEDIContent sample_envelope in
  EdiParser.detectEDIType sample_envelope = Unknown
  /\ Universal.detectEDIFormat sample_envelope = Unknown
  /\ map tag (segments t) = [str "ISA"; str "IEA"]
  /\ EdiValidator.validateSegmentSequence t [] = []
  /\ (map (fun s => element s 13) (segments t),
      map (fun s => element s 2) (segments t))
     = ([Some (str "000000001"); None],
        [Some (str "          "); Some (str "000000001")])
  /\ EdiValidator.validateControlNumbers t [] = []
  /\ map EdiValidator.error_id (EdiValidator.validateRequiredSegments t [])
     = [str "missing-GS"; str "missing-ST"; str "missing-BPR";
        str "missing-N1"; str "missing-SE"; str "missing-GE"]
  /\ map EdiValidator.error_type (EdiValidator.validateRequiredSegments t [])
     = repeat EdiValidator.critical 6
  /\ EdiValidator.result_isValid (EdiValidator.validateEDITransaction t)
     = false
  /\ EdiValidator.totalIssues (EdiValidator.validateEDITransaction t) = 6
  /\ map (fun s => element s 13)
       (segments (Universal.parseEDIContent sample_envelope))
     = [Some (str "00501"); None]
  /\ map EdiValidator.error_id
       (EdiValidator.validateControlNumbers
          (Universal.parseEDIContent sample_envelope) [])
     = [str "control-number-mismatch"].
Proof. vm_compute. repeat split. Qed.

(** C3: what the code does.  For a transaction of unknown type the
    required-segment pass uses the list of the 820 format: it reports one
    critical issue for every tag of that list the transaction lacks.  For
    the one-line file [ISA*00], of unknown type, these are seven issues,
    the third of which says that unknown transactions must include a
    [BPR] segment. *)
Theorem unknown_type_uses_820_list : forall segs md stats ctx,
  let t := mkTransaction Unknown segs md stats ctx in
  let lone := EdiParser.parseEDIContent (str "ISA*00") in
  EdiValidator.requiredSegments (type t) = EdiValidator.REQUIRED_820_SEGMENTS
  /\ EdiValidator.validateRequiredSegments t []
     = map (EdiValidator.missing_error t)
         (filter (fun required => negb (array_includes (map tag segs) required))
            EdiValidator.REQUIRED_820_SEGMENTS)
  /\ type lone = Unknown
  /\ map EdiValidator.error_id (EdiValidator.validateRequiredSegments lone [])
     = [str "missing-GS"; str "missing-ST"; str "missing-BPR";
        str "missing-N1"; str "missing-SE"; str "missing-GE";
        str "missing-IEA"]
  /\ map EdiValidator.error_type
       (EdiValidator.validateRequiredSegments lone [])
     = repeat EdiValidator.critical 7
  /\ option_map EdiValidator.description
       (nth_error (EdiValidator.validateRequiredSegments lone []) 2)
     = Some (str "EDI unknown transactions must include a BPR segment").
Proof.
  intros segs md stats ctx t lone. split; [reflexivity|]. split.
  - unfold EdiValidator.validateRequiredSegments.
    rewrite (fold_left_push
               (fun required =>
                  negb (array_includes (map tag (segments t)) required))
               (EdiValidator.missing_error t)).
    reflexivity.
  - vm_compute. repeat split.
Qed.

(* ================================================================== *)
(** ** Reconstruction                                                   *)
(* ================================================================== *)

(** C4: what the code does.  The member of the sample is extracted with
    the id [987654321] read from element 9 of its [NM1] segment.  The
    reconstructed [NM1] line carries the id one position earlier, so the
    second extraction reads an empty id, the id as id qualifier and the
    qualifier [34] as suffix; the name parts before them are kept. *)
Theorem member_id_lost_on_round_trip : forall numberToString,
  let first := Extract.convertEDIToJSON (Universal.parseEDIContent sample_834) in
  let again := Rebuild.roundtrip numberToString sample_834 in
  originalFormat first = Known F834
  /\ originalFormat again = Known F834
  /\ member_name_field Name.lastName first = [Some (str "SMITH")]
  /\ member_name_field Name.lastName again = [Some (str "SMITH")]
  /\ member_name_field Name.firstName again = [Some (str "JOHN")]
  /\ member_name_field Name.id first = [Some (str "987654321")]
  /\ member_name_field Name.id again = [Some []]
  /\ member_name_field Name.idQualifier first = [Some (str "34")]
  /\ member_name_field Name.idQualifier again = [Some (str "987654321")]
  /\ member_name_field Name.suffix first = [Some []]
  /\ member_name_field Name.suffix again = [Some (str "34")]
  /\ nth_error
       (split_lines
          (Rebuild.convertJSONToEDI numberToString first)) 5
     = Some (str "NM1*IL*1*SMITH*JOHN*A**34*987654321~").
Proof. intros numberToString. vm_compute. repeat split. Qed.

(** A second loss on the same path: a payment file recognised by its
    [BPR] and [RMR] segments, without an [ST] header, is reconstructed
    with the default header [ST*834], is read again as an 834 and keeps
    none of its payments. *)
Lemma payments_lost_without_header : forall numberToString,
  let first :=
    Extract.convertEDIToJSON (Universal.parseEDIContent sample_820_no_header) in
  let again := Rebuild.roundtrip numberToString sample_820_no_header in
  originalFormat first = Known F820
  /\ payment_count first = 1
  /\ originalFormat again = Known F834
  /\ payment_count again = 0.
Proof. intros numberToString. vm_compute. repeat split. Qed.

(* ================================================================== *)
(** ** Further properties: lines, trimming and tokens                   *)
(* ================================================================== *)

Lemma trimStart_head : forall s c rest,
  trimStart s = c :: rest -> isWhiteSpace c = false.
Proof.
  induction s as [|x s IH]; intros c rest H; simpl in H; [discriminate|].
  destruct (isWhiteSpace x) eqn:E.
  - eapply IH. eassumption.
  - injection H as <- _. exact E.
Qed.

Lemma trimStart_keeps_last : forall s c,
  isWhiteSpace c = false ->
  exists s', trimStart (s ++ [c]) = s' ++ [c].
Proof.
  induction s as [|x s IH]; intros c Hc; simpl.
  - rewrite Hc. exists []. reflexivity.
  - destruct (isWhiteSpace x).
    + apply IH. exact Hc.
    + exists (x :: s). reflexivity.
Qed.

Lemma trim_is_trimmed : forall s, is_trimmed (trim s) = true.
Proof.
  intros s. unfold is_trimmed, trim, trimEnd. rewrite rev_involutive.
  apply andb_true_iff. split.
  - destruct (trimStart s) as [|c t] eqn:E; [reflexivity|].
    pose proof (trimStart_head s E) as Hc.
    simpl rev. destruct (trimStart_keeps_last (rev t) c Hc) as [s' ->].
    rewrite rev_app_distr. simpl. rewrite Hc. reflexivity.
  - destruct (trimStart (rev (trimStart s))) as [|c t] eqn:E; [reflexivity|].
    rewrite (trimStart_head _ E). reflexivity.
Qed.

Lemma trimStart_fixed : forall s,
  match s with [] => true | c :: _ => negb (isWhiteSpace c) end = true ->
  trimStart s = s.
Proof.
  intros [|c s] H; simpl; [reflexivity|].
  apply negb_true_iff in H. rewrite H. reflexivity.
Qed.

Lemma trim_fixed : forall s, is_trimmed s = true -> trim s = s.
Proof.
  intros s H. unfold is_trimmed in H. apply andb_true_iff in H.
  destruct H as [Hhead Hlast]. unfold trim, trimEnd.
  rewrite (trimStart_fixed s Hhead), (trimStart_fixed (rev s) Hlast).
  apply rev_involutive.
Qed.

Lemma split_class_tokens_free : forall d s,
  forallb (delimiter_free d) (split_class d s) = true.
Proof.
  intros d s. induction s as [|c s IH]; simpl; [reflexivity|].
  destruct (d c) eqn:E; simpl; [exact IH|].
  destruct (split_class d s) as [|t ts]; simpl in *; rewrite E; simpl.
  - reflexivity.
  - exact IH.
Qed.

Lemma split_class_length : forall d s,
  List.length (split_class d s) = S (List.length (filter d s)).
Proof.
  intros d s. induction s as [|c s IH]; simpl; [reflexivity|].
  destruct (d c); simpl; [rewrite IH; reflexivity|].
  destruct (split_class d s); simpl in *; lia.
Qed.

Lemma weave_split_class : forall d s,
  weave (split_class d s) (filter d s) = s.
Proof.
  intros d s. induction s as [|c s IH]; simpl; [reflexivity|].
  destruct (d c) eqn:E; simpl; [rewrite IH; reflexivity|].
  destruct (split_class d s) as [|t ts]; simpl in *.
  - destruct s; [reflexivity|discriminate].
  - rewrite IH. reflexivity.
Qed.

Lemma join_split_class_star : forall d s,
  only_star d s = true -> d 42%N = true ->
  join (str "*") (split_class d s) = s.
Proof.
  intros d s H Hstar. induction s as [|c s IH]; simpl; [reflexivity|].
  simpl in H. apply andb_true_iff in H. destruct H as [Hc Hs].
  specialize (IH Hs).
  destruct (d c) eqn:E.
  - simpl in Hc. apply N.eqb_eq in Hc. subst c.
    destruct (split_class_cons d s) as (t & ts & Et). rewrite Et in *.
    change (join (str "*") ([] :: t :: ts))
      with ([] ++ str "*" ++ join (str "*") (t :: ts)).
    rewrite IH. reflexivity.
  - destruct (split_class d s) as [|t ts].
    + destruct s; [reflexivity|discriminate].
    + destruct ts as [|t' ts'].
      * simpl in *. rewrite IH. reflexivity.
      * change (join (str "*") ((c :: t) :: t' :: ts'))
          with (c :: (t ++ str "*" ++ join (str "*") (t' :: ts'))).
        change (join (str "*") (t :: t' :: ts'))
          with (t ++ str "*" ++ join (str "*") (t' :: ts')) in IH.
        rewrite IH. reflexivity.
Qed.

Lemma tokenize_In : forall k content seg,
  In seg (tokenize k content) ->
  exists line,
    raw seg = trim line /\ truthy (trim line) = true
    /\ tag_inclusive (delimiter_of k) seg.
Proof.
  intros k content seg H.
  destruct (tokenize_pushed k content) as (mk & E & Hmk).
  rewrite E in H. apply pushed_In in H.
  destruct H as (i & line & -> & Hline).
  destruct (Hmk i line) as (Hraw & _ & Hinc). eauto.
Qed.

(** X1.  Every segment of either parser has a raw line that is not empty
    and has no white space at either end (trimming it again changes
    nothing), none of its elements holds a delimiter, and it has one
    element more than its raw line has delimiters. *)
Theorem segments_are_trimmed_tokens : forall k content,
  Forall
    (fun seg =>
       raw seg <> []
       /\ is_trimmed (raw seg) = true
       /\ trim (raw seg) = raw seg
       /\ forallb (delimiter_free (delimiter_of k)) (elements seg) = true
       /\ List.length (elements seg)
          = S (List.length (filter (delimiter_of k) (raw seg))))
    (tokenize k content).
Proof.
  intros k content. apply Forall_of_In. intros seg H.
  destruct (tokenize_In k content seg H) as (line & Hraw & Hline & Hsplit & _).
  assert (Htrim : is_trimmed (raw seg) = true)
    by (rewrite Hraw; apply trim_is_trimmed).
  split; [rewrite Hraw; destruct (trim line); [discriminate|discriminate]|].
  split; [exact Htrim|]. split; [apply trim_fixed; exact Htrim|].
  rewrite Hsplit. split.
  - apply split_class_tokens_free.
  - apply split_class_length.
Qed.

(** X2.  Nothing of a raw line is lost in its elements but the identity of
    the delimiters: the elements woven with the delimiters of the line, in
    order, are the line, and when every delimiter of the line is an
    asterisk the elements joined by asterisks are the line. *)
Theorem raw_line_rebuilt_from_elements : forall k content seg,
  In seg (tokenize k content) ->
  weave (elements seg) (filter (delimiter_of k) (raw seg)) = raw seg
  /\ (only_star (delimiter_of k) (raw seg) = true ->
      join (str "*") (elements seg) = raw seg).
Proof.
  intros k content seg H.
  destruct (tokenize_In k content seg H) as (line & _ & _ & Hsplit & _).
  rewrite Hsplit. split.
  - apply weave_split_class.
  - intros Hstar. apply join_split_class_star; [exact Hstar|].
    destruct k; reflexivity.
Qed.

Lemma raw_line_rebuilt_from_elements_witness :
  let seg := universal_segment 0 (str "NM1*IL*1*SMITH*JOHN") in
  In seg (tokenize UniversalParser (str "NM1*IL*1*SMITH*JOHN"))
  /\ weave (elements seg) (filter Universal.delimiter (raw seg)) = raw seg
  /\ join (str "*") (elements seg) = raw seg.
Proof.
  intros seg.
  assert (Hin : In seg (tokenize UniversalParser (str "NM1*IL*1*SMITH*JOHN"))).
  { left. reflexivity. }
  destruct (raw_line_rebuilt_from_elements UniversalParser _ seg Hin)
    as [H1 H2].
  split; [exact Hin|]. split; [exact H1|]. apply H2. reflexivity.
Defined.

Lemma split_lines_cons : forall s, exists l ls, split_lines s = l :: ls.
Proof.
  induction s as [|c s IH]; simpl; [eauto|].
  destruct IH as (l & ls & E). rewrite E.
  destruct (N.eqb c LF); [eauto|].
  destruct (N.eqb c CR); [|eauto].
  destruct s as [|c' s']; [eauto|].
  destruct (N.eqb c' LF); eauto.
Qed.

Lemma join_cons_cons : forall sep (x y : jsstring) rest,
  join sep (x :: y :: rest) = x ++ sep ++ join sep (y :: rest).
Proof. reflexivity. Qed.

Lemma join_split_lines : forall s,
  no_crlf s = true -> join newline (split_lines s) = s.
Proof.
  induction s as [|c s IH]; intros H; [reflexivity|].
  cbn [no_crlf] in H. apply andb_true_iff in H. destruct H as [Hc Hs].
  specialize (IH Hs). cbn [split_lines].
  destruct (split_lines_cons s) as (l & ls & E). rewrite E in *.
  destruct (N.eqb c LF) eqn:Elf.
  - apply N.eqb_eq in Elf. subst c. rewrite join_cons_cons, IH. reflexivity.
  - assert (Hkeep : join newline ((c :: l) :: ls) = c :: s).
    { destruct ls as [|l' ls'].
      - simpl in *. rewrite IH. reflexivity.
      - rewrite join_cons_cons in *. simpl. rewrite <- IH. reflexivity. }
    destruct (N.eqb c CR); [|exact Hkeep].
    destruct s as [|c' s']; [exact Hkeep|].
    destruct (N.eqb c' LF); [discriminate|exact Hkeep].
Qed.

Lemma filter_all : forall (A : Type) (f : A -> bool) (l : list A),
  forallb f l = true -> filter f l = l.
Proof.
  intros A f l. induction l as [|x l IH]; simpl; intros H; [reflexivity|].
  apply andb_true_iff in H. destruct H as [Hx Hl].
  rewrite Hx, (IH Hl). reflexivity.
Qed.

Lemma tokenize_raw : forall k content,
  map raw (tokenize k content) = map trim (retained_lines content).
Proof.
  intros k content.
  destruct (tokenize_pushed k content) as (mk & E & Hmk). rewrite E.
  rewrite (pushed_retained mk _ 0 (retained_lines_nonblank content)).
  rewrite map_map, (map_ext _ (fun p => trim (snd p))).
  - rewrite <- (map_map snd trim), map_snd_combine_seq. reflexivity.
  - intros [i line]. simpl. destruct (Hmk i line) as (-> & _). reflexivity.
Qed.

(** X3.  A file that ends its lines with a bare line feed and has no blank
    line and no line with white space at its ends is kept whole: the raw
    texts of its segments are its lines, and joined by line feeds they are
    the file. *)
Theorem raw_lines_rebuild_content : forall k content,
  no_crlf content = true ->
  forallb (fun line => truthy line && is_trimmed line) (split_lines content)
  = true ->
  map raw (tokenize k content) = split_lines content
  /\ join newline (map raw (tokenize k content)) = content.
Proof.
  intros k content Hcr Hlines.
  assert (Hraw : map raw (tokenize k content) = split_lines content).
  { rewrite tokenize_raw. unfold retained_lines.
    assert (Hfix : forall line, In line (split_lines content) ->
                   trim line = line /\ truthy (trim line) = true).
    { intros line Hin.
      pose proof (proj1 (forallb_forall _ _) Hlines line Hin) as H.
      apply andb_true_iff in H. destruct H as [Hne Htr].
      rewrite (trim_fixed line Htr). split; [reflexivity|exact Hne]. }
    rewrite filter_all.
    - rewrite <- (map_id (split_lines content)) at 2.
      apply map_ext_in. intros line Hin. apply (Hfix line Hin).
    - apply forallb_forall. intros line Hin. apply (Hfix line Hin). }
  split; [exact Hraw|]. rewrite Hraw. apply join_split_lines. exact Hcr.
Qed.

Lemma raw_lines_rebuild_content_witness :
  map raw (tokenize LegacyParser sample_envelope) = split_lines sample_envelope
  /\ join newline (map raw (tokenize LegacyParser sample_envelope))
     = sample_envelope.
Proof.
  apply (raw_lines_rebuild_content LegacyParser sample_envelope);
    reflexivity.
Defined.

(* ================================================================== *)
(** ** Further properties: metadata and statistics                      *)
(* ================================================================== *)

Lemma forEach_from_invariant : forall (A St : Type) (Inv : St -> Prop)
    (step : St -> A -> nat -> St),
  (forall st x index, Inv st -> Inv (step st x index)) ->
  forall arr index st, Inv st -> Inv (forEach_from step arr index st).
Proof.
  intros A St Inv step Hstep arr.
  induction arr as [|x arr IH]; intros index st H; simpl; [exact H|].
  apply IH. apply Hstep. exact H.
Qed.

Lemma last_such_snoc : forall f segs seg,
  last_such f (segs ++ [seg])
  = if f seg then Some seg else last_such f segs.
Proof.
  intros f segs seg. unfold last_such. rewrite rev_app_distr. reflexivity.
Qed.

Lemma universal_metadata_step : forall st line index,
  Universal.st_metadata st = universal_metadata_spec (Universal.st_segments st) ->
  Universal.st_metadata (Universal.parse_line st line index)
  = universal_metadata_spec
      (Universal.st_segments (Universal.parse_line st line index)).
Proof.
  intros st line index H. unfold Universal.parse_line.
  destruct (truthy (trim line)); cbn [negb]; [|exact H].
  cbn [Universal.st_metadata Universal.st_segments].
  unfold universal_metadata_spec. rewrite last_such_snoc.
  unfold isa_with. cbn [tag elements].
  destruct (eqb _ (str "ISA") && Nat.leb 16 _); [reflexivity|].
  exact H.
Qed.

Lemma legacy_metadata_spec_tail : forall segs,
  version (legacy_metadata_spec segs) = []
  /\ testIndicator (legacy_metadata_spec segs) = [].
Proof.
  intros segs. unfold legacy_metadata_spec.
  destruct (last_such (isa_with 13) segs); split; reflexivity.
Qed.

Lemma legacy_metadata_step : forall st line index,
  EdiParser.st_metadata st = legacy_metadata_spec (EdiParser.st_segments st) ->
  EdiParser.st_metadata (EdiParser.parse_line st line index)
  = legacy_metadata_spec
      (EdiParser.st_segments (EdiParser.parse_line st line index)).
Proof.
  intros st line index H. unfold EdiParser.parse_line.
  destruct (truthy (trim line)); cbn [negb]; [|exact H].
  cbn [EdiParser.st_metadata EdiParser.st_segments].
  unfold legacy_metadata_spec at 1. rewrite last_such_snoc.
  unfold isa_with. cbn [tag elements].
  destruct (eqb _ (str "ISA") && Nat.leb 13 _); [|exact H].
  rewrite H. destruct (legacy_metadata_spec_tail (EdiParser.st_segments st))
    as [-> ->].
  reflexivity.
Qed.

(** X4.  The metadata of a transaction is read from the last [ISA] segment
    that has enough elements (16 for the universal parser, 13 for the
    legacy one), a later such segment overriding an earlier one; without
    such a segment every metadata field is the empty string. *)
Theorem metadata_from_last_isa : forall content,
  metadata (Universal.parseEDIContent content)
  = match last_such (isa_with 16) (segments (Universal.parseEDIContent content)) with
    | Some seg => universal_metadata_of seg
    | None => empty_metadata
    end
  /\ metadata (EdiParser.parseEDIContent content)
     = match last_such (isa_with 13) (segments (EdiParser.parseEDIContent content)) with
       | Some seg => legacy_metadata_of seg
       | None => empty_metadata
       end.
Proof.
  intros content. split.
  - unfold Universal.parseEDIContent, forEach. cbn [metadata segments].
    apply (forEach_from_invariant
             (fun st => Universal.st_metadata st
                        = universal_metadata_spec (Universal.st_segments st))
             Universal.parse_line universal_metadata_step).
    reflexivity.
  - unfold EdiParser.parseEDIContent, forEach. cbn [metadata segments].
    apply (forEach_from_invariant
             (fun st => EdiParser.st_metadata st
                        = legacy_metadata_spec (EdiParser.st_segments st))
             EdiParser.parse_line legacy_metadata_step).
    reflexivity.
Qed.

(** Two interchange headers in one file: the second one decides. *)
Example metadata_second_isa_wins :
  controlNumber
    (metadata
       (EdiParser.parseEDIContent
          (join newline
             [str "ISA*00**00**ZZ*A*ZZ*B*250930*1200*U*00501*000000001*0*P*>";
              str "ISA*00**00**ZZ*C*ZZ*D*250930*1200*U*00501*000000002*0*P*>"])))
  = str "000000002".
Proof. reflexivity. Qed.

Lemma universal_statistics_step : forall st line index,
  Universal.st_errorCount st
  = List.length (filter flagged (Universal.st_segments st)) ->
  Universal.st_errorCount (Universal.parse_line st line index)
  = List.length
      (filter flagged
         (Universal.st_segments (Universal.parse_line st line index))).
Proof.
  intros st line index H. unfold Universal.parse_line.
  destruct (truthy (trim line)); cbn [negb]; [|exact H].
  cbn [Universal.st_errorCount Universal.st_segments].
  rewrite filter_app, length_app, <- H.
  unfold flagged. cbn [filter isValid].
  destruct (lookup_definition _); [cbn; lia|].
  destruct (negb _); cbn; lia.
Qed.

Lemma universal_segment_validity : forall index line,
  let seg := universal_segment index line in
  isValid seg = Some (known_tag (tag seg))
  /\ errors seg
     = if known_tag (tag seg) then None
       else Some [str "Unknown segment type: " ++ tag seg].
Proof.
  intros index line seg. unfold seg, universal_segment, known_tag.
  cbn [tag isValid errors].
  destruct (lookup_definition _); [split; reflexivity|].
  destruct (array_includes _ _); split; reflexivity.
Qed.

(** X5.  The statistics of the universal parser agree with its segments:
    [totalSegments] is their number, [errorCount] the number of segments
    marked invalid, [warningCount] is 0.  A segment is marked valid exactly
    when its tag has a definition or is UNA, UNB or UNH; an invalid one
    carries the single message naming its tag, a valid one no message. *)
Theorem statistics_agree_with_segments : forall content,
  let t := Universal.parseEDIContent content in
  statistics t
  = Some (mkStatistics (List.length (segments t))
            (List.length (filter flagged (segments t))) 0)
  /\ Forall
       (fun seg =>
          isValid seg = Some (known_tag (tag seg))
          /\ errors seg
             = if known_tag (tag seg) then None
               else Some [str "Unknown segment type: " ++ tag seg])
       (segments t).
Proof.
  intros content t. split.
  - unfold t, Universal.parseEDIContent, forEach.
    cbn [statistics segments]. do 2 f_equal.
    apply (forEach_from_invariant
             (fun st => Universal.st_errorCount st
                        = List.length (filter flagged (Universal.st_segments st)))
             Universal.parse_line universal_statistics_step).
    reflexivity.
  - apply Forall_of_In. intros seg H. unfold t in H.
    rewrite universal_segments in H. apply pushed_In in H.
    destruct H as (i & line & -> & _). apply universal_segment_validity.
Qed.

(* ================================================================== *)
(** ** Further properties: validation                                   *)
(* ================================================================== *)

Import EdiValidator.

(** Destructs the tests a validation pass branches on. *)
Ltac branch :=
  repeat match goal with
         | |- context [if ?c then _ else _] => destruct c
         | |- context [match ?x with Some _ => _ | None => _ end] => destruct x
         end.

Ltac appended :=
  branch; rewrite ?app_nil_r, <- ?app_assoc; reflexivity.

Lemma validateRequiredSegments_appends : forall t errs,
  validateRequiredSegments t errs
  = errs
    ++ map (missing_error t)
         (filter (fun required =>
                    negb (array_includes (map tag (segments t)) required))
            (requiredSegments (type t))).
Proof.
  intros t errs. unfold validateRequiredSegments.
  apply (fold_left_push
           (fun required =>
              negb (array_includes (map tag (segments t)) required))
           (missing_error t)).
Qed.

Lemma validateSegmentSequence_appends : forall t errs,
  validateSegmentSequence t errs = errs ++ validateSegmentSequence t [].
Proof. intros t errs. unfold validateSegmentSequence. appended. Qed.

Lemma validateControlNumbers_appends : forall t errs,
  validateControlNumbers t errs = errs ++ validateControlNumbers t [].
Proof. intros t errs. unfold validateControlNumbers. appended. Qed.

Lemma validateISAFormat_appends : forall seg errs,
  validateISAFormat seg errs = errs ++ validateISAFormat seg [].
Proof. intros seg errs. unfold validateISAFormat. appended. Qed.

Lemma validateDTPFormat_appends : forall seg errs,
  validateDTPFormat seg errs = errs ++ validateDTPFormat seg [].
Proof. intros seg errs. unfold validateDTPFormat. appended. Qed.

Lemma validateDMGFormat_appends : forall seg errs,
  validateDMGFormat seg errs = errs ++ validateDMGFormat seg [].
Proof. intros seg errs. unfold validateDMGFormat. appended. Qed.

Lemma fold_left_appends : forall (A B : Type) (step : list B -> A -> list B),
  (forall acc x, step acc x = acc ++ step [] x) ->
  forall l acc, fold_left step l acc = acc ++ flat_map (step []) l.
Proof.
  intros A B step Hstep l. induction l as [|x l IH]; intros acc; simpl.
  - rewrite app_nil_r. reflexivity.
  - rewrite IH, (Hstep acc x), <- app_assoc. reflexivity.
Qed.

Lemma validateDataFormats_appends : forall t errs,
  validateDataFormats t errs = errs ++ flat_map format_issues (segments t).
Proof.
  intros t errs. unfold validateDataFormats.
  rewrite fold_left_appends.
  - reflexivity.
  - intros acc seg.
    destruct (eqb (tag seg) (str "ISA")); [apply validateISAFormat_appends|].
    destruct (eqb (tag seg) (str "DTP")); [apply validateDTPFormat_appends|].
    destruct (eqb (tag seg) (str "DMG")); [apply validateDMGFormat_appends|].
    rewrite app_nil_r. reflexivity.
Qed.

Lemma validate820BusinessRules_appends : forall t errs,
  validate820BusinessRules t errs = errs ++ validate820BusinessRules t [].
Proof.
  intros t errs. unfold validate820BusinessRules.
  match goal with
  | |- context [fold_left ?f _ _] =>
      assert (Hstep : forall acc x, f acc x = acc ++ f [] x)
        by (intros acc x; cbv beta; appended);
      rewrite !(fold_left_appends f Hstep)
  end.
  branch; rewrite ?app_nil_r, <- ?app_assoc; reflexivity.
Qed.

Lemma ins_is_not_insured_name : forall seg,
  eqb (tag seg) (str "INS") = true -> is_insured_name seg = false.
Proof.
  intros seg H. apply eqb_eq in H. unfold is_insured_name. rewrite H.
  reflexivity.
Qed.

Lemma orphan_fold : forall segs before index last errs,
  index = List.length before ->
  (forall i, last = Some i -> i < index) ->
  (forall n,
     match last with None => true | Some i => Nat.ltb n (index - i) end
     = negb (existsb (is_tag "INS") (firstn n before))) ->
  snd (forEach_from orphan_step segs index (last, errs))
  = errs ++ flat_map orphan_issue (orphan_flags before segs).
Proof.
  induction segs as [|seg segs IH]; intros before index last errs Hlen Hlt Hwin.
  - simpl. rewrite app_nil_r. reflexivity.
  - cbn [forEach_from orphan_flags]. unfold orphan_step at 2.
    destruct (eqb (tag seg) (str "INS")) eqn:Eins.
    + rewrite (ins_is_not_insured_name seg Eins). cbn [andb app].
      apply IH.
      * simpl. lia.
      * intros i Hi. injection Hi as <-. lia.
      * intros n. replace (S index - index) with 1 by lia.
        destruct n as [|n]; [reflexivity|].
        cbn [firstn existsb]. unfold is_tag at 1. rewrite Eins.
        reflexivity.
    + assert (Hnext : forall n,
                match last with
                | None => true
                | Some i => Nat.ltb n (S index - i)
                end
                = negb (existsb (is_tag "INS") (firstn n (seg :: before)))).
      { intros [|n].
        - destruct last as [i|]; [|reflexivity].
          specialize (Hlt i eq_refl).
          replace (S index - i) with (S (index - i)) by lia. reflexivity.
        - cbn [firstn existsb]. unfold is_tag at 1. rewrite Eins.
          cbn [orb]. rewrite <- (Hwin n).
          destruct last as [i|]; [|reflexivity].
          specialize (Hlt i eq_refl).
          replace (S index - i) with (S (index - i)) by lia. reflexivity. }
      assert (Hlt' : forall i, last = Some i -> i < S index).
      { intros i Hi. specialize (Hlt i Hi). lia. }
      assert (Hlen' : S index = List.length (seg :: before)) by (simpl; lia).
      fold (is_insured_name seg).
      destruct (is_insured_name seg) eqn:Ename; cbn [andb].
      * rewrite <- (Hwin 10).
        destruct (match last with
                  | None => true
                  | Some i => Nat.ltb 10 (index - i)
                  end) eqn:Etest.
        -- rewrite (IH _ _ _ _ Hlen' Hlt' Hnext).
           cbn [app flat_map]. rewrite <- app_assoc. f_equal. f_equal.
           unfold orphan_issue, orphan_step. rewrite Eins.
           fold (is_insured_name seg). rewrite Ename. reflexivity.
        -- cbn [app]. apply (IH _ _ _ _ Hlen' Hlt' Hnext).
      * cbn [app]. apply (IH _ _ _ _ Hlen' Hlt' Hnext).
Qed.

Lemma validate834BusinessRules_appends : forall t errs,
  validate834BusinessRules t errs
  = errs ++ flat_map orphan_issue (orphan_flags [] (segments t)).
Proof.
  intros t errs. unfold validate834BusinessRules, forEach.
  apply orphan_fold.
  - reflexivity.
  - discriminate.
  - intros [|n]; reflexivity.
Qed.

Lemma forallb_flat_map : forall (A B : Type) (p : B -> bool) (f : A -> list B)
    (l : list A),
  forallb p (flat_map f l) = forallb (fun x => forallb p (f x)) l.
Proof.
  intros A B p f l. induction l as [|x l IH]; simpl; [reflexivity|].
  rewrite forallb_app, IH. reflexivity.
Qed.

Lemma all_issues_parts : forall t,
  all_issues t
  = map (missing_error t)
      (filter (fun required =>
                 negb (array_includes (map tag (segments t)) required))
         (requiredSegments (type t)))
    ++ validateSegmentSequence t []
    ++ validateControlNumbers t []
    ++ flat_map format_issues (segments t)
    ++ (if is_834 (type t)
        then flat_map orphan_issue (orphan_flags [] (segments t))
        else if is_820 (type t) then validate820BusinessRules t [] else []).
Proof.
  intros t. unfold all_issues.
  destruct (is_834 (type t)); [|destruct (is_820 (type t))].
  - rewrite validate834BusinessRules_appends, validateDataFormats_appends,
      validateControlNumbers_appends, validateSegmentSequence_appends,
      validateRequiredSegments_appends.
    cbn [app]. rewrite <- !app_assoc. reflexivity.
  - rewrite validate820BusinessRules_appends, validateDataFormats_appends,
      validateControlNumbers_appends, validateSegmentSequence_appends,
      validateRequiredSegments_appends.
    cbn [app]. rewrite <- !app_assoc. reflexivity.
  - rewrite validateDataFormats_appends,
      validateControlNumbers_appends, validateSegmentSequence_appends,
      validateRequiredSegments_appends.
    cbn [app]. rewrite <- !app_assoc, app_nil_r. reflexivity.
Qed.

(** Every pass builds its issues with one of two severities. *)
Ltac two_severities := unfold no_info; branch; reflexivity.

Lemma missing_no_info : forall t l, no_info (map (missing_error t) l) = true.
Proof. intros t l. induction l as [|x l IH]; [reflexivity|exact IH]. Qed.

Lemma sequence_no_info : forall t, no_info (validateSegmentSequence t []) = true.
Proof. intros t. unfold validateSegmentSequence. two_severities. Qed.

Lemma control_no_info : forall t, no_info (validateControlNumbers t []) = true.
Proof. intros t. unfold validateControlNumbers. two_severities. Qed.

Lemma format_no_info : forall seg, no_info (format_issues seg) = true.
Proof.
  intros seg.
  unfold format_issues, validateISAFormat, validateDTPFormat, validateDMGFormat.
  two_severities.
Qed.

Lemma orphan_no_info : forall seg, no_info (orphan_issue seg) = true.
Proof. intros seg. unfold orphan_issue, orphan_step. two_severities. Qed.

Lemma payment_rules_no_info : forall t,
  no_info (validate820BusinessRules t []) = true.
Proof.
  intros t. unfold validate820BusinessRules.
  match goal with
  | |- context [fold_left ?f _ _] =>
      assert (Hstep : forall acc x, f acc x = acc ++ f [] x)
        by (intros acc x; cbv beta; appended);
      rewrite !(fold_left_appends f Hstep)
  end.
  unfold no_info. rewrite forallb_app, forallb_flat_map.
  apply andb_true_iff. split.
  - branch; reflexivity.
  - apply forallb_forall. intros seg _. branch; reflexivity.
Qed.

Lemma all_issues_no_info : forall t, no_info (all_issues t) = true.
Proof.
  intros t. rewrite all_issues_parts. unfold no_info.
  rewrite !forallb_app, !forallb_flat_map.
  fold (no_info (map (missing_error t)
                   (filter (fun required =>
                              negb (array_includes (map tag (segments t)) required))
                      (requiredSegments (type t))))).
  rewrite missing_no_info.
  fold (no_info (validateSegmentSequence t [])). rewrite sequence_no_info.
  fold (no_info (validateControlNumbers t [])). rewrite control_no_info.
  cbn [andb]. apply andb_true_iff. split.
  - apply forallb_forall. intros seg _. apply format_no_info.
  - destruct (is_834 (type t)); [|destruct (is_820 (type t))].
    + rewrite forallb_flat_map. apply forallb_forall. intros seg _.
      apply orphan_no_info.
    + apply payment_rules_no_info.
    + reflexivity.
Qed.

Lemma severities_partition : forall l,
  no_info l = true ->
  List.length l
  = List.length (filter (fun e => severity_eqb (error_type e) critical) l)
    + List.length (filter (fun e => severity_eqb (error_type e) warning) l).
Proof.
  induction l as [|e l IH]; intros H; [reflexivity|].
  simpl in H. apply andb_true_iff in H. destruct H as [He Hl].
  specialize (IH Hl). simpl.
  destruct (error_type e); simpl in *; try discriminate; lia.
Qed.

(** X6.  No pass of the validator produces an informational issue: every
    issue is critical or a warning, so the total the result reports is the
    number of its critical issues plus the number of its warnings. *)
Theorem total_is_errors_plus_warnings : forall t,
  let r := validateEDITransaction t in
  totalIssues r
  = List.length (result_errors r) + List.length (result_warnings r)
  /\ Forall (fun e => error_type e = critical) (result_errors r)
  /\ Forall (fun e => error_type e = warning) (result_warnings r).
Proof.
  intros t r. unfold r, validateEDITransaction.
  cbn [totalIssues result_errors result_warnings]. split.
  - apply severities_partition. apply all_issues_no_info.
  - split; apply Forall_of_In; intros e H; apply filter_In in H;
      destruct H as [_ H]; destruct (error_type e); try discriminate;
      reflexivity.
Qed.

Lemma no_critical_count : forall l,
  Nat.eqb
    (List.length (filter (fun e => severity_eqb (error_type e) critical) l)) 0
  = no_critical l.
Proof.
  induction l as [|e l IH]; [reflexivity|]. simpl.
  destruct (severity_eqb (error_type e) critical); simpl; [reflexivity|].
  exact IH.
Qed.

Lemma missing_no_critical : forall t (present : jsstring -> bool) required,
  no_critical
    (map (missing_error t) (filter (fun r => negb (present r)) required))
  = forallb present required.
Proof.
  intros t present required.
  induction required as [|r required IH]; [reflexivity|]. simpl.
  destruct (present r); simpl; [exact IH|reflexivity].
Qed.

Lemma nth_error_last : forall (A : Type) (l : list A),
  nth_error l (List.length l - 1) = hd_error (rev l).
Proof.
  intros A l. destruct l as [|x l] using rev_ind; [reflexivity|].
  rewrite rev_app_distr, length_app. simpl.
  replace (List.length l + 1 - 1) with (List.length l) by lia.
  rewrite nth_error_app2, Nat.sub_diag by lia. reflexivity.
Qed.

Lemma sequence_no_critical : forall t,
  no_critical (validateSegmentSequence t [])
  = match segments t with
    | first :: _ => eqb (tag first) (str "ISA")
    | [] => true
    end
    && match rev (segments t) with
       | last :: _ => eqb (tag last) (str "IEA")
       | [] => true
       end.
Proof.
  intros t. unfold validateSegmentSequence, at_index.
  rewrite nth_error_last.
  destruct (segments t) as [|first segs] eqn:E; [reflexivity|].
  cbn [nth_error]. destruct (rev (first :: segs)) as [|last r] eqn:Er.
  - apply (f_equal (@List.length _)) in Er. rewrite length_rev in Er.
    discriminate.
  - cbn [hd_error List.length Nat.ltb Nat.leb andb].
    destruct (eqb (tag first) (str "ISA"));
      destruct (eqb (tag last) (str "IEA")); reflexivity.
Qed.

Lemma control_no_critical : forall t,
  no_critical (validateControlNumbers t [])
  = match find_tag (str "ISA") (segments t),
          find_tag (str "IEA") (segments t) with
    | Some isa, Some iea => opt_eqb (element isa 13) (element iea 2)
    | _, _ => true
    end.
Proof.
  intros t. unfold validateControlNumbers.
  destruct (find_tag (str "ISA") (segments t)) as [isa|]; [|reflexivity].
  destruct (find_tag (str "IEA") (segments t)) as [iea|]; [|reflexivity].
  destruct (opt_eqb (element isa 13) (element iea 2)); reflexivity.
Qed.

Lemma format_no_critical : forall seg,
  no_critical (format_issues seg)
  = negb (eqb (tag seg) (str "ISA"))
    || Nat.leb 16 (List.length (elements seg)).
Proof.
  intros seg. unfold format_issues.
  destruct (eqb (tag seg) (str "ISA")); cbn [negb orb].
  - unfold validateISAFormat. rewrite Nat.ltb_antisym.
    destruct (Nat.leb 16 (List.length (elements seg))); cbn [negb];
      branch; reflexivity.
  - unfold validateDTPFormat, validateDMGFormat. branch; reflexivity.
Qed.

Lemma orphan_no_critical : forall seg, no_critical (orphan_issue seg) = true.
Proof.
  intros seg. unfold orphan_issue, orphan_step, no_critical.
  branch; reflexivity.
Qed.

Lemma array_includes_tags : forall segs (t : string),
  array_includes (map tag segs) (str t) = existsb (is_tag t) segs.
Proof.
  intros segs t. unfold array_includes, is_tag.
  induction segs as [|seg segs IH]; [reflexivity|]. simpl. rewrite IH.
  f_equal. destruct (eqb (str t) (tag seg)) eqn:E.
  - apply eqb_eq in E. rewrite <- E. symmetry. apply eqb_refl.
  - destruct (eqb (tag seg) (str t)) eqn:E'; [|reflexivity].
    apply eqb_eq in E'. rewrite E', eqb_refl in E. discriminate.
Qed.

Lemma fold_left_forallb : forall (A B : Type) (p : B -> bool)
    (step : list B -> A -> list B),
  (forall acc x, step acc x = acc ++ step [] x) ->
  (forall x, forallb p (step [] x) = true) ->
  forall l acc, forallb p (fold_left step l acc) = forallb p acc.
Proof.
  intros A B p step Happ Hp l acc.
  rewrite (fold_left_appends step Happ), forallb_app, forallb_flat_map.
  rewrite (proj2 (forallb_forall _ l)); [apply andb_true_r|].
  intros x _. apply Hp.
Qed.

Lemma filter_none : forall (A : Type) (f : A -> bool) (l : list A),
  Nat.eqb (List.length (filter f l)) 0 = negb (existsb f l).
Proof.
  intros A f l. induction l as [|x l IH]; [reflexivity|]. simpl.
  destruct (f x); [reflexivity|exact IH].
Qed.

Lemma payment_rules_no_critical : forall t,
  no_critical (validate820BusinessRules t [])
  = existsb (is_tag "BPR") (segments t).
Proof.
  intros t. unfold validate820BusinessRules, no_critical.
  match goal with
  | |- context [fold_left ?f ?l ?a] =>
      rewrite (fold_left_forallb
                 (fun e => negb (severity_eqb (error_type e) critical)) f)
  end.
  - rewrite filter_none. fold (is_tag "BPR").
    destruct (existsb (is_tag "BPR") (segments t)); reflexivity.
  - intros acc x. cbv beta. appended.
  - intros x. cbv beta. branch; reflexivity.
Qed.

Lemma required_820_has_bpr : forall segs,
  forallb (fun required => array_includes (map tag segs) required)
    REQUIRED_820_SEGMENTS = true ->
  existsb (is_tag "BPR") segs = true.
Proof.
  intros segs H. rewrite <- array_includes_tags.
  change REQUIRED_820_SEGMENTS
    with ([str "ISA"; str "GS"; str "ST"] ++ str "BPR"
          :: [str "N1"; str "SE"; str "GE"; str "IEA"]) in H.
  rewrite forallb_app in H. apply andb_true_iff in H.
  destruct H as [_ H]. cbn [forallb] in H. apply andb_true_iff in H.
  apply H.
Qed.

Lemma forallb_same : forall (A : Type) (f g : A -> bool) (l : list A),
  (forall x, f x = g x) -> forallb f l = forallb g l.
Proof.
  intros A f g l H. induction l as [|x l IH]; [reflexivity|].
  simpl. rewrite H, IH. reflexivity.
Qed.

Lemma no_critical_app : forall a b,
  no_critical (a ++ b) = no_critical a && no_critical b.
Proof. intros a b. apply forallb_app. Qed.

Lemma no_critical_flat_map : forall (A : Type) (f : A -> list EDIError) l,
  no_critical (flat_map f l) = forallb (fun x => no_critical (f x)) l.
Proof. intros A f l. apply forallb_flat_map. Qed.

(** X7.  A transaction is reported valid exactly when every tag of the
    required list of its type occurs in it, its first segment is [ISA],
    its last segment is [IEA], element 13 of the first [ISA] equals
    element 2 of the first [IEA], and every [ISA] segment has at least 16
    elements; no other finding of the validator affects validity. *)
Theorem validity_characterised : forall t,
  result_isValid (validateEDITransaction t) = structurally_sound t.
Proof.
  intros t. unfold validateEDITransaction. cbn [result_isValid].
  rewrite no_critical_count, all_issues_parts.
  rewrite !no_critical_app, no_critical_flat_map.
  rewrite (missing_no_critical t (array_includes (map tag (segments t)))).
  rewrite sequence_no_critical, control_no_critical.
  rewrite (forallb_same _ _ (segments t) format_no_critical).
  unfold structurally_sound. cbv zeta. rewrite <- !andb_assoc.
  change (fun required : jsstring =>
            array_includes (map tag (segments t)) required)
    with (array_includes (map tag (segments t))).
  destruct (is_834 (type t)) eqn:E834; [|destruct (is_820 (type t)) eqn:E820].
  - rewrite no_critical_flat_map.
    rewrite (proj2 (forallb_forall _ (orphan_flags [] (segments t))));
      [rewrite !andb_true_r; reflexivity|].
    intros seg _. apply orphan_no_critical.
  - rewrite payment_rules_no_critical.
    destruct (forallb (array_includes (map tag (segments t)))
                (requiredSegments (type t))) eqn:Ereq; [|reflexivity].
    unfold requiredSegments in Ereq. rewrite E834 in Ereq.
    rewrite (required_820_has_bpr (segments t) Ereq), !andb_true_r.
    reflexivity.
  - cbn [no_critical forallb]. rewrite !andb_true_r. reflexivity.
Qed.

(** A file read by the legacy parser that meets the conditions, with a
    malformed birth date for which the validator adds a warning. *)
Example valid_with_warning :
  let t :=
    EdiParser.parseEDIContent
      (join newline
         [sample_isa; str "GS*BE"; str "ST*834*0001"; str "BGN*00";
          str "N1*P5"; str "INS*Y"; str "NM1*IL*1*SMITH";
          str "DMG*D8*1985*M"; str "SE*8"; str "GE*1"; sample_iea]) in
  structurally_sound t = true
  /\ result_isValid (validateEDITransaction t) = true
  /\ map error_id (result_warnings (validateEDITransaction t))
     = [str "dmg-invalid-birthdate-8"].
Proof. vm_compute. repeat split. Qed.

Lemma orphan_issue_single : forall seg,
  is_insured_name seg = true ->
  map (fun e => (error_type e, error_segment e)) (orphan_issue seg)
  = [(warning, Some seg)].
Proof.
  intros seg H. unfold orphan_issue, orphan_step.
  fold (is_insured_name seg). rewrite H.
  unfold is_insured_name in H. apply andb_true_iff in H.
  destruct H as [Htag _]. apply eqb_eq in Htag. rewrite Htag.
  reflexivity.
Qed.

Lemma orphan_flags_insured : forall segs before seg,
  In seg (orphan_flags before segs) -> is_insured_name seg = true.
Proof.
  induction segs as [|s segs IH]; intros before seg H; simpl in H.
  - contradiction.
  - apply in_app_or in H. destruct H as [H|H].
    + destruct (is_insured_name s) eqn:E; simpl in H.
      * destruct (negb _); simpl in H; [|contradiction].
        destruct H as [<-|[]]. exact E.
      * contradiction.
    + eapply IH. eassumption.
Qed.

(** X8.  The 834 business rule reports warnings only, one for each
    [NM1*IL] segment that has no [INS] segment among the ten segments
    before it, in the order of the segments and anchored at that
    segment; an [NM1*IL] within ten positions after an [INS] is never
    reported. *)
Theorem orphan_warnings_characterised : forall t,
  map (fun e => (error_type e, error_segment e))
    (validate834BusinessRules t [])
  = map (fun seg => (warning, Some seg)) (orphan_flags [] (segments t)).
Proof.
  intros t. rewrite validate834BusinessRules_appends. cbn [app].
  assert (H : forall l,
            (forall seg, In seg l -> is_insured_name seg = true) ->
            map (fun e => (error_type e, error_segment e))
              (flat_map orphan_issue l)
            = map (fun seg => (warning, Some seg)) l).
  { induction l as [|seg l IH]; intros Hl; [reflexivity|].
    cbn [flat_map map]. rewrite map_app, IH.
    - rewrite (orphan_issue_single seg (Hl seg (or_introl eq_refl))).
      reflexivity.
    - intros s Hs. apply Hl. right. exact Hs. }
  apply H. intros seg Hseg. eapply orphan_flags_insured. eassumption.
Qed.

(** An [NM1*IL] eleven positions after its [INS] is reported, one ten
    positions after it is not. *)
Example orphan_distance :
  let filler := repeat (str "REF*0F*1") 9 in
  let near := join newline ([str "INS*Y"] ++ filler ++ [str "NM1*IL*1*A"]) in
  let far :=
    join newline ([str "INS*Y"] ++ filler ++ [str "REF*0F*2"; str "NM1*IL*1*A"]) in
  List.length (validate834BusinessRules (EdiParser.parseEDIContent near) []) = 0
  /\ map error_id (validate834BusinessRules (EdiParser.parseEDIContent far) [])
     = [str "orphaned-nm1-12"].
Proof. vm_compute. split; reflexivity. Qed.

(* ================================================================== *)
(** ** Further properties: amounts                                      *)
(* ================================================================== *)

Lemma span_digits_spec : forall s ip rest,
  span_digits s = (ip, rest) ->
  s = ip ++ rest /\ forallb isDigit ip = true
  /\ match rest with c :: _ => isDigit c = false | [] => True end.
Proof.
  induction s as [|c s IH]; intros ip rest H; simpl in H.
  - injection H as <- <-. repeat split.
  - destruct (isDigit c) eqn:E.
    + destruct (span_digits s) as [ds tl] eqn:Es.
      injection H as <- <-. destruct (IH ds tl eq_refl) as (-> & Hd & Hr).
      simpl. rewrite E. repeat split; assumption.
    + injection H as <- <-. simpl. rewrite E. repeat split.
Qed.

Lemma span_digits_all : forall s,
  forallb isDigit s = true -> span_digits s = (s, []).
Proof.
  induction s as [|c s IH]; intros H; [reflexivity|].
  simpl in H. apply andb_true_iff in H. destruct H as [Hc Hs].
  simpl. rewrite Hc, (IH Hs). reflexivity.
Qed.

Lemma digit_is_plain : forall c,
  isDigit c = true ->
  isWhiteSpace c = false /\ N.eqb c 45 = false /\ N.eqb c 43 = false
  /\ N.eqb c 46 = false /\ N.eqb 73 c = false.
Proof.
  intros c H. unfold isDigit in H. apply andb_true_iff in H.
  destruct H as [Hlo Hhi]. apply N.leb_le in Hlo. apply N.leb_le in Hhi.
  assert (Hc : (c = 48 \/ c = 49 \/ c = 50 \/ c = 51 \/ c = 52 \/ c = 53
                \/ c = 54 \/ c = 55 \/ c = 56 \/ c = 57)%N) by lia.
  repeat (destruct Hc as [->|Hc]; [repeat split; reflexivity|]).
  subst c. repeat split; reflexivity.
Qed.

Lemma filter_digits_all : forall s,
  forallb isDigit s = true ->
  filter isDigit s = s /\ existsb (N.eqb 46) s = false.
Proof.
  induction s as [|c s IH]; intros H; [split; reflexivity|].
  simpl in H. apply andb_true_iff in H. destruct H as [Hc Hs].
  destruct (IH Hs) as [Hf He]. cbn [filter existsb]. rewrite Hc, Hf, He.
  destruct (digit_is_plain c Hc) as (_ & _ & _ & Hdot & _).
  rewrite (N.eqb_sym 46 c), Hdot. split; reflexivity.
Qed.

Lemma parseFloat_amount : forall s,
  amount_pattern s = true ->
  parseFloat s
  = Decimal false (digits_value (filter isDigit s))
      (if existsb (N.eqb 46) s then (-2)%Z else 0%Z).
Proof.
  intros s H. unfold amount_pattern in H.
  destruct (span_digits s) as [ip rest] eqn:E.
  apply andb_true_iff in H. destruct H as [Hip Hrest].
  destruct (span_digits_spec s E) as (Hs & Hdigits & _).
  destruct ip as [|d ip]; [discriminate|].
  pose proof Hdigits as Hd. simpl in Hd. apply andb_true_iff in Hd.
  destruct Hd as [Hd _].
  destruct (digit_is_plain d Hd) as (Hws & Hminus & Hplus & _ & HI).
  unfold parseFloat. subst s. cbn [app trimStart]. rewrite Hws.
  unfold read_sign. rewrite Hminus, Hplus.
  change (str "Infinity") with (73%N :: str "nfinity").
  cbn [startsWith]. rewrite HI. cbn [andb].
  change (d :: ip ++ rest) with ((d :: ip) ++ rest). rewrite E.
  destruct (filter_digits_all (d :: ip) Hdigits) as [Hf He].
  destruct rest as [|dot [|a [|b [|x rest]]]]; try discriminate.
  - rewrite app_nil_r, Hf.
    match goal with
    | |- context [if ?c then _ else _] =>
        replace c with false by (symmetry; exact He)
    end.
    reflexivity.
  - apply andb_true_iff in Hrest. destruct Hrest as [Hrest Hb].
    apply andb_true_iff in Hrest. destruct Hrest as [Hdot Ha].
    apply N.eqb_eq in Hdot. subst dot. cbn [N.eqb Pos.eqb].
    assert (Hab : forallb isDigit [a; b] = true)
      by (simpl; rewrite Ha, Hb; reflexivity).
    rewrite (span_digits_all [a; b] Hab).
    rewrite filter_app, existsb_app, Hf. cbn [filter existsb orb].
    rewrite Ha, Hb. cbn [N.eqb Pos.eqb orb]. rewrite orb_true_r.
    destruct ((d :: ip) ++ [a; b]) eqn:Eapp; [discriminate|].
    rewrite <- Eapp. reflexivity.
Qed.

(** X9.  An amount that passes the format check of the 820 business rule
    (digits, optionally a point and two digits) never extracts as [NaN],
    and never as a negative number: the validator's check is enough for
    the extractor to read a number. *)
Theorem checked_amount_is_a_number : forall seg i s,
  element seg i = Some s ->
  amount_pattern s = true ->
  Extract.amount seg i <> NaN
  /\ match Extract.amount seg i with
     | NaN => False
     | Infinity negative | Decimal negative _ _ => negative = false
     end.
Proof.
  intros seg i s E H.
  assert (Hamount : Extract.amount seg i
                    = Decimal false (digits_value (filter isDigit s))
                        (if existsb (N.eqb 46) s then (-2)%Z else 0%Z)).
  { unfold Extract.amount. rewrite E.
    assert (Hne : truthy s = true).
    { unfold amount_pattern in H. destruct s; [discriminate|reflexivity]. }
    cbn [or_default]. rewrite Hne. apply parseFloat_amount. exact H. }
  rewrite Hamount. split; [discriminate|reflexivity].
Qed.

Lemma checked_amount_is_a_number_witness :
  let seg := segment_with "BPR" [str "BPR"; str "C"; str "125000.00"] in
  Extract.amount seg 2 <> NaN
  /\ match Extract.amount seg 2 with
     | NaN => False
     | Infinity negative | Decimal negative _ _ => negative = false
     end.
Proof.
  intros seg.
  apply (checked_amount_is_a_number seg 2 (s := str "125000.00"));
    reflexivity.
Defined.

(* ================================================================== *)
(** ** Further properties: members                                      *)
(* ================================================================== *)

Lemma member_step_prefix : forall pre done cur seg,
  Extract.member_step (pre ++ done, cur) seg
  = (pre ++ fst (Extract.member_step (done, cur) seg),
     snd (Extract.member_step (done, cur) seg)).
Proof.
  intros pre done cur seg. unfold Extract.member_step.
  destruct (eqb (tag seg) (str "INS")).
  - cbn [fst snd]. rewrite push_current_app. reflexivity.
  - branch; reflexivity.
Qed.

Lemma member_fold_prefix : forall segs pre done cur,
  fold_left Extract.member_step segs (pre ++ done, cur)
  = (pre ++ fst (fold_left Extract.member_step segs (done, cur)),
     snd (fold_left Extract.member_step segs (done, cur))).
Proof.
  induction segs as [|seg segs IH]; intros pre done cur; cbn [fold_left].
  - reflexivity.
  - rewrite member_step_prefix.
    destruct (Extract.member_step (done, cur) seg) as [done1 cur1].
    cbn [fst snd]. apply IH.
Qed.

Lemma member_step_start : forall done cur seg,
  is_tag "INS" seg = true ->
  Extract.member_step (done, cur) seg
  = (Extract.push_current done cur,
     Some (member_build seg None Demographics.empty [])).
Proof.
  intros done cur seg H. unfold Extract.member_step.
  unfold is_tag in H. rewrite H. reflexivity.
Qed.

Lemma extract834Members_app : forall pre ins post,
  is_tag "INS" ins = true ->
  Extract.extract834Members (pre ++ ins :: post)
  = Extract.extract834Members pre ++ Extract.extract834Members (ins :: post).
Proof.
  intros pre ins post Hins. rewrite !extract834Members_unfold.
  rewrite fold_left_app. cbn [fold_left].
  destruct (fold_left Extract.member_step pre ([], None)) as [done cur].
  rewrite !(member_step_start _ _ _ Hins). cbn [fst snd Extract.push_current].
  rewrite <- (app_nil_r (Extract.push_current done cur)) at 1 2.
  rewrite member_fold_prefix. cbn [fst snd].
  rewrite push_current_app. reflexivity.
Qed.

Lemma find_snoc : forall (A : Type) (f : A -> bool) (l : list A) (x : A),
  find f (l ++ [x])
  = match find f l with
    | Some y => Some y
    | None => if f x then Some x else None
    end.
Proof.
  intros A f l x. induction l as [|y l IH]; simpl.
  - reflexivity.
  - destruct (f y); [reflexivity|exact IH].
Qed.

Lemma last_such_cons : forall f seg segs,
  last_such f (seg :: segs)
  = match last_such f segs with
    | Some s => Some s
    | None => if f seg then Some seg else None
    end.
Proof.
  intros f seg segs. unfold last_such. cbn [rev]. apply find_snoc.
Qed.

(** What one segment that is not an [INS] does to the member under
    construction. *)
Lemma member_step_child : forall ins name dem covs seg,
  is_tag "INS" seg = false ->
  Extract.member_step ([], Some (member_build ins name dem covs)) seg
  = ([],
     Some (member_build ins
             (if is_insured_name seg then Some (name_of seg) else name)
             (if is_tag "DMG" seg then demographics_of seg else dem)
             (covs ++ if is_tag "HD" seg then [coverage_of seg] else []))).
Proof.
  intros ins name dem covs seg Hins. unfold Extract.member_step.
  unfold is_tag in *. rewrite Hins. unfold is_insured_name.
  destruct (eqb (tag seg) (str "NM1")) eqn:Enm1.
  - apply eqb_eq in Enm1. rewrite Enm1.
    change (eqb (str "NM1") (str "DMG")) with false.
    change (eqb (str "NM1") (str "HD")) with false.
    rewrite app_nil_r. cbn [andb].
    destruct (opt_eqb (element seg 1) (Some (str "IL"))); reflexivity.
  - cbn [andb]. destruct (eqb (tag seg) (str "DMG")) eqn:Edmg.
    + apply eqb_eq in Edmg. rewrite Edmg.
      change (eqb (str "DMG") (str "HD")) with false.
      rewrite app_nil_r. reflexivity.
    + destruct (eqb (tag seg) (str "HD")); [reflexivity|].
      rewrite app_nil_r. reflexivity.
Qed.

Lemma member_fold_details : forall run ins name dem covs,
  existsb (is_tag "INS") run = false ->
  fold_left Extract.member_step run
    ([], Some (member_build ins name dem covs))
  = ([],
     Some (member_build ins
             (match last_such is_insured_name run with
              | Some seg => Some (name_of seg)
              | None => name
              end)
             (match last_such (is_tag "DMG") run with
              | Some seg => demographics_of seg
              | None => dem
              end)
             (covs ++ map coverage_of (filter (is_tag "HD") run)))).
Proof.
  induction run as [|seg run IH]; intros ins name dem covs H.
  - cbn. rewrite app_nil_r. reflexivity.
  - cbn [existsb] in H. apply orb_false_iff in H. destruct H as [Hseg Hrun].
    cbn [fold_left].
    rewrite (member_step_child ins name dem covs seg Hseg).
    rewrite (IH _ _ _ _ Hrun), !last_such_cons. cbn [filter].
    f_equal. f_equal. f_equal.
    + destruct (last_such is_insured_name run); [reflexivity|].
      destruct (is_insured_name seg); reflexivity.
    + destruct (last_such (is_tag "DMG") run); [reflexivity|].
      destruct (is_tag "DMG" seg); reflexivity.
    + rewrite <- app_assoc. f_equal.
      destruct (is_tag "HD" seg); reflexivity.
Qed.

Lemma extract834Members_single : forall ins run,
  is_tag "INS" ins = true ->
  existsb (is_tag "INS") run = false ->
  Extract.extract834Members (ins :: run) = [member_of ins run].
Proof.
  intros ins run Hins Hrun. rewrite extract834Members_unfold.
  cbn [fold_left]. rewrite (member_step_start _ _ _ Hins).
  cbn [Extract.push_current].
  rewrite (member_fold_details run ins None Demographics.empty [] Hrun).
  cbn [fst snd Extract.push_current app]. unfold member_of.
  destruct (last_such is_insured_name run); reflexivity.
Qed.

Lemma member_fold_idle : forall segs,
  existsb (is_tag "INS") segs = false ->
  fold_left Extract.member_step segs ([], None) = ([], None).
Proof.
  induction segs as [|seg segs IH]; intros H; [reflexivity|].
  cbn [existsb] in H. apply orb_false_iff in H. destruct H as [Hseg Hsegs].
  cbn [fold_left].
  assert (Hstep : Extract.member_step ([], None) seg = ([], None)).
  { unfold Extract.member_step. unfold is_tag in Hseg. rewrite Hseg.
    branch; reflexivity. }
  rewrite Hstep. apply IH. exact Hsegs.
Qed.

Lemma payment_fold_idle : forall segs,
  existsb (is_tag "BPR") segs = false ->
  fold_left Extract.payment_step segs ([], None) = ([], None).
Proof.
  induction segs as [|seg segs IH]; intros H; [reflexivity|].
  cbn [existsb] in H. apply orb_false_iff in H. destruct H as [Hseg Hsegs].
  cbn [fold_left].
  assert (Hstep : Extract.payment_step ([], None) seg = ([], None)).
  { unfold Extract.payment_step. unfold is_tag in Hseg. rewrite Hseg.
    branch; reflexivity. }
  rewrite Hstep. apply IH. exact Hsegs.
Qed.

(** X10.  Member extraction is decided segment group by segment group: an
    [INS] segment closes what precedes it, and the member it starts takes
    its name from the last [NM1*IL] before the next [INS] (a later one
    overwrites an earlier one), its demographics from the last [DMG], and
    one coverage from every [HD], in order. *)
Theorem members_by_groups :
  (forall pre ins post,
     is_tag "INS" ins = true ->
     Extract.extract834Members (pre ++ ins :: post)
     = Extract.extract834Members pre
       ++ Extract.extract834Members (ins :: post))
  /\ (forall ins run,
        is_tag "INS" ins = true ->
        existsb (is_tag "INS") run = false ->
        Extract.extract834Members (ins :: run) = [member_of ins run]).
Proof.
  split; [exact extract834Members_app|exact extract834Members_single].
Qed.

Lemma members_by_groups_witness :
  let ins := segment_with "INS" [str "INS"; str "Y"] in
  let first := segment_with "NM1" [str "NM1"; str "IL"; str "1"; str "DOE"] in
  let second := segment_with "NM1" [str "NM1"; str "IL"; str "1"; str "ROE"] in
  let hd := segment_with "HD" [str "HD"; str "030"] in
  Extract.extract834Members ([hd] ++ ins :: [first; hd; second; hd])
  = Extract.extract834Members [hd]
    ++ Extract.extract834Members (ins :: [first; hd; second; hd])
  /\ Extract.extract834Members (ins :: [first; hd; second; hd])
     = [member_build ins (Some (name_of second)) Demographics.empty
          [coverage_of hd; coverage_of hd]].
Proof.
  intros ins first second hd.
  destruct members_by_groups as [H1 H2]. split.
  - apply H1. reflexivity.
  - apply (H2 ins [first; hd; second; hd]); reflexivity.
Defined.

(** X11.  Segments that come before the first start segment belong to no
    entity and leave no trace: a stream without [INS] yields no member
    whatever [NM1], [DMG] and [HD] segments it holds, a stream without
    [BPR] yields no payment whatever [RMR] segments it holds, and such a
    stream put in front of another one changes nothing in what is
    extracted from it. *)
Theorem leading_segments_ignored : forall pre segs,
  (existsb (is_tag "INS") pre = false ->
   Extract.extract834Members pre = []
   /\ Extract.extract834Members (pre ++ segs)
      = Extract.extract834Members segs)
  /\ (existsb (is_tag "BPR") pre = false ->
      Extract.extract820Payments pre = []
      /\ Extract.extract820Payments (pre ++ segs)
         = Extract.extract820Payments segs).
Proof.
  intros pre segs. split; intros H.
  - split.
    + rewrite extract834Members_unfold, (member_fold_idle pre H). reflexivity.
    + rewrite !extract834Members_unfold, fold_left_app,
        (member_fold_idle pre H). reflexivity.
  - split.
    + rewrite extract820Payments_unfold, (payment_fold_idle pre H).
      reflexivity.
    + rewrite !extract820Payments_unfold, fold_left_app,
        (payment_fold_idle pre H). reflexivity.
Qed.

Lemma leading_segments_ignored_witness :
  let nm1 := segment_with "NM1" [str "NM1"; str "IL"; str "1"; str "DOE"] in
  let rmr := segment_with "RMR" [str "RMR"; str "IV"; str "1"; str "5"] in
  let ins := segment_with "INS" [str "INS"; str "Y"] in
  let bpr := segment_with "BPR" [str "BPR"; str "C"; str "5"] in
  Extract.extract834Members [nm1; rmr] = []
  /\ Extract.extract834Members ([nm1; rmr] ++ [ins; nm1])
     = Extract.extract834Members [ins; nm1]
  /\ Extract.extract820Payments [nm1; rmr] = []
  /\ Extract.extract820Payments ([nm1; rmr] ++ [bpr; rmr])
     = Extract.extract820Payments [bpr; rmr].
Proof.
  intros nm1 rmr ins bpr.
  destruct (leading_segments_ignored [nm1; rmr] [ins; nm1]) as [Hm _].
  destruct (leading_segments_ignored [nm1; rmr] [bpr; rmr]) as [_ Hp].
  destruct (Hm eq_refl) as [Hm1 Hm2]. destruct (Hp eq_refl) as [Hp1 Hp2].
  repeat split; assumption.
Defined.

(* ================================================================== *)
(** ** Further properties: reconstruction of members                    *)
(* ================================================================== *)

Lemma reconstruct_member_lines : forall m,
  Rebuild.reconstruct_member m
  = [ins_line m]
    ++ match Member.name m with Some n => [name_line n] | None => [] end
    ++ match Member.demographics m with Some d => [dmg_line d] | None => [] end
    ++ map hd_line
         (match Member.healthCoverage m with Some hc => hc | None => [] end).
Proof. reflexivity. Qed.

Lemma split_class_token : forall d t c rest,
  delimiter_free d t = true -> d c = true ->
  split_class d (t ++ c :: rest) = t :: split_class d rest.
Proof.
  intros d t c rest Ht Hc. induction t as [|x t IH]; simpl.
  - rewrite Hc. reflexivity.
  - simpl in Ht. apply andb_true_iff in Ht. destruct Ht as [Hx Ht].
    apply negb_true_iff in Hx. rewrite Hx, (IH Ht). reflexivity.
Qed.

Lemma split_star_line : forall tokens t,
  forallb (delimiter_free Universal.delimiter) (t :: tokens) = true ->
  split_class Universal.delimiter (Rebuild.star (t :: tokens) ++ Rebuild.tilde)
  = (t :: tokens) ++ [[]].
Proof.
  induction tokens as [|t' tokens IH]; intros t H;
    cbn [forallb] in H; apply andb_true_iff in H; destruct H as [Ht Hrest].
  - exact (split_class_token Universal.delimiter t 126%N [] Ht eq_refl).
  - unfold Rebuild.star. rewrite join_cons_cons, <- !app_assoc.
    etransitivity.
    + apply (split_class_token Universal.delimiter t 42%N); [exact Ht|].
      reflexivity.
    + change ((t :: t' :: tokens) ++ [[]])
        with (t :: ((t' :: tokens) ++ [[]])).
      rewrite <- (IH t' Hrest). reflexivity.
Qed.

Lemma field_ok_free : forall s,
  field_ok s = true ->
  delimiter_free Universal.delimiter s = true
  /\ forallb (fun c => negb (N.eqb c LF)) s = true.
Proof.
  induction s as [|c s IH]; intros H; [split; reflexivity|].
  unfold field_ok in H. cbn [forallb] in H. apply andb_true_iff in H.
  destruct H as [Hc Hs]. destruct (IH Hs) as [Hd Hl].
  unfold field_char in Hc. apply andb_true_iff in Hc. destruct Hc as [Hc1 Hc2].
  unfold delimiter_free in *. cbn [forallb]. rewrite Hc1, Hc2, Hd, Hl.
  split; reflexivity.
Qed.

Lemma or_default_ok : forall o d,
  opt_ok o = true -> field_ok d = true -> field_ok (or_default o d) = true.
Proof.
  intros [s|] d Ho Hd; simpl; [|exact Hd].
  destruct s; [exact Hd|exact Ho].
Qed.

Lemma line_ok_trim : forall line,
  line_ok line = true -> trim line = line /\ truthy (trim line) = true.
Proof.
  intros line H. unfold line_ok in H.
  apply andb_true_iff in H. destruct H as [H _].
  apply andb_true_iff in H. destruct H as [Hhead Hlast].
  assert (Htrim : trim line = line).
  { apply trim_fixed. unfold is_trimmed. apply andb_true_iff. split.
    - destruct line; [discriminate|exact Hhead].
    - destruct (rev line) as [|c r]; [reflexivity|].
      apply N.eqb_eq in Hlast. subst c. reflexivity. }
  rewrite Htrim. split; [reflexivity|].
  destruct line; [discriminate|reflexivity].
Qed.

Lemma forallb_join : forall (p : char -> bool) sep tokens,
  forallb p sep = true ->
  forallb (forallb p) tokens = true ->
  forallb p (join sep tokens) = true.
Proof.
  intros p sep tokens Hsep. induction tokens as [|t tokens IH]; intros H.
  - reflexivity.
  - cbn [forallb] in H. apply andb_true_iff in H. destruct H as [Ht Hrest].
    destruct tokens as [|t' tokens]; [exact Ht|].
    rewrite join_cons_cons, !forallb_app.
    apply andb_true_iff. split; [exact Ht|].
    apply andb_true_iff. split; [exact Hsep|exact (IH Hrest)].
Qed.

Lemma fields_ok_free : forall tokens,
  forallb field_ok tokens = true ->
  forallb (delimiter_free Universal.delimiter) tokens = true
  /\ forallb (forallb (fun c => negb (N.eqb c LF))) tokens = true.
Proof.
  induction tokens as [|t tokens IH]; intros H; [split; reflexivity|].
  cbn [forallb] in H. apply andb_true_iff in H. destruct H as [Ht Hrest].
  destruct (field_ok_free t Ht) as [Hd Hl]. destruct (IH Hrest) as [Hds Hls].
  cbn [forallb]. rewrite Hd, Hl, Hds, Hls. split; reflexivity.
Qed.

Lemma star_line_ok : forall c tg tokens,
  isWhiteSpace c = false ->
  forallb field_ok ((c :: tg) :: tokens) = true ->
  line_ok (Rebuild.star ((c :: tg) :: tokens) ++ Rebuild.tilde) = true.
Proof.
  intros c tg tokens Hc H. destruct (fields_ok_free _ H) as [_ Hlf].
  unfold line_ok. apply andb_true_iff. split; [apply andb_true_iff; split|].
  - unfold Rebuild.star. destruct tokens; cbn [join app]; rewrite Hc;
      reflexivity.
  - rewrite rev_app_distr. reflexivity.
  - rewrite forallb_app. apply andb_true_iff. split; [|reflexivity].
    apply forallb_join; [reflexivity|exact Hlf].
Qed.

Lemma universal_segment_star : forall index c tg tokens,
  isWhiteSpace c = false ->
  forallb field_ok ((c :: tg) :: tokens) = true ->
  let line := Rebuild.star ((c :: tg) :: tokens) ++ Rebuild.tilde in
  tag (universal_segment index line) = c :: tg
  /\ elements (universal_segment index line) = ((c :: tg) :: tokens) ++ [[]].
Proof.
  intros index c tg tokens Hc H line.
  destruct (line_ok_trim line (star_line_ok c tg tokens Hc H)) as [Htrim _].
  destruct (fields_ok_free _ H) as [Hfree _].
  assert (Hsplit : split_class Universal.delimiter line
                   = ((c :: tg) :: tokens) ++ [[]])
    by exact (split_star_line tokens (c :: tg) Hfree).
  unfold universal_segment. cbn [tag elements]. rewrite Htrim, Hsplit.
  split; reflexivity.
Qed.

Lemma split_lines_single : forall l,
  forallb (fun c => negb (N.eqb c LF)) l = true -> split_lines l = [l].
Proof.
  induction l as [|c l IH]; intros H; [reflexivity|].
  cbn [forallb] in H. apply andb_true_iff in H. destruct H as [Hc Hl].
  apply negb_true_iff in Hc. cbn [split_lines]. rewrite Hc, (IH Hl).
  destruct (N.eqb c CR); [|reflexivity].
  destruct l as [|c' l']; [reflexivity|].
  cbn [forallb] in Hl. apply andb_true_iff in Hl. destruct Hl as [Hc' _].
  apply negb_true_iff in Hc'. rewrite Hc'. reflexivity.
Qed.

Lemma split_lines_line : forall s e rest,
  forallb (fun c => negb (N.eqb c LF)) s = true ->
  N.eqb e LF = false -> N.eqb e CR = false ->
  split_lines ((s ++ [e]) ++ LF :: rest) = (s ++ [e]) :: split_lines rest.
Proof.
  induction s as [|c s IH]; intros e rest H He Hcr.
  - cbn [app split_lines]. rewrite He, Hcr, N.eqb_refl. reflexivity.
  - cbn [forallb] in H. apply andb_true_iff in H. destruct H as [Hc Hs].
    apply negb_true_iff in Hc. cbn [app split_lines].
    rewrite (IH e rest Hs He Hcr), Hc.
    destruct (N.eqb c CR); [|reflexivity].
    destruct s as [|c' s']; cbn [app].
    + rewrite He. reflexivity.
    + cbn [forallb] in Hs. apply andb_true_iff in Hs. destruct Hs as [Hc' _].
      apply negb_true_iff in Hc'. rewrite Hc'. reflexivity.
Qed.

Lemma line_ok_shape : forall line,
  line_ok line = true ->
  exists s,
    line = s ++ [126%N]
    /\ forallb (fun c => negb (N.eqb c LF)) s = true.
Proof.
  intros line H. unfold line_ok in H.
  apply andb_true_iff in H. destruct H as [H Hlf].
  apply andb_true_iff in H. destruct H as [_ Hlast].
  destruct (rev line) as [|c r] eqn:E; [discriminate|].
  apply N.eqb_eq in Hlast. subst c. exists (rev r).
  assert (Hline : line = rev r ++ [126%N]).
  { rewrite <- (rev_involutive line), E. reflexivity. }
  split; [exact Hline|]. rewrite Hline, forallb_app in Hlf.
  apply andb_true_iff in Hlf. apply Hlf.
Qed.

Lemma split_lines_join : forall lines line,
  forallb line_ok (line :: lines) = true ->
  split_lines (join newline (line :: lines)) = line :: lines.
Proof.
  induction lines as [|line' lines IH]; intros line H;
    cbn [forallb] in H; apply andb_true_iff in H; destruct H as [Hline Hrest].
  - cbn [join]. apply split_lines_single. unfold line_ok in Hline.
    apply andb_true_iff in Hline. apply Hline.
  - rewrite join_cons_cons.
    destruct (line_ok_shape line Hline) as (s & -> & Hs).
    change (newline ++ join newline (line' :: lines))
      with (LF :: join newline (line' :: lines)).
    rewrite (split_lines_line s 126%N _ Hs eq_refl eq_refl).
    rewrite (IH line' Hrest). reflexivity.
Qed.

(** The universal parser reads a text written as well-formed lines joined
    by line feeds back as those lines, one segment each. *)
Lemma tokenize_joined_lines : forall lines line,
  forallb line_ok (line :: lines) = true ->
  tokenize UniversalParser (join newline (line :: lines))
  = pushed universal_segment (line :: lines) 0.
Proof.
  intros lines line H. unfold tokenize. rewrite universal_segments.
  unfold retained_lines. rewrite (split_lines_join lines line H).
  rewrite filter_all; [reflexivity|].
  apply forallb_forall. intros l Hl.
  apply (line_ok_trim l). apply (proj1 (forallb_forall _ _) H l Hl).
Qed.

Lemma pushed_cons_ok : forall mk line rest index,
  line_ok line = true ->
  pushed mk (line :: rest) index = mk index line :: pushed mk rest (S index).
Proof.
  intros mk line rest index H. cbn [pushed].
  destruct (line_ok_trim line H) as [_ ->]. reflexivity.
Qed.

Lemma pushed_app : forall mk a b index,
  pushed mk (a ++ b) index
  = pushed mk a index ++ pushed mk b (index + List.length a).
Proof.
  intros mk a. induction a as [|line a IH]; intros b index.
  - cbn. rewrite Nat.add_0_r. reflexivity.
  - cbn [app pushed List.length]. rewrite IH, <- app_assoc.
    replace (S index + List.length a) with (index + S (List.length a)) by lia.
    reflexivity.
Qed.

(** Discharges the side condition that the tokens of a template are free
    of delimiters and line feeds. *)
Ltac tokens_ok :=
  cbn [forallb]; repeat (apply andb_true_iff; split);
  try reflexivity; try (apply or_default_ok; [assumption|reflexivity]).

(** Reads tag and elements of the segment of a template line. *)
Ltac segment_facts index c tg tokens Htag Hel :=
  let H := fresh "Hok" in
  assert (H : forallb field_ok ((c :: tg) :: tokens) = true) by tokens_ok;
  destruct (universal_segment_star index c tg tokens eq_refl H)
    as [Htag Hel];
  pose proof (star_line_ok c tg tokens eq_refl H).

Lemma ins_segment : forall m index,
  member_ok m = true ->
  let seg := universal_segment index (ins_line m) in
  line_ok (ins_line m) = true
  /\ is_tag "INS" seg = true
  /\ member_build seg None Demographics.empty []
     = Member.mk (Some (or_default (Member.memberLevelCode m) (str "Y")))
         (Some (or_default (Member.relationshipCode m) (str "18")))
         (Some (or_default (Member.maintenanceTypeCode m) (str "030")))
         (Some (or_default (Member.maintenanceReasonCode m) (str "AI")))
         (Some (or_default (Member.benefitStatusCode m) (str "A")))
         None (Some Demographics.empty) (Some []).
Proof.
  intros m index H seg. unfold member_ok in H.
  repeat (apply andb_true_iff in H; destruct H as [H ?]).
  segment_facts index 73%N (str "NS")
    [or_default (Member.memberLevelCode m) (str "Y");
     or_default (Member.relationshipCode m) (str "18");
     or_default (Member.maintenanceTypeCode m) (str "030");
     or_default (Member.maintenanceReasonCode m) (str "AI");
     or_default (Member.benefitStatusCode m) (str "A"); []; []; str "AC"]
    Htag Hel.
  pose proof (Htag : tag seg = _) as Htag'.
  pose proof (Hel : elements seg = _) as Hel'.
  split; [assumption|]. split.
  - unfold is_tag. rewrite Htag'. reflexivity.
  - unfold member_build, element, at_index. rewrite Hel'. reflexivity.
Qed.

Lemma name_step : forall n index ins name dem covs,
  opt_ok (Name.lastName n) = true -> opt_ok (Name.firstName n) = true ->
  opt_ok (Name.middleName n) = true -> opt_ok (Name.id n) = true ->
  let seg := universal_segment index (name_line n) in
  line_ok (name_line n) = true
  /\ is_tag "INS" seg = false
  /\ Extract.member_step ([], Some (member_build ins name dem covs)) seg
     = ([], Some (member_build ins (Some (rebuilt_name n)) dem covs)).
Proof.
  intros n index ins name dem covs H1 H2 H3 H4 seg.
  segment_facts index 78%N (str "M1")
    [str "IL"; str "1"; or_default (Name.lastName n) [];
     or_default (Name.firstName n) []; or_default (Name.middleName n) [];
     []; str "34"; or_default (Name.id n) []]
    Htag Hel.
  pose proof (Htag : tag seg = _) as Htag'.
  pose proof (Hel : elements seg = _) as Hel'.
  assert (Hins : is_tag "INS" seg = false)
    by (unfold is_tag; rewrite Htag'; reflexivity).
  split; [assumption|]. split; [exact Hins|].
  rewrite (member_step_child ins name dem covs seg Hins).
  unfold is_insured_name, is_tag, name_of, element, at_index.
  rewrite Htag', Hel'. cbn. rewrite app_nil_r. reflexivity.
Qed.

Lemma dmg_step : forall d index ins name dem covs,
  opt_ok (Demographics.birthDate d) = true ->
  opt_ok (Demographics.genderCode d) = true ->
  let seg := universal_segment index (dmg_line d) in
  line_ok (dmg_line d) = true
  /\ is_tag "INS" seg = false
  /\ Extract.member_step ([], Some (member_build ins name dem covs)) seg
     = ([], Some (member_build ins name (rebuilt_demographics d) covs)).
Proof.
  intros d index ins name dem covs H1 H2 seg.
  segment_facts index 68%N (str "MG")
    [str "D8"; or_default (Demographics.birthDate d) [];
     or_default (Demographics.genderCode d) []]
    Htag Hel.
  pose proof (Htag : tag seg = _) as Htag'.
  pose proof (Hel : elements seg = _) as Hel'.
  assert (Hins : is_tag "INS" seg = false)
    by (unfold is_tag; rewrite Htag'; reflexivity).
  split; [assumption|]. split; [exact Hins|].
  rewrite (member_step_child ins name dem covs seg Hins).
  unfold is_insured_name, is_tag, demographics_of, element, at_index.
  rewrite Htag', Hel'. cbn. rewrite app_nil_r. reflexivity.
Qed.

Lemma hd_step : forall c index ins name dem covs,
  coverage_ok c = true ->
  let seg := universal_segment index (hd_line c) in
  line_ok (hd_line c) = true
  /\ is_tag "INS" seg = false
  /\ Extract.member_step ([], Some (member_build ins name dem covs)) seg
     = ([], Some (member_build ins name dem (covs ++ [rebuilt_coverage c]))).
Proof.
  intros c index ins name dem covs H seg. unfold coverage_ok in H.
  repeat (apply andb_true_iff in H; destruct H as [H ?]).
  segment_facts index 72%N (str "D")
    [or_default (Coverage.maintenanceTypeCode c) (str "030"); [];
     or_default (Coverage.insuranceLineCode c) (str "HLT");
     or_default (Coverage.planCoverageDescription c) [];
     or_default (Coverage.coverageLevelCode c) (str "EMP")]
    Htag Hel.
  pose proof (Htag : tag seg = _) as Htag'.
  pose proof (Hel : elements seg = _) as Hel'.
  assert (Hins : is_tag "INS" seg = false)
    by (unfold is_tag; rewrite Htag'; reflexivity).
  split; [assumption|]. split; [exact Hins|].
  rewrite (member_step_child ins name dem covs seg Hins).
  unfold is_insured_name, is_tag, coverage_of, element, at_index.
  rewrite Htag', Hel'. reflexivity.
Qed.

Lemma hd_fold : forall hc index ins name dem covs,
  forallb coverage_ok hc = true ->
  fold_left Extract.member_step
    (pushed universal_segment (map hd_line hc) index)
    ([], Some (member_build ins name dem covs))
  = ([], Some (member_build ins name dem (covs ++ map rebuilt_coverage hc)))
  /\ existsb (is_tag "INS")
       (pushed universal_segment (map hd_line hc) index) = false.
Proof.
  induction hc as [|c hc IH]; intros index ins name dem covs H.
  - cbn. rewrite app_nil_r. split; reflexivity.
  - cbn [forallb] in H. apply andb_true_iff in H. destruct H as [Hc Hhc].
    destruct (hd_step c index ins name dem covs Hc) as (Hline & Hins & Hstep).
    cbn [map]. rewrite (pushed_cons_ok _ _ _ _ Hline).
    cbn [fold_left existsb]. rewrite Hstep, Hins.
    destruct (IH (S index) ins name dem (covs ++ [rebuilt_coverage c]) Hhc)
      as [-> ->].
    rewrite <- app_assoc. split; reflexivity.
Qed.

(** The lines of one member, read again: an [INS] segment and children
    that rebuild the member as [rebuilt_member] describes. *)
Lemma member_group : forall m index,
  member_ok m = true ->
  exists ins children,
    pushed universal_segment (Rebuild.reconstruct_member m) index
    = ins :: children
    /\ is_tag "INS" ins = true
    /\ fold_left Extract.member_step children
         ([], Some (member_build ins None Demographics.empty []))
       = ([], Some (rebuilt_member m)).
Proof.
  intros m index H.
  destruct (ins_segment m index H) as (Hline & Hins & Hfields).
  unfold member_build in Hfields. injection Hfields as E1 E2 E3 E4 E5.
  unfold member_ok in H.
  apply andb_true_iff in H. destruct H as [H Hcov].
  apply andb_true_iff in H. destruct H as [H Hdem].
  apply andb_true_iff in H. destruct H as [_ Hname].
  rewrite reconstruct_member_lines. cbn [app].
  rewrite (pushed_cons_ok _ _ _ _ Hline).
  eexists. eexists. split; [reflexivity|]. split; [exact Hins|].
  set (ins := universal_segment index (ins_line m)) in *.
  assert (Hfinal : forall name dem covs,
            member_build ins name dem covs
            = Member.mk
                (Some (or_default (Member.memberLevelCode m) (str "Y")))
                (Some (or_default (Member.relationshipCode m) (str "18")))
                (Some (or_default (Member.maintenanceTypeCode m) (str "030")))
                (Some (or_default (Member.maintenanceReasonCode m) (str "AI")))
                (Some (or_default (Member.benefitStatusCode m) (str "A")))
                name (Some dem) (Some covs)).
  { intros name dem covs. unfold member_build.
    rewrite E1, E2, E3, E4, E5. reflexivity. }
  unfold rebuilt_member.
  destruct (Member.name m) as [n|]; destruct (Member.demographics m) as [d|];
    cbn [app option_map].
  - apply andb_true_iff in Hname. destruct Hname as [Hname Hid].
    apply andb_true_iff in Hname. destruct Hname as [Hname Hmid].
    apply andb_true_iff in Hname. destruct Hname as [Hlast Hfirst].
    apply andb_true_iff in Hdem. destruct Hdem as [Hb Hg].
    destruct (name_step n (S index) ins None Demographics.empty []
                Hlast Hfirst Hmid Hid) as (Hl1 & _ & Hs1).
    destruct (dmg_step d (S (S index)) ins (Some (rebuilt_name n))
                Demographics.empty [] Hb Hg) as (Hl2 & _ & Hs2).
    rewrite (pushed_cons_ok _ _ _ _ Hl1), (pushed_cons_ok _ _ _ _ Hl2).
    cbn [fold_left]. rewrite Hs1, Hs2.
    destruct (hd_fold _ (S (S (S index))) ins (Some (rebuilt_name n))
                (rebuilt_demographics d) [] Hcov) as [-> _].
    rewrite Hfinal. reflexivity.
  - apply andb_true_iff in Hname. destruct Hname as [Hname Hid].
    apply andb_true_iff in Hname. destruct Hname as [Hname Hmid].
    apply andb_true_iff in Hname. destruct Hname as [Hlast Hfirst].
    destruct (name_step n (S index) ins None Demographics.empty []
                Hlast Hfirst Hmid Hid) as (Hl1 & _ & Hs1).
    rewrite (pushed_cons_ok _ _ _ _ Hl1).
    cbn [fold_left]. rewrite Hs1.
    destruct (hd_fold _ (S (S index)) ins (Some (rebuilt_name n))
                Demographics.empty [] Hcov) as [-> _].
    rewrite Hfinal. reflexivity.
  - apply andb_true_iff in Hdem. destruct Hdem as [Hb Hg].
    destruct (dmg_step d (S index) ins None
                Demographics.empty [] Hb Hg) as (Hl2 & _ & Hs2).
    rewrite (pushed_cons_ok _ _ _ _ Hl2).
    cbn [fold_left]. rewrite Hs2.
    destruct (hd_fold _ (S (S index)) ins None
                (rebuilt_demographics d) [] Hcov) as [-> _].
    rewrite Hfinal. reflexivity.
  - destruct (hd_fold _ (S index) ins None
                Demographics.empty [] Hcov) as [-> _].
    rewrite Hfinal. reflexivity.
Qed.

Lemma extract834Members_group : forall ins children rest m,
  is_tag "INS" ins = true ->
  fold_left Extract.member_step children
    ([], Some (member_build ins None Demographics.empty []))
  = ([], Some m) ->
  starts_with_ins rest = true ->
  Extract.extract834Members ((ins :: children) ++ rest)
  = m :: Extract.extract834Members rest.
Proof.
  intros ins children rest m Hins Hfold Hrest.
  assert (Hone : Extract.extract834Members (ins :: children) = [m]).
  { rewrite extract834Members_unfold. cbn [fold_left].
    rewrite (member_step_start _ _ _ Hins). cbn [Extract.push_current].
    rewrite Hfold. reflexivity. }
  destruct rest as [|r rest].
  - rewrite app_nil_r. exact Hone.
  - rewrite (extract834Members_app (ins :: children) r rest Hrest), Hone.
    reflexivity.
Qed.

Lemma reconstructed_members_read_back : forall ms index,
  forallb member_ok ms = true ->
  Extract.extract834Members
    (pushed universal_segment (flat_map Rebuild.reconstruct_member ms) index)
  = map rebuilt_member ms
  /\ starts_with_ins
       (pushed universal_segment (flat_map Rebuild.reconstruct_member ms)
          index) = true.
Proof.
  induction ms as [|m ms IH]; intros index H; [split; reflexivity|].
  cbn [forallb] in H. apply andb_true_iff in H. destruct H as [Hm Hms].
  cbn [flat_map]. rewrite pushed_app.
  destruct (member_group m index Hm) as (ins & children & -> & Hins & Hfold).
  destruct (IH (index + List.length (Rebuild.reconstruct_member m)) Hms)
    as [Hrest Hstart].
  split; [|exact Hins].
  rewrite (extract834Members_group ins children _ Hins Hfold Hstart), Hrest.
  reflexivity.
Qed.

Lemma reconstructed_lines_ok : forall ms,
  forallb member_ok ms = true ->
  forallb line_ok (flat_map Rebuild.reconstruct_member ms) = true.
Proof.
  intros ms H. apply forallb_forall. intros line Hline.
  apply in_flat_map in Hline. destruct Hline as (m & Hm & Hline).
  pose proof (proj1 (forallb_forall _ _) H m Hm) as Hok.
  rewrite reconstruct_member_lines in Hline.
  destruct (ins_segment m 0 Hok) as (Hins & _).
  unfold member_ok in Hok.
  apply andb_true_iff in Hok. destruct Hok as [Hok Hcov].
  apply andb_true_iff in Hok. destruct Hok as [Hok Hdem].
  apply andb_true_iff in Hok. destruct Hok as [_ Hname].
  apply in_app_or in Hline. destruct Hline as [[<-|[]]|Hline]; [exact Hins|].
  apply in_app_or in Hline. destruct Hline as [Hline|Hline].
  { destruct (Member.name m) as [n|]; [|contradiction].
    destruct Hline as [<-|[]].
    apply andb_true_iff in Hname. destruct Hname as [Hname Hid].
    apply andb_true_iff in Hname. destruct Hname as [Hname Hmid].
    apply andb_true_iff in Hname. destruct Hname as [Hlast Hfirst].
    apply (name_step n 0 (universal_segment 0 []) None Demographics.empty []
             Hlast Hfirst Hmid Hid). }
  apply in_app_or in Hline. destruct Hline as [Hline|Hline].
  { destruct (Member.demographics m) as [d|]; [|contradiction].
    destruct Hline as [<-|[]].
    apply andb_true_iff in Hdem. destruct Hdem as [Hb Hg].
    apply (dmg_step d 0 (universal_segment 0 []) None Demographics.empty []
             Hb Hg). }
  apply in_map_iff in Hline. destruct Hline as (c & <- & Hc).
  pose proof (proj1 (forallb_forall _ _) Hcov c Hc) as Hcok.
  apply (hd_step c 0 (universal_segment 0 []) None Demographics.empty []
           Hcok).
Qed.

Lemma extract834Members_skip : forall pre segs,
  existsb (is_tag "INS") pre = false ->
  Extract.extract834Members (pre ++ segs) = Extract.extract834Members segs.
Proof.
  intros pre segs H.
  rewrite !extract834Members_unfold, fold_left_app, (member_fold_idle pre H).
  reflexivity.
Qed.

(** X12.  Members whose written fields hold no delimiter and no line feed
    survive reconstruction in number and order, and what each one has
    become is known exactly: the text [reconstruct834Segments] writes,
    read again by the universal parser and [extract834Members], yields the
    members with defaults in place of empty codes, with last, first and
    middle name kept, and with the id moved to the id qualifier, the
    suffix set to [34] and the id emptied whenever a name was present. *)
Theorem reconstructed_members_extract_again : forall ms,
  forallb member_ok ms = true ->
  Extract.extract834Members
    (tokenize UniversalParser
       (join newline (Rebuild.reconstruct834Segments ms)))
  = map rebuilt_member ms.
Proof.
  intros ms H. unfold Rebuild.reconstruct834Segments.
  assert (Hbgn : line_ok (str "BGN*00*ABC123*20241208*1200*ET*Original~")
                 = true) by reflexivity.
  rewrite tokenize_joined_lines.
  - rewrite (pushed_cons_ok universal_segment _ _ 0 Hbgn).
    destruct (reconstructed_members_read_back ms 1 H) as [Hrest _].
    rewrite <- Hrest.
    apply (extract834Members_skip [_]). reflexivity.
  - cbn [forallb]. rewrite (reconstructed_lines_ok ms H), Hbgn. reflexivity.
Qed.

Lemma reconstructed_members_extract_again_witness :
  let ms := Extract.extract834Members (tokenize UniversalParser sample_834) in
  Extract.extract834Members
    (tokenize UniversalParser
       (join newline (Rebuild.reconstruct834Segments ms)))
  = map rebuilt_member ms.
Proof.
  intros ms. apply (reconstructed_members_extract_again ms). reflexivity.
Defined.

Lemma split_lines_no_lf : forall s,
  forallb (forallb (fun c => negb (N.eqb c LF))) (split_lines s) = true.
Proof.
  induction s as [|c s IH]; [reflexivity|]. cbn [split_lines].
  destruct (split_lines_cons s) as (l & ls & E). rewrite E in *.
  cbn [forallb] in IH. apply andb_true_iff in IH. destruct IH as [Hl Hls].
  destruct (N.eqb c LF) eqn:Ec.
  - cbn [forallb]. rewrite Hl, Hls. reflexivity.
  - assert (Hkeep : forallb (forallb (fun c => negb (N.eqb c LF)))
                      ((c :: l) :: ls) = true).
    { cbn [forallb]. rewrite Ec, Hl, Hls. reflexivity. }
    destruct (N.eqb c CR); [|exact Hkeep].
    destruct s as [|c' s']; [exact Hkeep|].
    destruct (N.eqb c' LF) eqn:Ec'; [|exact Hkeep].
    cbn [split_lines] in E. rewrite Ec' in E. injection E as <- <-.
    exact Hls.
Qed.

Lemma forallb_trimStart : forall (p : char -> bool) s,
  forallb p s = true -> forallb p (trimStart s) = true.
Proof.
  intros p s. induction s as [|c s IH]; intros H; [reflexivity|].
  cbn [trimStart]. destruct (isWhiteSpace c); [|exact H].
  cbn [forallb] in H. apply andb_true_iff in H. apply IH, H.
Qed.

Lemma forallb_rev : forall (p : char -> bool) s,
  forallb p s = true -> forallb p (rev s) = true.
Proof.
  intros p s H. apply forallb_forall. intros c Hc.
  apply in_rev in Hc. apply (proj1 (forallb_forall _ _) H c Hc).
Qed.

Lemma forallb_trim : forall (p : char -> bool) s,
  forallb p s = true -> forallb p (trim s) = true.
Proof.
  intros p s H. unfold trim, trimEnd.
  apply forallb_rev, forallb_trimStart, forallb_rev, forallb_trimStart, H.
Qed.

Lemma forallb_split_class : forall (p : char -> bool) d s,
  forallb p s = true -> forallb (forallb p) (split_class d s) = true.
Proof.
  intros p d s. induction s as [|c s IH]; intros H; [reflexivity|].
  cbn [forallb] in H. apply andb_true_iff in H. destruct H as [Hc Hs].
  specialize (IH Hs). cbn [split_class].
  destruct (d c); [exact IH|].
  destruct (split_class d s) as [|t ts].
  - cbn [forallb]. rewrite Hc. reflexivity.
  - cbn [forallb] in *. rewrite Hc. exact IH.
Qed.

Lemma field_ok_of_parts : forall tokens,
  forallb (delimiter_free Universal.delimiter) tokens = true ->
  forallb (forallb (fun c => negb (N.eqb c LF))) tokens = true ->
  forallb field_ok tokens = true.
Proof.
  induction tokens as [|t tokens IH]; intros Hd Hl; [reflexivity|].
  cbn [forallb] in *.
  apply andb_true_iff in Hd. destruct Hd as [Hd Hds].
  apply andb_true_iff in Hl. destruct Hl as [Hl Hls].
  rewrite (IH Hds Hls), andb_true_r.
  unfold field_ok. apply forallb_forall. intros c Hc.
  unfold field_char.
  rewrite (proj1 (forallb_forall _ _) Hd c Hc),
    (proj1 (forallb_forall _ _) Hl c Hc).
  reflexivity.
Qed.

Lemma pushed_In_line : forall mk lines index seg,
  In seg (pushed mk lines index) ->
  exists i line, seg = mk i line /\ In line lines.
Proof.
  intros mk lines. induction lines as [|line lines IH]; intros index seg H;
    simpl in H.
  - contradiction.
  - apply in_app_or in H. destruct H as [H|H].
    + destruct (truthy (trim line)); simpl in H; [|contradiction].
      destruct H as [<-|[]]. exists index, line. split; [reflexivity|].
      left. reflexivity.
    + destruct (IH _ _ H) as (i & l & E & Hl). exists i, l.
      split; [exact E|]. right. exact Hl.
Qed.

(** Every element the universal parser produces is writable. *)
Lemma tokenize_elements_ok : forall content,
  forallb elements_ok (tokenize UniversalParser content) = true.
Proof.
  intros content. apply forallb_forall. intros seg H.
  unfold tokenize in H. rewrite universal_segments in H.
  apply pushed_In_line in H. destruct H as (i & line & -> & Hline).
  unfold retained_lines in Hline. apply filter_In in Hline.
  destruct Hline as [Hline _].
  unfold elements_ok, universal_segment. cbn [elements].
  apply field_ok_of_parts; [apply split_class_tokens_free|].
  apply forallb_split_class, forallb_trim.
  apply (proj1 (forallb_forall _ _) (split_lines_no_lf content) line Hline).
Qed.

Lemma element_ok : forall seg i,
  elements_ok seg = true -> opt_ok (element seg i) = true.
Proof.
  intros seg i H. unfold element, at_index.
  destruct (nth_error (elements seg) i) as [s|] eqn:E; [|reflexivity].
  apply nth_error_In in E.
  apply (proj1 (forallb_forall _ _) H s E).
Qed.

(** Reduces the field reads of the records under [member_ok]. *)
Ltac member_fields :=
  unfold member_ok, coverage_ok, Demographics.empty in *;
  cbn [Member.memberLevelCode Member.relationshipCode
       Member.maintenanceTypeCode Member.maintenanceReasonCode
       Member.benefitStatusCode Member.name Member.demographics
       Member.healthCoverage Name.lastName Name.firstName Name.middleName
       Name.id Demographics.birthDate Demographics.genderCode
       Coverage.maintenanceTypeCode Coverage.insuranceLineCode
       Coverage.planCoverageDescription Coverage.coverageLevelCode
       forallb opt_ok andb] in *.

Lemma member_step_ok : forall st seg,
  elements_ok seg = true ->
  member_state_ok st = true ->
  member_state_ok (Extract.member_step st seg) = true.
Proof.
  intros [done cur] seg Hseg H. unfold member_state_ok in *.
  cbn [fst snd] in H. apply andb_true_iff in H. destruct H as [Hdone Hcur].
  pose proof (fun i => element_ok seg i Hseg) as Hel.
  unfold Extract.member_step.
  destruct (eqb (tag seg) (str "INS")).
  - cbn [fst snd]. apply andb_true_iff. split.
    + destruct cur as [m|]; cbn [Extract.push_current]; [|exact Hdone].
      rewrite forallb_app, Hdone. cbn [forallb]. rewrite Hcur. reflexivity.
    + member_fields. rewrite !Hel. reflexivity.
  - destruct (eqb (tag seg) (str "NM1")).
    { destruct cur as [m|]; [|cbn [fst snd]; rewrite Hdone; reflexivity].
      destruct (opt_eqb (element seg 1) (Some (str "IL")));
        [|cbn [fst snd]; rewrite Hdone, Hcur; reflexivity].
      cbn [fst snd]. rewrite Hdone. member_fields. rewrite !Hel.
      repeat (apply andb_true_iff in Hcur; destruct Hcur as [Hcur ?]).
      repeat (apply andb_true_iff; split); try assumption; reflexivity. }
    destruct (eqb (tag seg) (str "DMG")).
    { destruct cur as [m|]; [|cbn [fst snd]; rewrite Hdone; reflexivity].
      cbn [fst snd]. rewrite Hdone. member_fields. rewrite !Hel.
      repeat (apply andb_true_iff in Hcur; destruct Hcur as [Hcur ?]).
      repeat (apply andb_true_iff; split); try assumption; reflexivity. }
    destruct (eqb (tag seg) (str "HD")).
    { destruct cur as [m|]; [|cbn [fst snd]; rewrite Hdone; reflexivity].
      cbn [fst snd]. rewrite Hdone. unfold member_ok in *.
      cbn [Member.memberLevelCode Member.relationshipCode
           Member.maintenanceTypeCode Member.maintenanceReasonCode
           Member.benefitStatusCode Member.name Member.demographics
           Member.healthCoverage andb] in *.
      repeat (apply andb_true_iff in Hcur; destruct Hcur as [Hcur ?]).
      rewrite forallb_app. cbn [forallb]. unfold coverage_ok at 2.
      cbn [Coverage.maintenanceTypeCode Coverage.insuranceLineCode
           Coverage.planCoverageDescription Coverage.coverageLevelCode].
      rewrite !Hel.
      repeat (apply andb_true_iff; split); try assumption; reflexivity. }
    cbn [fst snd]. rewrite Hdone, Hcur. reflexivity.
Qed.

Lemma extracted_members_ok : forall segs,
  forallb elements_ok segs = true ->
  forallb member_ok (Extract.extract834Members segs) = true.
Proof.
  intros segs H. rewrite extract834Members_unfold.
  assert (Hst : forall l st,
            forallb elements_ok l = true ->
            member_state_ok st = true ->
            member_state_ok (fold_left Extract.member_step l st) = true).
  { induction l as [|seg l IH]; intros st Hl Hs; [exact Hs|].
    cbn [forallb] in Hl. apply andb_true_iff in Hl. destruct Hl as [Hseg Hl].
    cbn [fold_left]. apply IH; [exact Hl|].
    apply member_step_ok; assumption. }
  specialize (Hst segs ([], None) H eq_refl).
  destruct (fold_left Extract.member_step segs ([], None)) as [done cur].
  unfold member_state_ok in Hst. cbn [fst snd] in *.
  apply andb_true_iff in Hst. destruct Hst as [Hdone Hcur].
  destruct cur as [m|]; cbn [Extract.push_current]; [|exact Hdone].
  rewrite forallb_app, Hdone. cbn [forallb]. rewrite Hcur. reflexivity.
Qed.

(** X13.  Extraction, reconstruction and extraction again, for any input
    read by the universal parser: the members extracted from the text that
    [reconstruct834Segments] writes for the extracted members are as many
    as before and in the same order, each changed as [rebuilt_member]
    states (codes defaulted, name parts kept, the id moved to the id
    qualifier). *)
Theorem members_round_trip : forall content,
  let ms := Extract.extract834Members (tokenize UniversalParser content) in
  Extract.extract834Members
    (tokenize UniversalParser
       (join newline (Rebuild.reconstruct834Segments ms)))
  = map rebuilt_member ms
  /\ List.length
       (Extract.extract834Members
          (tokenize UniversalParser
             (join newline (Rebuild.reconstruct834Segments ms))))
     = List.length ms.
Proof.
  intros content ms.
  assert (Hok : forallb member_ok ms = true)
    by (apply extracted_members_ok, tokenize_elements_ok).
  assert (Hback :
            Extract.extract834Members
              (tokenize UniversalParser
                 (join newline (Rebuild.reconstruct834Segments ms)))
            = map rebuilt_member ms).
  { unfold Rebuild.reconstruct834Segments.
    assert (Hbgn : line_ok (str "BGN*00*ABC123*20241208*1200*ET*Original~")
                   = true) by reflexivity.
    rewrite tokenize_joined_lines.
    - rewrite (pushed_cons_ok universal_segment _ _ 0 Hbgn).
      destruct (reconstructed_members_read_back ms 1 Hok) as [Hrest _].
      rewrite <- Hrest.
      apply (extract834Members_skip [_]). reflexivity.
    - cbn [forallb]. rewrite (reconstructed_lines_ok ms Hok), Hbgn.
      reflexivity. }
  split; [exact Hback|]. rewrite Hback. apply length_map.
Qed.

(* ================================================================== *)
(** ** Further properties: the tokenizer of the edge function           *)
(* ================================================================== *)

Lemma parse_line_tokens : forall line,
  map edge_tokens (EdgeFunction.parse_line line)
  = [split_class EdgeFunction.is_star line].
Proof.
  intros line. unfold EdgeFunction.parse_line.
  destruct (split_class_cons EdgeFunction.is_star line) as (t & ts & E).
  rewrite E. reflexivity.
Qed.

Lemma parseEDI_tokens : forall content,
  map edge_tokens (EdgeFunction.parseEDI content)
  = map (split_class EdgeFunction.is_star) (EdgeFunction.pieces content).
Proof.
  intros content. unfold EdgeFunction.parseEDI.
  induction (EdgeFunction.pieces content) as [|p ps IH]; [reflexivity|].
  cbn [flat_map map]. rewrite map_app, parse_line_tokens, IH. reflexivity.
Qed.




Lemma split_class_snoc : forall d l c,
  d c = true -> split_class d (l ++ [c]) = split_class d l ++ [[]].
Proof.
  intros d l c Hc. induction l as [|x l IH]; cbn [app split_class].
  - rewrite Hc. reflexivity.
  - rewrite IH. destruct (d x); [reflexivity|].
    destruct (split_class_cons d l) as (t & ts & E). rewrite E. reflexivity.
Qed.

(** Splitting at a class that holds the asterisk is splitting at the
    asterisks first and then each piece at the class. *)
Lemma split_class_refines : forall d l,
  d 42%N = true ->
  split_class d l
  = flat_map (split_class d) (split_class EdgeFunction.is_star l).
Proof.
  intros d l Hstar. induction l as [|c l IH]; [reflexivity|].
  cbn [split_class]. unfold EdgeFunction.is_star at 1.
  destruct (N.eqb c 42) eqn:Ec.
  - apply N.eqb_eq in Ec. subst c. rewrite Hstar.
    cbn [flat_map split_class app]. rewrite IH. reflexivity.
  - destruct (split_class_cons EdgeFunction.is_star l) as (t & ts & E).
    rewrite E in *. cbn [flat_map] in *. cbn [split_class]. rewrite IH.
    destruct (d c); [reflexivity|].
    destruct (split_class_cons d t) as (u & us & Eu). rewrite Eu.
    reflexivity.
Qed.

Lemma delimiter_of_asterisk : forall k, delimiter_of k 42%N = true.
Proof. intros [|]; reflexivity. Qed.

(** Where the first tokens hold no delimiter, splitting them again leaves
    them in place. *)
Lemma plain_tokens_stay : forall d toks extra n,
  forallb (delimiter_free d) (firstn (S n) toks) = true ->
  n < List.length toks ->
  nth_error (flat_map (split_class d) toks ++ extra) n = nth_error toks n.
Proof.
  intros d toks extra. induction toks as [|t toks IH]; intros n H Hn;
    [simpl in Hn; lia|].
  cbn [firstn forallb] in H. apply andb_true_iff in H. destruct H as [Ht H].
  cbn [flat_map]. rewrite (split_class_delimiter_free d t Ht).
  destruct n as [|n]; [reflexivity|].
  cbn [app nth_error]. apply IH; [exact H|simpl in Hn; lia].
Qed.

Lemma plain_tokens_read : forall d (f : jsstring -> jsstring) toks n i,
  f [] = [] ->
  forallb (delimiter_free d) (firstn n toks) = true ->
  i < n ->
  or_default
    (option_map f (nth_error (flat_map (split_class d) toks ++ [[]]) i)) []
  = or_default (option_map f (nth_error toks i)) [].
Proof.
  intros d f toks n i Hf. revert n i.
  induction toks as [|t toks IH]; intros n i H Hi.
  - cbn [flat_map app]. destruct i as [|[|i]]; cbn; rewrite ?Hf; reflexivity.
  - destruct n as [|n]; [lia|].
    cbn [firstn forallb] in H. apply andb_true_iff in H. destruct H as [Ht H].
    cbn [flat_map]. rewrite (split_class_delimiter_free d t Ht).
    destruct i as [|i]; [reflexivity|].
    cbn [app nth_error]. apply (IH n i H). lia.
Qed.

Lemma tokenize_elements : forall k content,
  map elements (tokenize k content)
  = map (fun line => split_class (delimiter_of k) (trim line))
      (retained_lines content).
Proof.
  intros k content.
  destruct (tokenize_pushed k content) as (mk & E & Hmk). rewrite E.
  rewrite (pushed_retained mk _ 0 (retained_lines_nonblank content)).
  rewrite map_map,
    (map_ext _ (fun p => split_class (delimiter_of k) (trim (snd p)))).
  - rewrite <- (map_map snd (fun line => split_class (delimiter_of k) (trim line))),
      map_snd_combine_seq. reflexivity.
  - intros [i line]. simpl. destruct (Hmk i line) as (Hraw & _ & Hsplit & _).
    rewrite Hsplit, Hraw. reflexivity.
Qed.

Lemma line_text_parts : forall l,
  line_text l = true ->
  truthy l = true /\ is_trimmed l = true
  /\ forallb (fun c => negb (N.eqb c LF)) l = true
  /\ delimiter_free EdgeFunction.is_tilde l = true.
Proof.
  intros l H. unfold line_text in H.
  apply andb_true_iff in H. destruct H as [H Hall].
  apply andb_true_iff in H. destruct H as [Ht Htrim].
  repeat split; try assumption; apply forallb_forall; intros c Hc;
    apply (proj1 (forallb_forall _ _) Hall) in Hc;
    apply andb_true_iff in Hc; apply Hc.
Qed.

Lemma delimiter_of_tilde : forall k, delimiter_of k 126%N = true.
Proof. intros [|]; reflexivity. Qed.

Lemma closed_line_ok : forall l,
  line_text l = true -> line_ok (l ++ str "~") = true.
Proof.
  intros l H. destruct (line_text_parts l H) as (Ht & Htrim & Hlf & _).
  unfold line_ok. destruct l as [|c l]; [discriminate|].
  unfold is_trimmed in Htrim. apply andb_true_iff in Htrim.
  destruct Htrim as [Hc _].
  change (str "~") with [126%N]. rewrite rev_app_distr, forallb_app.
  unfold char in *. rewrite Hlf.
  cbn [rev app]. rewrite Hc. reflexivity.
Qed.

(** On a closed line the tokenizer [k] finds the pieces between asterisks,
    each split again at its own delimiters, and an empty string after the
    tilde. *)
Lemma split_class_closed : forall k l,
  split_class (delimiter_of k) (l ++ str "~")
  = flat_map (split_class (delimiter_of k))
      (split_class EdgeFunction.is_star l) ++ [[]].
Proof.
  intros k l. change (str "~") with [126%N].
  etransitivity;
    [exact (split_class_snoc (delimiter_of k) l 126%N (delimiter_of_tilde k))|].
  f_equal.
  exact (split_class_refines (delimiter_of k) l (delimiter_of_asterisk k)).
Qed.

Lemma split_tilde_closed : forall ls l,
  forallb line_text (l :: ls) = true ->
  split_class EdgeFunction.is_tilde (closed_lines (l :: ls))
  = l :: map (fun x => LF :: x) ls ++ [[]].
Proof.
  intros ls. unfold closed_lines.
  induction ls as [|l' ls IH]; intros l H;
    cbn [forallb] in H; apply andb_true_iff in H; destruct H as [Hl Hrest].
  - exact (split_class_token EdgeFunction.is_tilde l 126%N []
             (proj2 (proj2 (proj2 (line_text_parts l Hl)))) eq_refl).
  - cbn [map]. rewrite join_cons_cons. rewrite <- app_assoc.
    change (str "~" ++ newline ++ ?x) with (126%N :: LF :: x).
    etransitivity;
      [exact (split_class_token EdgeFunction.is_tilde l 126%N _
                (proj2 (proj2 (proj2 (line_text_parts l Hl)))) eq_refl)|].
    f_equal. cbn [split_class]. change (EdgeFunction.is_tilde LF) with false.
    cbv iota.
    pose proof (IH l' Hrest) as IH'. cbn [map] in IH'.
    unfold jsstring, char in *. rewrite IH'. reflexivity.
Qed.

Lemma pieces_closed : forall ls l,
  forallb line_text (l :: ls) = true ->
  EdgeFunction.pieces (closed_lines (l :: ls)) = l :: ls.
Proof.
  intros ls l H. unfold EdgeFunction.pieces.
  rewrite (split_tilde_closed ls l H).
  assert (Hkeep : forall xs (f : jsstring -> jsstring),
             (forall x, In x xs -> trim (f x) = x) ->
             forallb line_text xs = true ->
             filter truthy (map trim (map f xs ++ [[]])) = xs).
  { induction xs as [|x xs IH]; intros f Hf Hxs; [reflexivity|].
    cbn [forallb] in Hxs. apply andb_true_iff in Hxs.
    destruct Hxs as [Hx Hxs].
    cbn [map app filter]. rewrite (Hf x (or_introl eq_refl)).
    destruct (line_text_parts x Hx) as (-> & _).
    rewrite (IH f); [reflexivity| |exact Hxs].
    intros y Hy. apply Hf. right. exact Hy. }
  cbn [forallb] in H. apply andb_true_iff in H. destruct H as [Hl Hls].
  change (l :: map (fun x => LF :: x) ls ++ [[]])
    with (map (fun x => x) [l] ++ (map (fun x => LF :: x) ls ++ [[]])).
  cbn [map app filter].
  destruct (line_text_parts l Hl) as (Ht & Htrim & _).
  rewrite (trim_fixed l Htrim), Ht. f_equal.
  apply Hkeep; [|exact Hls].
  intros x Hx.
  apply (proj1 (forallb_forall _ _) Hls) in Hx.
  destruct (line_text_parts x Hx) as (_ & Hxt & _).
  change (trim (LF :: x)) with (trim x). apply trim_fixed. exact Hxt.
Qed.

Lemma retained_closed : forall ls l,
  forallb line_text (l :: ls) = true ->
  retained_lines (closed_lines (l :: ls))
  = map (fun x => x ++ str "~") (l :: ls).
Proof.
  intros ls l H.
  assert (Hok : forallb line_ok (map (fun x => x ++ str "~") (l :: ls)) = true).
  { apply forallb_forall. intros x Hx. apply in_map_iff in Hx.
    destruct Hx as (y & <- & Hy). apply closed_line_ok.
    apply (proj1 (forallb_forall _ _) H y Hy). }
  unfold retained_lines, closed_lines. cbn [map] in *.
  pose proof (split_lines_join _ _ Hok) as Hs.
  unfold jsstring, char in *. rewrite Hs.
  apply filter_all. apply forallb_forall. intros x Hx.
  apply (line_ok_trim x). apply (proj1 (forallb_forall _ _) Hok x Hx).
Qed.

Lemma closed_lines_elements : forall k l ls,
  forallb line_text (l :: ls) = true ->
  map edge_tokens (EdgeFunction.parseEDI (closed_lines (l :: ls)))
  = map (split_class EdgeFunction.is_star) (l :: ls)
  /\ map elements (tokenize k (closed_lines (l :: ls)))
     = map (viewer_tokens k) (EdgeFunction.parseEDI (closed_lines (l :: ls))).
Proof.
  intros k l ls H.
  assert (Hedge : map edge_tokens (EdgeFunction.parseEDI (closed_lines (l :: ls)))
                  = map (split_class EdgeFunction.is_star) (l :: ls)).
  { rewrite parseEDI_tokens, (pieces_closed ls l H). reflexivity. }
  split; [exact Hedge|].
  change (viewer_tokens k)
    with (fun s => (fun ts => flat_map (split_class (delimiter_of k)) ts ++ [[]])
                     (edge_tokens s)).
  rewrite <- (map_map edge_tokens
                (fun ts => flat_map (split_class (delimiter_of k)) ts ++ [[]])),
    Hedge.
  rewrite tokenize_elements, (retained_closed ls l H). rewrite !map_map.
  apply map_ext_in. intros x Hx.
  apply (proj1 (forallb_forall _ _) H) in Hx.
  destruct (line_ok_trim _ (closed_line_ok x Hx)) as [-> _].
  apply split_class_closed.
Qed.

Lemma legacy_tokens_plain : forall l,
  delimiter_free EdgeFunction.is_tilde l = true ->
  flat_map (split_class (delimiter_of LegacyParser))
    (split_class EdgeFunction.is_star l)
  = split_class EdgeFunction.is_star l.
Proof.
  intros l H.
  assert (Hfree : forallb (delimiter_free (delimiter_of LegacyParser))
                    (split_class EdgeFunction.is_star l) = true).
  { apply forallb_forall. intros t Ht.
    pose proof (split_class_tokens_free EdgeFunction.is_star l) as Hs.
    pose proof (forallb_split_class
                  (fun c => negb (EdgeFunction.is_tilde c))
                  EdgeFunction.is_star l H) as Hq.
    apply (proj1 (forallb_forall _ _) Hs) in Ht as Hstar.
    apply (proj1 (forallb_forall _ _) Hq) in Ht as Htilde.
    apply forallb_forall. intros c Hc.
    apply (proj1 (forallb_forall _ _) Hstar) in Hc as H1.
    apply (proj1 (forallb_forall _ _) Htilde) in Hc as H2.
    cbn [delimiter_of]. unfold EdiParser.delimiter.
    unfold EdgeFunction.is_star in H1. unfold EdgeFunction.is_tilde in H2.
    apply negb_true_iff in H1, H2. rewrite H1, H2. reflexivity. }
  induction (split_class EdgeFunction.is_star l) as [|t ts IH];
    [reflexivity|].
  cbn [forallb] in Hfree. apply andb_true_iff in Hfree.
  destruct Hfree as [Ht Hts]. cbn [flat_map].
  rewrite (split_class_delimiter_free _ t Ht), (IH Hts). reflexivity.
Qed.

Lemma Forall2_of_maps : forall (A B C : Type) (f : A -> C) (g : B -> C) l l',
  map f l = map g l' -> Forall2 (fun a b => f a = g b) l l'.
Proof.
  intros A B C f g l. induction l as [|a l IH]; intros [|b l'] H;
    try discriminate; constructor.
  - injection H as H _. exact H.
  - injection H as _ H. apply IH. exact H.
Qed.

(** X15.  On a file that writes one segment per line and closes each with a
    tilde, the edge function finds the pieces of each line between
    asterisks, and the element array of the viewer holds these tokens, the
    tag first, each split again at the other delimiters of its tokenizer
    (none for the legacy parser, the caret for the universal parser), then
    one empty string for the closing tilde.  So the elements of the legacy
    parser are the tag, the elements of the edge function and that empty
    string, and with either parser the tokens stand at the same positions up
    to the first one that holds such a delimiter. *)
Theorem tokenizers_agree_up_to_offset : forall k l ls,
  forallb line_text (l :: ls) = true ->
  let content := closed_lines (l :: ls) in
  map edge_tokens (EdgeFunction.parseEDI content)
  = map (split_class EdgeFunction.is_star) (l :: ls)
  /\ map elements (tokenize k content)
     = map (viewer_tokens k) (EdgeFunction.parseEDI content)
  /\ map elements (tokenize LegacyParser content)
     = map (fun s => edge_tokens s ++ [[]]) (EdgeFunction.parseEDI content)
  /\ Forall2
       (fun v e =>
          forall n,
            n < List.length (edge_tokens e) ->
            forallb (delimiter_free (delimiter_of k))
              (firstn (S n) (edge_tokens e)) = true ->
            element v n = nth_error (edge_tokens e) n)
       (tokenize k content) (EdgeFunction.parseEDI content).
Proof.
  intros k l ls H content. subst content.
  destruct (closed_lines_elements k l ls H) as [Hedge Hviewer].
  split; [exact Hedge|]. split; [exact Hviewer|]. split.
  - destruct (closed_lines_elements LegacyParser l ls H) as [_ Hlegacy].
    rewrite Hlegacy.
    change (viewer_tokens LegacyParser)
      with (fun s =>
              (fun ts =>
                 flat_map (split_class (delimiter_of LegacyParser)) ts ++ [[]])
                (edge_tokens s)).
    rewrite <- (map_map edge_tokens
                  (fun ts =>
                     flat_map (split_class (delimiter_of LegacyParser)) ts
                     ++ [[]])).
    rewrite <- (map_map edge_tokens (fun ts => ts ++ [[]])).
    rewrite Hedge, !map_map. apply map_ext_in. intros x Hx.
    apply (proj1 (forallb_forall _ _) H) in Hx.
    rewrite (legacy_tokens_plain x (proj2 (proj2 (proj2 (line_text_parts x Hx))))).
    reflexivity.
  - apply Forall2_of_maps in Hviewer.
    eapply Forall2_impl; [|exact Hviewer].
    intros v e Hve n Hn Hplain. cbv beta in Hve.
    unfold element, at_index. rewrite Hve. unfold viewer_tokens.
    apply plain_tokens_stay; assumption.
Qed.

Lemma tokenizers_agree_up_to_offset_witness :
  let lines :=
    [repository_isa_text;
     str "GS*BE*SENDER*RECEIVER*20250930*1200*1*X*005010X220A1";
     str "ST*834*0001*005010X220A1"] in
  let content := closed_lines lines in
  map (fun s => List.length (elements s)) (tokenize UniversalParser content)
  = [19; 10; 5]
  /\ map (fun s => List.length (edge_tokens s)) (EdgeFunction.parseEDI content)
     = [17; 9; 4]
  /\ map edge_tokens (EdgeFunction.parseEDI content)
     = map (split_class EdgeFunction.is_star) lines
  /\ map elements (tokenize UniversalParser content)
     = map (viewer_tokens UniversalParser) (EdgeFunction.parseEDI content)
  /\ map elements (tokenize LegacyParser content)
     = map (fun s => edge_tokens s ++ [[]]) (EdgeFunction.parseEDI content)
  /\ Forall2
       (fun v e =>
          forall n,
            n < List.length (edge_tokens e) ->
            forallb (delimiter_free (delimiter_of UniversalParser))
              (firstn (S n) (edge_tokens e)) = true ->
            element v n = nth_error (edge_tokens e) n)
       (tokenize UniversalParser content) (EdgeFunction.parseEDI content).
Proof.
  intros lines content. split; [reflexivity|]. split; [reflexivity|].
  apply (tokenizers_agree_up_to_offset UniversalParser repository_isa_text
           [str "GS*BE*SENDER*RECEIVER*20250930*1200*1*X*005010X220A1";
            str "ST*834*0001*005010X220A1"]).
  reflexivity.
Defined.

Lemma Forall2_both : forall (A B : Type) (R : A -> B -> Prop)
    (P : A -> Prop) (Q : B -> Prop) l l',
  Forall2 R l l' -> Forall P l -> Forall Q l' ->
  Forall2 (fun a b => P a /\ Q b /\ R a b) l l'.
Proof.
  intros A B R P Q l l' H. induction H as [|a b l l' Hab _ IH];
    intros HP HQ; constructor.
  - split; [apply (Forall_inv HP)|]. split; [apply (Forall_inv HQ)|exact Hab].
  - apply IH; [apply (Forall_inv_tail HP)|apply (Forall_inv_tail HQ)].
Qed.

Lemma Forall_of_map : forall (A B C : Type) (f : A -> C) (g : B -> C)
    (P : C -> Prop) l l',
  map f l = map g l' -> Forall (fun b => P (g b)) l' ->
  Forall (fun a => P (f a)) l.
Proof.
  intros A B C f g P l. induction l as [|a l IH]; intros [|b l'] H HP;
    try discriminate; constructor.
  - injection H as H _. rewrite H. apply (Forall_inv HP).
  - injection H as _ H. apply (IH l' H). apply (Forall_inv_tail HP).
Qed.

Lemma option_map_id : forall (o : option jsstring),
  option_map (fun x : jsstring => x) o = o.
Proof. intros [x|]; reflexivity. Qed.

(** A segment of the viewer read from a closed line whose first nine
    tokens hold none of its delimiters reads as the segment of the edge
    function. *)
Lemma plain_head_same_reads : forall k v e,
  tag_inclusive (delimiter_of k) v ->
  forallb (delimiter_free (delimiter_of k)) (firstn 9 (edge_tokens e)) = true ->
  elements v = viewer_tokens k e ->
  same_reads v e.
Proof.
  intros k v e [_ Htag] Hplain Hel. unfold viewer_tokens in Hel. split.
  - unfold edge_tokens in *. cbn [firstn forallb] in Hplain.
    apply andb_true_iff in Hplain. destruct Hplain as [Ht _].
    rewrite Hel in Htag. cbn [flat_map] in Htag.
    rewrite (split_class_delimiter_free _ _ Ht) in Htag.
    cbn [app tl] in Htag. injection Htag as Htag. symmetry. exact Htag.
  - intros n Hn. unfold element, EdgeFunction.el, at_index. rewrite Hel.
    change (nth_error (EdgeFunction.elements e) n)
      with (nth_error (edge_tokens e) (S n)).
    split.
    + pose proof (@plain_tokens_read (delimiter_of k) (fun x => x)
                    (edge_tokens e) 9 (S n) eq_refl Hplain
                    ltac:(lia)) as H.
      rewrite !option_map_id in H. exact H.
    + apply (@plain_tokens_read (delimiter_of k) trim (edge_tokens e) 9 (S n)
               eq_refl Hplain). lia.
Qed.

Lemma closed_lines_same_reads : forall k l ls,
  forallb line_text (l :: ls) = true ->
  forallb (plain_head k 9) (l :: ls) = true ->
  Forall2 same_reads (tokenize k (closed_lines (l :: ls)))
    (EdgeFunction.parseEDI (closed_lines (l :: ls))).
Proof.
  intros k l ls H Hplain.
  destruct (closed_lines_elements k l ls H) as [Hedge Hmaps].
  apply Forall2_of_maps in Hmaps.
  assert (Htags : Forall (tag_inclusive (delimiter_of k))
                    (tokenize k (closed_lines (l :: ls))))
    by (apply Forall_of_In; intros seg; apply tokenize_tag_inclusive).
  assert (Hheads : Forall
                     (fun e =>
                        forallb (delimiter_free (delimiter_of k))
                          (firstn 9 (edge_tokens e)) = true)
                     (EdgeFunction.parseEDI (closed_lines (l :: ls)))).
  { apply (@Forall_of_map _ _ _ edge_tokens
             (split_class EdgeFunction.is_star)
             (fun ts => forallb (delimiter_free (delimiter_of k))
                          (firstn 9 ts) = true) _ _ Hedge).
    apply Forall_of_In. intros x Hx.
    exact (proj1 (forallb_forall _ _) Hplain x Hx). }
  pose proof (Forall2_both Hmaps Htags Hheads) as Hboth.
  eapply Forall2_impl; [|exact Hboth].
  intros v e Hve. cbv beta in Hve. destruct Hve as (Hincl & Hhead & Hel).
  exact (@plain_head_same_reads k v e Hincl Hhead Hel).
Qed.

Lemma find_same_reads : forall t vs es,
  Forall2 same_reads vs es ->
  match EdiValidator.find_tag t vs, EdgeFunction.find_type t es with
  | Some v, Some e => same_reads v e
  | None, None => True
  | _, _ => False
  end.
Proof.
  intros t vs es H. unfold EdiValidator.find_tag, EdgeFunction.find_type.
  induction H as [|v e vs es Hve _ IH]; [exact I|].
  cbn [find]. destruct Hve as [Htag Hel]. rewrite Htag.
  destruct (eqb (EdgeFunction.type e) t); [|exact IH].
  split; assumption.
Qed.

(** X16.  On a file of closed lines in which no line holds a delimiter of
    the viewer's tokenizer other than the asterisk within its first nine
    tokens (with the universal parser: no caret before the ninth asterisk
    of a line, as in an interchange whose first caret is the repetition
    separator in ISA11), the control information the edge function stores
    is the header the viewer extracts: the transaction type and control
    number of the first [ST] segment and, trimmed, the sender and receiver
    of the first [ISA] segment, an absent value being the empty string. *)
Theorem control_info_agrees_with_header : forall k l ls,
  forallb line_text (l :: ls) = true ->
  forallb (plain_head k 9) (l :: ls) = true ->
  let content := closed_lines (l :: ls) in
  let info := EdgeFunction.extractControlInfo (EdgeFunction.parseEDI content) in
  let st := Extract.header_st (tokenize k content) in
  let isa := Extract.header_isa (tokenize k content) in
  EdgeFunction.transactionType info
  = or_default (St.transactionSetIdentifier st) []
  /\ EdgeFunction.controlNumber info
     = or_default (St.transactionSetControlNumber st) []
  /\ EdgeFunction.senderId info
     = or_default (option_map trim (Isa.senderId isa)) []
  /\ EdgeFunction.receiverId info
     = or_default (option_map trim (Isa.receiverId isa)) [].
Proof.
  intros k l ls H Hplain content info st isa. subst info st isa content.
  pose proof (closed_lines_same_reads k l ls H Hplain) as Hsame.
  pose proof (find_same_reads (str "ST") Hsame) as Hst.
  pose proof (find_same_reads (str "ISA") Hsame) as Hisa.
  unfold EdgeFunction.extractControlInfo, Extract.header_st,
    Extract.header_isa.
  cbn [EdgeFunction.transactionType EdgeFunction.controlNumber
       EdgeFunction.senderId EdgeFunction.receiverId].
  destruct (EdiValidator.find_tag (str "ST") _) as [v|];
    destruct (EdgeFunction.find_type (str "ST") _) as [e|];
    try contradiction;
    destruct (EdiValidator.find_tag (str "ISA") _) as [v'|];
    destruct (EdgeFunction.find_type (str "ISA") _) as [e'|];
    try contradiction;
    cbn [EdgeFunction.read EdgeFunction.read_trimmed
         St.transactionSetIdentifier St.transactionSetControlNumber
         Isa.senderId Isa.receiverId St.empty Isa.empty option_map
         or_default];
    repeat split;
    try (symmetry; apply (proj2 Hst); lia);
    try (symmetry; apply (proj2 Hisa); lia).
Qed.

Lemma control_info_agrees_with_header_witness :
  let content :=
    closed_lines
      [repository_isa_text;
       str "GS*BE*SENDER*RECEIVER*20250930*1200*1*X*005010X220A1";
       str "ST*834*0001*005010X220A1"] in
  let info := EdgeFunction.extractControlInfo (EdgeFunction.parseEDI content) in
  let st := Extract.header_st (tokenize UniversalParser content) in
  let isa := Extract.header_isa (tokenize UniversalParser content) in
  (EdgeFunction.transactionType info, EdgeFunction.controlNumber info,
   EdgeFunction.senderId info, EdgeFunction.receiverId info)
  = (str "834", str "0001", str "SENDER", str "RECEIVER")
  /\ EdgeFunction.transactionType info
     = or_default (St.transactionSetIdentifier st) []
  /\ EdgeFunction.controlNumber info
     = or_default (St.transactionSetControlNumber st) []
  /\ EdgeFunction.senderId info
     = or_default (option_map trim (Isa.senderId isa)) []
  /\ EdgeFunction.receiverId info
     = or_default (option_map trim (Isa.receiverId isa)) [].
Proof.
  split; [reflexivity|].
  apply (control_info_agrees_with_header UniversalParser repository_isa_text
           [str "GS*BE*SENDER*RECEIVER*20250930*1200*1*X*005010X220A1";
            str "ST*834*0001*005010X220A1"]); reflexivity.
Defined.

(* ================================================================== *)
(** ** Further properties: the rows of the edge function                *)
(* ================================================================== *)

Lemma tagged_type : forall t seg,
  EdgeFunction.tagged t seg = true -> EdgeFunction.type seg = str t.
Proof. intros t seg H. apply eqb_eq. exact H. Qed.

Lemma member_step_idle : forall tid ms seg,
  EdgeFunction.tagged "INS" seg = false ->
  EdgeFunction.member_step tid (ms, None) seg = EdgeFunction.Normal (ms, None).
Proof.
  intros tid ms seg H. unfold EdgeFunction.member_step.
  rewrite H. cbn [EdgeFunction.present]. rewrite !andb_false_r.
  reflexivity.
Qed.

Lemma ins_not_undated : forall seg,
  EdgeFunction.tagged "INS" seg = true -> undated seg = false.
Proof.
  intros seg H. unfold undated, EdgeFunction.tagged.
  rewrite (tagged_type _ _ H). reflexivity.
Qed.

Lemma member_step_current : forall tid ms m seg,
  EdgeFunction.tagged "INS" seg = false ->
  if undated seg
  then EdgeFunction.member_step tid (ms, Some m) seg = EdgeFunction.TypeError
  else exists m',
      EdgeFunction.member_step tid (ms, Some m) seg
      = EdgeFunction.Normal (ms, Some m')
      /\ row_key m' = row_key m.
Proof.
  intros tid ms m seg H. unfold EdgeFunction.member_step. rewrite H.
  cbn [EdgeFunction.present]. rewrite !andb_true_r.
  destruct (EdgeFunction.tagged "REF" seg) eqn:Href.
  { replace (undated seg) with false
      by (unfold undated, EdgeFunction.tagged;
          rewrite (tagged_type _ _ Href); reflexivity).
    cbn [option_map]. eexists. split; [reflexivity|].
    unfold EdgeFunction.set_ref.
    destruct (opt_eqb _ _); [reflexivity|].
    destruct (opt_eqb _ _); reflexivity. }
  destruct (EdgeFunction.tagged "NM1" seg) eqn:Hnm1.
  { replace (undated seg) with false
      by (unfold undated, EdgeFunction.tagged;
          rewrite (tagged_type _ _ Hnm1); reflexivity).
    cbn [andb].
    destruct (opt_eqb (EdgeFunction.el seg 0) (Some (str "IL"))).
    - cbn [option_map]. eexists. split; reflexivity.
    - replace (EdgeFunction.tagged "N3" seg) with false
        by (unfold EdgeFunction.tagged;
            rewrite (tagged_type _ _ Hnm1); reflexivity).
      replace (EdgeFunction.tagged "N4" seg) with false
        by (unfold EdgeFunction.tagged;
            rewrite (tagged_type _ _ Hnm1); reflexivity).
      replace (EdgeFunction.tagged "DMG" seg) with false
        by (unfold EdgeFunction.tagged;
            rewrite (tagged_type _ _ Hnm1); reflexivity).
      replace (EdgeFunction.tagged "HD" seg) with false
        by (unfold EdgeFunction.tagged;
            rewrite (tagged_type _ _ Hnm1); reflexivity).
      replace (EdgeFunction.tagged "DTP" seg) with false
        by (unfold EdgeFunction.tagged;
            rewrite (tagged_type _ _ Hnm1); reflexivity).
      cbn [andb]. eexists. split; reflexivity. }
  cbn [andb].
  destruct (EdgeFunction.tagged "N3" seg) eqn:Hn3.
  { replace (undated seg) with false
      by (unfold undated, EdgeFunction.tagged;
          rewrite (tagged_type _ _ Hn3); reflexivity).
    cbn [option_map]. eexists. split; reflexivity. }
  destruct (EdgeFunction.tagged "N4" seg) eqn:Hn4.
  { replace (undated seg) with false
      by (unfold undated, EdgeFunction.tagged;
          rewrite (tagged_type _ _ Hn4); reflexivity).
    cbn [option_map]. eexists. split; reflexivity. }
  destruct (EdgeFunction.tagged "DMG" seg) eqn:Hdmg.
  { assert (Hu : undated seg
                 = opt_eqb (EdgeFunction.el seg 0) (Some (str "D8"))
                   && negb (EdgeFunction.present (EdgeFunction.el seg 1))).
    { unfold undated. rewrite Hdmg.
      replace (EdgeFunction.tagged "DTP" seg) with false
        by (unfold EdgeFunction.tagged;
            rewrite (tagged_type _ _ Hdmg); reflexivity).
      cbn [andb]. rewrite orb_false_r. reflexivity. }
    rewrite Hu. unfold EdgeFunction.set_demographics.
    destruct (opt_eqb (EdgeFunction.el seg 0) (Some (str "D8"))).
    - destruct (EdgeFunction.el seg 1) as [d|]; cbn.
      + eexists. split; reflexivity.
      + reflexivity.
    - cbn. eexists. split; reflexivity. }
  destruct (EdgeFunction.tagged "HD" seg) eqn:Hhd.
  { replace (undated seg) with false
      by (unfold undated, EdgeFunction.tagged;
          rewrite (tagged_type _ _ Hhd); reflexivity).
    cbn [option_map]. eexists. split; reflexivity. }
  assert (Hu : undated seg
               = EdgeFunction.tagged "DTP" seg
                 && opt_eqb (EdgeFunction.el seg 0) (Some (str "348"))
                 && negb (EdgeFunction.present (EdgeFunction.el seg 2))).
  { unfold undated. rewrite Hdmg. reflexivity. }
  rewrite Hu.
  destruct (EdgeFunction.tagged "DTP" seg); cbn [andb];
    [|eexists; split; reflexivity].
  destruct (opt_eqb (EdgeFunction.el seg 0) (Some (str "348"))); cbn [andb];
    [|eexists; split; reflexivity].
  unfold EdgeFunction.set_effective.
  destruct (EdgeFunction.el seg 2) as [d|]; cbn.
  - eexists. split; reflexivity.
  - reflexivity.
Qed.

Lemma member_loop_spec : forall tid segs ms cur,
  let body :=
    match cur with
    | Some _ => segs
    | None => from_first (EdgeFunction.tagged "INS") segs
    end in
  if existsb undated body
  then EdgeFunction.member_loop tid segs (ms, cur) = EdgeFunction.TypeError
  else exists ms' cur',
      EdgeFunction.member_loop tid segs (ms, cur)
      = EdgeFunction.Normal (ms', cur')
      /\ map row_key (Extract.push_current ms' cur')
         = map row_key (Extract.push_current ms cur)
           ++ map (fun ins => row_key (EdgeFunction.new_member tid ins))
                (filter (EdgeFunction.tagged "INS") segs).
Proof.
  intros tid segs. induction segs as [|seg segs IH]; intros ms cur body.
  - assert (Hb : existsb undated body = false)
      by (subst body; destruct cur; reflexivity).
    rewrite Hb. exists ms, cur. split; [reflexivity|].
    cbn [filter map]. rewrite app_nil_r. reflexivity.
  - cbn [EdgeFunction.member_loop filter].
    destruct (EdgeFunction.tagged "INS" seg) eqn:Hins.
    + assert (Hb : existsb undated body = existsb undated segs).
      { assert (body = seg :: segs) as ->
          by (subst body; destruct cur; cbn [from_first];
              rewrite ?Hins; reflexivity).
        cbn [existsb]. rewrite (ins_not_undated seg Hins). reflexivity. }
      rewrite Hb.
      assert (Hstep : EdgeFunction.member_step tid (ms, cur) seg
                      = EdgeFunction.Normal
                          (Extract.push_current ms cur,
                           Some (EdgeFunction.new_member tid seg))).
      { unfold EdgeFunction.member_step. rewrite Hins.
        destruct cur; reflexivity. }
      rewrite Hstep.
      specialize (IH (Extract.push_current ms cur)
                    (Some (EdgeFunction.new_member tid seg))).
      cbv zeta in IH.
      destruct (existsb undated segs); [exact IH|].
      destruct IH as (ms' & cur' & E & Hkeys).
      exists ms', cur'. split; [exact E|].
      rewrite Hkeys. cbn [Extract.push_current map].
      rewrite map_app, <- app_assoc. reflexivity.
    + destruct cur as [m|].
      * subst body. cbn [existsb].
        pose proof (member_step_current tid ms m seg Hins) as Hstep.
        destruct (undated seg); cbn [orb].
        { rewrite Hstep. reflexivity. }
        destruct Hstep as (m' & -> & Hkey).
        specialize (IH ms (Some m')). cbv zeta in IH.
        destruct (existsb undated segs); [exact IH|].
        destruct IH as (ms' & cur' & E & Hkeys).
        exists ms', cur'. split; [exact E|].
        rewrite Hkeys. cbn [Extract.push_current].
        rewrite !map_app. cbn [map]. rewrite Hkey. reflexivity.
      * subst body. cbn [from_first]. rewrite Hins.
        rewrite (member_step_idle tid ms seg Hins).
        apply (IH ms None).
Qed.

(** X17.  [process834] of the edge function throws exactly when, after
    the first [INS], a [DMG*D8] segment has no date or a [DTP*348] segment
    has none; otherwise it builds one row per [INS] segment, in order,
    whose status and relationship are fixed by that segment alone: active
    subscriber when the second element after the tag is [Y], terminated
    dependent otherwise. *)
Theorem edge_members_or_type_error : forall segs tid,
  if existsb undated (from_first (EdgeFunction.tagged "INS") segs)
  then EdgeFunction.process834 segs tid = EdgeFunction.TypeError
  else exists rows,
      EdgeFunction.process834 segs tid = EdgeFunction.Normal rows
      /\ map row_key rows
         = map (fun ins =>
                  if opt_eqb (EdgeFunction.el ins 1) (Some (str "Y"))
                  then (tid, str "active", str "subscriber")
                  else (tid, str "terminated", str "dependent"))
             (filter (EdgeFunction.tagged "INS") segs).
Proof.
  intros segs tid. unfold EdgeFunction.process834.
  pose proof (member_loop_spec tid segs [] None) as H. cbv zeta in H.
  destruct (existsb undated _).
  - rewrite H. reflexivity.
  - destruct H as (ms' & cur' & -> & Hkeys).
    exists (Extract.push_current ms' cur'). split.
    + destruct cur'; reflexivity.
    + rewrite Hkeys. cbn [Extract.push_current map app].
      apply map_ext. intros ins. unfold row_key, EdgeFunction.new_member.
      cbn. destruct (opt_eqb _ _); reflexivity.
Qed.

Example edge_members_samples :
  EdgeFunction.process834 (EdgeFunction.parseEDI (str "INS*Y*18~DMG*D8~")) []
  = EdgeFunction.TypeError
  /\ match EdgeFunction.process834 (EdgeFunction.parseEDI sample_834) [] with
     | EdgeFunction.Normal rows =>
         map (fun r => (EdgeFunction.status r, EdgeFunction.last_name r,
                        EdgeFunction.ssn r)) rows
         = [(str "terminated", Some (str "SMITH"), Some (str "987654321"))]
     | EdgeFunction.TypeError => False
     end.
Proof. split; vm_compute; reflexivity. Qed.

Lemma payment_step_some : forall tid p seg,
  exists p', EdgeFunction.payment_step tid (Some p) seg = Some p'.
Proof.
  intros tid p seg. unfold EdgeFunction.payment_step.
  cbn [EdgeFunction.present option_map]. rewrite !andb_true_r.
  destruct (EdgeFunction.tagged "BPR" seg); [eexists; reflexivity|].
  destruct (EdgeFunction.tagged "TRN" seg); [eexists; reflexivity|].
  destruct (EdgeFunction.tagged "N1" seg); [eexists; reflexivity|].
  destruct (EdgeFunction.tagged "RMR" seg); eexists; reflexivity.
Qed.

Lemma payment_fold_some : forall tid segs p,
  exists p', fold_left (EdgeFunction.payment_step tid) segs (Some p) = Some p'.
Proof.
  intros tid segs. induction segs as [|seg segs IH]; intros p.
  - exists p. reflexivity.
  - cbn [fold_left]. destruct (payment_step_some tid p seg) as (p' & ->).
    apply IH.
Qed.

Lemma payment_step_start_any : forall tid cur seg,
  EdgeFunction.tagged "BPR" seg = true ->
  EdgeFunction.payment_step tid cur seg
  = EdgeFunction.payment_step tid None seg.
Proof.
  intros tid cur seg H. unfold EdgeFunction.payment_step. rewrite H.
  reflexivity.
Qed.

Lemma payment_step_none : forall tid seg,
  EdgeFunction.tagged "BPR" seg = false ->
  EdgeFunction.payment_step tid None seg = None.
Proof.
  intros tid seg H. unfold EdgeFunction.payment_step. rewrite H.
  cbn [EdgeFunction.present]. rewrite !andb_false_r. reflexivity.
Qed.

Lemma edge_payment_count : forall tid segs cur,
  List.length
    (match fold_left (EdgeFunction.payment_step tid) segs cur with
     | Some p => [p]
     | None => []
     end)
  = if EdgeFunction.present cur || existsb (EdgeFunction.tagged "BPR") segs
    then 1 else 0.
Proof.
  intros tid segs. induction segs as [|seg segs IH]; intros cur.
  - destruct cur; reflexivity.
  - cbn [fold_left existsb]. rewrite IH.
    destruct cur as [p|].
    + destruct (payment_step_some tid p seg) as (p' & ->). reflexivity.
    + destruct (EdgeFunction.tagged "BPR" seg) eqn:E.
      * unfold EdgeFunction.payment_step. rewrite E. reflexivity.
      * rewrite (payment_step_none tid seg E). reflexivity.
Qed.

(** X18.  [process820] of the edge function never stores more than one
    payment: it stores one exactly when there is a [BPR] segment, and what
    it stores does not depend on anything before the last [BPR]; every
    earlier payment is overwritten, not pushed. *)
Theorem edge_keeps_last_payment_only :
  (forall segs tid,
     List.length (EdgeFunction.process820 segs tid)
     = if existsb (EdgeFunction.tagged "BPR") segs then 1 else 0)
  /\ (forall pre b post tid,
        EdgeFunction.tagged "BPR" b = true ->
        EdgeFunction.process820 (pre ++ b :: post) tid
        = EdgeFunction.process820 (b :: post) tid).
Proof.
  split.
  - intros segs tid. unfold EdgeFunction.process820.
    apply (edge_payment_count tid segs None).
  - intros pre b post tid H. unfold EdgeFunction.process820.
    rewrite fold_left_app. cbn [fold_left].
    rewrite (payment_step_start_any tid _ b H). reflexivity.
Qed.

Lemma edge_keeps_last_payment_only_witness :
  let first := EdgeFunction.mkSegment (str "BPR") [str "C"; str "100.00"] in
  let second := EdgeFunction.mkSegment (str "BPR") [str "C"; str "250.00"] in
  let trace := EdgeFunction.mkSegment (str "TRN") [str "1"; str "A"] in
  EdgeFunction.process820 ([first; trace] ++ second :: [trace]) []
  = EdgeFunction.process820 (second :: [trace]) []
  /\ List.length (EdgeFunction.process820 [first; trace; second; trace] [])
     = 1.
Proof.
  split.
  - apply (proj2 edge_keeps_last_payment_only). reflexivity.
  - exact (proj1 edge_keeps_last_payment_only _ _).
Defined.

Example payments_kept_and_lost :
  let lines :=
    [str "BPR*C*100.00*C*ACH"; str "TRN*1*A"; str "BPR*C*250.00*C*CHK"] in
  List.length
    (Extract.extract820Payments (tokenize UniversalParser (closed_lines lines)))
  = 2
  /\ map EdgeFunction.payment_amount
       (EdgeFunction.process820 (EdgeFunction.parseEDI (closed_lines lines)) [])
     = [Decimal false 25000 (-2)].
Proof. split; vm_compute; reflexivity. Qed.

(* ================================================================== *)
(** ** Further properties: the edit distance of the lifecycle tracker   *)
(* ================================================================== *)

Lemma get_set : forall (A : Type) i (a : LifecycleTracker.sparse A) v i',
  LifecycleTracker.get (LifecycleTracker.set a i v) i'
  = if Nat.eqb i' i then v else LifecycleTracker.get a i'.
Proof.
  intros A. unfold LifecycleTracker.get.
  induction i as [|i IH]; intros [|x a] v [|i']; cbn; try reflexivity.
  - destruct i'; reflexivity.
  - rewrite IH. destruct (Nat.eqb i' i); [reflexivity|].
    destruct i'; reflexivity.
  - apply IH.
Qed.

Lemma read_assign : forall m i j v m',
  LifecycleTracker.assign m i j v = Some m' ->
  (forall i', LifecycleTracker.get m' i' <> None
              <-> LifecycleTracker.get m i' <> None)
  /\ forall i' j',
       LifecycleTracker.read m' i' j'
       = if Nat.eqb i' i && Nat.eqb j' j then Some v
         else LifecycleTracker.read m i' j'.
Proof.
  intros m i j v m' H. unfold LifecycleTracker.assign in H.
  destruct (LifecycleTracker.get m i) as [row|] eqn:Hrow; [|discriminate].
  injection H as <-. split.
  - intros i'. rewrite get_set. destruct (Nat.eqb i' i) eqn:E.
    + apply Nat.eqb_eq in E. subst i'. rewrite Hrow. split; discriminate.
    + reflexivity.
  - intros i' j'. unfold LifecycleTracker.read. rewrite get_set.
    destruct (Nat.eqb i' i) eqn:E; cbn [andb]; [|reflexivity].
    apply Nat.eqb_eq in E. subst i'. rewrite Hrow, get_set.
    destruct (Nat.eqb j' j); reflexivity.
Qed.

Lemma assign_defined : forall m i j v,
  LifecycleTracker.get m i <> None ->
  exists m', LifecycleTracker.assign m i j v = Some m'.
Proof.
  intros m i j v H. unfold LifecycleTracker.assign.
  destruct (LifecycleTracker.get m i); [eexists; reflexivity|].
  contradiction.
Qed.

(** A loop over [seq k n] that keeps an invariant indexed by the next
    index completes and establishes it at [k + n]. *)
Lemma for_each_invariant : forall (St : Type) (P : nat -> St -> Prop)
    (body : St -> nat -> option St) n k st,
  (forall i st, k <= i < k + n -> P i st ->
                exists st', body st i = Some st' /\ P (S i) st') ->
  P k st ->
  exists st',
    LifecycleTracker.for_each (seq k n) body st = Some st' /\ P (k + n) st'.
Proof.
  intros St P body n. induction n as [|n IH]; intros k st Hstep H.
  - exists st. rewrite Nat.add_0_r. split; [reflexivity|exact H].
  - cbn [seq LifecycleTracker.for_each].
    destruct (Hstep k st ltac:(lia) H) as (st1 & -> & H1).
    destruct (IH (S k) st1) as (st' & E & H').
    + intros i st2 Hi. apply Hstep. lia.
    + exact H1.
    + exists st'. split; [exact E|].
      replace (k + S n) with (S k + n) by lia. exact H'.
Qed.

Lemma prefix_distance_0 : forall s1 s2 j, prefix_distance s1 s2 0 j = j.
Proof. reflexivity. Qed.

Lemma prefix_distance_S_0 : forall s1 s2 i,
  prefix_distance s1 s2 (S i) 0 = S i.
Proof. reflexivity. Qed.

Lemma prefix_distance_S_S : forall s1 s2 i j,
  prefix_distance s1 s2 (S i) (S j)
  = if eqb (LifecycleTracker.charAt s2 i) (LifecycleTracker.charAt s1 j)
    then prefix_distance s1 s2 i j
    else Nat.min (S (prefix_distance s1 s2 i j))
           (Nat.min (S (prefix_distance s1 s2 (S i) j))
              (S (prefix_distance s1 s2 i (S j)))).
Proof. reflexivity. Qed.

Lemma prefix_distance_column : forall s1 s2 i, prefix_distance s1 s2 i 0 = i.
Proof. intros s1 s2 [|i]; reflexivity. Qed.

Section Matrix.

Variables str1 str2 : jsstring.
Variables len1 len2 : nat.

Lemma first_loop :
  exists m,
    LifecycleTracker.for_each (seq 0 (S len2))
      (fun m i => Some (LifecycleTracker.set m i (Some [Some i]))) []
    = Some m
    /\ forall i, i <= len2 -> LifecycleTracker.get m i = Some [Some i].
Proof.
  destruct (@for_each_invariant _
              (fun k m => forall i, i < k ->
                          LifecycleTracker.get m i = Some [Some i])
              (fun m i => Some (LifecycleTracker.set m i (Some [Some i])))
              (S len2) 0 [])
    as (m & E & H).
  - intros i st _ Hst. eexists. split; [reflexivity|].
    intros i' Hi'. rewrite get_set.
    destruct (Nat.eqb i' i) eqn:Ei.
    + apply Nat.eqb_eq in Ei. subst i'. reflexivity.
    + apply Nat.eqb_neq in Ei. apply Hst. lia.
  - intros i Hi. lia.
  - exists m. split; [exact E|]. intros i Hi. apply H. lia.
Qed.

Lemma second_loop : forall m1,
  (forall i, i <= len2 -> LifecycleTracker.get m1 i = Some [Some i]) ->
  exists m,
    LifecycleTracker.for_each (seq 0 (S len1))
      (fun m j => LifecycleTracker.assign m 0 j (Some j)) m1
    = Some m
    /\ rows_exist len2 m
    /\ (forall j, j <= len1 -> cell_holds str1 str2 m 0 j)
    /\ (forall i, i <= len2 -> cell_holds str1 str2 m i 0).
Proof.
  intros m1 H1.
  destruct (@for_each_invariant _
              (fun k m =>
                 rows_exist len2 m
                 /\ (forall j, j < k -> cell_holds str1 str2 m 0 j)
                 /\ (forall i, 1 <= i <= len2 -> cell_holds str1 str2 m i 0))
              (fun m j => LifecycleTracker.assign m 0 j (Some j))
              (S len1) 0 m1)
    as (m & E & Hrows & Hrow0 & Hcol).
  - intros j st _ (Hrows & Hrow0 & Hcol).
    destruct (@assign_defined st 0 j (Some j) (Hrows 0 ltac:(lia)))
      as (st' & Est).
    exists st'. split; [exact Est|].
    destruct (read_assign _ _ _ _ Est) as [Hget Hread].
    split; [|split].
    + intros i Hi. apply Hget, Hrows, Hi.
    + intros j' Hj'. unfold cell_holds. rewrite Hread. cbn [Nat.eqb andb].
      destruct (Nat.eqb j' j) eqn:Ej.
      * apply Nat.eqb_eq in Ej. subst j'. reflexivity.
      * apply Nat.eqb_neq in Ej. apply Hrow0. lia.
    + intros i Hi. unfold cell_holds. rewrite Hread.
      destruct i as [|i]; [lia|]. cbn [Nat.eqb andb]. apply Hcol. lia.
  - split; [|split].
    + intros i Hi Hnone. pose proof (H1 i Hi) as Hi1.
      unfold LifecycleTracker.matrix, LifecycleTracker.sparse in *.
      rewrite Hi1 in Hnone. discriminate.
    + intros j Hj. lia.
    + intros i Hi. unfold cell_holds, LifecycleTracker.read.
      pose proof (H1 i ltac:(lia)) as Hi1.
      unfold LifecycleTracker.matrix, LifecycleTracker.sparse in *.
      rewrite Hi1, prefix_distance_column. reflexivity.
  - exists m. split; [exact E|]. split; [exact Hrows|]. split.
    + intros j Hj. apply Hrow0. lia.
    + intros [|i] Hi; [apply Hrow0; lia|apply Hcol; lia].
Qed.

Lemma fill_step : forall m i j,
  1 <= i <= len2 -> 1 <= j <= len1 ->
  rows_exist len2 m ->
  cell_holds str1 str2 m (i - 1) (j - 1) ->
  cell_holds str1 str2 m i (j - 1) ->
  cell_holds str1 str2 m (i - 1) j ->
  exists m',
    LifecycleTracker.fill str1 str2 i m j = Some m'
    /\ rows_exist len2 m'
    /\ forall i' j',
         LifecycleTracker.read m' i' j'
         = if Nat.eqb i' i && Nat.eqb j' j
           then Some (Some (prefix_distance str1 str2 i j))
           else LifecycleTracker.read m i' j'.
Proof.
  intros m i j Hi Hj Hrows Hd Hl Hu.
  destruct i as [|i]; [lia|]. destruct j as [|j]; [lia|].
  unfold cell_holds in Hd, Hl, Hu. unfold LifecycleTracker.fill.
  replace (S i - 1) with i in * by lia.
  replace (S j - 1) with j in * by lia.
  rewrite Hd, Hl, Hu.
  assert (Hval :
            (if eqb (LifecycleTracker.charAt str2 i)
                  (LifecycleTracker.charAt str1 j)
             then Some (prefix_distance str1 str2 i j)
             else LifecycleTracker.min3
                    (LifecycleTracker.succ
                       (Some (prefix_distance str1 str2 i j)))
                    (LifecycleTracker.succ
                       (Some (prefix_distance str1 str2 (S i) j)))
                    (LifecycleTracker.succ
                       (Some (prefix_distance str1 str2 i (S j)))))
            = Some (prefix_distance str1 str2 (S i) (S j))).
  { rewrite prefix_distance_S_S. destruct (eqb _ _); reflexivity. }
  destruct (@assign_defined m (S i) (S j)
              (Some (prefix_distance str1 str2 (S i) (S j)))
              (Hrows (S i) ltac:(lia))) as (m' & Em).
  exists m'. destruct (read_assign _ _ _ _ Em) as [Hget Hread].
  split; [|split].
  - revert Hval. destruct (eqb _ _); intros Hval; cbv iota beta.
    + rewrite Hval. exact Em.
    + rewrite Hval. exact Em.
  - intros i' Hi'. apply Hget, Hrows, Hi'.
  - exact Hread.
Qed.

Lemma inner_loop : forall m i,
  1 <= i <= len2 ->
  rows_exist len2 m ->
  (forall i' j, i' < i -> j <= len1 -> cell_holds str1 str2 m i' j) ->
  (forall i', i' <= len2 -> cell_holds str1 str2 m i' 0) ->
  exists m',
    LifecycleTracker.for_each (seq 1 len1)
      (LifecycleTracker.fill str1 str2 i) m
    = Some m'
    /\ rows_exist len2 m'
    /\ (forall i' j, i' < S i -> j <= len1 -> cell_holds str1 str2 m' i' j)
    /\ (forall i', i' <= len2 -> cell_holds str1 str2 m' i' 0).
Proof.
  intros m i Hi Hrows Hdone Hcol.
  destruct (@for_each_invariant _
              (fun k m =>
                 rows_exist len2 m
                 /\ (forall i' j, i' < i -> j <= len1 ->
                                  cell_holds str1 str2 m i' j)
                 /\ (forall j, j < k -> cell_holds str1 str2 m i j)
                 /\ (forall i', i' <= len2 -> cell_holds str1 str2 m i' 0))
              (LifecycleTracker.fill str1 str2 i) len1 1 m)
    as (m' & E & Hrows' & Hdone' & Hrow' & Hcol').
  - intros j st Hj (Hr & Hd & Hrow & Hc).
    destruct (@fill_step st i j Hi ltac:(lia) Hr) as (st' & Est & Hr' & Hread).
    + apply Hd; lia.
    + apply Hrow. lia.
    + apply Hd; lia.
    + exists st'. split; [exact Est|]. split; [exact Hr'|].
      split; [|split].
      * intros i' j' Hi' Hj'. unfold cell_holds. rewrite Hread.
        replace (Nat.eqb i' i) with false
          by (symmetry; apply Nat.eqb_neq; lia).
        apply Hd; assumption.
      * intros j' Hj'. unfold cell_holds. rewrite Hread, Nat.eqb_refl.
        cbn [andb]. destruct (Nat.eqb j' j) eqn:Ej.
        -- apply Nat.eqb_eq in Ej. subst j'. reflexivity.
        -- apply Nat.eqb_neq in Ej. apply Hrow. lia.
      * intros i' Hi'. unfold cell_holds. rewrite Hread.
        replace (Nat.eqb 0 j) with false
          by (symmetry; apply Nat.eqb_neq; lia).
        rewrite andb_false_r. apply Hc, Hi'.
  - split; [exact Hrows|]. split; [exact Hdone|]. split; [|exact Hcol].
    intros j Hj. replace j with 0 by lia. apply Hcol. lia.
  - exists m'. split; [exact E|]. split; [exact Hrows'|].
    split; [|exact Hcol'].
    intros i' j Hi' Hj.
    destruct (Nat.eq_dec i' i) as [->|Hne].
    + apply Hrow'. lia.
    + apply Hdone'; lia.
Qed.

Lemma outer_loop : forall m2,
  rows_exist len2 m2 ->
  (forall j, j <= len1 -> cell_holds str1 str2 m2 0 j) ->
  (forall i, i <= len2 -> cell_holds str1 str2 m2 i 0) ->
  exists m3,
    LifecycleTracker.for_each (seq 1 len2)
      (fun m i =>
         LifecycleTracker.for_each (seq 1 len1)
           (LifecycleTracker.fill str1 str2 i) m)
      m2
    = Some m3
    /\ cell_holds str1 str2 m3 len2 len1.
Proof.
  intros m2 Hrows Hrow0 Hcol.
  destruct (@for_each_invariant _
              (fun k m =>
                 rows_exist len2 m
                 /\ (forall i' j, i' < k -> j <= len1 ->
                                  cell_holds str1 str2 m i' j)
                 /\ (forall i', i' <= len2 -> cell_holds str1 str2 m i' 0))
              (fun m i =>
                 LifecycleTracker.for_each (seq 1 len1)
                   (LifecycleTracker.fill str1 str2 i) m)
              len2 1 m2)
    as (m3 & E & _ & Hall & _).
  - intros i st Hi (Hr & Hd & Hc).
    destruct (@inner_loop st i ltac:(lia) Hr Hd Hc) as (st' & Est & H').
    exists st'. split; [exact Est|exact H'].
  - split; [exact Hrows|]. split; [|exact Hcol].
    intros i' j Hi' Hj. replace i' with 0 by lia. apply Hrow0, Hj.
  - exists m3. split; [exact E|]. apply Hall; lia.
Qed.

End Matrix.

Lemma matrix_filled : forall str1 str2,
  LifecycleTracker.levenshteinDistance str1 str2
  = Some (Some (prefix_distance str1 str2 (List.length str2)
                  (List.length str1))).
Proof.
  intros str1 str2. unfold LifecycleTracker.levenshteinDistance. cbv zeta.
  destruct (first_loop (List.length str2)) as (m1 & -> & H1).
  destruct (@second_loop str1 str2 (List.length str1) (List.length str2) m1 H1)
    as (m2 & -> & Hrows & Hrow0 & Hcol).
  destruct (@outer_loop str1 str2 (List.length str1) (List.length str2) m2
              Hrows Hrow0 Hcol) as (m3 & -> & H3).
  exact H3.
Qed.

Lemma prefix_distance_same : forall s n, prefix_distance s s n n = 0.
Proof.
  intros s n. induction n as [|n IH]; [reflexivity|].
  rewrite prefix_distance_S_S, eqb_refl. exact IH.
Qed.

Lemma prefix_distance_bounds : forall s1 s2 i j,
  prefix_distance s1 s2 i j <= Nat.max i j
  /\ i - j <= prefix_distance s1 s2 i j
  /\ j - i <= prefix_distance s1 s2 i j.
Proof.
  intros s1 s2 i. induction i as [|i IHi]; intros j.
  - rewrite prefix_distance_0. lia.
  - induction j as [|j IHj].
    + rewrite prefix_distance_S_0. lia.
    + rewrite prefix_distance_S_S.
      pose proof (IHi j). pose proof (IHi (S j)).
      destruct (eqb _ _); lia.
Qed.

Lemma firstn_snoc : forall (A : Type) (s : list A) i c,
  nth_error s i = Some c -> firstn (S i) s = firstn i s ++ [c].
Proof.
  intros A s. induction s as [|x s IH]; intros [|i] c H; try discriminate.
  - injection H as ->. reflexivity.
  - cbn [nth_error] in H. cbn [firstn app]. f_equal.
    apply (IH i c H).
Qed.

Lemma prefix_distance_zero : forall s1 s2 i j,
  i <= List.length s2 -> j <= List.length s1 ->
  prefix_distance s1 s2 i j = 0 ->
  i = j /\ firstn i s2 = firstn j s1.
Proof.
  intros s1 s2 i. induction i as [|i IH]; intros j Hi Hj H.
  - rewrite prefix_distance_0 in H. subst j. split; reflexivity.
  - destruct j as [|j]; [rewrite prefix_distance_S_0 in H; discriminate|].
    rewrite prefix_distance_S_S in H.
    destruct (eqb (LifecycleTracker.charAt s2 i) (LifecycleTracker.charAt s1 j))
      eqn:E; [|lia].
    apply eqb_eq in E. unfold LifecycleTracker.charAt in E.
    destruct (nth_error s2 i) as [c|] eqn:E2.
    + destruct (nth_error s1 j) as [c'|] eqn:E1; [|discriminate].
      injection E as <-.
      destruct (IH j ltac:(lia) ltac:(lia) H) as [-> Hpre].
      split; [reflexivity|].
      rewrite (firstn_snoc _ _ E2), (firstn_snoc _ _ E1), Hpre. reflexivity.
    + apply nth_error_None in E2. lia.
Qed.

(** X19.  [levenshteinDistance] never reads a cell it has not written and
    returns the edit distance that the recurrence of Wagner and Fischer
    defines.  The distance lies between the difference of the two lengths
    and the greater length, and it is zero exactly when the two strings are
    equal. *)
Theorem levenshtein_is_edit_distance : forall str1 str2,
  exists d,
    LifecycleTracker.levenshteinDistance str1 str2 = Some (Some d)
    /\ d = prefix_distance str1 str2 (List.length str2) (List.length str1)
    /\ d <= Nat.max (List.length str1) (List.length str2)
    /\ List.length str1 - List.length str2 <= d
    /\ List.length str2 - List.length str1 <= d
    /\ (d = 0 <-> str1 = str2).
Proof.
  intros str1 str2. eexists. split; [apply matrix_filled|].
  split; [reflexivity|].
  destruct (prefix_distance_bounds str1 str2 (List.length str2)
              (List.length str1)) as (Hmax & Hlow & Hlow').
  repeat split; try lia.
  - intros H. apply prefix_distance_zero in H; [|lia|lia].
    destruct H as [_ H]. rewrite !firstn_all in H. symmetry. exact H.
  - intros ->. apply prefix_distance_same.
Qed.

Example levenshtein_samples :
  LifecycleTracker.levenshteinDistance (str "kitten") (str "sitting")
  = Some (Some 3)
  /\ LifecycleTracker.levenshteinDistance [] (str "abc") = Some (Some 3)
  /\ LifecycleTracker.levenshteinDistance (str "JOHN") (str "JOHN")
     = Some (Some 0).
Proof. repeat split; vm_compute; reflexivity. Qed.

(* ================================================================== *)
(** ** Further properties: the members the lifecycle tracker processes  *)
(* ================================================================== *)

Lemma or_default_some : forall s, or_default (Some s) [] = s.
Proof. intros [|c s]; reflexivity. Qed.

(** Reduces the field reads of the two views. *)
Ltac view_fields :=
  unfold same_members, call_view, member_view in *;
  cbn [LifecycleTracker.world LifecycleTracker.currentMember
       LifecycleTracker.insSegment fst snd option_map
       LifecycleTracker.note_call Extract.push_current
       LifecycleTracker.firstName LifecycleTracker.lastName
       LifecycleTracker.memberId LifecycleTracker.dateOfBirth
       LifecycleTracker.gender LifecycleTracker.healthCoverage
       LifecycleTracker.insuranceLineCode LifecycleTracker.planCode
       LifecycleTracker.coverageLevel LifecycleTracker.empty_data
       Member.name Member.demographics Member.healthCoverage
       Member.maintenanceTypeCode Member.maintenanceReasonCode
       Name.firstName Name.lastName Name.id
       Demographics.birthDate Demographics.genderCode Demographics.empty
       Coverage.insuranceLineCode Coverage.planCoverageDescription
       Coverage.coverageLevelCode] in *.

Lemma tracker_step_same : forall t st ex seg,
  same_members st ex ->
  same_members (LifecycleTracker.step LifecycleTracker.note_call t st seg)
    (Extract.member_step ex seg).
Proof.
  intros t [[calls r] cur ins] [ms mcur] seg [Hdone Hcur].
  cbn [LifecycleTracker.world LifecycleTracker.currentMember
       LifecycleTracker.insSegment fst snd] in *.
  unfold LifecycleTracker.step, Extract.member_step.
  cbn [LifecycleTracker.world LifecycleTracker.currentMember
       LifecycleTracker.insSegment].
  destruct cur as [d|], ins as [i|], mcur as [m|]; try contradiction.
  - destruct (eqb (tag seg) (str "INS")).
    { view_fields. split; [|reflexivity].
      rewrite !map_app, Hdone. cbn [map]. rewrite Hcur. reflexivity. }
    destruct (eqb (tag seg) (str "NM1")).
    { destruct (opt_eqb (element seg 1) (Some (str "IL")));
        [|split; assumption].
      view_fields. split; [exact Hdone|]. rewrite !or_default_some.
      injection Hcur as _ _ _ Hb Hg Hc Ht Hr.
      rewrite Hb, Hg, Hc, Ht, Hr. reflexivity. }
    destruct (eqb (tag seg) (str "DMG")).
    { view_fields. split; [exact Hdone|]. rewrite !or_default_some.
      injection Hcur as Hf Hl Hi _ _ Hc Ht Hr.
      rewrite Hf, Hl, Hi, Hc, Ht, Hr. reflexivity. }
    destruct (eqb (tag seg) (str "HD")).
    { view_fields. split; [exact Hdone|].
      injection Hcur as Hf Hl Hi Hb Hg Hc Ht Hr.
      rewrite !map_app, Hf, Hl, Hi, Hb, Hg, Hc, Ht, Hr. reflexivity. }
    destruct (eqb (tag seg) (str "REF")); [|split; assumption].
    destruct (opt_eqb (element seg 1) (Some (str "0F")));
      split; assumption.
  - destruct (eqb (tag seg) (str "INS")).
    { view_fields. split; [exact Hdone|reflexivity]. }
    destruct (eqb (tag seg) (str "NM1")).
    { destruct (opt_eqb (element seg 1) (Some (str "IL")));
        split; assumption. }
    destruct (eqb (tag seg) (str "DMG")); [split; assumption|].
    destruct (eqb (tag seg) (str "HD")); [split; assumption|].
    destruct (eqb (tag seg) (str "REF")); [|split; assumption].
    destruct (opt_eqb (element seg 1) (Some (str "0F")));
      split; assumption.
Qed.

Lemma tracker_fold_same : forall t segs st ex,
  same_members st ex ->
  same_members
    (fold_left (LifecycleTracker.step LifecycleTracker.note_call t) segs st)
    (fold_left Extract.member_step segs ex).
Proof.
  intros t segs. induction segs as [|seg segs IH]; intros st ex H;
    [exact H|].
  cbn [fold_left]. apply IH, tracker_step_same, H.
Qed.

Section Callee.

Variable Store : Type.
Variable callee :
  LifecycleTracker.MemberData -> EDISegment -> EDITransaction ->
  Store * LifecycleTracker.ProcessingResult ->
  (Store * LifecycleTracker.ProcessingResult) * outcome unit.
Variable t : EDITransaction.

Hypothesis callee_returns : forall d ins w,
  snd (callee d ins t w) = Returned tt.

Lemma callee_result : forall d ins w,
  callee d ins t w = (fst (callee d ins t w), Returned tt).
Proof.
  intros d ins w. rewrite <- (callee_returns d ins w).
  destruct (callee d ins t w); reflexivity.
Qed.

Lemma tracker_step_calls : forall st noted seg,
  LifecycleTracker.currentMember st = LifecycleTracker.currentMember noted ->
  LifecycleTracker.insSegment st = LifecycleTracker.insSegment noted ->
  let st' := LifecycleTracker.step callee t st seg in
  let noted' := LifecycleTracker.step LifecycleTracker.note_call t noted seg in
  LifecycleTracker.currentMember st' = LifecycleTracker.currentMember noted'
  /\ LifecycleTracker.insSegment st' = LifecycleTracker.insSegment noted'
  /\ snd (LifecycleTracker.world noted') = snd (LifecycleTracker.world noted)
  /\ exists extra,
       fst (LifecycleTracker.world noted')
       = fst (LifecycleTracker.world noted) ++ extra
       /\ LifecycleTracker.world st'
          = run_calls callee t extra (LifecycleTracker.world st).
Proof.
  intros [w cur ins] [[calls r] ncur nins] seg Hcur Hins.
  cbn [LifecycleTracker.currentMember LifecycleTracker.insSegment] in *.
  subst ncur nins. cbv zeta. unfold LifecycleTracker.step.
  cbn [LifecycleTracker.world LifecycleTracker.currentMember
       LifecycleTracker.insSegment].
  assert (Hidle : forall f g,
            LifecycleTracker.currentMember (LifecycleTracker.mkLoop w f g)
            = LifecycleTracker.currentMember
                (LifecycleTracker.mkLoop (calls, r) f g)
            /\ LifecycleTracker.insSegment (LifecycleTracker.mkLoop w f g)
               = LifecycleTracker.insSegment
                   (LifecycleTracker.mkLoop (calls, r) f g)
            /\ snd (LifecycleTracker.world
                      (LifecycleTracker.mkLoop (calls, r) f g)) = r
            /\ exists extra,
                 fst (LifecycleTracker.world
                        (LifecycleTracker.mkLoop (calls, r) f g))
                 = calls ++ extra
                 /\ LifecycleTracker.world (LifecycleTracker.mkLoop w f g)
                    = run_calls callee t extra w).
  { intros f g. repeat split. exists []. rewrite app_nil_r.
    split; reflexivity. }
  destruct (eqb (tag seg) (str "INS")).
  { destruct cur as [d|]; [|apply Hidle].
    destruct ins as [i|]; [|apply Hidle].
    rewrite (callee_result d i w).
    cbn [LifecycleTracker.note_call LifecycleTracker.world
         LifecycleTracker.currentMember LifecycleTracker.insSegment fst snd].
    repeat split. exists [(d, i)]. split; reflexivity. }
  destruct (eqb (tag seg) (str "NM1")).
  { destruct (opt_eqb (element seg 1) (Some (str "IL"))); apply Hidle. }
  destruct (eqb (tag seg) (str "DMG")); [apply Hidle|].
  destruct (eqb (tag seg) (str "HD")); [apply Hidle|].
  destruct (eqb (tag seg) (str "REF")); [|apply Hidle].
  destruct (opt_eqb (element seg 1) (Some (str "0F"))); apply Hidle.
Qed.

Lemma tracker_fold_calls : forall segs st noted,
  LifecycleTracker.currentMember st = LifecycleTracker.currentMember noted ->
  LifecycleTracker.insSegment st = LifecycleTracker.insSegment noted ->
  let st' := fold_left (LifecycleTracker.step callee t) segs st in
  let noted' :=
    fold_left (LifecycleTracker.step LifecycleTracker.note_call t) segs noted in
  LifecycleTracker.currentMember st' = LifecycleTracker.currentMember noted'
  /\ LifecycleTracker.insSegment st' = LifecycleTracker.insSegment noted'
  /\ snd (LifecycleTracker.world noted') = snd (LifecycleTracker.world noted)
  /\ exists extra,
       fst (LifecycleTracker.world noted')
       = fst (LifecycleTracker.world noted) ++ extra
       /\ LifecycleTracker.world st'
          = run_calls callee t extra (LifecycleTracker.world st).
Proof.
  induction segs as [|seg segs IH]; intros st noted Hcur Hins; cbv zeta.
  - repeat split; try assumption. exists []. rewrite app_nil_r.
    split; reflexivity.
  - cbn [fold_left].
    destruct (tracker_step_calls st noted seg Hcur Hins)
      as (Hcur1 & Hins1 & Hr1 & extra1 & Hcalls1 & Hw1).
    destruct (IH _ _ Hcur1 Hins1) as (Hcur2 & Hins2 & Hr2 & extra2 & Hcalls2 & Hw2).
    split; [exact Hcur2|]. split; [exact Hins2|].
    split; [rewrite Hr2; exact Hr1|].
    exists (extra1 ++ extra2). split.
    + rewrite Hcalls2, Hcalls1, app_assoc. reflexivity.
    + rewrite Hw2, Hw1. unfold run_calls. rewrite fold_left_app. reflexivity.
Qed.

Lemma tracker_runs_calls : forall store,
  EdiValidator.is_834 (type t) = true ->
  LifecycleTracker.process834Transaction callee t store
  = let w :=
      run_calls callee t (LifecycleTracker.member_calls t)
        (store, LifecycleTracker.empty_result) in
    (fst w, Returned (snd w)).
Proof.
  intros store H. unfold LifecycleTracker.member_calls,
    LifecycleTracker.process834Transaction.
  rewrite H. cbn [negb].
  destruct (tracker_fold_calls (segments t)
              (LifecycleTracker.mkLoop (store, LifecycleTracker.empty_result)
                 None None)
              (LifecycleTracker.mkLoop ([], LifecycleTracker.empty_result)
                 None None) eq_refl eq_refl)
    as (Hcur & Hins & _ & extra & Hcalls & Hw).
  cbv zeta in *. rewrite Hcur, Hins, Hw.
  destruct (fold_left (LifecycleTracker.step LifecycleTracker.note_call t)
              (segments t) _) as [[calls r] cur ins].
  cbn [LifecycleTracker.world LifecycleTracker.currentMember
       LifecycleTracker.insSegment fst snd app] in *.
  subst calls.
  destruct cur as [d|]; [destruct ins as [i|]|].
  - rewrite (callee_result d i).
    cbn [LifecycleTracker.note_call fst snd].
    unfold run_calls. rewrite fold_left_app. cbn [fold_left fst snd].
    destruct (fst (callee d i t _)). reflexivity.
  - cbn [fst snd]. reflexivity.
  - cbn [fst snd]. reflexivity.
Qed.

End Callee.

(** X20.  [process834Transaction] rejects every transaction whose type is
    not 834: it throws before it touches the store, whatever the segments
    are.  For a transaction of type 834, and a [processMemberRecord] that
    returns, it does nothing beyond calling [processMemberRecord] on the
    calls listed by [member_calls], in order, starting from the empty
    result. *)
Theorem tracker_rejects_other_types :
  forall (Store : Type)
    (callee : LifecycleTracker.MemberData -> EDISegment -> EDITransaction ->
              Store * LifecycleTracker.ProcessingResult ->
              (Store * LifecycleTracker.ProcessingResult) * outcome unit)
    (t : EDITransaction) (store : Store),
  (EdiValidator.is_834 (type t) = false ->
   LifecycleTracker.process834Transaction callee t store
   = (store, Raised (str "Invalid transaction type. Expected 834.")))
  /\ (EdiValidator.is_834 (type t) = true ->
      (forall d ins w, snd (callee d ins t w) = Returned tt) ->
      LifecycleTracker.process834Transaction callee t store
      = let w :=
          run_calls callee t (LifecycleTracker.member_calls t)
            (store, LifecycleTracker.empty_result) in
        (fst w, Returned (snd w))).
Proof.
  intros Store callee t store. split.
  - intros H. unfold LifecycleTracker.process834Transaction. rewrite H.
    reflexivity.
  - intros H Hret. apply tracker_runs_calls; assumption.
Qed.

Lemma tracker_rejects_other_types_witness :
  LifecycleTracker.process834Transaction counting_callee
    (Universal.parseEDIContent sample_820) 0
  = (0, Raised (str "Invalid transaction type. Expected 834."))
  /\ LifecycleTracker.process834Transaction counting_callee
       (Universal.parseEDIContent sample_834) 0
     = let w :=
         run_calls counting_callee (Universal.parseEDIContent sample_834)
           (LifecycleTracker.member_calls (Universal.parseEDIContent sample_834))
           (0, LifecycleTracker.empty_result) in
       (fst w, Returned (snd w)).
Proof.
  split.
  - apply (proj1 (tracker_rejects_other_types counting_callee
                    (Universal.parseEDIContent sample_820) 0)).
    reflexivity.
  - apply (proj2 (tracker_rejects_other_types counting_callee
                    (Universal.parseEDIContent sample_834) 0)).
    + reflexivity.
    + intros d ins w. reflexivity.
Defined.

Lemma member_calls_same : forall t,
  EdiValidator.is_834 (type t) = true ->
  map call_view (LifecycleTracker.member_calls t)
  = map member_view (Extract.extract834Members (segments t)).
Proof.
  intros t H. unfold LifecycleTracker.member_calls,
    LifecycleTracker.process834Transaction.
  rewrite H. cbn [negb]. rewrite extract834Members_unfold.
  pose proof (@tracker_fold_same t (segments t)
                (LifecycleTracker.mkLoop ([], LifecycleTracker.empty_result)
                   None None)
                ([], None) (conj eq_refl I)) as Hsame.
  destruct (fold_left (LifecycleTracker.step LifecycleTracker.note_call t)
              (segments t) _) as [[calls r] cur ins].
  destruct (fold_left Extract.member_step (segments t) _) as [ms mcur].
  destruct Hsame as [Hdone Hcur].
  cbn [LifecycleTracker.world LifecycleTracker.currentMember
       LifecycleTracker.insSegment fst snd] in *.
  destruct cur as [d|], ins as [i|], mcur as [m|]; try contradiction;
    cbn [LifecycleTracker.note_call fst snd Extract.push_current].
  - rewrite !map_app, Hdone. cbn [map]. rewrite Hcur. reflexivity.
  - exact Hdone.
Qed.

(** X21.  The lifecycle tracker and [extract834Members] see the same
    members in a transaction of type 834: [processMemberRecord] is called
    once for each [INS] segment, in order, and each call carries the name,
    the id, the birth date (cut into year, month and day), the gender, the
    coverages and the maintenance codes that the extractor reports for that
    member. *)
Theorem tracker_calls_are_extracted_members : forall t,
  EdiValidator.is_834 (type t) = true ->
  map call_view (LifecycleTracker.member_calls t)
  = map member_view (Extract.extract834Members (segments t))
  /\ List.length (LifecycleTracker.member_calls t)
     = List.length (filter (is_tag "INS") (segments t)).
Proof.
  intros t H. pose proof (member_calls_same t H) as Hsame.
  split; [exact Hsame|].
  rewrite <- (length_map call_view), Hsame, length_map.
  rewrite <- (length_map ins_fields), extract834Members_unfold.
  pose proof (member_fold_fields (segments t) ([], None)) as Hf.
  cbv zeta in Hf. rewrite Hf. cbn [Extract.push_current map app].
  apply length_map.
Qed.

Lemma tracker_calls_are_extracted_members_witness :
  let t := Universal.parseEDIContent sample_834 in
  map call_view (LifecycleTracker.member_calls t)
  = map member_view (Extract.extract834Members (segments t))
  /\ List.length (LifecycleTracker.member_calls t)
     = List.length (filter (is_tag "INS") (segments t)).
Proof.
  apply (tracker_calls_are_extracted_members
           (Universal.parseEDIContent sample_834)).
  reflexivity.
Defined.

Example tracker_call_sample :
  map call_view
    (LifecycleTracker.member_calls (Universal.parseEDIContent sample_834))
  = [((str "JOHN", str "SMITH", str "987654321"), ([], []), [],
      (str "025", str "28"))].
Proof. vm_compute. reflexivity. Qed.

Lemma eqb_false : forall a b, eqb a b = false <-> a <> b.
Proof.
  intros a b. split.
  - intros H E. apply eqb_eq in E. rewrite E in H. discriminate.
  - intros H. destruct (eqb a b) eqn:E; [|reflexivity].
    apply eqb_eq in E. contradiction.
Qed.

(** X22.  The status a processed member is left in depends on the
    maintenance codes of its [INS] segment alone: terminated for type 024
    and for type 030 with reason XN, COBRA for type 030 with reason EC,
    active in every other case, a missing code included; never pending or
    suspended. *)
Theorem status_from_maintenance_codes : forall ins,
  let code := or_default (element ins 3) [] in
  let reason := or_default (element ins 4) [] in
  (LifecycleTracker.status_of ins = LifecycleTracker.terminated
   <-> code = str "024" \/ (code = str "030" /\ reason = str "XN"))
  /\ (LifecycleTracker.status_of ins = LifecycleTracker.cobra
      <-> code = str "030" /\ reason = str "EC")
  /\ (LifecycleTracker.status_of ins = LifecycleTracker.active
      <-> ~ (code = str "024" \/ (code = str "030" /\ reason = str "XN"))
          /\ ~ (code = str "030" /\ reason = str "EC")).
Proof.
  intros ins code reason.
  unfold LifecycleTracker.status_of, LifecycleTracker.event_of,
    LifecycleTracker.determineEventType.
  fold code reason. generalize code reason. clear. intros code reason.
  destruct (eqb code (str "021")) eqn:E1;
    [apply eqb_eq in E1; subst code; cbn;
     intuition (try discriminate; try congruence)|].
  destruct (eqb code (str "001")) eqn:E2;
    [apply eqb_eq in E2; subst code; cbn;
     intuition (try discriminate; try congruence)|].
  destruct (eqb code (str "024")) eqn:E3;
    [apply eqb_eq in E3; subst code; cbn;
     intuition (try discriminate; try congruence)|].
  destruct (eqb code (str "025")) eqn:E4;
    [apply eqb_eq in E4; subst code; cbn;
     intuition (try discriminate; try congruence)|].
  apply eqb_false in E3.
  destruct (eqb code (str "030")) eqn:E5.
  - apply eqb_eq in E5. subst code.
    destruct (eqb reason (str "AI")) eqn:R1;
      [apply eqb_eq in R1; subst reason; cbn;
       intuition (try discriminate; try congruence)|].
    destruct (eqb reason (str "XN")) eqn:R2;
      [apply eqb_eq in R2; subst reason; cbn;
       intuition (try discriminate; try congruence)|].
    destruct (eqb reason (str "EC")) eqn:R3;
      [apply eqb_eq in R3; subst reason; cbn;
       intuition (try discriminate; try congruence)|].
    apply eqb_false in R2. apply eqb_false in R3. cbn.
    intuition (try discriminate; try congruence).
  - apply eqb_false in E5. cbn.
    intuition (try discriminate; try congruence).
Qed.

(* ================================================================== *)
(** ** Further properties: what a rebuilt file is read as               *)
(* ================================================================== *)

Lemma reconstruct_member_rows : forall m,
  Rebuild.reconstruct_member m = map close (member_rows m).
Proof.
  intros m. unfold Rebuild.reconstruct_member, member_rows.
  rewrite !map_app, map_map.
  destruct (Member.name m); destruct (Member.demographics m); reflexivity.
Qed.

Lemma flat_map_rows : forall (A : Type) (lines : A -> list jsstring)
    (rows : A -> list (list jsstring)) (l : list A),
  (forall x, lines x = map close (rows x)) ->
  flat_map lines l = map close (flat_map rows l).
Proof.
  intros A lines rows l H. induction l as [|x l IH]; [reflexivity|].
  cbn [flat_map]. rewrite map_app, IH, H. reflexivity.
Qed.

Lemma reconstruct_payment_rows : forall numberToString p,
  Rebuild.reconstruct_payment numberToString p
  = map close (payment_rows numberToString p).
Proof.
  intros numberToString p. unfold Rebuild.reconstruct_payment, payment_rows.
  cbn [map app]. rewrite map_map. reflexivity.
Qed.

Lemma convertJSONToEDI_rows : forall numberToString json isa,
  json_ok json = true ->
  interchangeControl json = Some isa ->
  Rebuild.convertJSONToEDI numberToString json
  = join newline
      (Rebuild.isa_line isa :: map close (rebuilt_rows numberToString json)).
Proof.
  intros numberToString json isa Hok Hisa.
  unfold json_ok in Hok. rewrite Hisa in Hok.
  destruct (functionalGroup json) as [gs|] eqn:Hgs; [|discriminate].
  destruct (transactionSet json) as [st|] eqn:Hst; [|discriminate].
  unfold Rebuild.convertJSONToEDI, rebuilt_rows. cbv zeta.
  assert (Hbody : Rebuild.body_lines numberToString json
                  = Rebuild.isa_line isa
                    :: map close
                         ([gs_row gs] ++ [st_row st]
                          ++ format_rows numberToString json)).
  { unfold Rebuild.body_lines, format_rows. rewrite Hisa, Hgs, Hst.
    cbn [app map]. do 3 f_equal.
    destruct (originalFormat json) as [[]|]; try reflexivity.
    - unfold Rebuild.reconstruct834Segments. cbn [map]. f_equal.
      apply flat_map_rows, reconstruct_member_rows.
    - unfold Rebuild.reconstruct820Segments.
      apply flat_map_rows, reconstruct_payment_rows. }
  rewrite Hgs, Hst.
  remember (List.length (Rebuild.body_lines numberToString json)) as count.
  rewrite Hbody. unfold trailer_rows, newline. rewrite ?Hgs, ?Hst.
  cbn [app map]. rewrite !map_app. cbn [map app]. reflexivity.
Qed.

Lemma field_ok_free_of : forall k s,
  field_ok s = true -> delimiter_free (delimiter_of k) s = true.
Proof.
  intros k s H. apply forallb_forall. intros c Hc.
  apply (proj1 (forallb_forall _ _) H) in Hc. unfold field_char in Hc.
  apply andb_true_iff in Hc. destruct Hc as [Hc _].
  apply negb_true_iff in Hc. unfold Universal.delimiter in Hc.
  apply orb_false_iff in Hc. destruct Hc as [Hc Hcaret].
  destruct k; cbn [delimiter_of].
  - unfold EdiParser.delimiter. rewrite Hc. reflexivity.
  - unfold Universal.delimiter. rewrite Hc, Hcaret. reflexivity.
Qed.

Lemma fields_ok_free_of : forall k tokens,
  forallb field_ok tokens = true ->
  forallb (delimiter_free (delimiter_of k)) tokens = true.
Proof.
  intros k tokens H. apply forallb_forall. intros t Ht.
  apply field_ok_free_of. apply (proj1 (forallb_forall _ _) H t Ht).
Qed.

Lemma delimiter_of_star : forall k, delimiter_of k 42%N = true.
Proof. intros [|]; reflexivity. Qed.

Lemma split_star_open : forall k tokens t,
  forallb (delimiter_free (delimiter_of k)) (t :: tokens) = true ->
  split_class (delimiter_of k) (Rebuild.star (t :: tokens)) = t :: tokens.
Proof.
  intros k. induction tokens as [|t' tokens IH]; intros t H;
    cbn [forallb] in H; apply andb_true_iff in H; destruct H as [Ht Hrest].
  - exact (split_class_delimiter_free (delimiter_of k) t Ht).
  - unfold Rebuild.star. rewrite join_cons_cons.
    etransitivity.
    + apply (split_class_token (delimiter_of k) t 42%N); [exact Ht|].
      apply delimiter_of_star.
    + f_equal. apply (IH t' Hrest).
Qed.

Lemma split_star_closed : forall k tokens t,
  forallb (delimiter_free (delimiter_of k)) (t :: tokens) = true ->
  split_class (delimiter_of k) (close (t :: tokens)) = (t :: tokens) ++ [[]].
Proof.
  intros k. unfold close.
  induction tokens as [|t' tokens IH]; intros t H;
    cbn [forallb] in H; apply andb_true_iff in H; destruct H as [Ht Hrest].
  - exact (split_class_token (delimiter_of k) t 126%N [] Ht
             (delimiter_of_tilde k)).
  - unfold Rebuild.star. rewrite join_cons_cons, <- !app_assoc.
    etransitivity.
    + apply (split_class_token (delimiter_of k) t 42%N); [exact Ht|].
      apply delimiter_of_star.
    + change ((t :: t' :: tokens) ++ [[]])
        with (t :: ((t' :: tokens) ++ [[]])).
      f_equal. apply (IH t' Hrest).
Qed.

Lemma row_line : forall k row,
  row_ok row = true ->
  line_ok (close row) = true
  /\ split_class (delimiter_of k) (close row) = row ++ [[]].
Proof.
  intros k [|[|c tg] tokens] H; try discriminate.
  unfold row_ok in H. apply andb_true_iff in H. destruct H as [Hc H].
  apply negb_true_iff in Hc. split.
  - apply star_line_ok; assumption.
  - apply split_star_closed, fields_ok_free_of, H.
Qed.

Lemma rows_lines_ok : forall rows,
  forallb row_ok rows = true -> forallb line_ok (map close rows) = true.
Proof.
  intros rows H. apply forallb_forall. intros line Hline.
  apply in_map_iff in Hline. destruct Hline as (row & <- & Hrow).
  apply (row_line LegacyParser row).
  apply (proj1 (forallb_forall _ _) H row Hrow).
Qed.

Lemma star_snoc : forall front t last,
  Rebuild.star ((t :: front) ++ [last])
  = Rebuild.star (t :: front) ++ str "*" ++ last.
Proof.
  unfold Rebuild.star.
  induction front as [|t' front IH]; intros t last.
  - reflexivity.
  - change ((t :: t' :: front) ++ [last]) with (t :: ((t' :: front) ++ [last])).
    change ((t' :: front) ++ [last]) with (t' :: (front ++ [last])).
    rewrite !join_cons_cons.
    change (t' :: front ++ [last]) with ((t' :: front) ++ [last]).
    rewrite IH, <- !app_assoc. reflexivity.
Qed.

Lemma padEnd_ok : forall s n, field_ok s = true -> field_ok (padEnd s n) = true.
Proof.
  intros s n H. unfold padEnd, field_ok. rewrite forallb_app.
  apply andb_true_iff. split; [exact H|].
  induction (n - List.length s) as [|k IH]; [reflexivity|].
  cbn [repeat forallb]. rewrite IH. reflexivity.
Qed.

Lemma isa_row_ok : forall isa,
  isa_ok isa = true -> forallb field_ok (isa_row isa) = true.
Proof.
  intros isa H. unfold isa_ok in H.
  repeat (apply andb_true_iff in H; destruct H as [H ?]).
  unfold isa_row. cbn [forallb].
  repeat (apply andb_true_iff; split);
    try reflexivity;
    try (apply or_default_ok; [assumption|reflexivity]);
    try (apply padEnd_ok, or_default_ok; [assumption|reflexivity]).
Qed.

Lemma isa_line_read : forall k isa,
  isa_ok isa = true ->
  (exists s,
     Rebuild.isa_line isa = s ++ [62%N]
     /\ forallb (fun c => negb (N.eqb c LF)) s = true)
  /\ trim (Rebuild.isa_line isa) = Rebuild.isa_line isa
  /\ split_class (delimiter_of k) (Rebuild.isa_line isa) = isa_row isa.
Proof.
  intros k isa H. pose proof (isa_row_ok isa H) as Hrow.
  destruct (fields_ok_free _ Hrow) as [_ Hlf].
  assert (Hline : Rebuild.isa_line isa = Rebuild.star (isa_row isa))
    by reflexivity.
  assert (Hshape : exists s,
            Rebuild.isa_line isa = s ++ [62%N]
            /\ forallb (fun c => negb (N.eqb c LF)) s = true).
  { rewrite Hline. unfold isa_row in *.
    match goal with
    | |- context [Rebuild.star (?t :: ?a1 :: ?a2 :: ?a3 :: ?a4 :: ?a5 :: ?a6
                                 :: ?a7 :: ?a8 :: ?a9 :: ?a10 :: ?a11 :: ?a12
                                 :: ?a13 :: ?a14 :: ?a15 :: [?last])] =>
        exists (Rebuild.star [t; a1; a2; a3; a4; a5; a6; a7; a8; a9; a10; a11;
                              a12; a13; a14; a15] ++ str "*");
        split;
        [rewrite <- app_assoc;
         exact (star_snoc [a1; a2; a3; a4; a5; a6; a7; a8; a9; a10; a11; a12;
                           a13; a14; a15] t last)|]
    end.
    rewrite forallb_app. apply andb_true_iff. split; [|reflexivity].
    apply forallb_join; [reflexivity|].
    cbn [forallb] in Hlf |- *.
    repeat (apply andb_true_iff in Hlf; destruct Hlf as [? Hlf]).
    repeat (apply andb_true_iff; split); try assumption; reflexivity. }
  assert (Htrim : trim (Rebuild.isa_line isa) = Rebuild.isa_line isa).
  { apply trim_fixed. unfold is_trimmed. apply andb_true_iff. split.
    - rewrite Hline. unfold isa_row, Rebuild.star. rewrite join_cons_cons.
      reflexivity.
    - destruct Hshape as (s & -> & _). rewrite rev_app_distr. reflexivity. }
  split; [exact Hshape|]. split; [exact Htrim|].
  exact (split_star_open k _ _ (fields_ok_free_of k _ Hrow)).
Qed.

Lemma tokenize_row_tokens : forall k content,
  map row_tokens (tokenize k content)
  = map (fun line =>
           let es := split_class (delimiter_of k) (trim line) in
           (hd [] es, es))
      (retained_lines content).
Proof.
  intros k content.
  destruct (tokenize_pushed k content) as (mk & E & Hmk). rewrite E.
  rewrite (pushed_retained mk _ 0 (retained_lines_nonblank content)).
  rewrite map_map,
    (map_ext _ (fun p =>
                  let es := split_class (delimiter_of k) (trim (snd p)) in
                  (hd [] es, es))).
  - rewrite <- (map_map snd
                  (fun line =>
                     let es := split_class (delimiter_of k) (trim line) in
                     (hd [] es, es))),
      map_snd_combine_seq. reflexivity.
  - intros [i line]. cbv zeta. cbn [fst snd].
    destruct (Hmk i line) as (Hraw & _ & Hsplit & Htag).
    unfold row_tokens. rewrite <- Hraw, <- Hsplit.
    f_equal. rewrite Htag at 1. reflexivity.
Qed.

(** The text that begins with the [ISA] line and continues with closed
    rows is read back row by row, by either parser. *)
Lemma written_text_tokens : forall k isa row rows,
  isa_ok isa = true ->
  forallb row_ok (row :: rows) = true ->
  map row_tokens
    (tokenize k
       (join newline (Rebuild.isa_line isa :: map close (row :: rows))))
  = (str "ISA", isa_row isa) :: map row_read (row :: rows).
Proof.
  intros k isa row rows Hisa Hrows.
  destruct (isa_line_read k isa Hisa) as ((s & Hs & Hlf) & Htrim & Hread).
  pose proof (rows_lines_ok _ Hrows) as Hlines.
  assert (Hsplit :
            split_lines
              (join newline (Rebuild.isa_line isa :: map close (row :: rows)))
            = Rebuild.isa_line isa :: map close (row :: rows)).
  { cbn [map] in *. rewrite join_cons_cons.
    pose proof (split_lines_line s 62%N
                  (join newline (close row :: map close rows))
                  Hlf eq_refl eq_refl) as Hfirst.
    pose proof (split_lines_join _ _ Hlines) as Hrest.
    unfold newline in *. cbn [app] in *.
    unfold jsstring, char in *. rewrite Hs, Hfirst, Hrest. reflexivity. }
  assert (Hkeep : truthy (trim (Rebuild.isa_line isa)) = true).
  { unfold jsstring, char in *. rewrite Htrim, Hs.
    destruct s; reflexivity. }
  rewrite tokenize_row_tokens. unfold retained_lines.
  unfold jsstring, char in *. rewrite Hsplit.
  cbn [filter]. unfold jsstring, char in *. rewrite Hkeep.
  rewrite filter_all.
  - remember (row :: rows) as all eqn:Eall.
    cbn [map]. cbv zeta. unfold jsstring, char in *.
    rewrite Htrim, Hread. f_equal.
    rewrite map_map. apply map_ext_in. intros r Hr.
    apply (proj1 (forallb_forall _ _) Hrows) in Hr.
    destruct (row_line k r Hr) as [Hline Hsp].
    destruct (line_ok_trim _ Hline) as [Htr _].
    unfold jsstring, char in *. rewrite Htr, Hsp.
    unfold row_read. destruct r; reflexivity.
  - apply forallb_forall. intros l Hl.
    apply (line_ok_trim l). apply (proj1 (forallb_forall _ _) Hlines l Hl).
Qed.

Lemma row_ok_intro : forall row,
  match row with
  | (c :: _) :: _ => negb (isWhiteSpace c)
  | _ => false
  end = true ->
  forallb field_ok row = true ->
  row_ok row = true.
Proof.
  intros [|[|c tg] tokens] Hc H; try discriminate.
  unfold row_ok. rewrite Hc, H. reflexivity.
Qed.

(** Splits the conjunction of a field check into its parts. *)
Ltac split_ok H :=
  repeat (let H' := fresh "Hok" in
          apply andb_true_iff in H; destruct H as [H H']).

Lemma member_rows_ok : forall m,
  member_ok m = true -> forallb row_ok (member_rows m) = true.
Proof.
  intros m H. unfold member_ok in H.
  apply andb_true_iff in H. destruct H as [H Hcov].
  apply andb_true_iff in H. destruct H as [H Hdem].
  apply andb_true_iff in H. destruct H as [H Hname].
  split_ok H.
  assert (Hone : forall row, row_ok row = true -> forallb row_ok [row] = true)
    by (intros row Hrow; cbn [forallb]; rewrite Hrow; reflexivity).
  unfold member_rows. rewrite !forallb_app.
  apply andb_true_iff. split; [|apply andb_true_iff; split;
                                [|apply andb_true_iff; split]].
  - apply Hone, row_ok_intro; [reflexivity|]. unfold ins_row. tokens_ok.
  - destruct (Member.name m) as [n|]; [|reflexivity].
    split_ok Hname.
    apply Hone, row_ok_intro; [reflexivity|]. unfold name_row. tokens_ok.
  - destruct (Member.demographics m) as [d|]; [|reflexivity].
    split_ok Hdem.
    apply Hone, row_ok_intro; [reflexivity|]. unfold dmg_row. tokens_ok.
  - apply forallb_forall. intros row Hrow. apply in_map_iff in Hrow.
    destruct Hrow as (c & <- & Hc).
    apply (proj1 (forallb_forall _ _) Hcov) in Hc. unfold coverage_ok in Hc.
    split_ok Hc.
    apply row_ok_intro; [reflexivity|]. unfold hd_row. tokens_ok.
Qed.

Section Written.

Variable numberToString : jsnum -> jsstring.

Hypothesis number_ok : forall x, field_ok (numberToString x) = true.

Lemma number_or_zero_ok : forall x,
  field_ok (Rebuild.number_or_zero numberToString x) = true.
Proof.
  intros x. unfold Rebuild.number_or_zero.
  destruct (number_truthy x); [apply number_ok|reflexivity].
Qed.

Lemma payment_rows_ok : forall p,
  payment_ok p = true -> forallb row_ok (payment_rows numberToString p) = true.
Proof.
  intros p H. unfold payment_ok in H.
  apply andb_true_iff in H. destruct H as [H Hdetails].
  split_ok H.
  unfold payment_rows. cbn [forallb]. apply andb_true_iff. split.
  - apply row_ok_intro; [reflexivity|]. unfold bpr_row. cbn [forallb].
    repeat (apply andb_true_iff; split);
      try reflexivity;
      try (apply or_default_ok; [assumption|reflexivity]);
      apply number_or_zero_ok.
  - apply forallb_forall. intros row Hrow. apply in_map_iff in Hrow.
    destruct Hrow as (r & <- & Hr).
    apply (proj1 (forallb_forall _ _) Hdetails) in Hr.
    unfold remittance_ok in Hr. split_ok Hr.
    apply row_ok_intro; [reflexivity|]. unfold rmr_row. cbn [forallb].
    repeat (apply andb_true_iff; split);
      try reflexivity;
      try (apply or_default_ok; [assumption|reflexivity]);
      apply number_or_zero_ok.
Qed.

End Written.

Lemma digit_char_ok : forall d,
  d < 10 -> field_char (48 + N.of_nat d)%N = true.
Proof.
  intros d H.
  do 10 (destruct d as [|d]; [reflexivity|]). lia.
Qed.

Lemma digits_fuel_ok : forall fuel n acc,
  field_ok acc = true -> field_ok (digits_fuel fuel n acc) = true.
Proof.
  induction fuel as [|fuel IH]; intros n acc H; [exact H|].
  cbn [digits_fuel].
  assert (Hacc : field_ok ((48 + N.of_nat (n mod 10))%N :: acc) = true).
  { unfold field_ok in *. cbn [forallb].
    rewrite (digit_char_ok (Nat.mod_upper_bound n 10 ltac:(lia))), H.
    reflexivity. }
  destruct (Nat.ltb n 10); [exact Hacc|apply IH, Hacc].
Qed.

Lemma nat_to_string_ok : forall n, field_ok (nat_to_string n) = true.
Proof. intros n. apply digits_fuel_ok. reflexivity. Qed.

Lemma gs_row_ok : forall gs, gs_ok gs = true -> row_ok (gs_row gs) = true.
Proof.
  intros gs H. unfold gs_ok in H. split_ok H.
  apply row_ok_intro; [reflexivity|]. unfold gs_row. tokens_ok.
Qed.

Lemma st_row_ok : forall st, st_ok st = true -> row_ok (st_row st) = true.
Proof.
  intros st H. unfold st_ok in H. split_ok H.
  apply row_ok_intro; [reflexivity|]. unfold st_row. tokens_ok.
Qed.

Lemma trailer_rows_ok : forall count json isa gs st,
  interchangeControl json = Some isa -> functionalGroup json = Some gs ->
  transactionSet json = Some st ->
  isa_ok isa = true -> gs_ok gs = true -> st_ok st = true ->
  forallb row_ok (trailer_rows count json) = true.
Proof.
  intros count json isa gs st Eisa Egs Est Hisa Hgs Hst.
  unfold isa_ok in Hisa. split_ok Hisa.
  unfold gs_ok in Hgs. split_ok Hgs.
  unfold st_ok in Hst. split_ok Hst.
  unfold trailer_rows, Rebuild.field. rewrite Eisa, Egs, Est.
  cbn [forallb].
  rewrite !andb_true_iff. repeat split;
    apply row_ok_intro; try reflexivity; cbn [forallb];
    rewrite !andb_true_iff; repeat split; try reflexivity;
    try apply nat_to_string_ok;
    apply or_default_ok; try assumption; reflexivity.
Qed.

Lemma forallb_flat_map_ok : forall (A B : Type) (p : B -> bool)
    (q : A -> bool) (f : A -> list B) (l : list A),
  (forall x, q x = true -> forallb p (f x) = true) ->
  forallb q l = true -> forallb p (flat_map f l) = true.
Proof.
  intros A B p q f l H Hl. rewrite forallb_flat_map.
  apply forallb_forall. intros x Hx. apply H.
  apply (proj1 (forallb_forall _ _) Hl x Hx).
Qed.

Section Rows.

Variable numberToString : jsnum -> jsstring.

Hypothesis number_ok : forall x, field_ok (numberToString x) = true.

Lemma rebuilt_rows_ok : forall json,
  json_ok json = true ->
  forallb row_ok (rebuilt_rows numberToString json) = true.
Proof.
  intros json H. unfold json_ok in H.
  apply andb_true_iff in H. destruct H as [H Hpayments].
  apply andb_true_iff in H. destruct H as [Hheader Hmembers].
  destruct (interchangeControl json) as [isa|] eqn:Eisa; [|discriminate].
  destruct (functionalGroup json) as [gs|] eqn:Egs; [|discriminate].
  destruct (transactionSet json) as [st|] eqn:Est; [|discriminate].
  apply andb_true_iff in Hheader. destruct Hheader as [Hheader Hst].
  apply andb_true_iff in Hheader. destruct Hheader as [Hisa Hgs].
  unfold rebuilt_rows. rewrite Egs, Est, !forallb_app.
  apply andb_true_iff. split; [|apply andb_true_iff; split;
                                [|apply andb_true_iff; split]].
  - cbn [forallb]. rewrite (gs_row_ok gs Hgs). reflexivity.
  - cbn [forallb]. rewrite (st_row_ok st Hst). reflexivity.
  - unfold format_rows. destruct (originalFormat json) as [[]|];
      try reflexivity.
    + cbn [forallb]. apply andb_true_iff. split; [reflexivity|].
      apply (forallb_flat_map_ok _ member_ok); [|exact Hmembers].
      apply member_rows_ok.
    + apply (forallb_flat_map_ok _ payment_ok); [|exact Hpayments].
      apply (payment_rows_ok numberToString number_ok).
  - apply (trailer_rows_ok _ json Eisa Egs Est Hisa Hgs Hst).
Qed.

End Rows.

Lemma find_tag_ok : forall t segs seg,
  forallb elements_ok segs = true ->
  EdiValidator.find_tag t segs = Some seg ->
  forall i, opt_ok (element seg i) = true.
Proof.
  intros t segs seg H E i. unfold EdiValidator.find_tag in E.
  apply find_some in E. destruct E as [Hin _].
  apply element_ok. apply (proj1 (forallb_forall _ _) H seg Hin).
Qed.

Lemma header_ok : forall segs,
  forallb elements_ok segs = true ->
  isa_ok (Extract.header_isa segs) = true
  /\ gs_ok (Extract.header_gs segs) = true
  /\ st_ok (Extract.header_st segs) = true.
Proof.
  intros segs H.
  unfold Extract.header_isa, Extract.header_gs, Extract.header_st.
  repeat split.
  - destruct (EdiValidator.find_tag (str "ISA") segs) as [s|] eqn:E;
      [|reflexivity].
    pose proof (find_tag_ok _ _ H E) as Hel. unfold isa_ok.
    cbn [Isa.authorizationQualifier Isa.authorizationInformation
         Isa.securityQualifier Isa.securityInformation Isa.senderQualifier
         Isa.senderId Isa.receiverQualifier Isa.receiverId
         Isa.interchangeDate Isa.interchangeTime Isa.controlVersion
         Isa.controlNumber Isa.acknowledgmentRequested Isa.testIndicator].
    rewrite !Hel. reflexivity.
  - destruct (EdiValidator.find_tag (str "GS") segs) as [s|] eqn:E;
      [|reflexivity].
    pose proof (find_tag_ok _ _ H E) as Hel. unfold gs_ok.
    cbn [Gs.functionalCode Gs.applicationSender Gs.applicationReceiver
         Gs.date Gs.time Gs.groupControlNumber Gs.responsibleAgency
         Gs.version].
    rewrite !Hel. reflexivity.
  - destruct (EdiValidator.find_tag (str "ST") segs) as [s|] eqn:E;
      [|reflexivity].
    pose proof (find_tag_ok _ _ H E) as Hel. unfold st_ok.
    cbn [St.transactionSetIdentifier St.transactionSetControlNumber].
    rewrite !Hel. reflexivity.
Qed.

Lemma payment_step_ok : forall done cur seg,
  elements_ok seg = true ->
  forallb payment_ok (Extract.push_current done cur) = true ->
  forallb payment_ok
    (Extract.push_current (fst (Extract.payment_step (done, cur) seg))
       (snd (Extract.payment_step (done, cur) seg))) = true.
Proof.
  intros done cur seg Hseg H.
  pose proof (fun i => element_ok seg i Hseg) as Hel.
  unfold Extract.payment_step.
  destruct (eqb (tag seg) (str "BPR")).
  - cbn [fst snd Extract.push_current]. rewrite forallb_app, H.
    cbn [forallb]. unfold payment_ok.
    cbn [Payment.transactionHandlingCode Payment.creditDebitFlag
         Payment.paymentMethodCode Payment.paymentFormatCode
         Payment.originatingCompanyId
         Payment.originatingCompanySupplementalCode
         Payment.receivingCompanyId Payment.receivingCompanySupplementalCode
         Payment.effectiveEntryDate Payment.remittanceDetails forallb].
    rewrite !Hel. reflexivity.
  - destruct (eqb (tag seg) (str "RMR")); [|exact H].
    destruct cur as [p|]; [|exact H].
    cbn [fst snd Extract.push_current] in *.
    rewrite forallb_app in *. apply andb_true_iff in H.
    destruct H as [Hdone Hp]. rewrite Hdone. cbn [forallb andb] in *.
    rewrite andb_true_r in *. unfold payment_ok in *.
    cbn [Payment.transactionHandlingCode Payment.creditDebitFlag
         Payment.paymentMethodCode Payment.paymentFormatCode
         Payment.originatingCompanyId
         Payment.originatingCompanySupplementalCode
         Payment.receivingCompanyId Payment.receivingCompanySupplementalCode
         Payment.effectiveEntryDate Payment.remittanceDetails].
    apply andb_true_iff in Hp. destruct Hp as [Hfields Hdetails].
    rewrite Hfields, forallb_app, Hdetails. cbn [forallb andb].
    unfold remittance_ok.
    cbn [Remittance.referenceQualifier Remittance.memberGroupNumber].
    rewrite !Hel. reflexivity.
Qed.

Lemma extracted_payments_ok : forall segs,
  forallb elements_ok segs = true ->
  forallb payment_ok (Extract.extract820Payments segs) = true.
Proof.
  intros segs H. rewrite extract820Payments_unfold.
  assert (Hst : forall l st,
            forallb elements_ok l = true ->
            forallb payment_ok (Extract.push_current (fst st) (snd st)) = true ->
            forallb payment_ok
              (Extract.push_current
                 (fst (fold_left Extract.payment_step l st))
                 (snd (fold_left Extract.payment_step l st))) = true).
  { induction l as [|seg l IH]; intros st Hl Hs; [exact Hs|].
    cbn [forallb] in Hl. apply andb_true_iff in Hl. destruct Hl as [Hseg Hl].
    cbn [fold_left]. apply IH; [exact Hl|].
    destruct st as [done cur]. apply payment_step_ok; assumption. }
  apply (Hst segs ([], None) H eq_refl).
Qed.

Lemma parsed_json_ok : forall content,
  json_ok (Extract.convertEDIToJSON (Universal.parseEDIContent content)) = true.
Proof.
  intros content.
  pose proof (tokenize_elements_ok content) as Hok.
  unfold tokenize in Hok.
  destruct (header_ok _ Hok) as (Hisa & Hgs & Hst).
  unfold json_ok, Extract.convertEDIToJSON.
  cbn [interchangeControl functionalGroup transactionSet members payments].
  rewrite Hisa, Hgs, Hst. cbn [andb].
  apply andb_true_iff. split.
  - destruct (type (Universal.parseEDIContent content)) as [[]|];
      try reflexivity.
    apply extracted_members_ok, Hok.
  - destruct (type (Universal.parseEDIContent content)) as [[]|];
      try reflexivity.
    apply extracted_payments_ok, Hok.
Qed.

Lemma rebuilt_rows_tags : forall numberToString json,
  forallb (fun row => array_includes template_tags (hd [] row))
    (rebuilt_rows numberToString json) = true.
Proof.
  intros numberToString json. unfold rebuilt_rows. rewrite !forallb_app.
  apply andb_true_iff. split; [|apply andb_true_iff; split;
                                [|apply andb_true_iff; split]].
  - destruct (functionalGroup json); reflexivity.
  - destruct (transactionSet json); reflexivity.
  - unfold format_rows. destruct (originalFormat json) as [[]|];
      try reflexivity.
    + cbn [forallb]. apply andb_true_iff. split; [reflexivity|].
      rewrite forallb_flat_map. apply forallb_forall. intros m _.
      unfold member_rows. rewrite !forallb_app.
      destruct (Member.name m); destruct (Member.demographics m);
        cbn [forallb andb hd]; try rewrite !andb_true_r;
        apply forallb_forall; intros row Hrow; apply in_map_iff in Hrow;
        destruct Hrow as (c & <- & _); reflexivity.
    + rewrite forallb_flat_map. apply forallb_forall. intros p _.
      unfold payment_rows. cbn [forallb]. apply andb_true_iff.
      split; [reflexivity|].
      apply forallb_forall. intros row Hrow. apply in_map_iff in Hrow.
      destruct Hrow as (r & <- & _). reflexivity.
  - reflexivity.
Qed.

Lemma extractEntities_none : forall segs,
  existsb (is_tag "N1") segs = false -> Extract.extractEntities segs = [].
Proof.
  induction segs as [|seg segs IH]; intros H; [reflexivity|].
  cbn [existsb] in H. apply orb_false_iff in H. destruct H as [Hseg Hsegs].
  unfold Extract.extractEntities in *. cbn [flat_map].
  unfold is_tag in Hseg. rewrite Hseg. cbn [app]. apply IH, Hsegs.
Qed.

Lemma missing_entity_name_invalid : forall t,
  existsb (is_tag "N1") (segments t) = false ->
  result_isValid (validateEDITransaction t) = false.
Proof.
  intros t H. unfold validateEDITransaction. cbn [result_isValid].
  rewrite no_critical_count, all_issues_parts, no_critical_app.
  rewrite (missing_no_critical t (array_includes (map tag (segments t)))).
  replace (forallb (array_includes (map tag (segments t)))
             (requiredSegments (type t))) with false; [reflexivity|].
  symmetry. apply not_true_is_false. intros Hall.
  assert (Hin : In (str "N1") (requiredSegments (type t))).
  { unfold requiredSegments. destruct (is_834 (type t)); cbn; tauto. }
  apply (proj1 (forallb_forall _ _) Hall) in Hin.
  rewrite (array_includes_tags (segments t) "N1"), H in Hin. discriminate.
Qed.

Lemma tags_of_tokens : forall segs toks,
  map row_tokens segs = toks -> map tag segs = map fst toks.
Proof.
  intros segs toks <-. rewrite map_map. reflexivity.
Qed.

Lemma no_entity_tag : forall segs rows,
  map tag segs = str "ISA" :: map (hd []) rows ->
  forallb (fun row => array_includes template_tags (hd [] row)) rows = true ->
  existsb (is_tag "N1") segs = false.
Proof.
  intros segs rows Htags Hrows.
  rewrite <- (array_includes_tags segs "N1"), Htags.
  unfold array_includes at 1. cbn [existsb]. apply orb_false_iff.
  split; [reflexivity|]. clear Htags.
  induction rows as [|row rows IH]; [reflexivity|].
  cbn [forallb] in Hrows. apply andb_true_iff in Hrows.
  destruct Hrows as [Hrow Hrows]. cbn [map existsb].
  rewrite (IH Hrows), orb_false_r.
  destruct (eqb (str "N1") (hd [] row)) eqn:E; [|reflexivity].
  apply eqb_eq in E. rewrite <- E in Hrow. discriminate.
Qed.

Lemma closed_rows_tokens : forall k rows,
  forallb row_ok rows = true ->
  map row_tokens (tokenize k (join newline (map close rows)))
  = map row_read rows.
Proof.
  intros k [|row rows] Hrows.
  - destruct k; reflexivity.
  - pose proof (rows_lines_ok _ Hrows) as Hlines.
    rewrite tokenize_row_tokens. unfold retained_lines.
    pose proof (split_lines_join _ _ Hlines) as Hsplit.
    remember (row :: rows) as all eqn:Eall. cbn [map] in Hsplit.
    assert (Hall : split_lines (join newline (map close all))
                   = map close all) by (subst all; exact Hsplit).
    unfold jsstring, char in *. rewrite Hall.
    rewrite filter_all.
    + rewrite map_map. apply map_ext_in. intros r Hr.
      apply (proj1 (forallb_forall _ _) Hrows) in Hr.
      destruct (row_line k r Hr) as [Hline Hsp].
      destruct (line_ok_trim _ Hline) as [Htr _]. cbv zeta.
      unfold jsstring, char in *. rewrite Htr, Hsp.
      unfold row_read. destruct r; reflexivity.
    + apply forallb_forall. intros l Hl.
      apply (line_ok_trim l). apply (proj1 (forallb_forall _ _) Hlines l Hl).
Qed.

Lemma payment_step_tokens : forall st a b,
  tag a = tag b -> elements a = elements b ->
  Extract.payment_step st a = Extract.payment_step st b.
Proof.
  intros st a b Htag Hel.
  unfold Extract.payment_step, Extract.amount, element.
  rewrite Htag, Hel. reflexivity.
Qed.

Lemma extract820Payments_tokens : forall a b,
  map row_tokens a = map row_tokens b ->
  Extract.extract820Payments a = Extract.extract820Payments b.
Proof.
  intros a b H. rewrite !extract820Payments_unfold.
  assert (Hfold : forall st,
            fold_left Extract.payment_step a st
            = fold_left Extract.payment_step b st).
  { revert b H. induction a as [|x a IH]; intros [|y b] H st;
      try discriminate; [reflexivity|].
    cbn [map] in H. injection H as Htag Hel Hab. cbn [fold_left].
    rewrite (@payment_step_tokens st x y Htag Hel). apply IH, Hab. }
  rewrite Hfold. reflexivity.
Qed.

Section Payments.

Variable numberToString : jsnum -> jsstring.

Lemma payment_group : forall p,
  Extract.extract820Payments
    (map row_segment (payment_rows numberToString p))
  = [rebuilt_payment numberToString p].
Proof.
  intros p. unfold payment_rows. cbn [map].
  rewrite extract820Payments_single.
  - f_equal. unfold rebuilt_payment.
    replace (map remittance_of
               (filter (is_tag "RMR")
                  (map row_segment
                     (map (rmr_row numberToString)
                        match Payment.remittanceDetails p with
                        | Some rd => rd
                        | None => []
                        end))))
      with (map (rebuilt_remittance numberToString)
              match Payment.remittanceDetails p with
              | Some rd => rd
              | None => []
              end); [reflexivity|].
    induction (match Payment.remittanceDetails p with
               | Some rd => rd
               | None => []
               end) as [|r rd IH]; [reflexivity|].
    cbn [map filter]. rewrite IH. reflexivity.
  - reflexivity.
  - induction (match Payment.remittanceDetails p with
               | Some rd => rd
               | None => []
               end) as [|r rd IH]; [reflexivity|].
    cbn [map existsb]. rewrite IH. reflexivity.
Qed.

Lemma payments_of_rows : forall ps,
  Extract.extract820Payments
    (map row_segment (flat_map (payment_rows numberToString) ps))
  = map (rebuilt_payment numberToString) ps.
Proof.
  induction ps as [|p ps IH]; [reflexivity|].
  cbn [flat_map map]. rewrite map_app.
  destruct ps as [|p' ps].
  - cbn [flat_map map]. rewrite app_nil_r. apply payment_group.
  - remember (p' :: ps) as rest eqn:Erest.
    assert (Hshape : exists b post,
              map row_segment (flat_map (payment_rows numberToString) rest)
              = b :: post /\ is_tag "BPR" b = true).
    { subst rest. cbn [flat_map]. unfold payment_rows at 1.
      cbn [app map]. eexists. eexists. split; reflexivity. }
    destruct Hshape as (b & post & Hrest & Hb).
    rewrite Hrest, (extract820Payments_app _ _ _ Hb), <- Hrest, IH.
    rewrite payment_group. subst rest. reflexivity.
Qed.

Hypothesis number_ok : forall x, field_ok (numberToString x) = true.

Lemma payments_read_back : forall ps,
  forallb payment_ok ps = true ->
  Extract.extract820Payments
    (tokenize UniversalParser
       (join newline (Rebuild.reconstruct820Segments numberToString ps)))
  = map (rebuilt_payment numberToString) ps.
Proof.
  intros ps H. unfold Rebuild.reconstruct820Segments.
  rewrite (flat_map_rows _ (payment_rows numberToString) ps
             (reconstruct_payment_rows numberToString)).
  rewrite <- payments_of_rows. apply extract820Payments_tokens.
  rewrite closed_rows_tokens.
  - rewrite map_map. apply map_ext. intros row. reflexivity.
  - apply (forallb_flat_map_ok _ payment_ok); [|exact H].
    apply (payment_rows_ok numberToString number_ok).
Qed.

End Payments.

Lemma rebuilt_text_tokens : forall numberToString k content,
  (forall x, field_ok (numberToString x) = true) ->
  let t := Universal.parseEDIContent content in
  let json := Extract.convertEDIToJSON t in
  map row_tokens (tokenize k (Rebuild.convertJSONToEDI numberToString json))
  = (str "ISA", isa_row (Extract.header_isa (segments t)))
    :: map row_read (rebuilt_rows numberToString json).
Proof.
  intros numberToString k content Hnum t json.
  pose proof (parsed_json_ok content) as Hok. fold t json in Hok.
  pose proof (rebuilt_rows_ok numberToString Hnum json Hok) as Hrows.
  assert (Hisa : interchangeControl json
                 = Some (Extract.header_isa (segments t))) by reflexivity.
  rewrite (convertJSONToEDI_rows numberToString json Hok Hisa).
  destruct (rebuilt_rows numberToString json) as [|row rows] eqn:E.
  - exfalso. unfold rebuilt_rows in E.
    apply (f_equal (@List.length _)) in E. rewrite !length_app in E.
    unfold trailer_rows in E. cbn [List.length] in E. lia.
  - apply written_text_tokens; [|exact Hrows].
    apply header_ok. apply (tokenize_elements_ok content).
Qed.

(** X23.  Whatever file the universal parser has read, the text
    [convertJSONToEDI] writes for its structured result is read back line
    by line: either parser finds one segment for each written line, with
    the tag of the template and exactly the fields written, followed by one
    empty element for the closing tilde (the [ISA] line has none). *)
Theorem rebuilt_file_read_row_by_row : forall numberToString k content,
  (forall x, field_ok (numberToString x) = true) ->
  let t := Universal.parseEDIContent content in
  let json := Extract.convertEDIToJSON t in
  let again := tokenize k (Rebuild.convertJSONToEDI numberToString json) in
  map row_tokens again
  = (str "ISA", isa_row (Extract.header_isa (segments t)))
    :: map row_read (rebuilt_rows numberToString json)
  /\ List.length again = S (List.length (rebuilt_rows numberToString json)).
Proof.
  intros numberToString k content Hnum. cbv zeta.
  pose proof (rebuilt_text_tokens numberToString k content Hnum) as H.
  cbv zeta in H. split; [exact H|].
  rewrite <- (length_map row_tokens), H.
  cbn [List.length]. rewrite length_map. reflexivity.
Qed.

Lemma rebuilt_file_read_row_by_row_witness :
  let numberToString := fun _ : jsnum => str "0" in
  let t := Universal.parseEDIContent sample_834 in
  let json := Extract.convertEDIToJSON t in
  let again :=
    tokenize LegacyParser (Rebuild.convertJSONToEDI numberToString json) in
  map row_tokens again
  = (str "ISA", isa_row (Extract.header_isa (segments t)))
    :: map row_read (rebuilt_rows numberToString json)
  /\ List.length again = S (List.length (rebuilt_rows numberToString json)).
Proof.
  apply (rebuilt_file_read_row_by_row (fun _ => str "0") LegacyParser
           sample_834).
  intros x. reflexivity.
Defined.

Lemma rebuilt_text_no_entity_tag : forall numberToString k content,
  (forall x, field_ok (numberToString x) = true) ->
  existsb (is_tag "N1")
    (tokenize k
       (Rebuild.convertJSONToEDI numberToString
          (Extract.convertEDIToJSON (Universal.parseEDIContent content))))
  = false.
Proof.
  intros numberToString k content Hnum.
  pose proof (rebuilt_text_tokens numberToString k content Hnum) as H.
  cbv zeta in H. apply tags_of_tokens in H. cbn [map fst] in H.
  rewrite map_map in H.
  apply (no_entity_tag _ _ H). apply rebuilt_rows_tags.
Qed.

(** X24.  A file written by [convertJSONToEDI] never passes the validator
    and never yields an entity: no template writes an [N1] segment, which
    both lists of required segments demand and which is the only source of
    entities.  This holds for the structured result of any input, read by
    either parser. *)
Theorem rebuilt_file_never_valid : forall numberToString content,
  (forall x, field_ok (numberToString x) = true) ->
  let text :=
    Rebuild.convertJSONToEDI numberToString
      (Extract.convertEDIToJSON (Universal.parseEDIContent content)) in
  result_isValid (validateEDITransaction (EdiParser.parseEDIContent text))
  = false
  /\ result_isValid (validateEDITransaction (Universal.parseEDIContent text))
     = false
  /\ entities (Rebuild.roundtrip numberToString content) = [].
Proof.
  intros numberToString content Hnum text.
  pose proof (rebuilt_text_no_entity_tag numberToString LegacyParser content
                Hnum) as Hlegacy.
  pose proof (rebuilt_text_no_entity_tag numberToString UniversalParser
                content Hnum) as Huniversal.
  fold text in Hlegacy, Huniversal. unfold tokenize in *.
  split; [apply missing_entity_name_invalid, Hlegacy|].
  split; [apply missing_entity_name_invalid, Huniversal|].
  unfold Rebuild.roundtrip. fold text. unfold Extract.convertEDIToJSON.
  cbn [entities]. apply extractEntities_none, Huniversal.
Qed.

Lemma rebuilt_file_never_valid_witness :
  let numberToString := fun _ : jsnum => str "0" in
  let text :=
    Rebuild.convertJSONToEDI numberToString
      (Extract.convertEDIToJSON (Universal.parseEDIContent sample_820)) in
  result_isValid (validateEDITransaction (EdiParser.parseEDIContent text))
  = false
  /\ result_isValid (validateEDITransaction (Universal.parseEDIContent text))
     = false
  /\ entities (Rebuild.roundtrip numberToString sample_820) = [].
Proof.
  apply (rebuilt_file_never_valid (fun _ => str "0") sample_820).
  intros x. reflexivity.
Defined.

(** X25.  Payments survive reconstruction position by position: the
    payments extracted from the text that [reconstruct820Segments] writes
    for the payments of any input are as many as before and in the same
    order, each changed as [rebuilt_payment] states: codes defaulted,
    company ids and entry date kept, every amount read back from its
    written form.  An amount that was [NaN] or zero is written as [0] and
    comes back as zero. *)
Theorem payments_round_trip : forall numberToString content,
  (forall x, field_ok (numberToString x) = true) ->
  let ps := Extract.extract820Payments (tokenize UniversalParser content) in
  Extract.extract820Payments
    (tokenize UniversalParser
       (join newline (Rebuild.reconstruct820Segments numberToString ps)))
  = map (rebuilt_payment numberToString) ps
  /\ (forall x,
        number_truthy x = false ->
        rebuilt_amount numberToString x = Num.zero)
  /\ (forall x,
        number_truthy x = true ->
        rebuilt_amount numberToString x
        = parseFloat (or_default (Some (numberToString x)) (str "0"))).
Proof.
  intros numberToString content Hnum ps. split; [|split].
  - apply (payments_read_back numberToString Hnum).
    apply extracted_payments_ok, tokenize_elements_ok.
  - intros x Hx. unfold rebuilt_amount, Rebuild.number_or_zero.
    rewrite Hx. reflexivity.
  - intros x Hx. unfold rebuilt_amount, Rebuild.number_or_zero.
    rewrite Hx. reflexivity.
Qed.

Lemma payments_round_trip_witness :
  let numberToString := fun _ : jsnum => str "125000" in
  let ps :=
    Extract.extract820Payments
      (tokenize UniversalParser sample_820_no_header) in
  Extract.extract820Payments
    (tokenize UniversalParser
       (join newline (Rebuild.reconstruct820Segments numberToString ps)))
  = map (rebuilt_payment numberToString) ps
  /\ rebuilt_amount numberToString NaN = Num.zero
  /\ rebuilt_amount numberToString (Decimal false 12500000 (-2))
     = Decimal false 125000 0.
Proof.
  destruct (payments_round_trip (fun _ => str "125000") sample_820_no_header)
    as (Hback & Hzero & Hkept).
  - intros x. reflexivity.
  - split; [exact Hback|]. split.
    + apply Hzero. reflexivity.
    + rewrite Hkept; reflexivity.
Defined.

(* ================================================================== *)
(** ** Further properties: what the viewer shows                        *)
(* ================================================================== *)

Lemma map_get_set : forall m key value key',
  EDIViewer.map_get (EDIViewer.map_set m key value) key'
  = if Nat.eqb key key' then Some value else EDIViewer.map_get m key'.
Proof.
  induction m as [|[k v] m IH]; intros key value key'; simpl.
  - reflexivity.
  - destruct (Nat.eqb k key) eqn:E; simpl.
    + apply Nat.eqb_eq in E. subst k. destruct (Nat.eqb key key'); reflexivity.
    + destruct (Nat.eqb k key') eqn:E'.
      * apply Nat.eqb_eq in E'. subst k. rewrite Nat.eqb_sym, E. reflexivity.
      * apply IH.
Qed.

(** One round of the loop on an issue that refers to a segment: the issue
    goes to the end of the entry of its line, no other entry changes. *)
Lemma group_step_located : forall m e seg,
  error_segment e = Some seg ->
  exists m1,
    EDIViewer.group_step m e = EdgeFunction.Normal m1
    /\ forall ln,
         EDIViewer.map_get m1 ln
         = if Nat.eqb (lineNumber seg) ln
           then Some (match EDIViewer.map_get m (lineNumber seg) with
                      | Some l => l
                      | None => []
                      end ++ [e])
           else EDIViewer.map_get m ln.
Proof.
  intros m e seg Hseg. unfold EDIViewer.group_step. rewrite Hseg.
  unfold EDIViewer.map_has.
  destruct (EDIViewer.map_get m (lineNumber seg)) as [arr|] eqn:Eget;
    cbn [negb].
  - rewrite Eget. eexists. split; [reflexivity|].
    intros ln. rewrite map_get_set. reflexivity.
  - rewrite map_get_set, Nat.eqb_refl. eexists. split; [reflexivity|].
    intros ln. rewrite !map_get_set.
    destruct (Nat.eqb (lineNumber seg) ln); reflexivity.
Qed.

Lemma group_located : forall issues m,
  located issues = true ->
  exists m',
    EDIViewer.group issues m = EdgeFunction.Normal m'
    /\ forall ln,
         EDIViewer.map_get m' ln
         = match filter
                   (fun e =>
                      match error_segment e with
                      | Some seg => Nat.eqb (lineNumber seg) ln
                      | None => false
                      end) issues with
           | [] => EDIViewer.map_get m ln
           | l => Some (match EDIViewer.map_get m ln with
                        | Some l0 => l0
                        | None => []
                        end ++ l)
           end.
Proof.
  induction issues as [|e issues IH]; intros m H.
  - exists m. split; reflexivity.
  - cbn [located forallb] in H. apply andb_true_iff in H.
    destruct H as [He Hrest]. fold (located issues) in Hrest.
    destruct (error_segment e) as [seg|] eqn:Eseg; [|discriminate].
    destruct (@group_step_located m e seg Eseg) as (m1 & Hstep & Hget).
    destruct (IH m1 Hrest) as (m' & Hgroup & Hget').
    exists m'. split.
    + cbn [EDIViewer.group]. rewrite Hstep. exact Hgroup.
    + intros ln. rewrite Hget'. cbn [filter]. rewrite Eseg, !Hget.
      destruct (Nat.eqb (lineNumber seg) ln) eqn:E.
      * apply Nat.eqb_eq in E. subst ln.
        match goal with
        | |- context [filter ?f issues] => destruct (filter f issues)
        end.
        -- reflexivity.
        -- rewrite <- app_assoc. reflexivity.
      * reflexivity.
Qed.

Lemma group_unlocated : forall e issues m,
  error_segment e = None ->
  EDIViewer.group (e :: issues) m = EdgeFunction.TypeError.
Proof.
  intros e issues m H. cbn [EDIViewer.group]. unfold EDIViewer.group_step.
  rewrite H. reflexivity.
Qed.

(** The passes refer each issue to a segment, the two that point at the
    first segment when there is one. *)
Ltac all_located := unfold located; branch; reflexivity.

Lemma missing_located : forall t first rest l,
  segments t = first :: rest ->
  located (map (missing_error t) l) = true.
Proof.
  intros t first rest l H. induction l as [|x l IH]; [reflexivity|].
  cbn [map located forallb]. unfold missing_error at 1.
  cbn [error_segment]. rewrite H. exact IH.
Qed.

Lemma sequence_located : forall t,
  located (validateSegmentSequence t []) = true.
Proof. intros t. unfold validateSegmentSequence. all_located. Qed.

Lemma control_located : forall t,
  located (validateControlNumbers t []) = true.
Proof. intros t. unfold validateControlNumbers. all_located. Qed.

Lemma format_located : forall seg, located (format_issues seg) = true.
Proof.
  intros seg.
  unfold format_issues, validateISAFormat, validateDTPFormat, validateDMGFormat.
  all_located.
Qed.

Lemma orphan_located : forall seg, located (orphan_issue seg) = true.
Proof. intros seg. unfold orphan_issue, orphan_step. all_located. Qed.

Lemma payment_rules_located : forall t first rest,
  segments t = first :: rest ->
  located (validate820BusinessRules t []) = true.
Proof.
  intros t first rest H. unfold validate820BusinessRules.
  match goal with
  | |- context [fold_left ?f _ _] =>
      assert (Hstep : forall acc x, f acc x = acc ++ f [] x)
        by (intros acc x; cbv beta; appended);
      rewrite !(fold_left_appends f Hstep)
  end.
  unfold located. rewrite forallb_app, forallb_flat_map.
  apply andb_true_iff. split.
  - rewrite H. branch; reflexivity.
  - apply forallb_forall. intros seg _. branch; reflexivity.
Qed.

Lemma all_issues_located : forall t first rest,
  segments t = first :: rest ->
  located (all_issues t) = true.
Proof.
  intros t first rest H. rewrite all_issues_parts. unfold located.
  rewrite !forallb_app, !forallb_flat_map.
  fold (located (map (missing_error t)
                   (filter (fun required =>
                              negb (array_includes (map tag (segments t)) required))
                      (requiredSegments (type t))))).
  rewrite (@missing_located t first rest _ H).
  fold (located (validateSegmentSequence t [])). rewrite sequence_located.
  fold (located (validateControlNumbers t [])). rewrite control_located.
  cbn [andb]. apply andb_true_iff. split.
  - apply forallb_forall. intros seg _. apply format_located.
  - destruct (is_834 (type t)); [|destruct (is_820 (type t))].
    + rewrite forallb_flat_map. apply forallb_forall. intros seg _.
      apply orphan_located.
    + apply (@payment_rules_located t first rest H).
    + reflexivity.
Qed.

Lemma located_filter : forall f l,
  located l = true -> located (filter f l) = true.
Proof.
  intros f l H. unfold located in *. apply forallb_forall.
  intros e He. apply filter_In in He. destruct He as [He _].
  rewrite forallb_forall in H. apply H. exact He.
Qed.

(** Without a segment the first issue is the missing [ISA], and it refers
    to no segment. *)
Lemma no_segment_first_issue : forall t,
  segments t = [] ->
  exists e rest,
    result_errors (validateEDITransaction t) = e :: rest
    /\ error_segment e = None.
Proof.
  intros t H. unfold validateEDITransaction. cbn [result_errors].
  rewrite all_issues_parts. rewrite H. unfold requiredSegments.
  destruct (is_834 (type t));
    cbn [REQUIRED_834_SEGMENTS REQUIRED_820_SEGMENTS filter map app
         array_includes existsb negb missing_error error_type severity_eqb];
    eexists; eexists;
    (split; [reflexivity|unfold missing_error; cbn [error_segment];
                         rewrite H; reflexivity]).
Qed.

Lemma nonblank_count_segments : forall k content,
  nonblank_count content = List.length (tokenize k content).
Proof.
  intros k content.
  destruct (tokenize_pushed k content) as (mk & E & _). rewrite E.
  rewrite pushed_length. unfold retained_lines, nonblank_count.
  rewrite filter_twice. f_equal. apply filter_ext.
  intros line. symmetry. apply truthy_not_empty.
Qed.

(** X26.  The viewer builds its map of line numbers to issues only for a
    file with at least one line that is not blank: on a file without one
    the loop reads the line number of a segment that is not there and the
    component throws.  Otherwise the map holds, for each line number, the
    issues of the validation result on that line, errors before warnings,
    and no entry for a line without issue. *)
Theorem viewer_throws_exactly_on_blank_files : forall content,
  match EDIViewer.errorsByLine content with
  | EdgeFunction.TypeError => nonblank_count content = 0
  | EdgeFunction.Normal m =>
      nonblank_count content <> 0
      /\ forall ln,
           EDIViewer.map_get m ln
           = match issues_at
                     (validateEDITransaction (EdiParser.parseEDIContent content))
                     ln with
             | [] => None
             | l => Some l
             end
  end.
Proof.
  intros content. rewrite (nonblank_count_segments LegacyParser).
  unfold EDIViewer.errorsByLine. cbn [tokenize].
  set (t := EdiParser.parseEDIContent content).
  destruct (segments t) as [|first rest] eqn:Hsegs.
  - destruct (@no_segment_first_issue t Hsegs) as (e & more & Herrs & Hnone).
    rewrite Herrs. cbn [app]. rewrite (@group_unlocated e _ _ Hnone).
    reflexivity.
  - pose proof (@all_issues_located t first rest Hsegs) as Hall.
    assert (Hloc : located (result_errors (validateEDITransaction t)
                            ++ result_warnings (validateEDITransaction t))
                   = true).
    { unfold validateEDITransaction. cbn [result_errors result_warnings].
      unfold located. rewrite forallb_app. apply andb_true_iff.
      split; apply located_filter; exact Hall. }
    destruct (@group_located _ [] Hloc) as (m & Hgroup & Hget).
    rewrite Hgroup. split; [discriminate|].
    intros ln. rewrite Hget. unfold issues_at. cbn [EDIViewer.map_get app].
    reflexivity.
Qed.

Lemma startsWith_app : forall p post, startsWith p (p ++ post) = true.
Proof.
  induction p as [|c p IH]; intros post; simpl; [reflexivity|].
  rewrite N.eqb_refl. apply IH.
Qed.

Lemma startsWith_split : forall p s,
  startsWith p s = true -> exists post, s = p ++ post.
Proof.
  induction p as [|c p IH]; intros s H; simpl in *.
  - exists s. reflexivity.
  - destruct s as [|c' s]; [discriminate|].
    apply andb_true_iff in H. destruct H as [Hc Hs].
    apply N.eqb_eq in Hc. subst c'.
    destruct (IH s Hs) as (post & ->). exists post. reflexivity.
Qed.

Lemma includes_app : forall pre p post, includes (pre ++ p ++ post) p = true.
Proof.
  induction pre as [|c pre IH]; intros p post.
  - cbn [app]. destruct (p ++ post) eqn:E; simpl.
    + destruct p; [reflexivity|discriminate].
    + rewrite <- E, startsWith_app. reflexivity.
  - cbn [app includes]. rewrite IH. apply orb_true_r.
Qed.

Lemma includes_split : forall s p,
  includes s p = true -> exists pre post, s = pre ++ p ++ post.
Proof.
  induction s as [|c s IH]; intros p H; simpl in H.
  - rewrite orb_false_r in H. apply startsWith_split in H.
    destruct H as (post & ->). exists [], post. reflexivity.
  - apply orb_true_iff in H. destruct H as [H|H].
    + apply startsWith_split in H. destruct H as (post & ->).
      exists [], post. reflexivity.
    + destruct (IH p H) as (pre & post & ->).
      exists (c :: pre), post. reflexivity.
Qed.

(** A run of code units without delimiter stays in one token. *)
Lemma split_class_free_app : forall d p post,
  delimiter_free d p = true ->
  exists l ls,
    split_class d post = l :: ls
    /\ split_class d (p ++ post) = (p ++ l) :: ls.
Proof.
  intros d p post. induction p as [|c p IH]; intros H.
  - destruct (split_class_cons d post) as (l & ls & E).
    exists l, ls. split; [exact E|exact E].
  - simpl in H. apply andb_true_iff in H. destruct H as [Hc Hp].
    apply negb_true_iff in Hc.
    destruct (IH Hp) as (l & ls & E & E').
    exists l, ls. split; [exact E|].
    cbn [app split_class]. rewrite Hc, E'. reflexivity.
Qed.

Lemma split_class_holds_free_run : forall d p,
  delimiter_free d p = true ->
  forall pre post,
  exists piece a b,
    In piece (split_class d (pre ++ p ++ post)) /\ piece = a ++ p ++ b.
Proof.
  intros d p Hp pre post. induction pre as [|c pre IH].
  - destruct (@split_class_free_app d p post Hp) as (l & ls & _ & E).
    exists (p ++ l), [], l. cbn [app]. rewrite E. split; [left|]; reflexivity.
  - destruct IH as (piece & a & b & Hin & ->).
    cbn [app split_class]. destruct (d c).
    + exists (a ++ p ++ b), a, b. split; [right; exact Hin|reflexivity].
    + destruct (split_class d (pre ++ p ++ post)) as [|l ls];
        [contradiction|].
      destruct Hin as [->|Hin].
      * exists (c :: a ++ p ++ b), (c :: a), b.
        split; [left|]; reflexivity.
      * exists (a ++ p ++ b), a, b. split; [right; exact Hin|reflexivity].
Qed.

Lemma join_empty_cons : forall (x : jsstring) rest,
  join [] (x :: rest) = x ++ join [] rest.
Proof.
  intros x [|y rest]; simpl; [rewrite app_nil_r|]; reflexivity.
Qed.

Lemma span_holds : forall (open quote cls close text finish : jsstring),
  open ++ quote ++ cls ++ quote ++ close ++ text ++ finish
  = (open ++ quote ++ cls ++ quote ++ close) ++ text ++ finish.
Proof. intros. rewrite <- !app_assoc. reflexivity. Qed.

Lemma highlight_element_holds : forall element index,
  exists a b, EDIViewer.highlight_element element index = a ++ element ++ b.
Proof.
  intros element index. unfold EDIViewer.highlight_element.
  destruct (Nat.eqb index 0).
  - exists (str "<span class=" ++ [34%N] ++ str "edi-segment" ++ [34%N]
            ++ str ">"), (str "</span>").
    apply span_holds.
  - exists (EDIViewer.span (str "edi-separator") (str "*")
            ++ str "<span class=" ++ [34%N]
            ++ EDIViewer.getElementClass element ++ [34%N] ++ str ">"),
           (str "</span>").
    rewrite <- (app_assoc (EDIViewer.span (str "edi-separator") (str "*"))).
    f_equal. apply span_holds.
Qed.

Lemma markup_holds_elements : forall parts index piece,
  In piece parts ->
  exists a b,
    join [] (EDIViewer.map_from EDIViewer.highlight_element parts index)
    = a ++ piece ++ b.
Proof.
  induction parts as [|e parts IH]; intros index piece H;
    [contradiction|].
  cbn [EDIViewer.map_from]. rewrite join_empty_cons.
  destruct H as [<-|H].
  - destruct (highlight_element_holds e index) as (a & b & ->).
    exists a,
      (b ++ join []
              (EDIViewer.map_from EDIViewer.highlight_element parts (S index))).
    rewrite <- !app_assoc. reflexivity.
  - destruct (IH (S index) piece H) as (a & b & ->).
    exists (EDIViewer.highlight_element e index ++ a), b.
    rewrite <- !app_assoc. reflexivity.
Qed.

(** X27.  The markup the viewer sets as the HTML of a line holds the text
    of the segment as it stands: every run of code units of the raw line
    that holds no [*] and no [~] is found in the markup unchanged, so
    nothing of the file is escaped. *)
Theorem markup_holds_text_unescaped : forall seg s,
  delimiter_free EdiParser.delimiter s = true ->
  includes (raw seg) s = true ->
  includes (EDIViewer.highlightSegmentHTML seg) s = true.
Proof.
  intros seg s Hfree Hin.
  apply includes_split in Hin. destruct Hin as (pre & post & Hraw).
  destruct (@split_class_holds_free_run EdiParser.delimiter s Hfree pre post)
    as (piece & a & b & Hpiece & ->).
  unfold EDIViewer.highlightSegmentHTML. cbv zeta.
  unfold jsstring, char in *. rewrite Hraw.
  destruct (@markup_holds_elements _ 0 _ Hpiece) as (a' & b' & E).
  unfold jsstring, char in *. rewrite E.
  replace (a' ++ (a ++ s ++ b) ++ b') with ((a' ++ a) ++ s ++ (b ++ b'))
    by (rewrite <- !app_assoc; reflexivity).
  apply includes_app.
Qed.

Lemma markup_holds_text_unescaped_witness :
  let seg :=
    mkSegment (str "NM1") [str "NM1"; str "<img src=x onerror=alert(1)>"]
      (str "NM1*<img src=x onerror=alert(1)>") 1 None None None in
  includes (EDIViewer.highlightSegmentHTML seg)
    (str "<img src=x onerror=alert(1)>") = true.
Proof.
  intros seg. apply markup_holds_text_unescaped; reflexivity.
Defined.

Example viewer_samples :
  EDIViewer.errorsByLine [] = EdgeFunction.TypeError
  /\ EDIViewer.errorsByLine (str "  " ++ newline ++ str " ")
     = EdgeFunction.TypeError
  /\ map fst
       (match EDIViewer.errorsByLine (str "ST*834" ++ newline ++ str "DTP*348")
        with
        | EdgeFunction.Normal m => m
        | EdgeFunction.TypeError => []
        end)
     = [1; 2]
  /\ EDIViewer.highlightSegmentHTML
       (mkSegment (str "ST") [str "ST"; str "834"] (str "ST*834") 1
          None None None)
     = str "<span class=" ++ [34%N] ++ str "edi-segment" ++ [34%N]
       ++ str ">ST</span><span class=" ++ [34%N] ++ str "edi-separator"
       ++ [34%N] ++ str ">*</span><span class=" ++ [34%N]
       ++ str "edi-number" ++ [34%N] ++ str ">834</span>".
Proof. repeat split; vm_compute; reflexivity. Qed.

(* ================================================================== *)
(** ** Further properties: the comparison of two files                  *)
(* ================================================================== *)

Lemma segment_map_get_set : forall m key value key',
  ComparisonView.map_get (ComparisonView.map_set m key value) key'
  = if eqb key key' then Some value else ComparisonView.map_get m key'.
Proof.
  induction m as [|[k v] m IH]; intros key value key'; simpl.
  - reflexivity.
  - destruct (eqb k key) eqn:E; simpl.
    + apply eqb_eq in E. subst k. destruct (eqb key key'); reflexivity.
    + destruct (eqb k key') eqn:E'.
      * apply eqb_eq in E'. subst k.
        destruct (eqb key key') eqn:E''; [|reflexivity].
        apply eqb_eq in E''. subst key'. rewrite eqb_refl in E. discriminate.
      * apply IH.
Qed.

(** The map built from a list of segments answers with the last segment
    that has the key. *)
Lemma index_fold_get : forall segs m key,
  ComparisonView.map_get
    (fold_left
       (fun m seg =>
          ComparisonView.map_set m (ComparisonView.segment_key seg) seg)
       segs m) key
  = match find (fun seg => eqb (ComparisonView.segment_key seg) key)
            (rev segs) with
    | Some seg => Some seg
    | None => ComparisonView.map_get m key
    end.
Proof.
  induction segs as [|seg segs IH]; intros m key.
  - reflexivity.
  - cbn [fold_left rev]. rewrite IH, find_snoc, segment_map_get_set.
    destruct (find _ (rev segs)); [reflexivity|].
    destruct (eqb (ComparisonView.segment_key seg) key); reflexivity.
Qed.

Lemma index_get : forall segs key,
  ComparisonView.map_get (ComparisonView.index_segments segs) key
  = find (fun seg => eqb (ComparisonView.segment_key seg) key) (rev segs).
Proof.
  intros segs key. unfold ComparisonView.index_segments.
  rewrite index_fold_get. destruct (find _ (rev segs)); reflexivity.
Qed.

Lemma keys_get : forall m key,
  In key (ComparisonView.keys m) <-> ComparisonView.map_get m key <> None.
Proof.
  induction m as [|[k v] m IH]; intros key; simpl.
  - split; [contradiction|congruence].
  - destruct (eqb k key) eqn:E.
    + apply eqb_eq in E. split; [discriminate|intros _; left; exact E].
    + rewrite <- IH. split; [intros [H|H]; [|exact H]|intros H; right; exact H].
      subst k. rewrite eqb_refl in E. discriminate.
Qed.

Lemma set_fold_In : forall arr s x,
  In x (fold_left
          (fun s x => if array_includes s x then s else s ++ [x]) arr s)
  <-> In x s \/ In x arr.
Proof.
  induction arr as [|y arr IH]; intros s x; cbn [fold_left].
  - simpl. tauto.
  - rewrite IH. destruct (array_includes s y) eqn:E.
    + unfold array_includes in E. apply existsb_exists in E.
      destruct E as (z & Hz & Ez). apply eqb_eq in Ez. subst z.
      simpl. split; [tauto|]. intros [H|[H|H]]; subst; tauto.
    + rewrite in_app_iff. simpl. tauto.
Qed.

Lemma set_of_In : forall arr x,
  In x (ComparisonView.set_of arr) <-> In x arr.
Proof.
  intros arr x. unfold ComparisonView.set_of. rewrite set_fold_In.
  simpl. tauto.
Qed.

(** The loop over the keys: it completes when each key is held by one of
    the maps, and it adds nothing exactly when both maps hold every key
    with the same joined elements. *)
Lemma diff_keys_spec : forall m1 m2 allKeys diffs,
  (forall key, In key allKeys ->
     ComparisonView.map_get m1 key <> None
     \/ ComparisonView.map_get m2 key <> None) ->
  exists more,
    ComparisonView.diff_keys m1 m2 allKeys diffs
    = EdgeFunction.Normal (diffs ++ more)
    /\ (more = [] <->
        forall key, In key allKeys ->
          exists seg1 seg2,
            ComparisonView.map_get m1 key = Some seg1
            /\ ComparisonView.map_get m2 key = Some seg2
            /\ ComparisonView.values seg1 = ComparisonView.values seg2).
Proof.
  intros m1 m2. induction allKeys as [|key allKeys IH]; intros diffs Hheld.
  - exists []. rewrite app_nil_r. split; [reflexivity|].
    split; [intros _ key []|reflexivity].
  - assert (Hrest : forall k, In k allKeys ->
              ComparisonView.map_get m1 k <> None
              \/ ComparisonView.map_get m2 k <> None).
    { intros k Hk. apply Hheld. right. exact Hk. }
    specialize (Hheld key (or_introl eq_refl)).
    cbn [ComparisonView.diff_keys]. unfold ComparisonView.diff_step.
    destruct (ComparisonView.map_get m1 key) as [seg1|] eqn:E1;
      destruct (ComparisonView.map_get m2 key) as [seg2|] eqn:E2.
    + destruct (eqb (ComparisonView.values seg1) (ComparisonView.values seg2))
        eqn:E; cbn [negb].
      * apply eqb_eq in E.
        destruct (IH diffs Hrest) as (more & Hrun & Hiff).
        exists more. split; [exact Hrun|]. rewrite Hiff. split.
        -- intros H k [<-|Hk]; [|apply H, Hk].
           exists seg1, seg2. repeat split; assumption.
        -- intros H k Hk. apply H. right. exact Hk.
      * destruct (IH (diffs ++ [ComparisonView.mkDiff key
                                  (ComparisonView.values seg1)
                                  (ComparisonView.values seg2)
                                  ComparisonView.modified]) Hrest)
          as (more & Hrun & _).
        eexists (_ :: more). rewrite Hrun, <- app_assoc.
        split; [reflexivity|]. split; [discriminate|].
        intros H. destruct (H key (or_introl eq_refl))
          as (a & b & Ha & Hb & Hab).
        rewrite E1 in Ha. rewrite E2 in Hb.
        injection Ha as <-. injection Hb as <-.
        rewrite Hab, eqb_refl in E. discriminate.
    + destruct (IH (diffs ++ [ComparisonView.mkDiff key
                                (ComparisonView.values seg1) []
                                ComparisonView.removed]) Hrest)
        as (more & Hrun & _).
      eexists (_ :: more). rewrite Hrun, <- app_assoc.
      split; [reflexivity|]. split; [discriminate|].
      intros H. destruct (H key (or_introl eq_refl))
        as (a & b & _ & Hb & _).
      rewrite E2 in Hb. discriminate.
    + destruct (IH (diffs ++ [ComparisonView.mkDiff key []
                                (ComparisonView.values seg2)
                                ComparisonView.added]) Hrest)
        as (more & Hrun & _).
      eexists (_ :: more). rewrite Hrun, <- app_assoc.
      split; [reflexivity|]. split; [discriminate|].
      intros H. destruct (H key (or_introl eq_refl))
        as (a & b & Ha & _ & _).
      rewrite E1 in Ha. discriminate.
    + destruct Hheld as [H|H]; contradiction.
Qed.

(** The digits of a line number determine it. *)
Lemma digits_fuel_number : forall fuel n acc,
  n < fuel ->
  exists ds,
    digits_fuel fuel n acc = ds ++ acc
    /\ forallb isDigit ds = true
    /\ forall v,
         fold_left (fun acc c => 10 * acc + (N.to_nat c - 48)) ds v
         = v * 10 ^ List.length ds + n.
Proof.
  induction fuel as [|fuel IH]; intros n acc H; [lia|].
  cbn [digits_fuel].
  assert (Hdigit : n mod 10 < 10) by (apply Nat.mod_upper_bound; lia).
  assert (Hchar : isDigit (48 + N.of_nat (n mod 10))%N = true
                  /\ N.to_nat (48 + N.of_nat (n mod 10)) - 48 = n mod 10).
  { split; [|lia]. unfold isDigit. apply andb_true_iff.
    split; apply N.leb_le; lia. }
  destruct Hchar as [Hchar Hvalue].
  destruct (Nat.ltb n 10) eqn:E.
  - apply Nat.ltb_lt in E. exists [(48 + N.of_nat (n mod 10))%N].
    split; [reflexivity|]. split; [cbn [forallb]; rewrite Hchar; reflexivity|].
    intros v. cbn [fold_left List.length]. rewrite Hvalue.
    rewrite Nat.mod_small by exact E. simpl. lia.
  - apply Nat.ltb_ge in E.
    assert (Hless : n / 10 < fuel).
    { pose proof (Nat.div_lt n 10). lia. }
    destruct (IH (n / 10) ((48 + N.of_nat (n mod 10))%N :: acc) Hless)
      as (ds & Hds & Hall & Hfold).
    exists (ds ++ [(48 + N.of_nat (n mod 10))%N]).
    split; [rewrite Hds, <- app_assoc; reflexivity|].
    split.
    + rewrite forallb_app, Hall. cbn [forallb]. rewrite Hchar. reflexivity.
    + intros v. rewrite fold_left_app, Hfold. cbn [fold_left].
      rewrite Hvalue, length_app. cbn [List.length].
      rewrite Nat.add_1_r, Nat.pow_succ_r'.
      pose proof (Nat.div_mod_eq n 10). nia.
Qed.

Lemma nat_to_string_number : forall n,
  digits_number (nat_to_string n) = n
  /\ forallb isDigit (nat_to_string n) = true.
Proof.
  intros n. unfold nat_to_string, digits_number.
  destruct (@digits_fuel_number (S n) n [] (Nat.lt_succ_diag_r n))
    as (ds & -> & Hall & Hfold).
  rewrite app_nil_r. split; [|exact Hall]. rewrite Hfold. lia.
Qed.

(** A key is cut at its last underscore in one way only. *)
Lemma cut_at_last_underscore : forall t1 t2 d1 d2 : jsstring,
  forallb isDigit d1 = true -> forallb isDigit d2 = true ->
  t1 ++ 95%N :: d1 = t2 ++ 95%N :: d2 -> t1 = t2 /\ d1 = d2.
Proof.
  assert (Hno : forall (t d d' : jsstring),
            forallb isDigit d = true -> d <> t ++ 95%N :: d').
  { intros t d d' Hd E. rewrite E, forallb_app in Hd.
    apply andb_true_iff in Hd. destruct Hd as [_ Hd]. discriminate. }
  induction t1 as [|c t1 IH]; intros [|c' t2] d1 d2 H1 H2 E; cbn [app] in E.
  - injection E as E. split; [reflexivity|exact E].
  - injection E as <- E. exfalso. exact (Hno _ _ _ H1 E).
  - injection E as -> E. exfalso. exact (Hno _ _ _ H2 (eq_sym E)).
  - injection E as <- E. destruct (IH t2 d1 d2 H1 H2 E) as [-> ->].
    split; reflexivity.
Qed.

Lemma segment_key_inj : forall a b,
  ComparisonView.segment_key a = ComparisonView.segment_key b ->
  tag a = tag b /\ lineNumber a = lineNumber b.
Proof.
  intros a b E. unfold ComparisonView.segment_key in E.
  destruct (nat_to_string_number (lineNumber a)) as [Ha Hda].
  destruct (nat_to_string_number (lineNumber b)) as [Hb Hdb].
  destruct (@cut_at_last_underscore (tag a) (tag b) _ _ Hda Hdb E) as [Ht Hd].
  split; [exact Ht|]. rewrite <- Ha, <- Hb, Hd. reflexivity.
Qed.

(** In a numbered list a key is held by one segment, and the map finds
    it. *)
Lemma numbered_get : forall segs i seg,
  numbered segs -> nth_error segs i = Some seg ->
  ComparisonView.map_get (ComparisonView.index_segments segs)
    (ComparisonView.segment_key seg) = Some seg.
Proof.
  intros segs i seg Hnum Hi. rewrite index_get.
  destruct (find _ (rev segs)) as [seg'|] eqn:E.
  - apply find_some in E. destruct E as [Hin Hkey].
    apply eqb_eq, segment_key_inj in Hkey. destruct Hkey as [_ Hline].
    apply in_rev, In_nth_error in Hin. destruct Hin as (j & Hj).
    rewrite (Hnum j seg' Hj), (Hnum i seg Hi) in Hline.
    assert (j = i) by lia. subst j. rewrite Hi in Hj. exact (eq_sym Hj).
  - assert (Hin : In seg (rev segs)).
    { apply -> in_rev. eapply nth_error_In. exact Hi. }
    pose proof (find_none _ _ E seg Hin) as Hnot. cbv beta in Hnot.
    rewrite eqb_refl in Hnot. discriminate.
Qed.

Lemma numbered_get_inv : forall segs key seg,
  ComparisonView.map_get (ComparisonView.index_segments segs) key = Some seg ->
  exists i,
    nth_error segs i = Some seg /\ ComparisonView.segment_key seg = key.
Proof.
  intros segs key seg H. rewrite index_get in H. apply find_some in H.
  destruct H as [Hin Hkey]. apply eqb_eq in Hkey.
  apply in_rev, In_nth_error in Hin. destruct Hin as (i & Hi).
  exists i. split; assumption.
Qed.

Lemma pushed_numbered : forall mk,
  (forall index line, lineNumber (mk index line) = index + 1) ->
  forall lines index i seg,
    forallb (fun line => truthy (trim line)) lines = true ->
    nth_error (pushed mk lines index) i = Some seg ->
    lineNumber seg = index + i + 1.
Proof.
  intros mk Hmk. induction lines as [|line lines IH];
    intros index i seg Hlines H; cbn [pushed] in H.
  - destruct i; discriminate.
  - cbn [forallb] in Hlines. apply andb_true_iff in Hlines.
    destruct Hlines as [Hline Hlines]. rewrite Hline in H. cbn [app] in H.
    destruct i as [|i]; cbn [nth_error] in H.
    + injection H as <-. rewrite Hmk. lia.
    + rewrite (IH (S index) i seg Hlines H). lia.
Qed.

Lemma tokenize_numbered : forall k content, numbered (tokenize k content).
Proof.
  intros k content i seg H.
  destruct (tokenize_pushed k content) as (mk & E & Hmk). rewrite E in H.
  apply (@pushed_numbered mk (fun index line => proj1 (proj2 (Hmk index line)))
           (retained_lines content) 0 i seg
           (retained_lines_nonblank content) H).
Qed.

(** The joined elements of a tokenized segment split into its elements
    again. *)
Lemma values_split : forall k content seg,
  In seg (tokenize k content) ->
  split_class (delimiter_of k) (ComparisonView.values seg) = elements seg.
Proof.
  intros k content seg H. apply tokenize_tag_inclusive in H.
  destruct H as [Hsplit Htag].
  pose proof (split_class_tokens_free (delimiter_of k) (raw seg)) as Hfree.
  rewrite <- Hsplit in Hfree. unfold ComparisonView.values.
  destruct (elements seg) as [|t ts]; [discriminate|].
  exact (split_star_open k ts t Hfree).
Qed.

(** The elements of a tokenized segment determine its tag and its joined
    elements, and the joined elements determine the elements. *)
Lemma tokenize_same_elements : forall k content1 content2 a b,
  In a (tokenize k content1) -> In b (tokenize k content2) ->
  (elements a = elements b -> tag a = tag b)
  /\ (ComparisonView.values a = ComparisonView.values b ->
      elements a = elements b).
Proof.
  intros k content1 content2 a b Ha Hb. split.
  - apply tokenize_tag_inclusive in Ha, Hb.
    destruct Ha as [_ Htag_a]. destruct Hb as [_ Htag_b].
    intros E. rewrite Htag_a, Htag_b in E. injection E as E _. exact E.
  - intros E. rewrite <- (values_split k content1 a Ha), E.
    apply (values_split k content2 b Hb).
Qed.

(** X28.  The comparison of two files completes, and it reports no segment
    difference exactly when the two files hold the same elements on the
    same retained lines: blank lines, white space around a line and the
    choice between [*] and [~] as separator are not differences. *)
Theorem comparison_silent_iff_same_elements : forall content1 content2,
  exists diffs,
    ComparisonView.segmentDiffs (EdiParser.parseEDIContent content1)
      (EdiParser.parseEDIContent content2)
    = EdgeFunction.Normal diffs
    /\ (diffs = [] <->
        map elements (tokenize LegacyParser content1)
        = map elements (tokenize LegacyParser content2)).
Proof.
  intros content1 content2. unfold ComparisonView.segmentDiffs.
  cbn [tokenize].
  set (segs1 := segments (EdiParser.parseEDIContent content1)).
  set (segs2 := segments (EdiParser.parseEDIContent content2)).
  assert (Hnum1 : numbered segs1) by apply (tokenize_numbered LegacyParser).
  assert (Hnum2 : numbered segs2) by apply (tokenize_numbered LegacyParser).
  assert (Hsame : forall a b, In a segs1 -> In b segs2 ->
            (elements a = elements b -> tag a = tag b)
            /\ (ComparisonView.values a = ComparisonView.values b ->
                elements a = elements b)).
  { intros a b Ha Hb.
    apply (@tokenize_same_elements LegacyParser content1 content2 a b Ha Hb). }
  assert (Hsame' : forall a b, In a segs1 -> In b segs2 ->
            (elements b = elements a -> tag b = tag a)
            /\ (ComparisonView.values b = ComparisonView.values a ->
                elements b = elements a)).
  { intros a b Ha Hb.
    apply (@tokenize_same_elements LegacyParser content2 content1 b a Hb Ha). }
  cbv zeta.
  set (m1 := ComparisonView.index_segments segs1).
  set (m2 := ComparisonView.index_segments segs2).
  destruct (@diff_keys_spec m1 m2
              (ComparisonView.set_of
                 (ComparisonView.keys m1 ++ ComparisonView.keys m2)) [])
    as (diffs & Hrun & Hiff).
  { intros key Hkey. apply set_of_In, in_app_or in Hkey.
    destruct Hkey as [H|H]; apply keys_get in H; [left|right]; exact H. }
  exists diffs. split; [exact Hrun|]. rewrite Hiff. clear Hrun Hiff.
  split.
  - intros H.
    assert (Hhalf : forall sa sb, numbered sa -> numbered sb ->
              (forall a b, In a sa -> In b sb ->
                 ComparisonView.values a = ComparisonView.values b ->
                 elements a = elements b) ->
              (forall a, In a sa ->
                 exists b,
                   ComparisonView.map_get (ComparisonView.index_segments sb)
                     (ComparisonView.segment_key a) = Some b
                   /\ ComparisonView.values a = ComparisonView.values b) ->
              forall i a, nth_error sa i = Some a ->
                exists b, nth_error sb i = Some b
                          /\ elements a = elements b).
    { intros sa sb Hna Hnb Hinj Hfound i a Hi.
      destruct (Hfound a (nth_error_In _ _ Hi)) as (b & Hget & Hvalues).
      apply numbered_get_inv in Hget. destruct Hget as (j & Hj & Hkey).
      apply segment_key_inj in Hkey. destruct Hkey as [_ Hline].
      rewrite (Hnb j b Hj), (Hna i a Hi) in Hline.
      assert (j = i) by lia. subst j.
      exists b. split; [exact Hj|].
      apply Hinj; [eapply nth_error_In; exact Hi
                  |eapply nth_error_In; exact Hj|exact Hvalues]. }
    assert (H12 : forall i a, nth_error segs1 i = Some a ->
              exists b, nth_error segs2 i = Some b
                        /\ elements a = elements b).
    { apply Hhalf; try assumption.
      - intros a b Ha Hb. apply (Hsame a b Ha Hb).
      - intros a Ha. destruct (In_nth_error _ _ Ha) as (i & Hi).
        destruct (H (ComparisonView.segment_key a)) as (s1 & s2 & E1 & E2 & E).
        + apply set_of_In, in_or_app. left. apply keys_get.
          unfold m1. rewrite (@numbered_get _ _ _ Hnum1 Hi). discriminate.
        + unfold m1 in E1. rewrite (@numbered_get _ _ _ Hnum1 Hi) in E1.
          injection E1 as <-. exists s2. split; [exact E2|exact E]. }
    assert (H21 : forall i b, nth_error segs2 i = Some b ->
              exists a, nth_error segs1 i = Some a
                        /\ elements b = elements a).
    { apply Hhalf; try assumption.
      - intros b a Hb Ha. apply (Hsame' a b Ha Hb).
      - intros b Hb. destruct (In_nth_error _ _ Hb) as (i & Hi).
        destruct (H (ComparisonView.segment_key b)) as (s1 & s2 & E1 & E2 & E).
        + apply set_of_In, in_or_app. right. apply keys_get.
          unfold m2. rewrite (@numbered_get _ _ _ Hnum2 Hi). discriminate.
        + unfold m2 in E2. rewrite (@numbered_get _ _ _ Hnum2 Hi) in E2.
          injection E2 as <-. exists s1. split; [exact E1|exact (eq_sym E)]. }
    apply nth_error_ext. intros i. rewrite !nth_error_map.
    destruct (nth_error segs1 i) as [a|] eqn:Ea.
    + destruct (H12 i a Ea) as (b & -> & E). cbn [option_map]. rewrite E.
      reflexivity.
    + destruct (nth_error segs2 i) as [b|] eqn:Eb; [|reflexivity].
      destruct (H21 i b Eb) as (a & Ha & _). rewrite Ha in Ea. discriminate.
  - intros Hmap key Hkey.
    assert (Hat : forall i,
              option_map elements (nth_error segs1 i)
              = option_map elements (nth_error segs2 i)).
    { intros i. rewrite <- !nth_error_map, Hmap. reflexivity. }
    assert (Hpair : forall i a b,
              nth_error segs1 i = Some a -> nth_error segs2 i = Some b ->
              ComparisonView.segment_key a = ComparisonView.segment_key b
              /\ ComparisonView.values a = ComparisonView.values b).
    { intros i a b Ha Hb. specialize (Hat i). rewrite Ha, Hb in Hat.
      cbn [option_map] in Hat. injection Hat as Hel.
      destruct (Hsame a b (nth_error_In _ _ Ha) (nth_error_In _ _ Hb))
        as [Htag _].
      unfold ComparisonView.segment_key, ComparisonView.values.
      rewrite (Htag Hel), (Hnum1 i a Ha), (Hnum2 i b Hb), Hel.
      split; reflexivity. }
    apply set_of_In, in_app_or in Hkey. destruct Hkey as [Hkey|Hkey];
      apply keys_get in Hkey.
    + destruct (ComparisonView.map_get m1 key) as [a|] eqn:E1;
        [|contradiction].
      destruct (@numbered_get_inv segs1 key a E1) as (i & Hi & <-).
      pose proof (Hat i) as Hi'. rewrite Hi in Hi'.
      destruct (nth_error segs2 i) as [b|] eqn:Hb; [|discriminate].
      destruct (Hpair i a b Hi Hb) as [Hk Hv].
      exists a, b. split; [reflexivity|]. split; [|exact Hv].
      rewrite Hk. apply (@numbered_get _ _ _ Hnum2 Hb).
    + destruct (ComparisonView.map_get m2 key) as [b|] eqn:E2;
        [|contradiction].
      destruct (@numbered_get_inv segs2 key b E2) as (i & Hi & <-).
      pose proof (Hat i) as Hi'. rewrite Hi in Hi'.
      destruct (nth_error segs1 i) as [a|] eqn:Ha; [|discriminate].
      destruct (Hpair i a b Ha Hi) as [Hk Hv].
      exists a, b. split; [|split; [reflexivity|exact Hv]].
      rewrite <- Hk. apply (@numbered_get _ _ _ Hnum1 Ha).
Qed.

(** Two files that differ in blank lines, white space and separators are
    reported as equal; a line put before the first shifts every key, so
    each segment of either file is reported. *)
Example comparison_samples :
  ComparisonView.segmentDiffs
    (EdiParser.parseEDIContent (str "ST*834*1" ++ newline ++ str "SE*1"))
    (EdiParser.parseEDIContent
       (str "  ST~834~1 " ++ newline ++ newline ++ str "SE*1"))
  = EdgeFunction.Normal []
  /\ match ComparisonView.segmentDiffs
             (EdiParser.parseEDIContent
                (str "ISA*00" ++ newline ++ str "ST*834"))
             (EdiParser.parseEDIContent (str "ST*834")) with
     | EdgeFunction.Normal diffs =>
         map (fun d => (ComparisonView.segment d, ComparisonView.diff_type d))
           diffs
         = [(str "ISA_1", ComparisonView.removed);
            (str "ST_2", ComparisonView.removed);
            (str "ST_1", ComparisonView.added)]
     | EdgeFunction.TypeError => False
     end.
Proof. split; vm_compute; reflexivity. Qed.

(* ================================================================== *)
(** ** Positional fields and the declared type                          *)
(* ================================================================== *)

Lemma split_class_fields : forall k raw,
  split_class (delimiter_of k) raw
  = flat_map (split_class (delimiter_of k)) (x12_fields raw)
    ++ (if closed raw then [[]] else []).
Proof.
  intros k raw. unfold x12_fields, without_terminator, closed.
  destruct (rev raw) as [|c rest] eqn:E.
  - rewrite app_nil_r.
    exact (split_class_refines (delimiter_of k) raw (delimiter_of_asterisk k)).
  - destruct (N.eqb c 126) eqn:Ec.
    + apply N.eqb_eq in Ec. subst c.
      assert (Hraw : raw = rev rest ++ [126%N]).
      { rewrite <- (rev_involutive raw), E. reflexivity. }
      rewrite Hraw at 1.
      etransitivity;
        [exact (split_class_snoc (delimiter_of k) (rev rest) 126%N
                  (delimiter_of_tilde k))|].
      f_equal.
      exact (split_class_refines (delimiter_of k) (rev rest)
               (delimiter_of_asterisk k)).
    + rewrite app_nil_r.
      exact (split_class_refines (delimiter_of k) raw
               (delimiter_of_asterisk k)).
Qed.

(** C10.  The first half holds: for every segment of either tokenizer
    [elements] is not empty and its element 0 is the tag.  The second half
    holds only up to the first field that holds a delimiter of the
    tokenizer: [elements] is the array of the X12 fields of the line, each
    split again at the delimiters of the class, so field [n] stands at
    element [n] when no field up to [n] holds one.  The class of the universal
    parser holds the caret, which is field 11 of the [ISA] line of the
    repository's sample file and of any interchange of version 00501: there
    the fields from 12 on stand one element later, element 13 is the version
    [00501] and not the control number [000000001], and the parser's own
    reads (control number from element 13, version from element 12, test
    indicator from element 15) and the header of [convertEDIToJSON] take the
    wrong fields, where the legacy parser takes the right ones. *)
Theorem caret_shifts_positional_fields :
  (forall k content,
     Forall
       (fun seg =>
          elements seg <> []
          /\ element seg 0 = Some (tag seg)
          /\ elements seg
             = flat_map (split_class (delimiter_of k)) (x12_fields (raw seg))
               ++ (if closed (raw seg) then [[]] else [])
          /\ forall n,
               n < List.length (x12_fields (raw seg)) ->
               forallb (delimiter_free (delimiter_of k))
                 (firstn (S n) (x12_fields (raw seg))) = true ->
               element seg n = nth_error (x12_fields (raw seg)) n)
       (tokenize k content))
  /\ (let content := repository_isa_text ++ str "~" in
      let universal := Universal.parseEDIContent content in
      let legacy := EdiParser.parseEDIContent content in
      (nth_error (x12_fields content) 11, nth_error (x12_fields content) 12,
       nth_error (x12_fields content) 13, nth_error (x12_fields content) 15)
      = (Some (str "^"), Some (str "00501"), Some (str "000000001"),
         Some (str "P"))
      /\ map (fun seg => element seg 13) (segments legacy)
         = [Some (str "000000001")]
      /\ controlNumber (metadata legacy) = str "000000001"
      /\ map (fun seg => (element seg 13, element seg 14)) (segments universal)
         = [(Some (str "00501"), Some (str "000000001"))]
      /\ (controlNumber (metadata universal), version (metadata universal),
          testIndicator (metadata universal))
         = (str "00501", [], str "0")
      /\ (let isa := Extract.header_isa (segments universal) in
          (Isa.controlVersion isa, Isa.controlNumber isa, Isa.testIndicator isa)
          = (Some [], Some (str "00501"), Some (str "0")))).
Proof.
  split.
  - intros k content. apply Forall_of_In. intros seg H.
    destruct (tokenize_tag_inclusive k content seg H) as [Hsplit Hhead].
    unfold element, at_index. split; [rewrite Hhead; discriminate|].
    split; [rewrite Hhead; reflexivity|].
    assert (Hfields : elements seg
                      = flat_map (split_class (delimiter_of k))
                          (x12_fields (raw seg))
                        ++ (if closed (raw seg) then [[]] else [])).
    { rewrite Hsplit. apply split_class_fields. }
    split; [exact Hfields|].
    intros n Hn Hplain. rewrite Hfields.
    apply plain_tokens_stay; assumption.
  - cbv zeta. repeat split; vm_compute; reflexivity.
Qed.





